(** * Network reconciliation and beaconing of MAAS: a shallow embedding

    The development follows [src/metadataserver/builtin_scripts/network.py]
    (the interface and link reconciler) function by function, over an
    explicit model of the rows the Django ORM keeps for it, and the beaconing
    socket protocol as far as its tests in
    [src/provisioningserver/utils/tests/test_services.py] and the
    specification describe it. *)

From Stdlib Require Import String Ascii Bool Arith PeanoNat ZArith Lia List.
From Stdlib Require Import Permutation Sorted Relations ListDec.
Import ListNotations.

Set Implicit Arguments.

(** * Part I: dependency ordering ([sorttop], [sorted], [flatten]) *)

(** The exceptions the reconciler can leave through. *)
Inductive exn : Type :=
| CircularDependency
| KeyError (key : string)
| IndexError
| AttributeError (what : string)
| DoesNotExist (model : string)
| MultipleObjectsReturned (model : string)
| DatabaseError (what : string)
| ValueError (msg : string).

Inductive result (A : Type) : Type :=
| Ok (a : A)
| Raise (e : exn).
Arguments Ok {A} a.
Arguments Raise {A} e.

Section Sorttop.
Variable K : Type.
Variable eqb : K -> K -> bool.
Hypothesis eqb_spec : forall x y, reflect (x = y) (eqb x y).
Variable leb : K -> K -> bool.

(** A Python dict [thing -> dependencies], in insertion order. *)
Definition graph : Type := list (K * list K).

Definition mem (x : K) (l : list K) : bool := existsb (eqb x) l.

Fixpoint dedup (l : list K) : list K :=
  match l with
  | [] => []
  | x :: r => if mem x r then dedup r else x :: dedup r
  end.

Definition keys (data : graph) : list K := map fst data.

(** Modelled from the spec: [provisioningserver.utils.sorttop] is not under
    src/.  It yields the things level by level: each batch is the set of
    things none of whose dependencies is still pending; a dependency of a
    thing on itself is discarded, a dependency that is no thing of its own
    is added as one without dependencies, and when things remain but none
    is free of dependencies the dependencies are circular.  [prepare] is
    the set-up, [skim] the loop; its fuel is the number of things, which
    bounds the number of batches ([skim_fuel]). *)
Definition discard_self (data : graph) : graph :=
  map (fun e => (fst e, filter (fun d => negb (eqb d (fst e))) (snd e))) data.

Definition ghosts (data : graph) : list K :=
  dedup (filter (fun d => negb (mem d (keys data))) (concat (map snd data))).

Definition prepare (data : graph) : graph :=
  let data' := discard_self data in
  data' ++ map (fun g => (g, [])) (ghosts data').

Definition no_deps (e : K * list K) : bool :=
  match snd e with [] => true | _ :: _ => false end.

Definition batch_of (data : graph) : list K :=
  keys (filter no_deps data).

Definition strike (batch : list K) (data : graph) : graph :=
  map (fun e => (fst e, filter (fun d => negb (mem d batch)) (snd e)))
      (filter (fun e => negb (mem (fst e) batch)) data).

Fixpoint skim (fuel : nat) (data : graph) : option (result (list (list K))) :=
  match data with
  | [] => Some (Ok [])
  | _ :: _ =>
      match batch_of data with
      | [] => Some (Raise CircularDependency)
      | batch =>
          match fuel with
          | 0 => None
          | S fuel' =>
              match skim fuel' (strike batch data) with
              | Some (Ok rest) => Some (Ok (batch :: rest))
              | other => other
              end
          end
      end
  end.

Definition sorttop (data : graph) : result (list (list K)) :=
  let data' := prepare data in
  match skim (length data') data' with
  | Some r => r
  | None => Raise CircularDependency
  end.

(** [sorted(list(items))]: insertion into an ascending list. *)
Fixpoint insert_sorted (x : K) (l : list K) : list K :=
  match l with
  | [] => [x]
  | y :: r => if leb x y then x :: l else y :: insert_sorted x r
  end.

Definition sorted (l : list K) : list K := fold_right insert_sorted [] l.

(** Modelled from the spec: [provisioningserver.utils.flatten] is not under
    src/; on a list of lists of leaves it is their concatenation. *)
Definition flatten (ll : list (list K)) : list K := concat ll.

(** The order both passes of [update_node_interfaces] walk:
    [flatten([sorted(list(items)) for items in sorttop(data)])]. *)
Definition sorted_order (data : graph) : result (list K) :=
  match sorttop data with
  | Ok batches => Ok (flatten (map sorted batches))
  | Raise e => Raise e
  end.

(** [before x y l]: [x] occurs in [l] at a position strictly before one
    of [y]. *)
Definition before (x y : K) (l : list K) : Prop :=
  exists l1 l2 l3, l = l1 ++ x :: l2 ++ y :: l3.

(** [p] is a declared dependency (parent) of [n]. *)
Definition depends (data : graph) (n p : K) : Prop :=
  exists ps, In (n, ps) data /\ In p ps.

Definition acyclic (data : graph) : Prop :=
  forall n, ~ clos_trans K (fun a b => depends data b a) n n.

End Sorttop.

(** * Part II: the rows of the model store *)

Module INTERFACE_TYPE.
Inductive t : Type := PHYSICAL | BOND | BRIDGE | VLAN.
Definition eqb (a b : t) : bool :=
  match a, b with
  | PHYSICAL, PHYSICAL | BOND, BOND | BRIDGE, BRIDGE | VLAN, VLAN => true
  | _, _ => false
  end.
End INTERFACE_TYPE.

Module IPADDRESS_TYPE.
Inductive t : Type := STICKY | DHCP | DISCOVERED.
Definition eqb (a b : t) : bool :=
  match a, b with
  | STICKY, STICKY | DHCP, DHCP | DISCOVERED, DISCOVERED => true
  | _, _ => false
  end.
End IPADDRESS_TYPE.

(** [netaddr.IPAddress] and [netaddr.IPNetwork], by value: an address is its
    version and number, a network an address and a prefix length.  A link's
    ["address"] and ["gateway"] strings are kept in this parsed form. *)
Record IPAddress : Type := mkIPAddress { ip_version : Z; ip_value : Z }.
Record IPNetwork : Type := mkIPNetwork { net_ip : IPAddress; net_prefixlen : Z }.

Definition ip_width (version : Z) : Z := if Z.eqb version 4 then 32 else 128.

Definition IPAddress_eqb (a b : IPAddress) : bool :=
  Z.eqb (ip_version a) (ip_version b) && Z.eqb (ip_value a) (ip_value b).

Definition IPNetwork_eqb (a b : IPNetwork) : bool :=
  IPAddress_eqb (net_ip a) (net_ip b) && Z.eqb (net_prefixlen a) (net_prefixlen b).

Definition host_bits (n : IPNetwork) : Z :=
  ip_width (ip_version (net_ip n)) - net_prefixlen n.

(** [IPNetwork(...).cidr]: the network with the host bits cleared. *)
Definition cidr (n : IPNetwork) : IPNetwork :=
  mkIPNetwork
    (mkIPAddress (ip_version (net_ip n))
                 (Z.shiftl (Z.shiftr (ip_value (net_ip n)) (host_bits n)) (host_bits n)))
    (net_prefixlen n).

(** [IPAddress(a) in network]. *)
Definition ip_in_network (a : IPAddress) (n : IPNetwork) : bool :=
  Z.eqb (ip_version a) (ip_version (net_ip n))
  && Z.eqb (Z.shiftr (ip_value a) (host_bits n))
           (Z.shiftr (ip_value (net_ip n)) (host_bits n)).

Record Fabric : Type := mkFabric { fabric_id : nat }.

Record VLAN : Type := mkVLAN {
  vlan_id : nat;
  vlan_vid : nat;
  vlan_fabric_id : nat
}.

Record Subnet : Type := mkSubnet {
  subnet_id : nat;
  subnet_cidr : IPNetwork;
  subnet_name : IPNetwork;
  subnet_vlan_id : nat;
  subnet_gateway_ip : option IPAddress
}.

Record StaticIPAddress : Type := mkStaticIPAddress {
  sip_id : nat;
  sip_alloc_type : IPADDRESS_TYPE.t;
  sip_ip : option IPAddress;
  sip_subnet_id : option nat
}.

Record Interface : Type := mkInterface {
  if_id : nat;
  if_type : INTERFACE_TYPE.t;
  if_name : string;
  if_mac_address : string;
  if_node_id : nat;
  if_vlan_id : option nat;
  if_enabled : bool;
  if_acquired : bool;
  if_parents : list nat
}.

Record Node : Type := mkNode {
  node_id : nat;
  node_hostname : string;
  node_boot_interface_id : option nat
}.

(** The tables; [links] is the many-to-many table between interfaces and
    addresses, one pair [(interface id, address id)] per link. *)
Record Store : Type := mkStore {
  fabrics : list Fabric;
  vlans : list VLAN;
  subnets : list Subnet;
  addresses : list StaticIPAddress;
  interfaces : list Interface;
  links : list (nat * nat);
  nodes : list Node;
  next_id : nat
}.

Inductive table : Type :=
| TFabric | TVLAN | TSubnet | TStaticIPAddress | TInterface | TNode.

(** What reaches the database as a write. *)
Inductive write : Type :=
| Insert (t : table) (id : nat)
| Update (t : table) (id : nat)
| Delete (t : table) (id : nat)
| Link (interface address : nat)
| Unlink (interface address : nat).

(** What [maaslog.error] receives, by call site. *)
Inductive log_record : Type :=
| SubnetNotOnVlan (ip : IPAddress) (ifname : string) (hostname : string) (subnet : nat)
| ParentNotOnSameFabric (parent : string) (hostname : string) (ifname : string)
| VlanReportMismatch (ifname : string) (vid links_vid : nat).

Record State : Type := mkState {
  db : Store;
  writes : list write;
  maaslog : list log_record
}.

(** ** State and exceptions *)

Definition M (A : Type) : Type := State -> result A * State.

Definition ret {A : Type} (a : A) : M A := fun s => (Ok a, s).

Definition bind {A B : Type} (m : M A) (f : A -> M B) : M B :=
  fun s => match m s with
           | (Ok a, s') => f a s'
           | (Raise e, s') => (Raise e, s')
           end.

Definition raise {A : Type} (e : exn) : M A := fun s => (Raise e, s).

Declare Scope orm_scope.
Delimit Scope orm_scope with orm.
Notation "x <- m ;; k" := (bind m (fun x => k))
  (at level 100, m at next level, right associativity) : orm_scope.
Notation "' p <- m ;; k" := (bind m (fun p => k))
  (at level 100, p pattern, m at next level, right associativity) : orm_scope.
Notation "m ;; k" := (bind m (fun _ => k))
  (at level 100, right associativity) : orm_scope.
Open Scope orm_scope.

Definition query {A : Type} (q : Store -> A) : M A := fun s => (Ok (q (db s)), s).

Definition query_result {A : Type} (q : Store -> result A) : M A :=
  fun s => (q (db s), s).

Definition lift {A : Type} (r : result A) : M A := fun s => (r, s).

Definition modify (f : Store -> Store) : M unit :=
  fun s => (Ok tt, mkState (f (db s)) (writes s) (maaslog s)).

Definition emit (w : write) : M unit :=
  fun s => (Ok tt, mkState (db s) (writes s ++ [w]) (maaslog s)).

Definition maaslog_error (r : log_record) : M unit :=
  fun s => (Ok tt, mkState (db s) (writes s) (maaslog s ++ [r])).

Definition when (b : bool) (m : M unit) : M unit := if b then m else ret tt.

(** [for x in l: acc = body(x, acc)]. *)
Fixpoint for_each {A S : Type} (l : list A) (body : A -> S -> M S) (acc : S) : M S :=
  match l with
  | [] => ret acc
  | x :: r => acc' <- body x acc ;; for_each r body acc'
  end.

(** [@transactional]: an exception rolls the tables back to where the
    transaction began; what was logged stays logged. *)
Definition transactional {A : Type} (m : M A) : M A :=
  fun s => match m s with
           | (Ok a, s') => (Ok a, s')
           | (Raise e, s') => (Raise e, mkState (db s) (writes s) (maaslog s'))
           end.

(** ** The ORM: queries *)

Definition set_fabrics (x : list Fabric) (d : Store) : Store :=
  mkStore x (vlans d) (subnets d) (addresses d) (interfaces d) (links d) (nodes d) (next_id d).
Definition set_vlans (x : list VLAN) (d : Store) : Store :=
  mkStore (fabrics d) x (subnets d) (addresses d) (interfaces d) (links d) (nodes d) (next_id d).
Definition set_subnets (x : list Subnet) (d : Store) : Store :=
  mkStore (fabrics d) (vlans d) x (addresses d) (interfaces d) (links d) (nodes d) (next_id d).
Definition set_addresses (x : list StaticIPAddress) (d : Store) : Store :=
  mkStore (fabrics d) (vlans d) (subnets d) x (interfaces d) (links d) (nodes d) (next_id d).
Definition set_interfaces (x : list Interface) (d : Store) : Store :=
  mkStore (fabrics d) (vlans d) (subnets d) (addresses d) x (links d) (nodes d) (next_id d).
Definition set_links (x : list (nat * nat)) (d : Store) : Store :=
  mkStore (fabrics d) (vlans d) (subnets d) (addresses d) (interfaces d) x (nodes d) (next_id d).
Definition set_nodes (x : list Node) (d : Store) : Store :=
  mkStore (fabrics d) (vlans d) (subnets d) (addresses d) (interfaces d) (links d) x (next_id d).
Definition set_next_id (x : nat) (d : Store) : Store :=
  mkStore (fabrics d) (vlans d) (subnets d) (addresses d) (interfaces d) (links d) (nodes d) x.

(** A new primary key. *)
Definition fresh_id : M nat :=
  fun s => (Ok (next_id (db s)),
            mkState (set_next_id (S (next_id (db s))) (db s)) (writes s) (maaslog s)).

(** [.first()]: the match with the least primary key. *)
Definition first_by {A : Type} (id : A -> nat) (l : list A) : option A :=
  fold_left (fun acc x =>
               match acc with
               | None => Some x
               | Some y => if id x <? id y then Some x else Some y
               end) l None.

(** [.get()]. *)
Definition exactly_one {A : Type} (model : string) (l : list A) : result A :=
  match l with
  | [] => Raise (DoesNotExist model)
  | [x] => Ok x
  | _ :: _ :: _ => Raise (MultipleObjectsReturned model)
  end.

Definition has_id {A : Type} (id : A -> nat) (k : nat) (l : list A) : bool :=
  existsb (fun y => id y =? k) l.

Definition find_id {A : Type} (id : A -> nat) (k : nat) (l : list A) : option A :=
  find (fun y => id y =? k) l.

Definition upsert {A : Type} (id : A -> nat) (x : A) (l : list A) : list A :=
  if has_id id (id x) l
  then map (fun y => if id y =? id x then x else y) l
  else l ++ [x].

Definition remove_id {A : Type} (id : A -> nat) (k : nat) (l : list A) : list A :=
  filter (fun y => negb (id y =? k)) l.

Definition option_nat_eqb (a b : option nat) : bool :=
  match a, b with
  | Some x, Some y => x =? y
  | None, None => true
  | _, _ => false
  end.

Definition linked (d : Store) (interface address : nat) : bool :=
  existsb (fun l => (fst l =? interface) && (snd l =? address)) (links d).

(** [interface.ip_addresses.all()]. *)
Definition ip_addresses_all (interface : nat) (d : Store) : list StaticIPAddress :=
  filter (fun a => linked d interface (sip_id a)) (addresses d).

(** [ip_address.interface_set.all()]. *)
Definition interface_set_all (address : nat) (d : Store) : list Interface :=
  filter (fun i => linked d (if_id i) address) (interfaces d).

(** [nic.parents.all()]: the parents the relationship rows of [nic] name,
    as far as their rows exist. *)
Definition parents_all (nic : nat) (d : Store) : list Interface :=
  match find_id if_id nic (interfaces d) with
  | Some row => filter (fun p => existsb (Nat.eqb (if_id p)) (if_parents row)) (interfaces d)
  | None => []
  end.

Definition is_type (t : INTERFACE_TYPE.t) (i : Interface) : bool :=
  INTERFACE_TYPE.eqb (if_type i) t.

(** ** The ORM: writes *)

Inductive ifield : Type := f_vlan | f_node | f_name | f_enabled.

Definition copy_field (src : Interface) (f : ifield) (row : Interface) : Interface :=
  match f with
  | f_vlan => mkInterface (if_id row) (if_type row) (if_name row) (if_mac_address row)
                (if_node_id row) (if_vlan_id src) (if_enabled row) (if_acquired row)
                (if_parents row)
  | f_node => mkInterface (if_id row) (if_type row) (if_name row) (if_mac_address row)
                (if_node_id src) (if_vlan_id row) (if_enabled row) (if_acquired row)
                (if_parents row)
  | f_name => mkInterface (if_id row) (if_type row) (if_name src) (if_mac_address row)
                (if_node_id row) (if_vlan_id row) (if_enabled row) (if_acquired row)
                (if_parents row)
  | f_enabled => mkInterface (if_id row) (if_type row) (if_name row) (if_mac_address row)
                (if_node_id row) (if_vlan_id row) (if_enabled src) (if_acquired row)
                (if_parents row)
  end.

Definition with_vlan (v : option nat) (i : Interface) : Interface :=
  mkInterface (if_id i) (if_type i) (if_name i) (if_mac_address i) (if_node_id i) v
    (if_enabled i) (if_acquired i) (if_parents i).
Definition with_node (n : nat) (i : Interface) : Interface :=
  mkInterface (if_id i) (if_type i) (if_name i) (if_mac_address i) n (if_vlan_id i)
    (if_enabled i) (if_acquired i) (if_parents i).
Definition with_name (n : string) (i : Interface) : Interface :=
  mkInterface (if_id i) (if_type i) n (if_mac_address i) (if_node_id i) (if_vlan_id i)
    (if_enabled i) (if_acquired i) (if_parents i).
Definition with_enabled (e : bool) (i : Interface) : Interface :=
  mkInterface (if_id i) (if_type i) (if_name i) (if_mac_address i) (if_node_id i) (if_vlan_id i)
    e (if_acquired i) (if_parents i).
Definition with_mac_parents (mac : string) (ps : list nat) (i : Interface) : Interface :=
  mkInterface (if_id i) (if_type i) (if_name i) mac (if_node_id i) (if_vlan_id i)
    (if_enabled i) (if_acquired i) ps.

(** [interface.save()]: all fields of the object are written to its row;
    an object without a row is inserted. *)
Definition Interface_save (i : Interface) : M unit :=
  present <- query (fun d => has_id if_id (if_id i) (interfaces d)) ;;
  modify (fun d => set_interfaces (upsert if_id i (interfaces d)) d) ;;
  emit (if present then Update TInterface (if_id i) else Insert TInterface (if_id i)).

(** [interface.save(update_fields=fields)]: only the named fields are
    written; Django raises [DatabaseError] when no row was affected. *)
Definition Interface_save_fields (i : Interface) (fields : list ifield) : M unit :=
  present <- query (fun d => has_id if_id (if_id i) (interfaces d)) ;;
  if present
  then modify (fun d => set_interfaces
                 (map (fun row => if if_id row =? if_id i
                                  then fold_right (copy_field i) row fields
                                  else row) (interfaces d)) d) ;;
       emit (Update TInterface (if_id i))
  else raise (DatabaseError "Save with update_fields did not affect any rows.").

(** Modelled from the spec: the [Interface] model and its deletion are not
    under src/.  Deleting an interface removes its row, its address links and
    the parent references other interfaces hold to it ("no dangling parent
    reference remains on any other interface"). *)
Definition drop_interface (k : nat) (d : Store) : Store :=
  set_links (filter (fun l => negb (fst l =? k)) (links d))
    (set_interfaces
       (map (fun row => with_mac_parents (if_mac_address row)
                          (filter (fun p => negb (p =? k)) (if_parents row)) row)
            (remove_id if_id k (interfaces d))) d).

Definition Interface_delete (k : nat) : M unit :=
  present <- query (fun d => has_id if_id k (interfaces d)) ;;
  when present (modify (drop_interface k) ;; emit (Delete TInterface k)).

(** Deleting an address removes its row and, by cascade, its links. *)
Definition drop_address (k : nat) (d : Store) : Store :=
  set_links (filter (fun l => negb (snd l =? k)) (links d))
    (set_addresses (remove_id sip_id k (addresses d)) d).

Definition StaticIPAddress_delete (k : nat) : M unit :=
  present <- query (fun d => has_id sip_id k (addresses d)) ;;
  when present (modify (drop_address k) ;; emit (Delete TStaticIPAddress k)).

(** [queryset.delete()]. *)
Definition delete_all {A : Type} (id : A -> nat) (del : nat -> M unit) (rows : list A)
    : M unit :=
  for_each rows (fun row _ => del (id row)) tt.

Definition StaticIPAddress_save (a : StaticIPAddress) : M unit :=
  present <- query (fun d => has_id sip_id (sip_id a) (addresses d)) ;;
  modify (fun d => set_addresses (upsert sip_id a (addresses d)) d) ;;
  emit (if present then Update TStaticIPAddress (sip_id a)
        else Insert TStaticIPAddress (sip_id a)).

(** [StaticIPAddress.objects.create(...)]. *)
Definition StaticIPAddress_create (alloc_type : IPADDRESS_TYPE.t) (ip : option IPAddress)
    (subnet : option nat) : M StaticIPAddress :=
  k <- fresh_id ;;
  let a := mkStaticIPAddress k alloc_type ip subnet in
  StaticIPAddress_save a ;;
  ret a.

Definition sip_ip_is (ip : IPAddress) (a : StaticIPAddress) : bool :=
  match sip_ip a with
  | Some x => IPAddress_eqb x ip
  | None => false
  end.

(** [StaticIPAddress.objects.get_or_create(ip=ip, defaults={alloc_type, subnet})]. *)
Definition StaticIPAddress_get_or_create (ip : IPAddress) (alloc_type : IPADDRESS_TYPE.t)
    (subnet : nat) : M (StaticIPAddress * bool) :=
  found <- query (fun d => filter (sip_ip_is ip) (addresses d)) ;;
  match found with
  | [] => a <- StaticIPAddress_create alloc_type (Some ip) (Some subnet) ;; ret (a, true)
  | [a] => ret (a, false)
  | _ :: _ :: _ => raise (MultipleObjectsReturned "StaticIPAddress")
  end.

(** [StaticIPAddress.objects.update_or_create(ip=ip, defaults={alloc_type, subnet})]. *)
Definition StaticIPAddress_update_or_create (ip : IPAddress) (alloc_type : IPADDRESS_TYPE.t)
    (subnet : nat) : M (StaticIPAddress * bool) :=
  found <- query (fun d => filter (sip_ip_is ip) (addresses d)) ;;
  match found with
  | [] => a <- StaticIPAddress_create alloc_type (Some ip) (Some subnet) ;; ret (a, true)
  | [a] =>
      let a' := mkStaticIPAddress (sip_id a) alloc_type (sip_ip a) (Some subnet) in
      StaticIPAddress_save a' ;; ret (a', false)
  | _ :: _ :: _ => raise (MultipleObjectsReturned "StaticIPAddress")
  end.

(** [interface.ip_addresses.add(address)]: a link that is there already is
    not written again. *)
Definition ip_addresses_add (interface address : nat) : M unit :=
  present <- query (fun d => linked d interface address) ;;
  when (negb present)
       (modify (fun d => set_links (links d ++ [(interface, address)]) d) ;;
        emit (Link interface address)).

(** [interface.ip_addresses.remove(address)]. *)
Definition ip_addresses_remove (interface address : nat) : M unit :=
  present <- query (fun d => linked d interface address) ;;
  when present
       (modify (fun d => set_links
                  (filter (fun l => negb ((fst l =? interface) && (snd l =? address)))
                          (links d)) d) ;;
        emit (Unlink interface address)).

(** Modelled from the spec: [Interface.unlink_ip_address] is not under src/;
    "any previously-linked address not re-declared by this pass is unlinked
    from the interface". *)
Definition unlink_ip_address (interface : Interface) (address : StaticIPAddress) : M unit :=
  ip_addresses_remove (if_id interface) (sip_id address).

Definition Subnet_save (s : Subnet) : M unit :=
  present <- query (fun d => has_id subnet_id (subnet_id s) (subnets d)) ;;
  modify (fun d => set_subnets (upsert subnet_id s (subnets d)) d) ;;
  emit (if present then Update TSubnet (subnet_id s) else Insert TSubnet (subnet_id s)).

(** [Subnet.objects.get_or_create(cidr=cidr, defaults={name: cidr, vlan})]. *)
Definition Subnet_get_or_create (c : IPNetwork) (vlan : nat) : M (Subnet * bool) :=
  found <- query (fun d => filter (fun s => IPNetwork_eqb (subnet_cidr s) c) (subnets d)) ;;
  match found with
  | [] =>
      k <- fresh_id ;;
      let s := mkSubnet k c c vlan None in
      Subnet_save s ;; ret (s, true)
  | [s] => ret (s, false)
  | _ :: _ :: _ => raise (MultipleObjectsReturned "Subnet")
  end.

Definition VLAN_insert (v : VLAN) : M unit :=
  modify (fun d => set_vlans (vlans d ++ [v]) d) ;; emit (Insert TVLAN (vlan_id v)).

(** [VLAN.objects.get_or_create(fabric=fabric, vid=vid)]. *)
Definition VLAN_get_or_create (fabric vid : nat) : M (VLAN * bool) :=
  found <- query (fun d => filter (fun v => (vlan_fabric_id v =? fabric) && (vlan_vid v =? vid))
                                  (vlans d)) ;;
  match found with
  | [] =>
      k <- fresh_id ;;
      let v := mkVLAN k vid fabric in
      VLAN_insert v ;; ret (v, true)
  | [v] => ret (v, false)
  | _ :: _ :: _ => raise (MultipleObjectsReturned "VLAN")
  end.

(** Modelled from the spec: the [Fabric] model is not under src/; "a Fabric
    always has a default VLAN", so creating a fabric creates its untagged
    VLAN with it, and [fabric.get_default_vlan()] is the fabric's VLAN with
    the least id. *)
Definition Fabric_insert (k : nat) : M Fabric :=
  let f := mkFabric k in
  modify (fun d => set_fabrics (fabrics d ++ [f]) d) ;;
  emit (Insert TFabric k) ;;
  v <- fresh_id ;;
  VLAN_insert (mkVLAN v 0 k) ;;
  ret f.

Definition Fabric_create : M Fabric :=
  k <- fresh_id ;; Fabric_insert k.

Definition Fabric_get_default_vlan (fabric : nat) : M VLAN :=
  found <- query (fun d => first_by vlan_id
                             (filter (fun v => vlan_fabric_id v =? fabric) (vlans d))) ;;
  match found with
  | Some v => ret v
  | None => raise IndexError
  end.

(** Modelled from the spec: [VLAN.objects.get_default_vlan] is not under
    src/; it is "the default VLAN of the default Fabric".  The default fabric
    is the one with id 0, created when it is asked for and not there. *)
Definition VLAN_get_default_vlan : M VLAN :=
  present <- query (fun d => has_id fabric_id 0 (fabrics d)) ;;
  when (negb present) (Fabric_insert 0 ;; ret tt) ;;
  Fabric_get_default_vlan 0.

(** Modelled from the spec: [Fabric.delete] is not under src/ and the spec
    does not describe it; the fabric's row goes, and its VLANs by cascade. *)
Definition Fabric_delete (k : nat) : M unit :=
  present <- query (fun d => has_id fabric_id k (fabrics d)) ;;
  when present
       (modify (fun d => set_vlans (filter (fun v => negb (vlan_fabric_id v =? k)) (vlans d))
                           (set_fabrics (remove_id fabric_id k (fabrics d)) d)) ;;
        emit (Delete TFabric k)).

Definition Node_save (n : Node) : M unit :=
  present <- query (fun d => has_id node_id (node_id n) (nodes d)) ;;
  modify (fun d => set_nodes (upsert node_id n (nodes d)) d) ;;
  emit (if present then Update TNode (node_id n) else Insert TNode (node_id n)).

(** * Part III: [metadataserver/builtin_scripts/network.py] *)

(** The desired state the rack sends: one [config] per interface name, each
    with its [link]s; and the topology hints of the beaconing. *)
Record link : Type := mkLink {
  link_mode : string;
  link_address : option IPNetwork;
  link_gateway : option IPAddress
}.

Record config : Type := mkConfig {
  config_type : string;
  config_parents : list string;
  config_mac_address : string;
  config_enabled : bool;
  config_links : list link;
  config_vid : option nat
}.

Record hint : Type := mkHint {
  hint_ifname : option string;
  hint_vid : option nat;
  hint_hint : option string;
  hint_related_ifname : option string;
  hint_related_vid : option nat;
  hint_related_mac : option string
}.

Definition option_string_is (o : option string) (s : string) : bool :=
  match o with
  | Some x => String.eqb x s
  | None => false
  end.

Definition is_none {A : Type} (o : option A) : bool :=
  match o with
  | Some _ => false
  | None => true
  end.

Definition is_alloc_type (t : IPADDRESS_TYPE.t) (a : StaticIPAddress) : bool :=
  IPADDRESS_TYPE.eqb t (sip_alloc_type a).

(** [list.remove(x)]: the first element equal to [x] (same primary key). *)
Fixpoint remove_first (k : nat) (l : list StaticIPAddress) : list StaticIPAddress :=
  match l with
  | [] => []
  | a :: r => if sip_id a =? k then r else a :: remove_first k r
  end.

(** [set.add(x)] on a set of model objects, which are equal when their
    primary keys are.  The elements are kept in the order in which they were
    added; Python iterates a set in the order of its hash table. *)
Definition set_add (a : StaticIPAddress) (s : list StaticIPAddress) : list StaticIPAddress :=
  if has_id sip_id (sip_id a) s then s else s ++ [a].

Definition find_related_interface (d : Store) (node : Node) (own_interface : bool)
    (related_ifname : option string) (related_mac : option string) : option Interface :=
  let filter_args (i : Interface) : bool :=
    match related_mac with
    | Some mac => String.eqb (if_mac_address i) mac
    | None => true
    end
    && (if own_interface then if_node_id i =? node_id node else true) in
  let related_interface :=
    first_by if_id (filter (fun i => is_type INTERFACE_TYPE.PHYSICAL i && filter_args i)
                           (interfaces d)) in
  match related_interface, related_mac with
  | None, Some _ =>
      first_by if_id
        (filter (fun i => is_type INTERFACE_TYPE.BRIDGE i && filter_args i
                          && option_string_is related_ifname (if_name i))
                (interfaces d))
  | _, _ => related_interface
  end.

Definition relevant_hint (ifname : string) (h : hint) : bool :=
  option_string_is (hint_ifname h) ifname
  && is_none (hint_vid h)
  && is_none (hint_related_vid h).

Definition hint_type_in (h : hint) (kinds : list string) : bool :=
  match hint_hint h with
  | Some k => existsb (String.eqb k) kinds
  | None => false
  end.

(** The loop of [guess_vlan_from_hints]; [related_interface] is the loop's
    variable of that name, which an iteration that matches no branch leaves
    as the iteration before set it. *)
Fixpoint guess_vlan_from_hints_loop (d : Store) (node : Node)
    (related_interface : option Interface) (relevant_hints : list hint) : option nat :=
  match relevant_hints with
  | [] => None
  | h :: rest =>
      let related_interface :=
        if hint_type_in h ["on_remote_network"; "routable_to"]%string
           && negb (is_none (hint_related_mac h))
        then find_related_interface d node false (hint_related_ifname h) (hint_related_mac h)
        else if hint_type_in h ["rx_own_beacon_on_other_interface";
                                "same_local_fabric_as"]%string
        then find_related_interface d node true (hint_related_ifname h) None
        else related_interface in
      match related_interface with
      | Some i =>
          match if_vlan_id i with
          | Some v => Some v
          | None => guess_vlan_from_hints_loop d node related_interface rest
          end
      | None => guess_vlan_from_hints_loop d node related_interface rest
      end
  end.

Definition guess_vlan_from_hints (d : Store) (node : Node) (ifname : string)
    (hints : list hint) : option nat :=
  guess_vlan_from_hints_loop d node None (filter (relevant_hint ifname) hints).

Definition link_has_cidr (l : link) : bool :=
  (String.eqb (link_mode l) "static" || String.eqb (link_mode l) "dhcp")
  && negb (is_none (link_address l)).

Definition link_cidrs (links : list link) : list IPNetwork :=
  flat_map (fun l => if link_has_cidr l
                     then match link_address l with
                          | Some n => [cidr n]
                          | None => []
                          end
                     else []) links.

(** [VLAN.objects.filter(subnet__cidr__in=cidrs).first()]. *)
Definition get_interface_vlan_from_links (d : Store) (node : Node) (links : list link)
    : option VLAN :=
  let cidrs := link_cidrs links in
  first_by vlan_id
    (filter (fun v => existsb (fun s => (subnet_vlan_id s =? vlan_id v)
                                        && existsb (IPNetwork_eqb (subnet_cidr s)) cidrs)
                              (subnets d))
            (vlans d)).

Definition get_alloc_type_from_ip_addresses (node : Node) (alloc_type : IPADDRESS_TYPE.t)
    (ip_addresses : list StaticIPAddress) : option StaticIPAddress :=
  find (is_alloc_type alloc_type) ip_addresses.

Definition get_ip_address_from_ip_addresses (node : Node) (ip : IPAddress)
    (ip_addresses : list StaticIPAddress) : option StaticIPAddress :=
  find (sip_ip_is ip) ip_addresses.

(** [ip_address.subnet.vlan], as the VLAN's id. *)
Definition subnet_vlan_of (d : Store) (a : StaticIPAddress) : result nat :=
  match sip_subnet_id a with
  | None => Raise (AttributeError "'NoneType' object has no attribute 'vlan'")
  | Some k =>
      match find_id subnet_id k (subnets d) with
      | Some s => Ok (subnet_vlan_id s)
      | None => Raise (DoesNotExist "Subnet")
      end
  end.

Fixpoint guess_best_vlan_loop (d : Store) (second_best : option nat)
    (ip_addresses : list StaticIPAddress) : result (option nat) :=
  match ip_addresses with
  | [] => Ok second_best
  | a :: rest =>
      match sip_alloc_type a with
      | IPADDRESS_TYPE.STICKY =>
          match subnet_vlan_of d a with
          | Ok v => Ok (Some v)
          | Raise e => Raise e
          end
      | IPADDRESS_TYPE.DISCOVERED =>
          match subnet_vlan_of d a with
          | Ok v => guess_best_vlan_loop d (Some v) rest
          | Raise e => Raise e
          end
      | IPADDRESS_TYPE.DHCP => guess_best_vlan_loop d second_best rest
      end
  end.

Definition guess_best_vlan_from_ip_addresses (d : Store) (node : Node)
    (ip_addresses : list StaticIPAddress) : result (option nat) :=
  guess_best_vlan_loop d None ip_addresses.

Definition vlan_mismatch (subnet : Subnet) (interface : Interface) : bool :=
  negb (option_nat_eqb (Some (subnet_vlan_id subnet)) (if_vlan_id interface)).

Definition with_gateway (g : IPAddress) (s : Subnet) : Subnet :=
  mkSubnet (subnet_id s) (subnet_cidr s) (subnet_name s) (subnet_vlan_id s) (Some g).

Definition make_sticky (subnet : Subnet) (a : StaticIPAddress) : StaticIPAddress :=
  mkStaticIPAddress (sip_id a) IPADDRESS_TYPE.STICKY (sip_ip a) (Some (subnet_id subnet)).

(** The name [vlan] of [update_links] is bound before the loop only when the
    interface has a VLAN or there are links; the loop runs only in the
    latter case. *)
Definition bound (vlan : option nat) : M nat :=
  match vlan with
  | Some v => ret v
  | None => raise (AttributeError "local variable 'vlan' referenced before assignment")
  end.

(** The [dhcp] branch of the loop of [update_links]; the loop carries
    [current_ip_addresses] and [updated_ip_addresses]. *)
Definition update_link_dhcp (node : Node) (interface : Interface) (vlan : option nat)
    (force_vlan : bool) (l : link)
    (acc : list StaticIPAddress * list StaticIPAddress)
    : M (list StaticIPAddress * list StaticIPAddress) :=
  let '(current_ip_addresses, updated_ip_addresses) := acc in
  '(dhcp_address, current_ip_addresses) <-
     match get_alloc_type_from_ip_addresses node IPADDRESS_TYPE.DHCP current_ip_addresses with
     | None =>
         a <- StaticIPAddress_create IPADDRESS_TYPE.DHCP None None ;;
         StaticIPAddress_save a ;;
         ip_addresses_add (if_id interface) (sip_id a) ;;
         ret (a, current_ip_addresses)
     | Some a => ret (a, remove_first (sip_id a) current_ip_addresses)
     end ;;
  match link_address l with
  | Some ip_network =>
      let ip_addr := net_ip ip_network in
      v <- bound vlan ;;
      '(subnet, _) <- Subnet_get_or_create (cidr ip_network) v ;;
      if force_vlan && vlan_mismatch subnet interface
      then maaslog_error (SubnetNotOnVlan ip_addr (if_name interface)
                            (node_hostname node) (subnet_id subnet)) ;;
           ret (current_ip_addresses, updated_ip_addresses)
      else
        '(ip_address, _) <- StaticIPAddress_update_or_create ip_addr
                              IPADDRESS_TYPE.DISCOVERED (subnet_id subnet) ;;
        ip_addresses_add (if_id interface) (sip_id ip_address) ;;
        ret (current_ip_addresses, set_add dhcp_address updated_ip_addresses)
  | None => ret (current_ip_addresses, set_add dhcp_address updated_ip_addresses)
  end.

(** The [static] branch. *)
Definition update_link_static (node : Node) (interface : Interface) (vlan : option nat)
    (force_vlan : bool) (l : link)
    (acc : list StaticIPAddress * list StaticIPAddress)
    : M (list StaticIPAddress * list StaticIPAddress) :=
  let '(current_ip_addresses, updated_ip_addresses) := acc in
  match link_address l with
  | None => raise (KeyError "address")
  | Some ip_network =>
      let ip_addr := net_ip ip_network in
      v <- bound vlan ;;
      '(subnet, _) <- Subnet_get_or_create (cidr ip_network) v ;;
      if force_vlan && vlan_mismatch subnet interface
      then maaslog_error (SubnetNotOnVlan ip_addr (if_name interface)
                            (node_hostname node) (subnet_id subnet)) ;;
           ret (current_ip_addresses, updated_ip_addresses)
      else
        subnet <-
          match subnet_gateway_ip subnet, link_gateway l with
          | None, Some g =>
              if ip_in_network g (subnet_cidr subnet)
              then Subnet_save (with_gateway g subnet) ;; ret (with_gateway g subnet)
              else ret subnet
          | _, _ => ret subnet
          end ;;
        '(ip_address, current_ip_addresses) <-
          match get_ip_address_from_ip_addresses node ip_addr current_ip_addresses with
          | None =>
              '(a, created) <- StaticIPAddress_get_or_create ip_addr
                                 IPADDRESS_TYPE.STICKY (subnet_id subnet) ;;
              if created
              then ret (a, current_ip_addresses)
              else StaticIPAddress_save (make_sticky subnet a) ;;
                   ret (make_sticky subnet a, current_ip_addresses)
          | Some a => ret (a, remove_first (sip_id a) current_ip_addresses)
          end ;;
        attached <- query (interface_set_all (sip_id ip_address)) ;;
        for_each attached
          (fun attached_nic _ =>
             when (negb (if_node_id attached_nic =? node_id node))
                  (ip_addresses_remove (if_id attached_nic) (sip_id ip_address))) tt ;;
        StaticIPAddress_save (make_sticky subnet ip_address) ;;
        ip_addresses_add (if_id interface) (sip_id ip_address) ;;
        ret (current_ip_addresses, set_add (make_sticky subnet ip_address) updated_ip_addresses)
  end.

Definition update_link (node : Node) (interface : Interface) (vlan : option nat)
    (force_vlan : bool) (l : link)
    (acc : list StaticIPAddress * list StaticIPAddress)
    : M (list StaticIPAddress * list StaticIPAddress) :=
  if String.eqb (link_mode l) "dhcp"
  then update_link_dhcp node interface vlan force_vlan l acc
  else if String.eqb (link_mode l) "static"
  then update_link_static node interface vlan force_vlan l acc
  else ret acc.

(** [update_links]; the interface object may get a VLAN on the way, so the
    object comes back with the updated addresses. *)
Definition update_links (node : Node) (interface : Interface) (links : list link)
    (force_vlan use_interface_vlan : bool) : M (Interface * list StaticIPAddress) :=
  discovered <- query (fun d => filter (is_alloc_type IPADDRESS_TYPE.DISCOVERED)
                                       (ip_addresses_all (if_id interface) d)) ;;
  delete_all sip_id StaticIPAddress_delete discovered ;;
  current_ip_addresses <- query (ip_addresses_all (if_id interface)) ;;
  '(interface, vlan) <-
     match (if use_interface_vlan then if_vlan_id interface else None), links with
     | Some v, _ => ret (interface, Some v)
     | None, _ :: _ =>
         fabric <- Fabric_create ;;
         vlan <- Fabric_get_default_vlan (fabric_id fabric) ;;
         Interface_save (with_vlan (Some (vlan_id vlan)) interface) ;;
         ret (with_vlan (Some (vlan_id vlan)) interface, Some (vlan_id vlan))
     | None, [] => ret (interface, None)
     end ;;
  '(current_ip_addresses, updated_ip_addresses) <-
     for_each links (update_link node interface vlan force_vlan) (current_ip_addresses, []) ;;
  for_each current_ip_addresses (fun a _ => unlink_ip_address interface a) tt ;;
  ret (interface, updated_ip_addresses).

Definition add_field (f : ifield) (update_fields : list ifield) : list ifield :=
  if existsb (fun g => match f, g with
                       | f_vlan, f_vlan | f_node, f_node
                       | f_name, f_name | f_enabled, f_enabled => true
                       | _, _ => false
                       end) update_fields
  then update_fields else update_fields ++ [f].

Definition guess_vlan_for_interface (node : Node) (cfg : config) : M (option nat) :=
  new_vlan <- query (fun d => get_interface_vlan_from_links d node (config_links cfg)) ;;
  match new_vlan with
  | Some v => ret (Some (vlan_id v))
  | None =>
      default_vlan <- VLAN_get_default_vlan ;;
      interfaces_on_default_vlan <-
        query (fun d => length (filter (fun i => option_nat_eqb (if_vlan_id i)
                                                   (Some (vlan_id default_vlan)))
                                       (interfaces d))) ;;
      if interfaces_on_default_vlan =? 0
      then ret (Some (vlan_id default_vlan))
      else new_fabric <- Fabric_create ;;
           v <- Fabric_get_default_vlan (fabric_id new_fabric) ;;
           ret (Some (vlan_id v))
  end.

(** [new_vlan.fabric.delete()]. *)
Definition delete_fabric_of_vlan (vlan : nat) : M unit :=
  row <- query (fun d => find_id vlan_id vlan (vlans d)) ;;
  match row with
  | Some v => Fabric_delete (vlan_fabric_id v)
  | None => raise (DoesNotExist "VLAN")
  end.

Definition update_physical_links (node : Node) (interface : Interface) (cfg : config)
    (new_vlan : option nat) (update_fields : list ifield) : M (Interface * list ifield) :=
  '(interface, update_ip_addresses) <-
     update_links node interface (config_links cfg) false true ;;
  linked_vlan <- query_result
                   (fun d => guess_best_vlan_from_ip_addresses d node update_ip_addresses) ;;
  match linked_vlan with
  | Some lv =>
      match new_vlan with
      | Some nv => when (negb (lv =? nv)) (delete_fabric_of_vlan nv)
      | None => ret tt
      end ;;
      ret (with_vlan (Some lv) interface, add_field f_vlan update_fields)
  | None => ret (interface, update_fields)
  end.

(** [PhysicalInterface.objects.get_or_create(mac_address=..., defaults=...)]:
    a new physical interface has no VLAN and no parents. *)
Definition PhysicalInterface_get_or_create (mac_address : string) (node : Node)
    (name : string) (enabled : bool) : M (Interface * bool) :=
  found <- query (fun d => filter (fun i => is_type INTERFACE_TYPE.PHYSICAL i
                                            && String.eqb (if_mac_address i) mac_address)
                                  (interfaces d)) ;;
  match found with
  | [] =>
      k <- fresh_id ;;
      let i := mkInterface k INTERFACE_TYPE.PHYSICAL name mac_address (node_id node)
                 None enabled true [] in
      Interface_save i ;; ret (i, true)
  | [i] => ret (i, false)
  | _ :: _ :: _ => raise (MultipleObjectsReturned "PhysicalInterface")
  end.

(** The first two statements of [update_physical_interface]: an interface
    of the node with the name and another MAC address is deleted, and the
    physical interface with the MAC address is fetched, or created. *)
Definition find_physical_interface (node : Node) (name : string) (cfg : config)
    : M (Interface * bool) :=
  let mac_address := config_mac_address cfg in
  let is_enabled := config_enabled cfg in
  stale <- query (fun d => filter (fun i => is_type INTERFACE_TYPE.PHYSICAL i
                                            && (if_node_id i =? node_id node)
                                            && String.eqb (if_name i) name
                                            && negb (String.eqb (if_mac_address i) mac_address))
                                  (interfaces d)) ;;
  delete_all if_id Interface_delete stale ;;
  PhysicalInterface_get_or_create mac_address node name is_enabled.

Definition update_physical_interface (node : Node) (name : string) (cfg : config)
    (create_fabrics : bool) (hints : option (list hint)) : M Interface :=
  let is_enabled := config_enabled cfg in
  '(interface, created) <- find_physical_interface node name cfg ;;
  '(interface, new_vlan, update_fields) <-
     (if create_fabrics && is_none (if_vlan_id interface) && is_enabled
      then
        new_vlan <- match hints with
                    | Some hs => query (fun d => guess_vlan_from_hints d node name hs)
                    | None => ret None
                    end ;;
        new_vlan <- match new_vlan with
                    | None => guess_vlan_for_interface node cfg
                    | Some v => ret (Some v)
                    end ;;
        match new_vlan with
        | Some v => ret (with_vlan (Some v) interface, new_vlan, [f_vlan])
        | None => ret (interface, new_vlan, [])
        end
      else ret (interface, None, [])) ;;
  '(interface, update_fields) <-
     (if created
      then ret (interface, update_fields)
      else
        '(interface, update_fields) <-
           (if negb (if_node_id interface =? node_id node)
            then
              stale_addresses <- query (ip_addresses_all (if_id interface)) ;;
              delete_all sip_id StaticIPAddress_delete stale_addresses ;;
              ret (with_node (node_id node) interface, add_field f_node update_fields)
            else ret (interface, update_fields)) ;;
        ret (with_name name interface, add_field f_name update_fields)) ;;
  '(interface, update_fields) <-
     (if negb (Bool.eqb (if_enabled interface) is_enabled)
      then ret (with_enabled is_enabled interface, add_field f_enabled update_fields)
      else ret (interface, update_fields)) ;;
  '(interface, update_fields) <-
     (if create_fabrics
      then update_physical_links node interface cfg new_vlan update_fields
      else ret (interface, update_fields)) ;;
  when (0 <? length update_fields) (Interface_save_fields interface update_fields) ;;
  ret interface.

Definition vlan_row (k : nat) : M VLAN :=
  row <- query (fun d => find_id vlan_id k (vlans d)) ;;
  match row with
  | Some v => ret v
  | None => raise (DoesNotExist "VLAN")
  end.

(** [parent_nic.vlan.<attribute>]: the code dereferences the VLAN without
    a test, and Python names the attribute it could not read. *)
Definition vlan_of (attribute : string) (i : Interface) : M VLAN :=
  match if_vlan_id i with
  | Some k => vlan_row k
  | None => raise (AttributeError
                     (String.append "'NoneType' object has no attribute '"
                        (String.append attribute "'")))
  end.

(** Modelled from the spec: the manager of [VLANInterface] is not under
    src/.  [get_or_create(node, name, parents=[parent], vlan)] returns the
    VLAN interface of the node with that name, parent and VLAN, or creates
    it; a VLAN interface carries its parent's MAC address. *)
Definition VLANInterface_get_or_create (node : Node) (name : string) (parent_nic : Interface)
    (vlan : VLAN) : M (Interface * bool) :=
  found <- query (fun d => filter (fun i => is_type INTERFACE_TYPE.VLAN i
                                            && (if_node_id i =? node_id node)
                                            && String.eqb (if_name i) name
                                            && existsb (Nat.eqb (if_id parent_nic)) (if_parents i)
                                            && option_nat_eqb (if_vlan_id i) (Some (vlan_id vlan)))
                                  (interfaces d)) ;;
  match found with
  | [] =>
      k <- fresh_id ;;
      let i := mkInterface k INTERFACE_TYPE.VLAN name (if_mac_address parent_nic)
                 (node_id node) (Some (vlan_id vlan)) true true [if_id parent_nic] in
      Interface_save i ;; ret (i, true)
  | [i] => ret (i, false)
  | _ :: _ :: _ => raise (MultipleObjectsReturned "VLANInterface")
  end.

(** The statements of [update_vlan_interface] before [update_links]: the
    VLAN is that of the links, or got or created on the parent's fabric,
    and the VLAN interface is fetched, or created, and put on it. *)
Definition vlan_interface_for (node : Node) (name : string) (cfg : config) : M Interface :=
  vid <- match config_vid cfg with
         | Some v => ret v
         | None => raise (KeyError "vid")
         end ;;
  parent_name <- match config_parents cfg with
                 | p :: _ => ret p
                 | [] => raise IndexError
                 end ;;
  parent_nic <- query_result
                  (fun d => exactly_one "Interface"
                              (filter (fun i => (if_node_id i =? node_id node)
                                                && String.eqb (if_name i) parent_name)
                                      (interfaces d))) ;;
  links_vlan <- query (fun d => get_interface_vlan_from_links d node (config_links cfg)) ;;
  vlan <- match links_vlan with
          | Some vlan =>
              parent_vlan <- vlan_of "fabric_id" parent_nic ;;
              when (negb (vlan_fabric_id parent_vlan =? vlan_fabric_id vlan))
                   (maaslog_error (ParentNotOnSameFabric (if_name parent_nic)
                                     (node_hostname node) name)) ;;
              when (negb (vlan_vid vlan =? vid))
                   (maaslog_error (VlanReportMismatch name vid (vlan_vid vlan))) ;;
              ret vlan
          | None =>
              parent_vlan <- vlan_of "fabric" parent_nic ;;
              '(vlan, _) <- VLAN_get_or_create (vlan_fabric_id parent_vlan) vid ;;
              ret vlan
          end ;;
  existing <- query (fun d =>
                first_by if_id
                  (filter (fun i => is_type INTERFACE_TYPE.VLAN i
                                    && (if_node_id i =? node_id node)
                                    && String.eqb (if_name i) name
                                    && existsb (Nat.eqb (if_id parent_nic)) (if_parents i)
                                    && existsb (fun v => option_nat_eqb (if_vlan_id i)
                                                           (Some (vlan_id v))
                                                         && (vlan_vid v =? vid)) (vlans d))
                          (interfaces d))) ;;
  match existing with
  | None =>
      '(interface, _) <- VLANInterface_get_or_create node name parent_nic vlan ;;
      ret interface
  | Some interface =>
      if negb (option_nat_eqb (if_vlan_id interface) (Some (vlan_id vlan)))
      then Interface_save (with_vlan (Some (vlan_id vlan)) interface) ;;
           ret (with_vlan (Some (vlan_id vlan)) interface)
      else ret interface
  end.

Definition update_vlan_interface (node : Node) (name : string) (cfg : config) : M Interface :=
  interface <- vlan_interface_for node name cfg ;;
  '(interface, _) <- update_links node interface (config_links cfg) true true ;;
  ret interface.

Definition configure_vlan_from_links (node : Node) (interface : Interface)
    (parent_nics : list Interface) (links : list link) : M (Interface * bool) :=
  vlan <- query (fun d => get_interface_vlan_from_links d node links) ;;
  match vlan, parent_nics with
  | None, parent :: _ =>
      Interface_save (with_vlan (if_vlan_id parent) interface) ;;
      ret (with_vlan (if_vlan_id parent) interface, true)
  | Some v, _ =>
      Interface_save (with_vlan (Some (vlan_id v)) interface) ;;
      ret (with_vlan (Some (vlan_id v)) interface, true)
  | None, [] => ret (interface, false)
  end.

Definition update_parent_vlans (node : Node) (interface : Interface)
    (parent_nics : list Interface) (update_ip_addresses : list StaticIPAddress) : M Interface :=
  linked_vlan <- query_result
                   (fun d => guess_best_vlan_from_ip_addresses d node update_ip_addresses) ;;
  match linked_vlan with
  | Some lv =>
      Interface_save (with_vlan (Some lv) interface) ;;
      for_each parent_nics
        (fun parent_nic _ =>
           when (negb (option_nat_eqb (if_vlan_id parent_nic) (Some lv)))
                (Interface_save (with_vlan (Some lv) parent_nic))) tt ;;
      ret (with_vlan (Some lv) interface)
  | None => ret interface
  end.

(** Modelled from the spec: the interface managers are not under src/.
    [get_interfaces_on_node_by_name] gives the node's interfaces with one of
    the names; [get_or_create_on_node] gives the node's interface of the
    child type with the name, with the MAC address and parents as declared,
    creating it "the first time the Reconciler sees [its] name for a node". *)
Definition get_interfaces_on_node_by_name (d : Store) (node : Node) (ifnames : list string)
    : list Interface :=
  filter (fun i => (if_node_id i =? node_id node) && existsb (String.eqb (if_name i)) ifnames)
         (interfaces d).

Definition get_or_create_on_node (child_type : INTERFACE_TYPE.t) (node : Node) (name : string)
    (mac_address : string) (parent_nics : list Interface) : M Interface :=
  found <- query (fun d => first_by if_id
                             (filter (fun i => is_type child_type i
                                               && (if_node_id i =? node_id node)
                                               && String.eqb (if_name i) name)
                                     (interfaces d))) ;;
  match found with
  | Some i =>
      Interface_save (with_mac_parents mac_address (map if_id parent_nics) i) ;;
      ret (with_mac_parents mac_address (map if_id parent_nics) i)
  | None =>
      k <- fresh_id ;;
      let i := mkInterface k child_type name mac_address (node_id node) None true true
                 (map if_id parent_nics) in
      Interface_save i ;; ret i
  end.

Definition update_child_interface (node : Node) (name : string) (cfg : config)
    (child_type : INTERFACE_TYPE.t) : M (option Interface) :=
  let ifnames := config_parents cfg in
  parent_nics <- query (fun d => get_interfaces_on_node_by_name d node ifnames) ;;
  if (length parent_nics =? 0) && negb (INTERFACE_TYPE.eqb child_type INTERFACE_TYPE.BRIDGE)
  then ret None
  else
    let mac_address := config_mac_address cfg in
    interface <- get_or_create_on_node child_type node name mac_address parent_nics ;;
    let links := config_links cfg in
    '(interface, found_vlan) <- configure_vlan_from_links node interface parent_nics links ;;
    '(interface, update_ip_addresses) <- update_links node interface links false found_vlan ;;
    interface <- update_parent_vlans node interface parent_nics update_ip_addresses ;;
    ret (Some interface).

Definition update_bond_interface (node : Node) (name : string) (cfg : config)
    : M (option Interface) :=
  update_child_interface node name cfg INTERFACE_TYPE.BOND.

Definition update_bridge_interface (node : Node) (name : string) (cfg : config)
    : M (option Interface) :=
  update_child_interface node name cfg INTERFACE_TYPE.BRIDGE.

Definition update_interface (node : Node) (name : string) (cfg : config)
    (create_fabrics : bool) (hints : option (list hint)) : M (option Interface) :=
  if String.eqb (config_type cfg) "physical"
  then i <- update_physical_interface node name cfg create_fabrics hints ;; ret (Some i)
  else if negb create_fabrics
  then ret None
  else if String.eqb (config_type cfg) "vlan"
  then i <- update_vlan_interface node name cfg ;; ret (Some i)
  else if String.eqb (config_type cfg) "bond"
  then update_bond_interface node name cfg
  else if String.eqb (config_type cfg) "bridge"
  then update_bridge_interface node name cfg
  else raise (ValueError "Unkwown interface type").

(** ** [update_node_interfaces] *)

(** [interfaces[name]]. *)
Fixpoint lookup (name : string) (interfaces : list (string * config)) : option config :=
  match interfaces with
  | [] => None
  | (n, c) :: rest => if String.eqb n name then Some c else lookup name rest
  end.

(** [{name: config["parents"] for name, config in interfaces.items()}]. *)
Definition parents_graph (interfaces : list (string * config)) : graph string :=
  map (fun e => (fst e, config_parents (snd e))) interfaces.

Definition process_order (interfaces : list (string * config)) : result (list string) :=
  sorted_order String.eqb String.leb (parents_graph interfaces).

(** [node.interface_set.all().order_by("id")], as the keys of the dict
    [current_interfaces]. *)
Definition node_interface_ids (node : Node) (d : Store) : list nat :=
  sorted Nat.leb (map if_id (filter (fun i => if_node_id i =? node_id node) (interfaces d))).

(** The dict [deletion_order] of the second pass, sorted and reversed. *)
Definition deletion_graph (d : Store) (current_interfaces : list nat) : graph nat :=
  map (fun nic_id =>
         (nic_id,
          map if_id (filter (fun parent => existsb (Nat.eqb (if_id parent)) current_interfaces)
                            (parents_all nic_id d))))
      current_interfaces.

Definition deletion_order (d : Store) (current_interfaces : list nat) : result (list nat) :=
  match sorted_order Nat.eqb Nat.leb (deletion_graph d current_interfaces) with
  | Ok order => Ok (rev order)
  | Raise e => Raise e
  end.

Definition clear_boot_interface (node : Node) : Node :=
  mkNode (node_id node) (node_hostname node) None.

(** The body of the first loop of [update_node_interfaces]: one interface
    of the desired state, in [process_order]; [current_interfaces] loses the
    interface that was updated.

    Modelled from the spec: [update_discovery_state],
    [parse_interfaces_details] and [update_interface_details] of the hooks
    are not under src/ and the spec gives them no part in the reconciliation
    of the rows modelled here; they are left out. *)
Definition process_interface (node : Node) (interfaces : list (string * config))
    (topology_hints : option (list hint)) (create_fabrics : bool)
    (name : string) (current_interfaces : list nat) : M (list nat) :=
  settings <- match lookup name interfaces with
              | Some c => ret c
              | None => raise (KeyError name)
              end ;;
  interface <- update_interface node name settings create_fabrics topology_hints ;;
  match interface with
  | Some i => ret (filter (fun k => negb (k =? if_id i)) current_interfaces)
  | None => ret current_interfaces
  end.

(** The body of the second loop: one interface that is no longer there. *)
Definition delete_interface (delete_id : nat) (node : Node) : M Node :=
  let node := if option_nat_eqb (node_boot_interface_id node) (Some delete_id)
              then clear_boot_interface node else node in
  Interface_delete delete_id ;; ret node.

Definition update_node_interfaces_body (node : Node) (interfaces : list (string * config))
    (topology_hints : option (list hint)) (create_fabrics : bool) : M unit :=
  current_interfaces <- query (node_interface_ids node) ;;
  process_order <- lift (process_order interfaces) ;;
  current_interfaces <-
    for_each process_order
      (process_interface node interfaces topology_hints create_fabrics)
      current_interfaces ;;
  if negb create_fabrics
  then ret tt
  else
    deletion_order <- query_result (fun d => deletion_order d current_interfaces) ;;
    node <- for_each deletion_order delete_interface node ;;
    Node_save node.

(** [@synchronous @transactional def update_node_interfaces(...)]. *)
Definition update_node_interfaces (node : Node) (interfaces : list (string * config))
    (topology_hints : option (list hint)) (create_fabrics : bool) : M unit :=
  transactional (update_node_interfaces_body node interfaces topology_hints create_fabrics).

(** * Part IV: the beaconing socket protocol

    [provisioningserver/utils/services.py] and [beaconing.py] are not under
    src/; what follows is modelled from the specification (sections 4.2 to
    4.4) and from the tests of [TestBeaconingSocketProtocol], which are. *)

Inductive beacon_type : Type := solicitation | advertisement.

(** ** The multicast scheduler *)

(** Modelled from the spec: the scheduler's part of
    [BeaconingSocketProtocol], which is not under src/.  A request sets
    [mcast_solicitation] when it asks for a solicitation; while a multicast
    is requested, further requests schedule nothing; otherwise the request
    opens a window: it schedules one call of [dequeueMulticastBeaconing], at
    once when the last multicast is five seconds old on the monotonic clock,
    else five seconds later.  [delayed_calls] are the times at which the
    reactor is to make the calls, [multicasts] the bursts sent so far, with
    their times. *)
Record scheduler : Type := mkScheduler {
  mcast_requested : bool;
  mcast_solicitation : bool;
  last_solicited_mcast : Z;
  delayed_calls : list Z;
  multicasts : list (Z * beacon_type)
}.

Definition queueMulticastBeaconing (now : Z) (solicit : bool) (p : scheduler) : scheduler :=
  let mcast_solicitation' := if solicit then true else mcast_solicitation p in
  if mcast_requested p
  then mkScheduler true mcast_solicitation' (last_solicited_mcast p)
         (delayed_calls p) (multicasts p)
  else
    let delay := if (now <? last_solicited_mcast p + 5)%Z then 5%Z else 0%Z in
    mkScheduler true mcast_solicitation' (last_solicited_mcast p)
      (delayed_calls p ++ [(now + delay)%Z]) (multicasts p).

(** Modelled from the spec: the window closes by sending one burst,
    a solicitation if one was asked for ("solicitation wins"), and the
    scheduler is idle again. *)
Definition dequeueMulticastBeaconing (now : Z) (p : scheduler) : scheduler :=
  let kind := if mcast_solicitation p then solicitation else advertisement in
  mkScheduler false false now (delayed_calls p) (multicasts p ++ [(now, kind)]).

(** The reactor makes the first pending call when its time has come. *)
Definition fire (p : scheduler) : scheduler :=
  match delayed_calls p with
  | [] => p
  | due :: rest =>
      dequeueMulticastBeaconing due
        (mkScheduler (mcast_requested p) (mcast_solicitation p) (last_solicited_mcast p)
           rest (multicasts p))
  end.

(** A run of requests, each with the reading of the monotonic clock at
    which it arrives and with what it asks for. *)
Definition requests (rs : list (Z * bool)) (p : scheduler) : scheduler :=
  fold_left (fun p r => queueMulticastBeaconing (fst r) (snd r) p) rs p.

(** ** The hint engine *)

Inductive hint_kind : Type :=
| rx_own_beacon_on_other_interface
| rx_own_beacon_on_tx_interface
| same_local_fabric_as
| routable_to
| on_remote_network.

Definition hint_kind_name (k : hint_kind) : string :=
  match k with
  | rx_own_beacon_on_other_interface => "rx_own_beacon_on_other_interface"
  | rx_own_beacon_on_tx_interface => "rx_own_beacon_on_tx_interface"
  | same_local_fabric_as => "same_local_fabric_as"
  | routable_to => "routable_to"
  | on_remote_network => "on_remote_network"
  end.

Record TopologyHint : Type := mkTopologyHint {
  th_ifname : string;
  th_vid : option nat;
  th_hint : hint_kind;
  th_related_ifname : string;
  th_related_vid : option nat;
  th_related_mac : option string
}.

(** The payload of a beacon: its uuid and what it says of the interface it
    was sent from ([payload["remote"]]). *)
Record BeaconPayload : Type := mkBeaconPayload {
  bp_uuid : string;
  bp_type : beacon_type;
  bp_name : string;
  bp_mac_address : option string;
  bp_vid : option nat
}.

(** A beacon as the capture hands it over: the local interface and VLAN tag
    it came in on, whether its destination was a multicast group, and its
    payload. *)
Record ReceivedBeacon : Type := mkReceivedBeacon {
  rx_ifname : string;
  rx_vid : option nat;
  rx_multicast : bool;
  rx_payload : BeaconPayload
}.

Record transceiver : Type := mkTransceiver {
  tx_queue : list (string * BeaconPayload);
  rx_queue : list (string * list ReceivedBeacon);
  topology_hints : list (string * list TopologyHint)
}.

Fixpoint assoc {A : Type} (k : string) (l : list (string * A)) : option A :=
  match l with
  | [] => None
  | (k', x) :: rest => if String.eqb k' k then Some x else assoc k rest
  end.

Fixpoint assoc_set {A : Type} (k : string) (x : A) (l : list (string * A)) : list (string * A) :=
  match l with
  | [] => [(k, x)]
  | (k', y) :: rest => if String.eqb k' k then (k, x) :: rest else (k', y) :: assoc_set k x rest
  end.

Definition option_string_eqb (a b : option string) : bool :=
  match a, b with
  | Some x, Some y => String.eqb x y
  | None, None => true
  | _, _ => false
  end.

Definition hint_kind_eqb (a b : hint_kind) : bool :=
  String.eqb (hint_kind_name a) (hint_kind_name b).

Definition TopologyHint_eqb (a b : TopologyHint) : bool :=
  String.eqb (th_ifname a) (th_ifname b)
  && option_nat_eqb (th_vid a) (th_vid b)
  && hint_kind_eqb (th_hint a) (th_hint b)
  && String.eqb (th_related_ifname a) (th_related_ifname b)
  && option_nat_eqb (th_related_vid a) (th_related_vid b)
  && option_string_eqb (th_related_mac a) (th_related_mac b).

(** The hints of a uuid are a set. *)
Definition hint_add (h : TopologyHint) (hs : list TopologyHint) : list TopologyHint :=
  if existsb (TopologyHint_eqb h) hs then hs else hs ++ [h].

(** Modelled from the spec: the hint engine (section 4.3) is not under
    src/.  A beacon whose uuid is in the tx-table is our own, and is used
    for the two self-echo hints only: received on the interface it was sent
    from, or on another one with neither side tagged. *)
Definition own_beacon_hints (sent : BeaconPayload) (rx : ReceivedBeacon) : list TopologyHint :=
  if String.eqb (rx_ifname rx) (bp_name sent)
  then [mkTopologyHint (rx_ifname rx) (rx_vid rx) rx_own_beacon_on_tx_interface
          (bp_name sent) (bp_vid sent) None]
  else if is_none (rx_vid rx) && is_none (bp_vid sent)
  then [mkTopologyHint (rx_ifname rx) (rx_vid rx) rx_own_beacon_on_other_interface
          (bp_name sent) (bp_vid sent) None]
  else [].

(** Modelled from the spec: a beacon of another sender that reports a VLAN
    tag gives [routable_to] when it came to a unicast address, and
    [on_remote_network] when it came by multicast and its tag is not the
    local one. *)
Definition remote_hints (rx : ReceivedBeacon) : list TopologyHint :=
  let remote := rx_payload rx in
  match bp_vid remote with
  | None => []
  | Some _ =>
      if negb (rx_multicast rx)
      then [mkTopologyHint (rx_ifname rx) (rx_vid rx) routable_to
              (bp_name remote) (bp_vid remote) (bp_mac_address remote)]
      else if negb (option_nat_eqb (bp_vid remote) (rx_vid rx))
      then [mkTopologyHint (rx_ifname rx) (rx_vid rx) on_remote_network
              (bp_name remote) (bp_vid remote) (bp_mac_address remote)]
      else []
  end.

(** Modelled from the spec: an untagged beacon seen before on another local
    interface puts the two interfaces on the same fabric, one hint in each
    direction. *)
Definition duplicate_hints (seen : list ReceivedBeacon) (rx : ReceivedBeacon)
    : list TopologyHint :=
  match bp_vid (rx_payload rx) with
  | Some _ => []
  | None =>
      flat_map (fun other =>
                  if String.eqb (rx_ifname other) (rx_ifname rx)
                  then []
                  else [mkTopologyHint (rx_ifname other) (rx_vid other) same_local_fabric_as
                          (rx_ifname rx) (rx_vid rx) None;
                        mkTopologyHint (rx_ifname rx) (rx_vid rx) same_local_fabric_as
                          (rx_ifname other) (rx_vid other) None]) seen
  end.

Definition rx_uuid (rx : ReceivedBeacon) : string := bp_uuid (rx_payload rx).

Definition received_before (t : transceiver) (uuid : string) : list ReceivedBeacon :=
  match assoc uuid (rx_queue t) with
  | Some seen => seen
  | None => []
  end.

(** The hints one reception gives. *)
Definition derive_hints (t : transceiver) (rx : ReceivedBeacon) : list TopologyHint :=
  match assoc (rx_uuid rx) (tx_queue t) with
  | Some sent => own_beacon_hints sent rx
  | None => remote_hints rx ++ duplicate_hints (received_before t (rx_uuid rx)) rx
  end.

Definition hints_of (t : transceiver) (uuid : string) : list TopologyHint :=
  match assoc uuid (topology_hints t) with
  | Some hs => hs
  | None => []
  end.

(** [beaconReceived]: the reception is recorded, and its hints join those
    of its uuid. *)
Definition beaconReceived (rx : ReceivedBeacon) (t : transceiver) : transceiver :=
  let uuid := rx_uuid rx in
  mkTransceiver (tx_queue t)
    (assoc_set uuid (received_before t uuid ++ [rx]) (rx_queue t))
    (assoc_set uuid (fold_left (fun hs h => hint_add h hs) (derive_hints t rx) (hints_of t uuid))
               (topology_hints t)).

(** [getJSONTopologyHints]: all hints in one batch for the reconciler, a
    field that is not set being left out. *)
Definition hint_to_json (h : TopologyHint) : hint :=
  mkHint (Some (th_ifname h)) (th_vid h) (Some (hint_kind_name (th_hint h)))
         (Some (th_related_ifname h)) (th_related_vid h) (th_related_mac h).

Definition getJSONTopologyHints (t : transceiver) : list hint :=
  map hint_to_json (flat_map snd (topology_hints t)).

(** * Part IV-b: [maasserver/models/macaddress.py] *)

(** The regular expressions of Python's [re] that [mac_re] is made of: the
    anchors, a character class given by its ranges, a literal character,
    sequence, and repetition a fixed number of times.  None of them leaves a
    choice, so matching goes from left to right without backtracking. *)
Inductive regex : Type :=
| Bol
| Eol
| Chars (ranges : list (ascii * ascii))
| Lit (c : ascii)
| Seq (r1 r2 : regex)
| Times (n : nat) (r : regex).

Definition in_range (c : ascii) (range : ascii * ascii) : bool :=
  (nat_of_ascii (fst range) <=? nat_of_ascii c) && (nat_of_ascii c <=? nat_of_ascii (snd range)).

Definition newline : ascii := ascii_of_nat 10.

(** [iterate n step x]: [step] applied [n] times, as long as it matches. *)
Fixpoint iterate {X : Type} (n : nat) (step : X -> option X) (x : X) : option X :=
  match n with
  | O => Some x
  | S m => match step x with
           | Some y => iterate m step y
           | None => None
           end
  end.

(** One attempt to match [r] at a position: the flag says whether the
    position is the start of the string, the string is what is left from the
    position on.  [$] matches at the end of the string and just before a
    newline that ends the string. *)
Fixpoint match_here (r : regex) (at_start_rest : bool * string) : option (bool * string) :=
  let '(at_start, rest) := at_start_rest in
  match r with
  | Bol => if at_start then Some (at_start, rest) else None
  | Eol => match rest with
           | EmptyString => Some (at_start, rest)
           | String c EmptyString => if Ascii.eqb c newline then Some (at_start, rest) else None
           | _ => None
           end
  | Chars ranges => match rest with
                    | String c rest' => if existsb (in_range c) ranges
                                        then Some (false, rest') else None
                    | EmptyString => None
                    end
  | Lit c => match rest with
             | String c' rest' => if Ascii.eqb c' c then Some (false, rest') else None
             | EmptyString => None
             end
  | Seq r1 r2 => match match_here r1 (at_start, rest) with
                 | Some p => match_here r2 p
                 | None => None
                 end
  | Times n r => iterate n (match_here r) (at_start, rest)
  end.

(** [pattern.match(string) is not None]. *)
Definition re_match (r : regex) (s : string) : bool :=
  match match_here r (true, s) with
  | Some _ => true
  | None => false
  end.

Definition hex_digit : regex := Chars [("0", "9"); ("a", "f"); ("A", "F")]%char.

(** The group [([0-9a-fA-F]{2}:)]. *)
Definition octet_colon : regex := Seq (Times 2 hex_digit) (Lit ":"%char).

(** [mac_re = re.compile(r'^([0-9a-fA-F]{2}:){5}[0-9a-fA-F]{2}$')]. *)
Definition mac_re : regex :=
  Seq Bol (Seq (Times 5 octet_colon) (Seq (Times 2 hex_digit) Eol)).

(** * Scenarios

    Concrete stores and desired states, after the scenarios of section 8 of
    the specification; the examples further down run the reconciler on
    them. *)

Definition ip4 (a b c d : Z) : IPAddress :=
  mkIPAddress 4 (((a * 256 + b) * 256 + c) * 256 + d)%Z.

Definition net4 (a b c d prefixlen : Z) : IPNetwork :=
  mkIPNetwork (ip4 a b c d) prefixlen.

Definition node_a : Node := mkNode 1 "node-a" None.
Definition node_b : Node := mkNode 2 "node-b" None.

Definition state_of (d : Store) : State := mkState d [] [].

(** An empty region: no fabric yet, no interface. *)
Definition empty_store : Store := mkStore [] [] [] [] [] [] [node_a; node_b] 100.

(** The mac move scenario: node A has the physical interface with MAC
    [52:54:00:00:00:01] and two STICKY addresses on it. *)
Definition mac_move_store : Store :=
  mkStore
    [mkFabric 0]
    [mkVLAN 40 0 0]
    [mkSubnet 30 (net4 10 0 5 0 24) (net4 10 0 5 0 24) 40 None]
    [mkStaticIPAddress 20 IPADDRESS_TYPE.STICKY (Some (ip4 10 0 5 7)) (Some 30);
     mkStaticIPAddress 21 IPADDRESS_TYPE.STICKY (Some (ip4 10 0 5 8)) (Some 30)]
    [mkInterface 10 INTERFACE_TYPE.PHYSICAL "eth0" "52:54:00:00:00:01" 1 (Some 40) true true []]
    [(10, 20); (10, 21)]
    [node_a; node_b]
    100.

Definition moved_nic : config :=
  mkConfig "physical" [] "52:54:00:00:00:01" true [] None.

Definition moved_nic_with_link : config :=
  mkConfig "physical" [] "52:54:00:00:00:01" true
    [mkLink "static" (Some (net4 10 0 5 9 24)) None] None.

(** Node A with two physical interfaces; the address 10.0.5.7 is linked to
    [eth1], and to an interface of node B. *)
Definition shared_address_store : Store :=
  mkStore
    [mkFabric 0]
    [mkVLAN 40 0 0]
    [mkSubnet 30 (net4 10 0 5 0 24) (net4 10 0 5 0 24) 40 None]
    [mkStaticIPAddress 20 IPADDRESS_TYPE.STICKY (Some (ip4 10 0 5 7)) (Some 30)]
    [mkInterface 10 INTERFACE_TYPE.PHYSICAL "eth0" "52:54:00:00:00:01" 1 (Some 40) true true [];
     mkInterface 11 INTERFACE_TYPE.PHYSICAL "eth1" "52:54:00:00:00:02" 1 (Some 40) true true [];
     mkInterface 12 INTERFACE_TYPE.PHYSICAL "eth0" "52:54:00:00:00:03" 2 (Some 40) true true []]
    [(11, 20); (12, 20)]
    [node_a; node_b]
    100.

Definition eth0_of_a : Interface :=
  mkInterface 10 INTERFACE_TYPE.PHYSICAL "eth0" "52:54:00:00:00:01" 1 (Some 40) true true [].

Definition static_10_0_5_7 : link := mkLink "static" (Some (net4 10 0 5 7 24)) None.

(** A VLAN interface on VLAN 41 (tag 100), and a subnet 10.0.7.0/24 that is
    on VLAN 40. *)
Definition tagged_store : Store :=
  mkStore
    [mkFabric 0]
    [mkVLAN 40 0 0; mkVLAN 41 100 0]
    [mkSubnet 31 (net4 10 0 7 0 24) (net4 10 0 7 0 24) 40 None]
    []
    [mkInterface 10 INTERFACE_TYPE.PHYSICAL "eth0" "52:54:00:00:00:01" 1 (Some 40) true true [];
     mkInterface 13 INTERFACE_TYPE.VLAN "eth0.100" "52:54:00:00:00:01" 1 (Some 41) true true [10]]
    []
    [node_a; node_b]
    100.

Definition eth0_100 : Interface :=
  mkInterface 13 INTERFACE_TYPE.VLAN "eth0.100" "52:54:00:00:00:01" 1 (Some 41) true true [10].

Definition static_10_0_7_5 : link := mkLink "static" (Some (net4 10 0 7 5 24)) None.
Definition dhcp_10_0_7_5 : link := mkLink "dhcp" (Some (net4 10 0 7 5 24)) None.

(** The same store with a second subnet, 10.0.8.0/24, on VLAN 41; and a
    desired state in which [eth0.100] has an address on each subnet, that on
    VLAN 41 first, and a second VLAN interface follows it. *)
Definition two_subnet_store : Store :=
  mkStore
    [mkFabric 0]
    [mkVLAN 40 0 0; mkVLAN 41 100 0]
    [mkSubnet 31 (net4 10 0 7 0 24) (net4 10 0 7 0 24) 40 None;
     mkSubnet 32 (net4 10 0 8 0 24) (net4 10 0 8 0 24) 41 None]
    []
    [mkInterface 10 INTERFACE_TYPE.PHYSICAL "eth0" "52:54:00:00:00:01" 1 (Some 40) true true [];
     mkInterface 13 INTERFACE_TYPE.VLAN "eth0.100" "52:54:00:00:00:01" 1 (Some 41) true true [10]]
    []
    [node_a; node_b]
    100.

Definition static_10_0_8_5 : link := mkLink "static" (Some (net4 10 0 8 5 24)) None.

Definition eth0_100_two_links : config :=
  mkConfig "vlan" ["eth0"%string] "52:54:00:00:00:01" true
    [static_10_0_8_5; static_10_0_7_5] (Some 100).

Definition two_vlan_interfaces : list (string * config) :=
  [("eth0"%string, mkConfig "physical" [] "52:54:00:00:00:01" true [] None);
   ("eth0.100"%string, eth0_100_two_links);
   ("eth0.200"%string, mkConfig "vlan" ["eth0"%string] "52:54:00:00:00:01" true [] (Some 200))].

(** [eth0.100] as the links put it: on VLAN 40. *)
Definition eth0_100_on_40 : Interface :=
  mkInterface 13 INTERFACE_TYPE.VLAN "eth0.100" "52:54:00:00:00:01" 1 (Some 40) true true [10].

(** The VLAN propagation scenario: a bridge over [eth0] and [eth1], and a
    subnet 10.0.5.0/24 on VLAN 45. *)
Definition bridge_store : Store :=
  mkStore
    [mkFabric 0]
    [mkVLAN 40 0 0; mkVLAN 45 5 0]
    [mkSubnet 30 (net4 10 0 5 0 24) (net4 10 0 5 0 24) 45 None]
    [mkStaticIPAddress 20 IPADDRESS_TYPE.STICKY (Some (ip4 10 0 5 7)) (Some 30)]
    [mkInterface 10 INTERFACE_TYPE.PHYSICAL "eth0" "52:54:00:00:00:01" 1 None true true [];
     mkInterface 11 INTERFACE_TYPE.PHYSICAL "eth1" "52:54:00:00:00:02" 1 (Some 40) true true [];
     mkInterface 14 INTERFACE_TYPE.BRIDGE "br0" "52:54:00:00:00:01" 1 None true true [10; 11]]
    [(14, 20)]
    [node_a; node_b]
    100.

Definition br0 : Interface :=
  mkInterface 14 INTERFACE_TYPE.BRIDGE "br0" "52:54:00:00:00:01" 1 None true true [10; 11].
Definition br0_parents : list Interface :=
  [mkInterface 10 INTERFACE_TYPE.PHYSICAL "eth0" "52:54:00:00:00:01" 1 None true true [];
   mkInterface 11 INTERFACE_TYPE.PHYSICAL "eth1" "52:54:00:00:00:02" 1 (Some 40) true true []].
Definition br0_addresses : list StaticIPAddress :=
  [mkStaticIPAddress 19 IPADDRESS_TYPE.DHCP None None;
   mkStaticIPAddress 20 IPADDRESS_TYPE.STICKY (Some (ip4 10 0 5 7)) (Some 30)].

(** A desired state with a bond over two NICs and a VLAN on the bond, and
    the store of a node that had them all. *)
Definition bonded_interfaces : list (string * config) :=
  [("bond0.10"%string, mkConfig "vlan" ["bond0"%string] "52:54:00:00:00:01" true [] (Some 10));
   ("eth1"%string, mkConfig "physical" [] "52:54:00:00:00:02" true [] None);
   ("bond0"%string, mkConfig "bond" ["eth1"; "eth0"]%string "52:54:00:00:00:01" true [] None);
   ("eth0"%string, mkConfig "physical" [] "52:54:00:00:00:01" true [] None)].

Definition bonded_store : Store :=
  mkStore
    [mkFabric 0]
    [mkVLAN 40 0 0; mkVLAN 41 10 0]
    [] []
    [mkInterface 10 INTERFACE_TYPE.PHYSICAL "eth0" "52:54:00:00:00:01" 1 (Some 40) true true [];
     mkInterface 11 INTERFACE_TYPE.PHYSICAL "eth1" "52:54:00:00:00:02" 1 (Some 40) true true [];
     mkInterface 12 INTERFACE_TYPE.BOND "bond0" "52:54:00:00:00:01" 1 (Some 40) true true [10; 11];
     mkInterface 13 INTERFACE_TYPE.VLAN "bond0.10" "52:54:00:00:00:01" 1 (Some 41) true true [12]]
    []
    [node_a; node_b]
    100.

(** A desired state with an interface of a type the reconciler does not
    know. *)
Definition wireless_interfaces : list (string * config) :=
  [("eth0"%string, mkConfig "physical" [] "52:54:00:00:00:01" true [] None);
   ("wlan0"%string, mkConfig "wifi" [] "52:54:00:00:00:09" true [] None)].


Definition plain_interfaces : list (string * config) :=
  [("eth0"%string, mkConfig "physical" [] "52:54:00:00:00:01" true [] None)].

(** A hint that [eth0] hears its own beacons on [eth1]. *)
Definition eth0_hears_eth1 : hint :=
  mkHint (Some "eth0"%string) None (Some "rx_own_beacon_on_other_interface"%string)
         (Some "eth1"%string) None None.

(** Node A with [eth1] on VLAN 40 and [eth0], which has no VLAN yet; and
    the same with [eth0] on VLAN 41. *)
Definition hinted_store : Store :=
  mkStore
    [mkFabric 0]
    [mkVLAN 40 0 0; mkVLAN 41 0 0]
    [] []
    [mkInterface 10 INTERFACE_TYPE.PHYSICAL "eth1" "52:54:00:00:00:02" 1 (Some 40) true true [];
     mkInterface 11 INTERFACE_TYPE.PHYSICAL "eth0" "52:54:00:00:00:01" 1 None true true []]
    []
    [node_a; node_b]
    100.





Definition settled_store : Store :=
  mkStore
    [mkFabric 0]
    [mkVLAN 40 0 0; mkVLAN 41 0 0]
    [] []
    [mkInterface 10 INTERFACE_TYPE.PHYSICAL "eth0" "52:54:00:00:00:01" 1 (Some 41) true true [];
     mkInterface 11 INTERFACE_TYPE.PHYSICAL "eth1" "52:54:00:00:00:02" 1 (Some 40) true true []]
    []
    [node_a; node_b]
    100.

(** * Notions the statements are made with *)

(** ** Of the dependency ordering *)

Definition ascending {K : Type} (leb : K -> K -> bool) (l : list K) : Prop :=
  Sorted (fun x y => leb x y = true) l.

(** [closed data]: every dependency listed is a thing of its own. *)
Definition closed {K : Type} (data : graph K) : Prop :=
  forall n ps p, In (n, ps) data -> In p ps -> In p (keys data).

(** [edges_in E data]: every dependency still listed is an edge of [E]. *)
Definition edges_in {K : Type} (E : K -> K -> Prop) (data : graph K) : Prop :=
  forall n ps p, In (n, ps) data -> In p ps -> E p n.

(** [chain E l]: each element of [l] has the next one as a dependency. *)
Fixpoint chain {K : Type} (E : K -> K -> Prop) (l : list K) : Prop :=
  match l with
  | x :: (y :: _) as r => E y x /\ chain E r
  | _ => True
  end.

(** ** Of the computations *)

(** [preserves P m]: every run of [m], whether it returns or raises, takes a
    state to one that [P] relates to it. *)
Definition preserves {A : Type} (P : State -> State -> Prop) (m : M A) : Prop :=
  forall s r s', m s = (r, s') -> P s s'.

(** [keeps f]: the part [f] of the tables is the same. *)
Definition keeps {X : Type} (f : Store -> X) : State -> State -> Prop :=
  fun s s' => f (db s) = f (db s').

(** [ignores f set]: the part [f] of the tables does not see what [set]
    replaces. *)
Definition ignores {X Y : Type} (f : Store -> X) (set : Y -> Store -> Store) : Prop :=
  forall y d, f (set y d) = f d.

(** [links_shrink s s']: no link of [s'] is new. *)
Definition links_shrink (s s' : State) : Prop :=
  forall j k, linked (db s') j k = true -> linked (db s) j k = true.

(** What deleting addresses leaves: no new address, no new link, the same
    interfaces. *)
Definition addresses_shrink (s s' : State) : Prop :=
  interfaces (db s') = interfaces (db s)
  /\ (forall a, In a (addresses (db s')) -> In a (addresses (db s)))
  /\ links_shrink s s'.

(** [recedes s s']: from [s] to [s'] no address row is new, and the next
    key has not gone back. *)
Definition recedes (s s' : State) : Prop :=
  (forall a, In a (addresses (db s')) -> In a (addresses (db s)))
  /\ next_id (db s) <= next_id (db s').

(** [without_keys ks s]: no address row has a key of [ks], and these keys
    are below the next key, so that none of them is handed out again. *)
Definition without_keys (ks : list nat) (s : State) : Prop :=
  (forall a, In a (addresses (db s)) -> ~ In (sip_id a) ks)
  /\ (forall k, In k ks -> k < next_id (db s)).

(** Two interface objects that differ at most in their VLAN. *)
Definition same_but_vlan (i j : Interface) : Prop := with_vlan None i = with_vlan None j.

(** ** Of the reconciler *)

Definition known_type (t : string) : bool :=
  existsb (String.eqb t) ["physical"; "vlan"; "bond"; "bridge"]%string.

(** The selection as the specification words it: the first STICKY address
    of the candidates, else the last DISCOVERED one. *)
Definition preferred_address (ip_addresses : list StaticIPAddress) : option StaticIPAddress :=
  match find (is_alloc_type IPADDRESS_TYPE.STICKY) ip_addresses with
  | Some a => Some a
  | None => hd_error (rev (filter (is_alloc_type IPADDRESS_TYPE.DISCOVERED) ip_addresses))
  end.

Definition vlan_of_address (d : Store) (a : StaticIPAddress) : option nat :=
  match subnet_vlan_of d a with
  | Ok v => Some v
  | Raise _ => None
  end.

Definition inferable_vlan (d : Store) (ip_addresses : list StaticIPAddress) : option nat :=
  match preferred_address ip_addresses with
  | Some a => vlan_of_address d a
  | None => None
  end.

(** Every candidate that is not a DHCP placeholder has its subnet's row. *)
Definition resolvable (d : Store) (ip_addresses : list StaticIPAddress) : Prop :=
  forall a, In a ip_addresses -> sip_alloc_type a <> IPADDRESS_TYPE.DHCP ->
            exists v, subnet_vlan_of d a = Ok v.

(** The VLAN the row of interface [k] has in the store. *)
Definition row_vlan (d : Store) (k : nat) : option (option nat) :=
  option_map if_vlan_id (find_id if_id k (interfaces d)).




(** ** Fixtures of the examples *)

Definition bonded_rank (name : string) : nat :=
  if String.eqb name "bond0" then 1 else if String.eqb name "bond0.10" then 2 else 0.

Definition bonded_id_rank (k : nat) : nat :=
  if k =? 12 then 1 else if k =? 13 then 2 else 0.

Definition wlan0 : config := mkConfig "wifi" [] "52:54:00:00:00:09" true [] None.

Definition idle_scheduler : scheduler := mkScheduler false false 0 [] [].

Definition fake_tx_beacon : BeaconPayload :=
  mkBeaconPayload "uuid-1" solicitation "eth0" None None.

Definition tagged_tx_beacon : BeaconPayload :=
  mkBeaconPayload "uuid-1" solicitation "eth1" (Some "01:02:03:04:05:06"%string) (Some 100).

Definition fresh_transceiver : transceiver := mkTransceiver [] [] [].

Definition sent_transceiver : transceiver :=
  mkTransceiver [("uuid-1"%string, fake_tx_beacon)] [] [].

(** * Notions of a node whose interfaces are reconciled *)



(** The two filters of the first statements of [update_physical_interface]. *)
Definition physical_with_mac (mac : string) (i : Interface) : bool :=
  is_type INTERFACE_TYPE.PHYSICAL i && String.eqb (if_mac_address i) mac.

Definition stale_for (node : Node) (name mac : string) (i : Interface) : bool :=
  is_type INTERFACE_TYPE.PHYSICAL i
  && (if_node_id i =? node_id node)
  && String.eqb (if_name i) name
  && negb (String.eqb (if_mac_address i) mac).

(** Interface rows have one primary key each, below the next key. *)
Definition well_keyed (d : Store) : Prop :=
  NoDup (map if_id (interfaces d))
  /\ forall row, In row (interfaces d) -> if_id row < next_id d.

(** An interface row without its parent references, which the deletion of
    another interface may rewrite. *)
Definition without_parents (i : Interface) : Interface :=
  with_mac_parents (if_mac_address i) [] i.

(** The desired state is of physical interfaces without links, one per MAC
    address. *)
Definition plain_physical (interfaces : list (string * config)) : Prop :=
  NoDup (map fst interfaces)
  /\ NoDup (map (fun e => config_mac_address (snd e)) interfaces)
  /\ forall name cfg, In (name, cfg) interfaces ->
       config_type cfg = "physical"%string /\ config_links cfg = [].

(** [settled d node name cfg i]: the row [i] is what reconciling the
    physical interface [name] of [node] leaves: the one physical interface
    with the MAC address, on the node, under the name, enabled as desired,
    with a VLAN if it is enabled, and with no address; and no other
    physical interface of the node has the name. *)
Definition settled (d : Store) (node : Node) (name : string) (cfg : config) (i : Interface)
    : Prop :=
  In i (interfaces d)
  /\ physical_with_mac (config_mac_address cfg) i = true
  /\ (forall row, In row (interfaces d) ->
        physical_with_mac (config_mac_address cfg) row = true -> if_id row = if_id i)
  /\ (forall row, In row (interfaces d) ->
        stale_for node name (config_mac_address cfg) row = false)
  /\ if_node_id i = node_id node
  /\ if_name i = name
  /\ if_enabled i = config_enabled cfg
  /\ (if_vlan_id i <> None \/ config_enabled cfg = false)
  /\ ip_addresses_all (if_id i) d = [].


(** [aside s s']: from [s] to [s'] the interface rows and the node rows are
    the same, no address and no link is new, and no key is handed out
    twice. *)
Definition aside (s s' : State) : Prop :=
  addresses_shrink s s'
  /\ nodes (db s') = nodes (db s)
  /\ next_id (db s) <= next_id (db s').

(** [drops ks s s']: from [s] to [s'] the interface rows with a key of [ks]
    went, and with them at most links and parent references. *)
Definition drops (ks : list nat) (s s' : State) : Prop :=
  map without_parents (interfaces (db s'))
  = filter (fun r => negb (existsb (Nat.eqb (if_id r)) ks))
           (map without_parents (interfaces (db s)))
  /\ addresses (db s') = addresses (db s)
  /\ links_shrink s s'
  /\ nodes (db s') = nodes (db s)
  /\ next_id (db s') = next_id (db s).

(** [update_fields] names the field. *)
Definition has_field (f : ifield) (update_fields : list ifield) : bool :=
  existsb (fun g => match f, g with
                    | f_vlan, f_vlan | f_node, f_node
                    | f_name, f_name | f_enabled, f_enabled => true
                    | _, _ => false
                    end) update_fields.

(** [changed_in fields row i]: the object [i] is the row [row] but for the
    fields named, so that saving these fields makes the row the object. *)
Definition changed_in (fields : list ifield) (row i : Interface) : Prop :=
  fold_right (copy_field i) row fields = i.

(** [beside node name mac i s s']: what reconciling the physical interface
    [i] of the node, with the name and the MAC address, does to the rest
    from [s] to [s']: every other interface row was there before, every row
    that is neither stale nor the interface with the MAC address is still
    there (parent references apart), and no address, link or node row is
    new. *)
Definition beside (node : Node) (name mac : string) (i : Interface) (s s' : State) : Prop :=
  (forall row', In row' (interfaces (db s')) ->
     row' = i \/ exists row, In row (interfaces (db s))
                             /\ without_parents row' = without_parents row)
  /\ (forall row, In row (interfaces (db s)) ->
        stale_for node name mac row = false -> physical_with_mac mac row = false ->
        exists row', In row' (interfaces (db s'))
                     /\ without_parents row' = without_parents row)
  /\ (forall a, In a (addresses (db s')) -> In a (addresses (db s)))
  /\ links_shrink s s'
  /\ nodes (db s') = nodes (db s).

(** A write that creates, deletes, links or unlinks nothing. *)
Definition is_update (w : write) : bool :=
  match w with
  | Update _ _ => true
  | _ => false
  end.

(** ** Of a pass that creates no fabrics *)

(** [sparing s s']: from [s] to [s'] the fabrics, VLANs, subnets and nodes
    are the same, and no address and no link is new. *)
Definition sparing (s s' : State) : Prop :=
  fabrics (db s') = fabrics (db s)
  /\ vlans (db s') = vlans (db s)
  /\ subnets (db s') = subnets (db s)
  /\ nodes (db s') = nodes (db s)
  /\ (forall a, In a (addresses (db s')) -> In a (addresses (db s)))
  /\ links_shrink s s'.

(** ** Of MAC addresses *)

Definition is_hex (c : ascii) : bool :=
  existsb (in_range c) [("0", "9"); ("a", "f"); ("A", "F")]%char.

(** Octets of two hexadecimal digits each, every one followed by a colon;
    and the same with colons between them only. *)
Fixpoint octet_prefix (octets : list (ascii * ascii)) : string :=
  match octets with
  | [] => EmptyString
  | (a, b) :: rest => String a (String b (String ":" (octet_prefix rest)))
  end.

Fixpoint colon_joined (octets : list (ascii * ascii)) : string :=
  match octets with
  | [] => EmptyString
  | [(a, b)] => String a (String b EmptyString)
  | (a, b) :: rest => String a (String b (String ":" (colon_joined rest)))
  end.

Definition hex_octet (o : ascii * ascii) : Prop :=
  is_hex (fst o) = true /\ is_hex (snd o) = true.

(** * More scenarios *)

(** Two physical interfaces without links. *)
Definition two_nics : list (string * config) :=
  [("eth0"%string, mkConfig "physical" [] "52:54:00:00:00:01" true [] None);
   ("eth1"%string, mkConfig "physical" [] "52:54:00:00:00:02" true [] None)].

(** The interface of [hinted_store] with the MAC address
    [52:54:00:00:00:01], which the machine now calls [eth1]. *)
Definition nic_without_vlan : Interface :=
  mkInterface 11 INTERFACE_TYPE.PHYSICAL "eth0" "52:54:00:00:00:01" 1 None true true [].

(** [eth0] of [settled_store]. *)
Definition eth0_on_41 : Interface :=
  mkInterface 10 INTERFACE_TYPE.PHYSICAL "eth0" "52:54:00:00:00:01" 1 (Some 41) true true [].

(** A VLAN interface over [eth0], tagged 5. *)
Definition vlan_on_eth0 : config :=
  mkConfig "vlan" ["eth0"%string] "52:54:00:00:00:01" true [] (Some 5).

(** The same with an address on the subnet 10.0.5.0/24. *)
Definition vlan_on_eth0_with_link : config :=
  mkConfig "vlan" ["eth0"%string] "52:54:00:00:00:01" true
    [mkLink "static" (Some (net4 10 0 5 7 24)) None] (Some 5).

(** A bridge that is on its own. *)
Definition lone_bridge : list (string * config) :=
  [("br0"%string, mkConfig "bridge" [] "52:54:00:00:00:0a" true [] None)].

(** A bond over [eth1] and [eth0]. *)
Definition bond0_config : config :=
  mkConfig "bond" ["eth1"; "eth0"]%string "52:54:00:00:00:01" true [] None.

(** [eth1] of [settled_store]. *)
Definition eth1_on_40 : Interface :=
  mkInterface 11 INTERFACE_TYPE.PHYSICAL "eth1" "52:54:00:00:00:02" 1 (Some 40) true true [].

(** Node A with [eth0], whose one address is the DHCP one. *)
Definition dhcp_store : Store :=
  mkStore
    [mkFabric 0]
    [mkVLAN 40 0 0]
    []
    [mkStaticIPAddress 20 IPADDRESS_TYPE.DHCP None None]
    [mkInterface 10 INTERFACE_TYPE.PHYSICAL "eth0" "52:54:00:00:00:01" 1 (Some 40) true true []]
    [(10, 20)]
    [node_a; node_b]
    100.

Definition eth0_on_40 : Interface :=
  mkInterface 10 INTERFACE_TYPE.PHYSICAL "eth0" "52:54:00:00:00:01" 1 (Some 40) true true [].

Definition dhcp_without_address : link := mkLink "dhcp" None None.

(** * Part V: facts about the dependency ordering *)

Unset Implicit Arguments.

Section SorttopFacts.
Variable K : Type.
Variable eqb : K -> K -> bool.
Hypothesis eqb_spec : forall x y, reflect (x = y) (eqb x y).
Variable leb : K -> K -> bool.

Lemma mem_In (x : K) (l : list K) : mem eqb x l = true <-> In x l.
Proof.
  unfold mem.
  induction l as [|y r IH]; simpl.
  - split; [discriminate | tauto].
  - rewrite orb_true_iff, IH.
    destruct (eqb_spec x y) as [->|Hne]; split; intros H; auto.
    + destruct H as [H|H]; [discriminate | auto].
    + destruct H as [H|H]; [congruence | auto].
Qed.

Lemma mem_false (x : K) (l : list K) : mem eqb x l = false <-> ~ In x l.
Proof.
  rewrite <- mem_In. destruct (mem eqb x l); split; congruence.
Qed.

Lemma eq_dec_K (x y : K) : {x = y} + {x <> y}.
Proof. destruct (eqb_spec x y); [left | right]; assumption. Qed.

(** ** The batches *)

Lemma batch_of_In (data : graph K) (k : K) :
  In k (batch_of data) <-> In (k, []) data.
Proof.
  unfold batch_of, keys. rewrite in_map_iff. split.
  - intros [[k' ps] [Hk Hin]]. simpl in Hk. subst k'.
    apply filter_In in Hin. destruct Hin as [Hin Hnd].
    unfold no_deps in Hnd. simpl in Hnd. destruct ps; [assumption | discriminate].
  - intros Hin. exists (k, []). split; [reflexivity|].
    apply filter_In. split; [assumption | reflexivity].
Qed.

Lemma strike_In (batch : list K) (data : graph K) (n : K) (ps : list K) :
  In (n, ps) (strike eqb batch data) <->
  exists ps0, In (n, ps0) data /\ ~ In n batch
              /\ ps = filter (fun d => negb (mem eqb d batch)) ps0.
Proof.
  unfold strike. rewrite in_map_iff. split.
  - intros [[n0 ps0] [Heq Hin]]. simpl in Heq. inversion Heq; subst; clear Heq.
    apply filter_In in Hin. destruct Hin as [Hin Hm]. simpl in Hm.
    exists ps0. repeat split; try assumption.
    apply mem_false. destruct (mem eqb n batch); [discriminate | reflexivity].
  - intros [ps0 [Hin [Hn ->]]]. exists (n, ps0). split; [reflexivity|].
    apply filter_In. split; [assumption|]. simpl.
    apply mem_false in Hn. rewrite Hn. reflexivity.
Qed.

Lemma strike_keys (batch : list K) (data : graph K) (k : K) :
  In k (keys (strike eqb batch data)) <-> In k (keys data) /\ ~ In k batch.
Proof.
  unfold keys. rewrite !in_map_iff. split.
  - intros [[n ps] [Hk Hin]]. simpl in Hk. subst n.
    apply strike_In in Hin. destruct Hin as [ps0 [Hin [Hn _]]].
    split; [exists (k, ps0); auto | assumption].
  - intros [[[n ps0] [Hk Hin]] Hn]. simpl in Hk. subst n.
    exists (k, filter (fun d => negb (mem eqb d batch)) ps0). split; [reflexivity|].
    apply strike_In. exists ps0. auto.
Qed.

Lemma filter_length_lt (A : Type) (f : A -> bool) (l : list A) (x : A) :
  In x l -> f x = false -> length (filter f l) < length l.
Proof.
  induction l as [|y r IH]; simpl; intros Hin Hf; [contradiction|].
  destruct Hin as [->|Hin].
  - rewrite Hf. pose proof (filter_length_le f r). lia.
  - specialize (IH Hin Hf). destruct (f y); simpl; lia.
Qed.

Lemma strike_length (data : graph K) (k : K) (r : list K) :
  batch_of data = k :: r -> length (strike eqb (k :: r) data) < length data.
Proof.
  intros Hb. unfold strike. rewrite length_map.
  assert (Hin : In k (batch_of data)) by (rewrite Hb; left; reflexivity).
  apply batch_of_In in Hin.
  apply filter_length_lt with (x := (k, [])); [assumption|].
  simpl. destruct (eqb_spec k k); [reflexivity | congruence].
Qed.

(** The fuel [sorttop] gives [skim] is enough: the loop ends by itself. *)
Lemma skim_fuel (fuel : nat) (data : graph K) :
  length data <= fuel -> skim eqb fuel data <> None.
Proof.
  revert data. induction fuel as [|fuel IH]; intros data Hlen.
  - destruct data; simpl in *; [discriminate | lia].
  - destruct data as [|e data']; [simpl; discriminate|].
    cbn [skim]. destruct (batch_of (e :: data')) as [|k r] eqn:Hb; [discriminate|].
    pose proof (strike_length _ _ _ Hb) as Hlt.
    specialize (IH (strike eqb (k :: r) (e :: data'))).
    destruct (skim eqb fuel (strike eqb (k :: r) (e :: data'))) as [[rest|err]|];
      try discriminate.
    apply IH. simpl in *. lia.
Qed.

Lemma skim_step (fuel : nat) (data : graph K) (batches : list (list K)) :
  skim eqb fuel data = Some (Ok batches) ->
  (data = [] /\ batches = []) \/
  (exists fuel' k r rest,
      fuel = S fuel' /\ batch_of data = k :: r /\ batches = (k :: r) :: rest
      /\ skim eqb fuel' (strike eqb (k :: r) data) = Some (Ok rest)).
Proof.
  intros H. destruct data as [|e data'].
  - destruct fuel; simpl in H; inversion H; left; auto.
  - right. destruct fuel as [|fuel'];
      cbn [skim] in H; destruct (batch_of (e :: data')) as [|k r] eqn:Hb; try discriminate.
    destruct (skim eqb fuel' (strike eqb (k :: r) (e :: data'))) as [[rest|err]|] eqn:Hs;
      try discriminate.
    inversion H; subst. exists fuel', k, r, rest. auto.
Qed.

(** Every thing ends up in exactly the batches, and nothing else does. *)
Lemma skim_keys (fuel : nat) (data : graph K) (batches : list (list K)) :
  skim eqb fuel data = Some (Ok batches) ->
  forall k, In k (keys data) <-> In k (concat batches).
Proof.
  revert data batches. induction fuel as [|fuel IH]; intros data batches H k;
    destruct (skim_step _ _ _ H) as [[-> ->]|(fuel' & b & r & rest & Hf & Hb & -> & Hs)];
    try discriminate; try (simpl; tauto).
  inversion Hf; subst fuel'. clear Hf.
  specialize (IH _ _ Hs k). rewrite strike_keys in IH.
  cbn [concat]. rewrite in_app_iff. split.
  - intros Hk. destruct (in_dec eq_dec_K k (b :: r)) as [Hin|Hin]; [left; assumption|].
    right. apply IH. auto.
  - intros [Hk|Hk].
    + rewrite <- Hb in Hk. apply batch_of_In in Hk.
      unfold keys. apply in_map_iff. exists (k, []). auto.
    + apply IH in Hk. tauto.
Qed.

(** ** [sorted] *)

Lemma insert_sorted_perm (x : K) (l : list K) :
  Permutation (insert_sorted leb x l) (x :: l).
Proof.
  induction l as [|y r IH]; simpl; [reflexivity|].
  destruct (leb x y); [reflexivity|].
  rewrite IH. apply perm_swap.
Qed.

Lemma sorted_perm (l : list K) : Permutation (sorted leb l) l.
Proof.
  induction l as [|x r IH]; simpl; [reflexivity|].
  rewrite insert_sorted_perm. constructor. assumption.
Qed.

Lemma sorted_In (l : list K) (x : K) : In x (sorted leb l) <-> In x l.
Proof.
  split; apply Permutation_in; [|symmetry]; apply sorted_perm.
Qed.

Lemma concat_sorted_In (batches : list (list K)) (x : K) :
  In x (concat (map (sorted leb) batches)) <-> In x (concat batches).
Proof.
  induction batches as [|b r IH]; simpl; [tauto|].
  rewrite !in_app_iff, sorted_In, IH. tauto.
Qed.

Lemma insert_sorted_ascending (x : K) (l : list K) :
  (forall a b, leb a b = true \/ leb b a = true) ->
  ascending leb l -> ascending leb (insert_sorted leb x l).
Proof.
  intros Htot. unfold ascending.
  induction l as [|y r IH]; simpl; intros Hs.
  - repeat constructor.
  - destruct (leb x y) eqn:Hxy.
    + constructor; [assumption | constructor; assumption].
    + apply Sorted_inv in Hs. destruct Hs as [Hs Hhd].
      constructor; [apply IH; assumption|].
      destruct r as [|z r']; simpl.
      * constructor. destruct (Htot x y) as [H|H]; congruence.
      * destruct (leb x z).
        -- constructor. destruct (Htot x y) as [H|H]; congruence.
        -- constructor. inversion Hhd; assumption.
Qed.

Lemma sorted_ascending (l : list K) :
  (forall a b, leb a b = true \/ leb b a = true) -> ascending leb (sorted leb l).
Proof.
  intros Htot. induction l as [|x r IH]; simpl.
  - constructor.
  - apply insert_sorted_ascending; assumption.
Qed.

(** ** Dependencies come first *)

Lemma before_app_r (x y : K) (l0 l : list K) :
  before x y l -> before x y (l0 ++ l).
Proof.
  intros (l1 & l2 & l3 & ->). exists (l0 ++ l1), l2, l3.
  rewrite <- app_assoc. reflexivity.
Qed.

Lemma before_split (x y : K) (l l' : list K) :
  In x l -> In y l' -> before x y (l ++ l').
Proof.
  intros Hx Hy.
  destruct (in_split _ _ Hx) as (a1 & a2 & ->).
  destruct (in_split _ _ Hy) as (b1 & b2 & ->).
  exists a1, (a2 ++ b1), b2.
  rewrite <- !app_assoc. reflexivity.
Qed.

Lemma keys_unique (data : graph K) (n : K) (ps ps' : list K) :
  NoDup (keys data) -> In (n, ps) data -> In (n, ps') data -> ps = ps'.
Proof.
  unfold keys. induction data as [|[k qs] r IH]; simpl; intros Hnd H1 H2; [contradiction|].
  inversion Hnd as [|? ? Hnin Hnd']; subst.
  destruct H1 as [H1|H1], H2 as [H2|H2].
  - congruence.
  - inversion H1; subst. exfalso. apply Hnin. apply in_map_iff. exists (n, ps'). auto.
  - inversion H2; subst. exfalso. apply Hnin. apply in_map_iff. exists (n, ps). auto.
  - auto.
Qed.

Lemma NoDup_map_filter (A : Type) (f : A -> K) (g : A -> bool) (l : list A) :
  NoDup (map f l) -> NoDup (map f (filter g l)).
Proof.
  induction l as [|x r IH]; simpl; intros Hnd; [constructor|].
  inversion Hnd as [|? ? Hnin Hnd']; subst.
  destruct (g x); simpl; [constructor|]; auto.
  intros Hin. apply Hnin. apply in_map_iff in Hin. destruct Hin as [y [Hy Hin]].
  apply filter_In in Hin. apply in_map_iff. exists y. tauto.
Qed.

Lemma strike_NoDup (batch : list K) (data : graph K) :
  NoDup (keys data) -> NoDup (keys (strike eqb batch data)).
Proof.
  intros Hnd. unfold strike, keys. rewrite map_map. simpl.
  apply NoDup_map_filter with (f := fst). assumption.
Qed.

Lemma skim_before (fuel : nat) (data : graph K) (batches : list (list K)) :
  NoDup (keys data) ->
  skim eqb fuel data = Some (Ok batches) ->
  forall n ps p, In (n, ps) data -> In p ps ->
                 before p n (concat (map (sorted leb) batches)).
Proof.
  revert data batches. induction fuel as [|fuel IH]; intros data batches Hnd H n ps p Hn Hp;
    destruct (skim_step _ _ _ H) as [[-> ->]|(fuel' & b & r & rest & Hf & Hb & -> & Hs)];
    try discriminate; try contradiction.
  inversion Hf; subst fuel'. clear Hf.
  cbn [map concat].
  assert (Hnb : ~ In n (b :: r)).
  { intros Hin. rewrite <- Hb in Hin. apply batch_of_In in Hin.
    rewrite (keys_unique _ _ _ _ Hnd Hn Hin) in Hp. contradiction. }
  destruct (in_dec eq_dec_K p (b :: r)) as [Hpb|Hpb].
  - apply before_split.
    + apply sorted_In. assumption.
    + apply concat_sorted_In. apply (skim_keys _ _ _ Hs). apply strike_keys. split; [|assumption].
      unfold keys. apply in_map_iff. exists (n, ps). auto.
  - apply before_app_r.
    apply (IH _ _ (strike_NoDup _ _ Hnd) Hs n (filter (fun d => negb (mem eqb d (b :: r))) ps) p).
    + apply strike_In. exists ps. auto.
    + apply filter_In. split; [assumption|].
      apply mem_false in Hpb. rewrite Hpb. reflexivity.
Qed.

Lemma skim_NoDup (fuel : nat) (data : graph K) (batches : list (list K)) :
  NoDup (keys data) ->
  skim eqb fuel data = Some (Ok batches) ->
  NoDup (concat batches).
Proof.
  revert data batches. induction fuel as [|fuel IH]; intros data batches Hnd H;
    destruct (skim_step _ _ _ H) as [[-> ->]|(fuel' & b & r & rest & Hf & Hb & -> & Hs)];
    try discriminate; try (simpl; constructor; fail).
  inversion Hf; subst fuel'. clear Hf.
  cbn [concat]. apply NoDup_app.
  - rewrite <- Hb. unfold batch_of, keys. apply NoDup_map_filter. exact Hnd.
  - apply (IH _ _ (strike_NoDup _ _ Hnd) Hs).
  - intros k Hk Hk'. apply (skim_keys _ _ _ Hs) in Hk'. apply strike_keys in Hk'. tauto.
Qed.

Lemma concat_sorted_perm (batches : list (list K)) :
  Permutation (concat (map (sorted leb) batches)) (concat batches).
Proof.
  induction batches as [|b r IH]; simpl; [reflexivity|].
  apply Permutation_app; [apply sorted_perm | exact IH].
Qed.

(** ** [prepare] *)

Lemma dedup_In (l : list K) (x : K) : In x (dedup eqb l) <-> In x l.
Proof.
  induction l as [|y r IH]; simpl; [tauto|].
  destruct (mem eqb y r) eqn:Hm; simpl; rewrite IH; [|tauto].
  apply mem_In in Hm. split; [tauto|]. intros [->|H]; assumption.
Qed.

Lemma dedup_NoDup (l : list K) : NoDup (dedup eqb l).
Proof.
  induction l as [|y r IH]; simpl; [constructor|].
  destruct (mem eqb y r) eqn:Hm; [assumption|].
  constructor; [|assumption]. rewrite dedup_In. apply mem_false. assumption.
Qed.

Lemma discard_self_keys (data : graph K) : keys (discard_self eqb data) = keys data.
Proof.
  unfold discard_self, keys. rewrite map_map. reflexivity.
Qed.

Lemma discard_self_In (data : graph K) (n : K) (ps : list K) :
  In (n, ps) (discard_self eqb data) <->
  exists ps0, In (n, ps0) data /\ ps = filter (fun d => negb (eqb d n)) ps0.
Proof.
  unfold discard_self. rewrite in_map_iff. split.
  - intros [[n0 ps0] [Heq Hin]]. simpl in Heq. inversion Heq; subst. exists ps0. auto.
  - intros [ps0 [Hin ->]]. exists (n, ps0). auto.
Qed.

Lemma ghosts_In (data : graph K) (g : K) :
  In g (ghosts eqb data) <->
  ~ In g (keys data) /\ exists n ps, In (n, ps) data /\ In g ps.
Proof.
  unfold ghosts. rewrite dedup_In, filter_In, in_concat. split.
  - intros [[ps [Hps Hg]] Hm]. split.
    + apply mem_false. destruct (mem eqb g (keys data)); [discriminate | reflexivity].
    + apply in_map_iff in Hps. destruct Hps as [[n ps'] [Heq Hin]]. simpl in Heq. subst.
      exists n, ps. auto.
  - intros [Hk [n [ps [Hin Hg]]]]. split.
    + exists ps. split; [|assumption]. apply in_map_iff. exists (n, ps). auto.
    + apply mem_false in Hk. rewrite Hk. reflexivity.
Qed.

Lemma prepare_keys (data : graph K) :
  keys (prepare eqb data) = keys data ++ ghosts eqb (discard_self eqb data).
Proof.
  unfold prepare, keys. rewrite map_app, map_map. simpl. rewrite map_id.
  fold (keys (discard_self eqb data)). rewrite discard_self_keys. reflexivity.
Qed.

Lemma prepare_NoDup (data : graph K) :
  NoDup (keys data) -> NoDup (keys (prepare eqb data)).
Proof.
  intros Hnd. rewrite prepare_keys. apply NoDup_app.
  - assumption.
  - apply dedup_NoDup.
  - intros k Hk Hg. apply ghosts_In in Hg. rewrite discard_self_keys in Hg. tauto.
Qed.

Lemma prepare_In (data : graph K) (n : K) (ps : list K) :
  In (n, ps) (prepare eqb data) ->
  (exists ps0, In (n, ps0) data /\ ps = filter (fun d => negb (eqb d n)) ps0)
  \/ ps = [].
Proof.
  unfold prepare. rewrite in_app_iff. intros [H|H].
  - left. apply discard_self_In. assumption.
  - right. apply in_map_iff in H. destruct H as [g [Heq _]]. congruence.
Qed.

Lemma prepare_keeps (data : graph K) (n : K) (ps : list K) :
  In (n, ps) data -> In (n, filter (fun d => negb (eqb d n)) ps) (prepare eqb data).
Proof.
  intros H. unfold prepare. apply in_app_iff. left.
  apply discard_self_In. exists ps. auto.
Qed.

Lemma prepare_closed (data : graph K) : closed (prepare eqb data).
Proof.
  intros n ps p Hn Hp. rewrite prepare_keys.
  destruct (in_dec eq_dec_K p (keys data)) as [Hk|Hk]; apply in_app_iff; [left; assumption|].
  right. apply ghosts_In. rewrite discard_self_keys. split; [assumption|].
  unfold prepare in Hn. apply in_app_iff in Hn. destruct Hn as [Hn|Hn].
  - exists n, ps. auto.
  - apply in_map_iff in Hn. destruct Hn as [g [Heq _]]. inversion Heq; subst. contradiction.
Qed.

Lemma strike_closed (batch : list K) (data : graph K) :
  closed data -> closed (strike eqb batch data).
Proof.
  intros Hc n ps p Hn Hp.
  apply strike_In in Hn. destruct Hn as [ps0 [Hin [Hnb ->]]].
  apply filter_In in Hp. destruct Hp as [Hp Hm].
  apply strike_keys. split.
  - apply (Hc n ps0 p); assumption.
  - apply mem_false. destruct (mem eqb p batch); [discriminate | reflexivity].
Qed.

(** ** The order that comes out *)

Lemma sorted_order_inv (data : graph K) (order : list K) :
  sorted_order eqb leb data = Ok order ->
  exists batches,
    skim eqb (length (prepare eqb data)) (prepare eqb data) = Some (Ok batches)
    /\ sorttop eqb data = Ok batches
    /\ order = concat (map (sorted leb) batches).
Proof.
  unfold sorted_order, flatten. destruct (sorttop eqb data) as [batches|e] eqn:Hs; [|discriminate].
  intros H. inversion H; subst. exists batches. repeat split.
  unfold sorttop in Hs.
  destruct (skim eqb (length (prepare eqb data)) (prepare eqb data)) as [[b|e]|] eqn:Hk;
    congruence.
Qed.

(** Every dependency of a thing comes strictly before the thing. *)
Lemma sorted_order_before (data : graph K) (order : list K) :
  NoDup (keys data) ->
  sorted_order eqb leb data = Ok order ->
  forall n ps p, In (n, ps) data -> In p ps -> p <> n -> before p n order.
Proof.
  intros Hnd H n ps p Hn Hp Hne.
  destruct (sorted_order_inv _ _ H) as (batches & Hs & _ & ->).
  apply (skim_before _ _ _ (prepare_NoDup _ Hnd) Hs n (filter (fun d => negb (eqb d n)) ps) p).
  - apply prepare_keeps. assumption.
  - apply filter_In. split; [assumption|].
    destruct (eqb_spec p n); [contradiction | reflexivity].
Qed.

(** Every thing, and every dependency named, is in the order... *)
Lemma sorted_order_In (data : graph K) (order : list K) :
  sorted_order eqb leb data = Ok order ->
  forall k, In k order <-> In k (keys (prepare eqb data)).
Proof.
  intros H k. destruct (sorted_order_inv _ _ H) as (batches & Hs & _ & ->).
  rewrite concat_sorted_In. symmetry. apply (skim_keys _ _ _ Hs).
Qed.

Lemma sorted_order_keys (data : graph K) (order : list K) :
  sorted_order eqb leb data = Ok order ->
  forall k, In k (keys data) -> In k order.
Proof.
  intros H k Hk. apply (sorted_order_In _ _ H). rewrite prepare_keys.
  apply in_app_iff. left. assumption.
Qed.

(** ... and is there once. *)
Lemma sorted_order_NoDup (data : graph K) (order : list K) :
  NoDup (keys data) ->
  sorted_order eqb leb data = Ok order ->
  NoDup order.
Proof.
  intros Hnd H. destruct (sorted_order_inv _ _ H) as (batches & Hs & _ & ->).
  apply (Permutation_NoDup (l := concat batches)).
  - symmetry. apply concat_sorted_perm.
  - apply (skim_NoDup _ _ _ (prepare_NoDup _ Hnd) Hs).
Qed.

(** Within a level the things are in ascending order. *)
Lemma sorted_order_levels (data : graph K) (order : list K) :
  (forall a b, leb a b = true \/ leb b a = true) ->
  sorted_order eqb leb data = Ok order ->
  exists levels, sorttop eqb data = Ok levels
                 /\ order = concat (map (sorted leb) levels)
                 /\ Forall (ascending leb) (map (sorted leb) levels).
Proof.
  intros Htot H. destruct (sorted_order_inv _ _ H) as (batches & _ & Hs & ->).
  exists batches. repeat split; [assumption|].
  apply Forall_forall. intros l Hl. apply in_map_iff in Hl.
  destruct Hl as [b [<- _]]. apply sorted_ascending. assumption.
Qed.

(** ** Acyclic dependencies can always be ordered *)

Section Progress.
Variable E : K -> K -> Prop.
Hypothesis E_acyclic : forall n, ~ clos_trans K E n n.

Lemma chain_suffix (l1 l2 : list K) : chain E (l1 ++ l2) -> chain E l2.
Proof.
  induction l1 as [|x r IH]; simpl; [tauto|].
  destruct (r ++ l2) eqn:Heq; intros H.
  - destruct r; simpl in Heq; [subst; simpl; exact I | discriminate].
  - apply IH. tauto.
Qed.

Lemma chain_reach (x y : K) (l1 l2 : list K) :
  chain E (x :: l1 ++ y :: l2) -> clos_trans K E y x.
Proof.
  revert x. induction l1 as [|z r IH]; intros x H.
  - simpl in H. apply t_step. tauto.
  - change (chain E (x :: z :: r ++ y :: l2)) in H. cbn [chain] in H.
    destruct H as [Hzx Hc].
    apply t_trans with z; [apply IH; exact Hc | apply t_step; exact Hzx].
Qed.

Lemma long_chain (data : graph K) :
  closed data -> edges_in E data ->
  (forall n ps, In (n, ps) data -> ps <> []) ->
  forall m k, In k (keys data) ->
              exists l, length l = m /\ chain E (k :: l) /\ incl (k :: l) (keys data).
Proof.
  intros Hc He Hne. induction m as [|m IH]; intros k Hk.
  - exists []. split; [reflexivity|]. split; [exact I|]. intros x [<-|[]]. assumption.
  - unfold keys in Hk. apply in_map_iff in Hk. destruct Hk as [[n ps] [Heq Hin]].
    simpl in Heq. subst n.
    destruct ps as [|p ps']; [exfalso; apply (Hne k []); auto|].
    assert (Hp : In p (keys data)) by (apply (Hc k (p :: ps') p); simpl; auto).
    destruct (IH p Hp) as (l & Hlen & Hch & Hincl).
    exists (p :: l). split; [|split].
    + simpl. congruence.
    + cbn [chain]. split; [|exact Hch]. apply (He k (p :: ps') p); simpl; auto.
    + intros x [<-|Hx]; [|apply Hincl; exact Hx].
      apply in_map_iff. exists (k, p :: ps'). auto.
Qed.

Lemma batch_of_nonempty (data : graph K) :
  closed data -> edges_in E data -> data <> [] -> batch_of data <> [].
Proof.
  intros Hc He Hdata Hb.
  assert (Hne : forall n ps, In (n, ps) data -> ps <> []).
  { intros n ps Hin ->. apply batch_of_In in Hin. rewrite Hb in Hin. contradiction. }
  destruct data as [|[k ps] r]; [congruence|].
  destruct (long_chain _ Hc He Hne (length (keys ((k, ps) :: r))) k) as (l & Hlen & Hch & Hincl);
    [left; reflexivity|].
  assert (Hdup : ~ NoDup (k :: l)).
  { intros Hnd. pose proof (NoDup_incl_length Hnd Hincl) as Hle. simpl in Hle, Hlen. lia. }
  apply not_NoDup in Hdup.
  - destruct Hdup as (a & l1 & l2 & l3 & Heq).
    rewrite Heq in Hch. apply chain_suffix in Hch.
    apply chain_reach in Hch. exact (E_acyclic a Hch).
  - intros x y. destruct (eq_dec_K x y); [left | right]; assumption.
Qed.

Lemma strike_edges (batch : list K) (data : graph K) :
  edges_in E data -> edges_in E (strike eqb batch data).
Proof.
  intros He n ps p Hn Hp.
  apply strike_In in Hn. destruct Hn as [ps0 [Hin [_ ->]]].
  apply filter_In in Hp. apply (He n ps0 p); tauto.
Qed.

Lemma skim_progress (fuel : nat) (data : graph K) :
  length data <= fuel -> closed data -> edges_in E data ->
  exists batches, skim eqb fuel data = Some (Ok batches).
Proof.
  revert data. induction fuel as [|fuel IH]; intros data Hlen Hc He.
  - destruct data; [exists []; reflexivity | simpl in Hlen; lia].
  - destruct data as [|e data']; [exists []; reflexivity|].
    cbn [skim].
    destruct (batch_of (e :: data')) as [|k r] eqn:Hb.
    + exfalso. apply (batch_of_nonempty (e :: data')); [assumption.. | discriminate | assumption].
    + pose proof (strike_length _ _ _ Hb) as Hlt.
      destruct (IH (strike eqb (k :: r) (e :: data'))) as [rest Hrest].
      * simpl in *. lia.
      * apply strike_closed. assumption.
      * apply strike_edges. assumption.
      * rewrite Hrest. eexists. reflexivity.
Qed.
End Progress.

Lemma prepare_edges (data : graph K) :
  edges_in (fun a b => depends data b a) (prepare eqb data).
Proof.
  intros n ps p Hn Hp.
  destruct (prepare_In _ _ _ Hn) as [[ps0 [Hin Heq]]|Heq]; subst ps; [|contradiction].
  apply filter_In in Hp. exists ps0. tauto.
Qed.

(** [sorttop] raises [CircularDependency] only when there is a cycle. *)
Lemma sorted_order_acyclic (data : graph K) :
  acyclic data -> exists order, sorted_order eqb leb data = Ok order.
Proof.
  intros Hac.
  destruct (skim_progress _ Hac (length (prepare eqb data)) (prepare eqb data))
    as [batches Hb].
  - apply Nat.le_refl.
  - apply prepare_closed.
  - apply prepare_edges.
  - unfold sorted_order, sorttop. rewrite Hb. eexists. reflexivity.
Qed.
End SorttopFacts.

(** * Running the reconciler's monad *)

Lemma bind_run (A B : Type) (m : M A) (f : A -> M B) (s : State) :
  bind m f s = match m s with
               | (Ok a, s') => f a s'
               | (Raise e, s') => (Raise e, s')
               end.
Proof. reflexivity. Qed.

Lemma bind_ok (A B : Type) (m : M A) (f : A -> M B) (s s' : State) (a : A) :
  m s = (Ok a, s') -> bind m f s = f a s'.
Proof. intros H. rewrite bind_run, H. reflexivity. Qed.

Lemma bind_raise (A B : Type) (m : M A) (f : A -> M B) (s s' : State) (e : exn) :
  m s = (Raise e, s') -> bind m f s = (Raise e, s').
Proof. intros H. rewrite bind_run, H. reflexivity. Qed.

Lemma ret_run (A : Type) (a : A) (s : State) : ret a s = (Ok a, s).
Proof. reflexivity. Qed.

Lemma query_run (A : Type) (q : Store -> A) (s : State) : query q s = (Ok (q (db s)), s).
Proof. reflexivity. Qed.

Lemma query_result_run (A : Type) (q : Store -> result A) (s : State) :
  query_result q s = (q (db s), s).
Proof. reflexivity. Qed.

Lemma bind_inv (A B : Type) (m : M A) (f : A -> M B) (s s' : State) (b : B) :
  bind m f s = (Ok b, s') ->
  exists a s1, m s = (Ok a, s1) /\ f a s1 = (Ok b, s').
Proof.
  rewrite bind_run. destruct (m s) as [[a|e] s1]; [eauto | discriminate].
Qed.

(** ** What a computation leaves alone *)

Section Preserves.
Variable P : State -> State -> Prop.
Hypothesis P_refl : forall s, P s s.
Hypothesis P_trans : forall s1 s2 s3, P s1 s2 -> P s2 s3 -> P s1 s3.

Lemma preserves_ret (A : Type) (a : A) : preserves P (ret a).
Proof. intros s r s' H. inversion H; subst. apply P_refl. Qed.

Lemma preserves_raise (A : Type) (e : exn) : preserves P (@raise A e).
Proof. intros s r s' H. inversion H; subst. apply P_refl. Qed.

Lemma preserves_lift (A : Type) (x : result A) : preserves P (lift x).
Proof. intros s r s' H. inversion H; subst. apply P_refl. Qed.

Lemma preserves_query (A : Type) (q : Store -> A) : preserves P (query q).
Proof. intros s r s' H. inversion H; subst. apply P_refl. Qed.

Lemma preserves_query_result (A : Type) (q : Store -> result A) :
  preserves P (query_result q).
Proof. intros s r s' H. inversion H; subst. apply P_refl. Qed.

Lemma preserves_bind (A B : Type) (m : M A) (f : A -> M B) :
  preserves P m -> (forall a, preserves P (f a)) -> preserves P (bind m f).
Proof.
  intros Hm Hf s r s' H. rewrite bind_run in H.
  destruct (m s) as [[a|e] s1] eqn:Hms.
  - apply P_trans with s1; [apply (Hm _ _ _ Hms) | apply (Hf a _ _ _ H)].
  - inversion H; subst. apply (Hm _ _ _ Hms).
Qed.

Lemma preserves_when (b : bool) (m : M unit) :
  preserves P m -> preserves P (when b m).
Proof. intros Hm. destruct b; [exact Hm | apply preserves_ret]. Qed.

Lemma preserves_for_each (A S : Type) (l : list A) (body : A -> S -> M S) :
  (forall x acc, preserves P (body x acc)) ->
  forall acc, preserves P (for_each l body acc).
Proof.
  intros Hb. induction l as [|x r IH]; intros acc; simpl.
  - apply preserves_ret.
  - apply preserves_bind; [apply Hb | intros a; apply IH].
Qed.

Lemma preserves_delete_all (A : Type) (id : A -> nat) (del : nat -> M unit) (rows : list A) :
  (forall k, preserves P (del k)) -> preserves P (delete_all id del rows).
Proof.
  intros Hd. unfold delete_all. apply preserves_for_each. intros x acc. apply Hd.
Qed.
End Preserves.

Section Keeps.
Variable X : Type.
Variable f : Store -> X.

Lemma keeps_refl (s : State) : keeps f s s.
Proof. reflexivity. Qed.

Lemma keeps_trans (s1 s2 s3 : State) : keeps f s1 s2 -> keeps f s2 s3 -> keeps f s1 s3.
Proof. unfold keeps. congruence. Qed.

Lemma keeps_modify (g : Store -> Store) :
  (forall d, f (g d) = f d) -> preserves (keeps f) (modify g).
Proof.
  intros Hg s r s' H. inversion H; subst. unfold keeps. simpl. symmetry. apply Hg.
Qed.

Lemma keeps_emit (w : write) : preserves (keeps f) (emit w).
Proof. intros s r s' H. inversion H; subst. reflexivity. Qed.

Lemma keeps_maaslog_error (r : log_record) : preserves (keeps f) (maaslog_error r).
Proof. intros s r0 s' H. inversion H; subst. reflexivity. Qed.

Lemma keeps_ret (A : Type) (a : A) : preserves (keeps f) (ret a).
Proof. apply preserves_ret. apply keeps_refl. Qed.

Lemma keeps_raise (A : Type) (e : exn) : preserves (keeps f) (@raise A e).
Proof. apply preserves_raise. apply keeps_refl. Qed.

Lemma keeps_lift (A : Type) (x : result A) : preserves (keeps f) (lift x).
Proof. apply preserves_lift. apply keeps_refl. Qed.

Lemma keeps_query (A : Type) (q : Store -> A) : preserves (keeps f) (query q).
Proof. apply preserves_query. apply keeps_refl. Qed.

Lemma keeps_query_result (A : Type) (q : Store -> result A) :
  preserves (keeps f) (query_result q).
Proof. apply preserves_query_result. apply keeps_refl. Qed.

Lemma keeps_bind (A B : Type) (m : M A) (g : A -> M B) :
  preserves (keeps f) m -> (forall a, preserves (keeps f) (g a)) ->
  preserves (keeps f) (bind m g).
Proof. apply preserves_bind. apply keeps_trans. Qed.

Lemma keeps_when (b : bool) (m : M unit) :
  preserves (keeps f) m -> preserves (keeps f) (when b m).
Proof. apply preserves_when. apply keeps_refl. Qed.

Lemma keeps_for_each (A S : Type) (l : list A) (body : A -> S -> M S) :
  (forall x acc, preserves (keeps f) (body x acc)) ->
  forall acc, preserves (keeps f) (for_each l body acc).
Proof. apply preserves_for_each; [apply keeps_refl | apply keeps_trans]. Qed.

Lemma keeps_delete_all (A : Type) (id : A -> nat) (del : nat -> M unit) (rows : list A) :
  (forall k, preserves (keeps f) (del k)) -> preserves (keeps f) (delete_all id del rows).
Proof. apply preserves_delete_all; [apply keeps_refl | apply keeps_trans]. Qed.
End Keeps.

(** Taking a computation apart down to its reads and writes. *)
Ltac keeps_structure :=
  repeat match goal with
    | |- preserves _ (ret _) => apply keeps_ret
    | |- preserves _ (raise _) => apply keeps_raise
    | |- preserves _ (lift _) => apply keeps_lift
    | |- preserves _ (query _) => apply keeps_query
    | |- preserves _ (query_result _) => apply keeps_query_result
    | |- preserves _ (emit _) => apply keeps_emit
    | |- preserves _ (maaslog_error _) => apply keeps_maaslog_error
    | |- preserves _ (bind _ _) => apply keeps_bind; [ | intros ]
    | |- preserves _ (when _ _) => apply keeps_when
    | |- preserves _ (for_each _ _ _) => apply keeps_for_each; intros
    | |- preserves _ (delete_all _ _ _) => apply keeps_delete_all; intros
    | |- preserves _ (match ?x with _ => _ end) => destruct x
    end.

(** ** The tables each ORM call writes *)

Section Frames.
Variable X : Type.
Variable f : Store -> X.

Lemma keeps_fresh_id (Hn : ignores f set_next_id) : preserves (keeps f) fresh_id.
Proof.
  intros s r s' H. inversion H; subst. unfold keeps. simpl. symmetry. apply Hn.
Qed.

Lemma keeps_Interface_save (Hi : ignores f set_interfaces) (i : Interface) :
  preserves (keeps f) (Interface_save i).
Proof.
  unfold Interface_save. keeps_structure.
  apply keeps_modify. intros d. apply Hi.
Qed.

Lemma keeps_Interface_save_fields (Hi : ignores f set_interfaces) (i : Interface)
    (fields : list ifield) :
  preserves (keeps f) (Interface_save_fields i fields).
Proof.
  unfold Interface_save_fields. keeps_structure.
  apply keeps_modify. intros d. apply Hi.
Qed.

Lemma keeps_Interface_delete (Hi : ignores f set_interfaces) (Hl : ignores f set_links)
    (k : nat) :
  preserves (keeps f) (Interface_delete k).
Proof.
  unfold Interface_delete. keeps_structure.
  apply keeps_modify. intros d. unfold drop_interface. rewrite Hl, Hi. reflexivity.
Qed.

Lemma keeps_StaticIPAddress_delete (Ha : ignores f set_addresses) (Hl : ignores f set_links)
    (k : nat) :
  preserves (keeps f) (StaticIPAddress_delete k).
Proof.
  unfold StaticIPAddress_delete. keeps_structure.
  apply keeps_modify. intros d. unfold drop_address. rewrite Hl, Ha. reflexivity.
Qed.

Lemma keeps_StaticIPAddress_save (Ha : ignores f set_addresses) (a : StaticIPAddress) :
  preserves (keeps f) (StaticIPAddress_save a).
Proof.
  unfold StaticIPAddress_save. keeps_structure.
  apply keeps_modify. intros d. apply Ha.
Qed.

Lemma keeps_StaticIPAddress_create (Ha : ignores f set_addresses)
    (Hn : ignores f set_next_id) (t : IPADDRESS_TYPE.t) (ip : option IPAddress)
    (subnet : option nat) :
  preserves (keeps f) (StaticIPAddress_create t ip subnet).
Proof.
  unfold StaticIPAddress_create. keeps_structure.
  - apply keeps_fresh_id. assumption.
  - apply keeps_StaticIPAddress_save. assumption.
Qed.

Lemma keeps_StaticIPAddress_get_or_create (Ha : ignores f set_addresses)
    (Hn : ignores f set_next_id) (ip : IPAddress) (t : IPADDRESS_TYPE.t) (subnet : nat) :
  preserves (keeps f) (StaticIPAddress_get_or_create ip t subnet).
Proof.
  unfold StaticIPAddress_get_or_create. keeps_structure.
  apply keeps_StaticIPAddress_create; assumption.
Qed.

Lemma keeps_StaticIPAddress_update_or_create (Ha : ignores f set_addresses)
    (Hn : ignores f set_next_id) (ip : IPAddress) (t : IPADDRESS_TYPE.t) (subnet : nat) :
  preserves (keeps f) (StaticIPAddress_update_or_create ip t subnet).
Proof.
  unfold StaticIPAddress_update_or_create. keeps_structure.
  - apply keeps_StaticIPAddress_create; assumption.
  - apply keeps_StaticIPAddress_save; assumption.
Qed.

Lemma keeps_ip_addresses_add (Hl : ignores f set_links) (i a : nat) :
  preserves (keeps f) (ip_addresses_add i a).
Proof.
  unfold ip_addresses_add. keeps_structure.
  apply keeps_modify. intros d. apply Hl.
Qed.

Lemma keeps_ip_addresses_remove (Hl : ignores f set_links) (i a : nat) :
  preserves (keeps f) (ip_addresses_remove i a).
Proof.
  unfold ip_addresses_remove. keeps_structure.
  apply keeps_modify. intros d. apply Hl.
Qed.

Lemma keeps_Subnet_save (Hs : ignores f set_subnets) (x : Subnet) :
  preserves (keeps f) (Subnet_save x).
Proof.
  unfold Subnet_save. keeps_structure.
  apply keeps_modify. intros d. apply Hs.
Qed.

Lemma keeps_Subnet_get_or_create (Hs : ignores f set_subnets) (Hn : ignores f set_next_id)
    (c : IPNetwork) (vlan : nat) :
  preserves (keeps f) (Subnet_get_or_create c vlan).
Proof.
  unfold Subnet_get_or_create. keeps_structure.
  - apply keeps_fresh_id. assumption.
  - apply keeps_Subnet_save. assumption.
Qed.

Lemma keeps_VLAN_insert (Hv : ignores f set_vlans) (v : VLAN) :
  preserves (keeps f) (VLAN_insert v).
Proof.
  unfold VLAN_insert. keeps_structure.
  apply keeps_modify. intros d. apply Hv.
Qed.

Lemma keeps_VLAN_get_or_create (Hv : ignores f set_vlans) (Hn : ignores f set_next_id)
    (fabric vid : nat) :
  preserves (keeps f) (VLAN_get_or_create fabric vid).
Proof.
  unfold VLAN_get_or_create. keeps_structure.
  - apply keeps_fresh_id. assumption.
  - apply keeps_VLAN_insert. assumption.
Qed.

Lemma keeps_Fabric_insert (Hf : ignores f set_fabrics) (Hv : ignores f set_vlans)
    (Hn : ignores f set_next_id) (k : nat) :
  preserves (keeps f) (Fabric_insert k).
Proof.
  unfold Fabric_insert. keeps_structure.
  - apply keeps_modify. intros d. apply Hf.
  - apply keeps_fresh_id. assumption.
  - apply keeps_VLAN_insert. assumption.
Qed.

Lemma keeps_Fabric_create (Hf : ignores f set_fabrics) (Hv : ignores f set_vlans)
    (Hn : ignores f set_next_id) :
  preserves (keeps f) Fabric_create.
Proof.
  unfold Fabric_create. keeps_structure.
  - apply keeps_fresh_id. assumption.
  - apply keeps_Fabric_insert; assumption.
Qed.

Lemma keeps_Fabric_get_default_vlan (k : nat) :
  preserves (keeps f) (Fabric_get_default_vlan k).
Proof. unfold Fabric_get_default_vlan. keeps_structure. Qed.

Lemma keeps_VLAN_get_default_vlan (Hf : ignores f set_fabrics) (Hv : ignores f set_vlans)
    (Hn : ignores f set_next_id) :
  preserves (keeps f) VLAN_get_default_vlan.
Proof.
  unfold VLAN_get_default_vlan. keeps_structure.
  - apply keeps_Fabric_insert; assumption.
  - apply keeps_Fabric_get_default_vlan.
Qed.

Lemma keeps_Fabric_delete (Hf : ignores f set_fabrics) (Hv : ignores f set_vlans) (k : nat) :
  preserves (keeps f) (Fabric_delete k).
Proof.
  unfold Fabric_delete. keeps_structure.
  apply keeps_modify. intros d. rewrite Hv, Hf. reflexivity.
Qed.

Lemma keeps_Node_save (Hn : ignores f set_nodes) (n : Node) :
  preserves (keeps f) (Node_save n).
Proof.
  unfold Node_save. keeps_structure.
  apply keeps_modify. intros d. apply Hn.
Qed.
End Frames.

(** Taking a computation apart for a relation that is reflexive and
    transitive. *)
Ltac preserves_structure refl trans :=
  repeat match goal with
    | |- preserves _ (ret _) => apply preserves_ret; apply refl
    | |- preserves _ (raise _) => apply preserves_raise; apply refl
    | |- preserves _ (lift _) => apply preserves_lift; apply refl
    | |- preserves _ (query _) => apply preserves_query; apply refl
    | |- preserves _ (query_result _) => apply preserves_query_result; apply refl
    | |- preserves _ (bind _ _) => apply preserves_bind; [apply trans | | intros; cbv beta]
    | |- preserves _ (when _ _) => apply preserves_when; [apply refl | ]
    | |- preserves _ (for_each _ _ _) =>
        apply preserves_for_each; [apply refl | apply trans | intros; cbv beta]
    | |- preserves _ (delete_all _ _ _) =>
        apply preserves_delete_all; [apply refl | apply trans | intros; cbv beta]
    | |- preserves _ (match ?x with _ => _ end) => destruct x
    end.

(** ** [.first()] *)

Lemma first_by_fold (A : Type) (id : A -> nat) (l : list A) :
  forall (acc : option A) (x : A),
  fold_left (fun acc x =>
               match acc with
               | None => Some x
               | Some y => if id x <? id y then Some x else Some y
               end) l acc = Some x ->
  (In x l \/ acc = Some x)
  /\ (forall y, In y l \/ acc = Some y -> id x <= id y).
Proof.
  induction l as [|z r IH]; simpl; intros acc x H.
  - split; [right; exact H|]. intros y [[]|Hy]. rewrite H in Hy. inversion Hy. lia.
  - apply IH in H. destruct H as [Hin Hmin]. destruct acc as [w|].
    + destruct (id z <? id w) eqn:Hlt.
      * apply Nat.ltb_lt in Hlt. split.
        -- destruct Hin as [Hin|Hin]; [left; right; exact Hin|].
           inversion Hin; subst. left. left. reflexivity.
        -- intros y [[<-|Hy]|Hy].
           ++ apply Hmin. right. reflexivity.
           ++ apply Hmin. left. exact Hy.
           ++ inversion Hy; subst. specialize (Hmin z (or_intror eq_refl)). lia.
      * apply Nat.ltb_ge in Hlt. split.
        -- destruct Hin as [Hin|Hin]; [left; right; exact Hin | right; exact Hin].
        -- intros y [[<-|Hy]|Hy].
           ++ specialize (Hmin w (or_intror eq_refl)). lia.
           ++ apply Hmin. left. exact Hy.
           ++ apply Hmin. right. exact Hy.
    + split.
      * destruct Hin as [Hin|Hin]; [left; right; exact Hin|].
        inversion Hin; subst. left. left. reflexivity.
      * intros y [[<-|Hy]|Hy]; [apply Hmin; right; reflexivity | apply Hmin; left; exact Hy
                               | discriminate].
Qed.

(** [.first()] gives a row of the query, with the least key. *)
Lemma first_by_some (A : Type) (id : A -> nat) (l : list A) (x : A) :
  first_by id l = Some x -> In x l /\ forall y, In y l -> id x <= id y.
Proof.
  unfold first_by. intros H. apply first_by_fold in H. destruct H as [Hin Hmin]. split.
  - destruct Hin as [Hin|Hin]; [exact Hin | discriminate].
  - intros y Hy. apply Hmin. left. exact Hy.
Qed.

Lemma first_by_none (A : Type) (id : A -> nat) (l : list A) :
  first_by id l = None -> l = [].
Proof.
  unfold first_by. destruct l as [|z r]; [reflexivity|]. simpl.
  assert (H : forall (l : list A) (a : A),
             fold_left (fun acc x =>
                          match acc with
                          | None => Some x
                          | Some y => if id x <? id y then Some x else Some y
                          end) l (Some a) <> None).
  { induction l as [|y l IH]; simpl; intros a; [discriminate|].
    destruct (id y <? id a); apply IH. }
  intros Hf. exfalso. apply (H r z). exact Hf.
Qed.

(** * Part VI: the orders of [update_node_interfaces] *)

Lemma before_rev (K : Type) (x y : K) (l : list K) :
  before x y l -> before y x (rev l).
Proof.
  intros (l1 & l2 & l3 & ->). exists (rev l3), (rev l2), (rev l1).
  rewrite rev_app_distr. simpl. rewrite rev_app_distr. simpl.
  rewrite <- !app_assoc. reflexivity.
Qed.

Lemma parents_graph_keys (interfaces : list (string * config)) :
  keys (parents_graph interfaces) = map fst interfaces.
Proof.
  unfold keys, parents_graph. rewrite map_map. reflexivity.
Qed.

Lemma deletion_graph_keys (d : Store) (current : list nat) :
  keys (deletion_graph d current) = current.
Proof.
  unfold keys, deletion_graph. rewrite map_map. simpl. apply map_id.
Qed.

(** A way to see that a graph is acyclic: its dependencies go down a rank. *)
Lemma ranked_acyclic (K : Type) (data : graph K) (rank : K -> nat) :
  (forall n ps p, In (n, ps) data -> In p ps -> rank p < rank n) ->
  acyclic data.
Proof.
  intros Hr.
  assert (Hlt : forall a b, clos_trans K (fun a b => depends data b a) a b -> rank a < rank b).
  { intros a b H. induction H as [a b (ps & Hin & Hp)|a b c _ IH1 _ IH2].
    - apply (Hr b ps a); assumption.
    - lia. }
  intros n H. apply Hlt in H. lia.
Qed.

(** C3. For a desired state whose parent relation is acyclic the
    construction order exists, holds every interface once and strictly after
    each of its parents, and is the concatenation of the dependency levels,
    each in ascending (lexicographic) order of name; the deletion order over
    the interfaces left in [current_interfaces] exists when their stored
    parent relation is acyclic, and holds every such interface strictly
    after each of its children. *)
Theorem C3_dependency_orders
    (interfaces : list (string * config)) (d : Store) (current : list nat) :
  NoDup (map fst interfaces) ->
  acyclic (parents_graph interfaces) ->
  NoDup current ->
  acyclic (deletion_graph d current) ->
  (exists order levels,
      process_order interfaces = Ok order
      /\ (forall name cfg parent,
             In (name, cfg) interfaces -> In parent (config_parents cfg) ->
             before parent name order)
      /\ (forall name, In name (map fst interfaces) -> In name order)
      /\ NoDup order
      /\ sorttop String.eqb (parents_graph interfaces) = Ok levels
      /\ order = concat (map (sorted String.leb) levels)
      /\ Forall (Sorted (fun a b => String.leb a b = true)) (map (sorted String.leb) levels))
  /\ (exists order,
         deletion_order d current = Ok order
         /\ (forall child parent,
                In child current -> In parent current ->
                In parent (map if_id (parents_all child d)) ->
                before child parent order)
         /\ NoDup order).
Proof.
  intros Hnd Hac Hndc Hacd. split.
  - destruct (sorted_order_acyclic _ String.eqb String.eqb_spec String.leb _ Hac)
      as [order Horder].
    destruct (sorted_order_levels _ String.eqb String.leb _ _ String.leb_total Horder)
      as (levels & Hlv & Hcat & Hasc).
    exists order, levels. unfold process_order.
    rewrite <- parents_graph_keys in Hnd.
    repeat split; try assumption.
    + intros name cfg parent Hin Hp.
      apply (sorted_order_before _ String.eqb String.eqb_spec String.leb _ _ Hnd Horder
               name (config_parents cfg) parent).
      * unfold parents_graph. apply in_map_iff. exists (name, cfg). auto.
      * assumption.
      * intros ->. apply (Hac name). apply t_step.
        exists (config_parents cfg). split; [|assumption].
        unfold parents_graph. apply in_map_iff. exists (name, cfg). auto.
    + intros name Hin.
      apply (sorted_order_keys _ String.eqb String.eqb_spec String.leb _ _ Horder).
      rewrite parents_graph_keys. assumption.
    + apply (sorted_order_NoDup _ String.eqb String.eqb_spec String.leb _ _ Hnd Horder).
  - destruct (sorted_order_acyclic _ Nat.eqb Nat.eqb_spec Nat.leb _ Hacd) as [order Horder].
    exists (rev order). unfold deletion_order. rewrite Horder.
    rewrite <- (deletion_graph_keys d current) in Hndc.
    repeat split.
    + intros child parent Hc Hp Hpar. apply before_rev.
      set (ps := map if_id (filter (fun q => existsb (Nat.eqb (if_id q)) current)
                                   (parents_all child d))).
      assert (Hentry : In (child, ps) (deletion_graph d current)).
      { unfold deletion_graph. apply in_map_iff. exists child. auto. }
      assert (Hps : In parent ps).
      { unfold ps. apply in_map_iff in Hpar. destruct Hpar as [q [Hq Hin]].
        apply in_map_iff. exists q. split; [assumption|].
        apply filter_In. split; [assumption|].
        apply existsb_exists. exists parent. split; [assumption|].
        subst parent. apply Nat.eqb_refl. }
      apply (sorted_order_before _ Nat.eqb Nat.eqb_spec Nat.leb _ _ Hndc Horder child ps parent);
        try assumption.
      intros ->. apply (Hacd child). apply t_step. exists ps. auto.
    + apply NoDup_rev. 
      apply (sorted_order_NoDup _ Nat.eqb Nat.eqb_spec Nat.leb _ _ Hndc Horder).
Qed.

(** * Part VII: unknown interface types *)

Lemma lookup_In (name : string) (interfaces : list (string * config)) (cfg : config) :
  lookup name interfaces = Some cfg -> In name (map fst interfaces).
Proof.
  induction interfaces as [|[n c] r IH]; simpl; [discriminate|].
  destruct (String.eqb_spec n name) as [->|Hne]; intros H; [left; reflexivity|].
  right. apply IH. assumption.
Qed.

(** A loop whose body raises at some element, whatever it is given, raises. *)
Lemma for_each_raises (A S : Type) (l : list A) (body : A -> S -> M S) (x : A) :
  In x l ->
  (forall acc s, exists e s', body x acc s = (Raise e, s')) ->
  forall acc s, exists e s', for_each l body acc s = (Raise e, s').
Proof.
  intros Hin Hx. induction l as [|y r IH]; [contradiction|].
  intros acc s. simpl. unfold bind.
  destruct Hin as [->|Hin].
  - destruct (Hx acc s) as (e & s' & ->). eauto.
  - destruct (body y acc s) as [[acc'|e] s']; [apply IH; assumption | eauto].
Qed.

Lemma update_interface_unknown (node : Node) (name : string) (cfg : config)
    (hints : option (list hint)) (s : State) :
  known_type (config_type cfg) = false ->
  update_interface node name cfg true hints s = (Raise (ValueError "Unkwown interface type"), s)
  /\ update_interface node name cfg false hints s = (Ok None, s).
Proof.
  unfold known_type. simpl. rewrite !orb_false_iff.
  intros (Hp & Hv & Hb & Hbr & _).
  unfold update_interface. rewrite Hp, Hv, Hb, Hbr. simpl. split; reflexivity.
Qed.

(** C2 (as amended). With [create_fabrics] true, a desired state that holds
    an interface of a type other than physical, vlan, bond and bridge makes
    [update_node_interfaces] raise, and the transaction leaves the tables as
    they were, with no write committed; with [create_fabrics] false
    [update_interface] skips such an interface without an error and without
    touching anything. *)
Theorem C2_unknown_type_aborts
    (node : Node) (interfaces : list (string * config)) (hints : option (list hint))
    (name : string) (cfg : config) (s : State) :
  lookup name interfaces = Some cfg ->
  known_type (config_type cfg) = false ->
  (exists e s', update_node_interfaces node interfaces hints true s = (Raise e, s')
                /\ db s' = db s /\ writes s' = writes s)
  /\ update_interface node name cfg false hints s = (Ok None, s).
Proof.
  intros Hl Hk. split; [|apply update_interface_unknown; assumption].
  assert (Hbody : exists e s', update_node_interfaces_body node interfaces hints true s
                               = (Raise e, s')).
  { unfold update_node_interfaces_body, bind, query, lift.
    destruct (process_order interfaces) as [order|e] eqn:Ho; [|eauto].
    destruct (for_each_raises _ _ order (process_interface node interfaces hints true) name)
      with (acc := node_interface_ids node (db s)) (s := s) as (e & s1 & Hr).
    - apply (sorted_order_keys _ String.eqb String.eqb_spec String.leb _ _ Ho).
      rewrite parents_graph_keys. apply (lookup_In _ _ _ Hl).
    - intros acc s1. unfold process_interface. rewrite Hl. unfold bind, ret.
      rewrite (proj1 (update_interface_unknown node name cfg hints s1 Hk)). eauto.
    - rewrite Hr. eauto. }
  destruct Hbody as (e & s' & Hbody).
  unfold update_node_interfaces, transactional. rewrite Hbody.
  exists e, (mkState (db s) (writes s) (maaslog s')). auto.
Qed.

(** * Part VIII: the VLAN of the addresses, and the parents of a bond or bridge *)

Lemma hd_error_rev_cons (A : Type) (x : A) (l : list A) :
  hd_error (rev (x :: l)) = match hd_error (rev l) with
                            | Some y => Some y
                            | None => Some x
                            end.
Proof.
  simpl. destruct (rev l) as [|y r]; reflexivity.
Qed.

Lemma guess_best_vlan_loop_spec (d : Store) (ip_addresses : list StaticIPAddress) :
  resolvable d ip_addresses ->
  forall second_best,
    guess_best_vlan_loop d second_best ip_addresses
    = Ok (match find (is_alloc_type IPADDRESS_TYPE.STICKY) ip_addresses with
          | Some a => vlan_of_address d a
          | None =>
              match hd_error (rev (filter (is_alloc_type IPADDRESS_TYPE.DISCOVERED)
                                          ip_addresses)) with
              | Some a => vlan_of_address d a
              | None => second_best
              end
          end).
Proof.
  induction ip_addresses as [|a r IH]; intros Hres sb; [reflexivity|].
  assert (Hres' : resolvable d r) by (intros x Hx; apply Hres; right; assumption).
  specialize (IH Hres').
  cbn [guess_best_vlan_loop find filter].
  destruct (sip_alloc_type a) eqn:Ha.
  - assert (Hs : is_alloc_type IPADDRESS_TYPE.STICKY a = true)
      by (unfold is_alloc_type; rewrite Ha; reflexivity).
    rewrite Hs. destruct (Hres a) as [v Hv]; [left; reflexivity | congruence|].
    unfold vlan_of_address. rewrite Hv. reflexivity.
  - assert (Hs : is_alloc_type IPADDRESS_TYPE.STICKY a = false)
      by (unfold is_alloc_type; rewrite Ha; reflexivity).
    assert (Hd : is_alloc_type IPADDRESS_TYPE.DISCOVERED a = false)
      by (unfold is_alloc_type; rewrite Ha; reflexivity).
    rewrite Hs, Hd. apply IH.
  - assert (Hs : is_alloc_type IPADDRESS_TYPE.STICKY a = false)
      by (unfold is_alloc_type; rewrite Ha; reflexivity).
    assert (Hd : is_alloc_type IPADDRESS_TYPE.DISCOVERED a = true)
      by (unfold is_alloc_type; rewrite Ha; reflexivity).
    rewrite Hs, Hd. destruct (Hres a) as [v Hv]; [left; reflexivity | congruence|].
    rewrite Hv, IH, hd_error_rev_cons.
    destruct (find (is_alloc_type IPADDRESS_TYPE.STICKY) r) as [b|]; [reflexivity|].
    destruct (hd_error (rev (filter (is_alloc_type IPADDRESS_TYPE.DISCOVERED) r))) as [b|];
      [reflexivity|].
    unfold vlan_of_address. rewrite Hv. reflexivity.
Qed.

(** [guess_best_vlan_from_ip_addresses] returns the VLAN of the preferred
    address: of the first STICKY one, else of the last DISCOVERED one. *)
Lemma guess_best_vlan_spec (d : Store) (node : Node) (ip_addresses : list StaticIPAddress) :
  resolvable d ip_addresses ->
  guess_best_vlan_from_ip_addresses d node ip_addresses = Ok (inferable_vlan d ip_addresses).
Proof.
  intros Hres. unfold guess_best_vlan_from_ip_addresses.
  rewrite (guess_best_vlan_loop_spec _ _ Hres None).
  unfold inferable_vlan, preferred_address.
  destruct (find (is_alloc_type IPADDRESS_TYPE.STICKY) ip_addresses); [reflexivity|].
  destruct (hd_error (rev (filter (is_alloc_type IPADDRESS_TYPE.DISCOVERED) ip_addresses)));
    reflexivity.
Qed.

Lemma find_id_upsert_same (A : Type) (id : A -> nat) (x : A) (l : list A) :
  find_id id (id x) (upsert id x l) = Some x.
Proof.
  unfold upsert, find_id, has_id.
  destruct (existsb (fun y => id y =? id x) l) eqn:He.
  - induction l as [|y r IH]; simpl in *; [discriminate|].
    destruct (id y =? id x) eqn:Hy; simpl.
    + rewrite Nat.eqb_refl. reflexivity.
    + rewrite Hy. apply IH. assumption.
  - induction l as [|y r IH]; simpl in *.
    + rewrite Nat.eqb_refl. reflexivity.
    + apply orb_false_iff in He. destruct He as [Hy Hr]. rewrite Hy. apply IH. assumption.
Qed.

Lemma find_id_upsert_other (A : Type) (id : A -> nat) (x : A) (l : list A) (k : nat) :
  k <> id x -> find_id id k (upsert id x l) = find_id id k l.
Proof.
  intros Hk. unfold upsert, find_id, has_id.
  destruct (existsb (fun y => id y =? id x) l).
  - induction l as [|y r IH]; simpl; [reflexivity|].
    destruct (id y =? id x) eqn:Hy.
    + apply Nat.eqb_eq in Hy.
      assert (Hx : (id x =? k) = false) by (apply Nat.eqb_neq; congruence).
      assert (Hyk : (id y =? k) = false) by (apply Nat.eqb_neq; congruence).
      rewrite Hx, Hyk. apply IH.
    + destruct (id y =? k); [reflexivity | apply IH].
  - induction l as [|y r IH]; simpl.
    + assert (Hx : (id x =? k) = false) by (apply Nat.eqb_neq; congruence).
      rewrite Hx. reflexivity.
    + destruct (id y =? k); [reflexivity | apply IH].
Qed.

Lemma option_nat_eqb_eq (a b : option nat) : option_nat_eqb a b = true <-> a = b.
Proof.
  destruct a as [x|], b as [y|]; simpl; try (split; congruence).
  rewrite Nat.eqb_eq. split; congruence.
Qed.

Lemma Interface_save_run (i : Interface) (s : State) :
  exists ws, Interface_save i s
             = (Ok tt, mkState (set_interfaces (upsert if_id i (interfaces (db s))) (db s))
                               ws (maaslog s)).
Proof.
  unfold Interface_save, bind, query, modify, emit. simpl. eexists. reflexivity.
Qed.

(** Saving an interface object that is on VLAN [lv] puts its row on [lv] and
    takes no other row off it. *)
Lemma Interface_save_row_vlan (i : Interface) (lv : nat) (s : State) :
  if_vlan_id i = Some lv ->
  exists s', Interface_save i s = (Ok tt, s')
             /\ row_vlan (db s') (if_id i) = Some (Some lv)
             /\ (forall k, row_vlan (db s) k = Some (Some lv) ->
                           row_vlan (db s') k = Some (Some lv)).
Proof.
  intros Hv. destruct (Interface_save_run i s) as [ws ->].
  eexists. split; [reflexivity|]. unfold row_vlan. simpl. split.
  - rewrite find_id_upsert_same. simpl. congruence.
  - intros k Hk. destruct (Nat.eq_dec k (if_id i)) as [->|Hne].
    + rewrite find_id_upsert_same. simpl. congruence.
    + rewrite find_id_upsert_other; assumption.
Qed.

(** The loop of [update_parent_vlans] over the parents. *)
Lemma update_parent_vlans_loop (lv : nat) (parent_nics : list Interface) :
  forall s,
    (forall p, In p parent_nics -> if_vlan_id p = Some lv ->
               row_vlan (db s) (if_id p) = Some (Some lv)) ->
    exists s',
      for_each parent_nics
        (fun parent_nic _ =>
           when (negb (option_nat_eqb (if_vlan_id parent_nic) (Some lv)))
                (Interface_save (with_vlan (Some lv) parent_nic))) tt s = (Ok tt, s')
      /\ (forall k, row_vlan (db s) k = Some (Some lv) -> row_vlan (db s') k = Some (Some lv))
      /\ (forall p, In p parent_nics -> row_vlan (db s') (if_id p) = Some (Some lv)).
Proof.
  induction parent_nics as [|p r IH]; intros s Hsync.
  - exists s. simpl. unfold ret. repeat split; auto. intros p [].
  - cbn [for_each]. rewrite bind_run.
    assert (Hstep : exists s1,
               when (negb (option_nat_eqb (if_vlan_id p) (Some lv)))
                    (Interface_save (with_vlan (Some lv) p)) s = (Ok tt, s1)
               /\ row_vlan (db s1) (if_id p) = Some (Some lv)
               /\ (forall k, row_vlan (db s) k = Some (Some lv) ->
                             row_vlan (db s1) k = Some (Some lv))).
    { destruct (option_nat_eqb (if_vlan_id p) (Some lv)) eqn:He; simpl.
      - apply option_nat_eqb_eq in He. exists s. unfold ret. repeat split; auto.
        apply Hsync; [left; reflexivity | assumption].
      - destruct (Interface_save_row_vlan (with_vlan (Some lv) p) lv s eq_refl)
          as (s1 & Hs1 & Hrow & Hmono).
        exists s1. auto. }
    destruct Hstep as (s1 & -> & Hrow & Hmono).
    destruct (IH s1) as (s' & Hrun & Hmono' & Hall).
    { intros q Hq Hv. apply Hmono. apply Hsync; [right|]; assumption. }
    exists s'. split; [exact Hrun|]. split.
    + intros k Hk. auto.
    + intros q [<-|Hq]; auto.
Qed.

(** C7. The VLAN inferred from the updated addresses of a bond or bridge is
    that of the first STICKY address of the candidates, else that of the
    last DISCOVERED one, else none.  When there is one,
    [update_parent_vlans] puts the child and every parent on it, whatever
    VLAN a parent had; when there is none, nothing is written. *)
Theorem C7_parent_vlans
    (node : Node) (interface : Interface) (parent_nics : list Interface)
    (update_ip_addresses : list StaticIPAddress) (s : State) :
  resolvable (db s) update_ip_addresses ->
  (forall p, In p parent_nics -> find_id if_id (if_id p) (interfaces (db s)) = Some p) ->
  guess_best_vlan_from_ip_addresses (db s) node update_ip_addresses
  = Ok (inferable_vlan (db s) update_ip_addresses)
  /\ match inferable_vlan (db s) update_ip_addresses with
     | Some lv =>
         exists s',
           update_parent_vlans node interface parent_nics update_ip_addresses s
           = (Ok (with_vlan (Some lv) interface), s')
           /\ row_vlan (db s') (if_id interface) = Some (Some lv)
           /\ (forall p, In p parent_nics -> row_vlan (db s') (if_id p) = Some (Some lv))
     | None =>
         update_parent_vlans node interface parent_nics update_ip_addresses s
         = (Ok interface, s)
     end.
Proof.
  intros Hres Hsync.
  pose proof (guess_best_vlan_spec (db s) node update_ip_addresses Hres) as Hg.
  split; [exact Hg|].
  unfold update_parent_vlans. rewrite bind_run, query_result_run, Hg.
  destruct (inferable_vlan (db s) update_ip_addresses) as [lv|]; [|reflexivity].
  destruct (Interface_save_row_vlan (with_vlan (Some lv) interface) lv s eq_refl)
    as (s1 & Hs1 & Hrow & Hmono).
  rewrite bind_run, Hs1.
  destruct (update_parent_vlans_loop lv parent_nics s1) as (s' & Hrun & Hmono' & Hall).
  { intros p Hp Hv. apply Hmono. unfold row_vlan. rewrite (Hsync p Hp). simpl. congruence. }
  rewrite bind_run, Hrun. exists s'. rewrite ret_run. repeat split; auto.
Qed.

(** * Part IX: hints and the VLAN of a physical interface *)






(** * Part X: a static address and the interfaces it is linked to *)

Lemma linked_iff (d : Store) (i a : nat) :
  linked d i a = true <-> In (i, a) (links d).
Proof.
  unfold linked. rewrite existsb_exists. split.
  - intros [[x y] [Hin H]]. simpl in H. apply andb_true_iff in H.
    destruct H as [Hx Hy]. apply Nat.eqb_eq in Hx, Hy. subst. assumption.
  - intros Hin. exists (i, a). simpl. rewrite !Nat.eqb_refl. auto.
Qed.

Lemma links_shrink_refl (s : State) : links_shrink s s.
Proof. intros j k H. exact H. Qed.

Lemma links_shrink_trans (s1 s2 s3 : State) :
  links_shrink s1 s2 -> links_shrink s2 s3 -> links_shrink s1 s3.
Proof. intros H12 H23 j k H. apply H12, H23, H. Qed.

Lemma ip_addresses_remove_run (i a : nat) (s : State) :
  exists s', ip_addresses_remove i a s = (Ok tt, s')
             /\ interfaces (db s') = interfaces (db s)
             /\ addresses (db s') = addresses (db s)
             /\ links_shrink s s'
             /\ linked (db s') i a = false.
Proof.
  unfold ip_addresses_remove. rewrite bind_run, query_run.
  destruct (linked (db s) i a) eqn:Hl; cbn [when].
  - eexists. split; [reflexivity|]. simpl. repeat split.
    + intros j k H. apply linked_iff in H. simpl in H. apply filter_In in H.
      apply linked_iff. tauto.
    + apply not_true_is_false. intros H.
      apply linked_iff in H. simpl in H. apply filter_In in H. destruct H as [_ H].
      simpl in H. rewrite !Nat.eqb_refl in H. discriminate.
  - exists s. rewrite ret_run. repeat split; auto. apply links_shrink_refl.
Qed.

(** The last loop of [update_links] always goes through. *)
Lemma unlink_all_run (interface : Interface) (rows : list StaticIPAddress) :
  forall s,
  exists s',
    for_each rows (fun a _ => unlink_ip_address interface a) tt s = (Ok tt, s')
    /\ interfaces (db s') = interfaces (db s)
    /\ addresses (db s') = addresses (db s)
    /\ links_shrink s s'
    /\ (forall a, In a rows -> linked (db s') (if_id interface) (sip_id a) = false).
Proof.
  induction rows as [|r0 rows IH]; intros s.
  - exists s. simpl. rewrite ret_run. repeat split; auto.
    + apply links_shrink_refl.
    + intros a [].
  - cbn [for_each]. rewrite bind_run. unfold unlink_ip_address at 1.
    destruct (ip_addresses_remove_run (if_id interface) (sip_id r0) s)
      as (s1 & -> & Hi1 & Ha1 & Hs1 & Hl1).
    destruct (IH s1) as (s' & Hrun & Hi & Ha & Hs & Hl).
    exists s'. split; [exact Hrun|]. repeat split.
    + congruence.
    + congruence.
    + apply links_shrink_trans with s1; assumption.
    + intros a [<-|Hin]; [|apply Hl; exact Hin].
      destruct (linked (db s') (if_id interface) (sip_id r0)) eqn:H; [|reflexivity].
      apply Hs in H. congruence.
Qed.

(** The loop of [update_links] over the interfaces an address is attached
    to: the interfaces of other nodes lose the address. *)
Lemma detach_from_other_nodes (node : Node) (a : nat) (attached : list Interface) :
  forall s,
  exists s',
    for_each attached
      (fun attached_nic _ =>
         when (negb (if_node_id attached_nic =? node_id node))
              (ip_addresses_remove (if_id attached_nic) a)) tt s = (Ok tt, s')
    /\ interfaces (db s') = interfaces (db s)
    /\ addresses (db s') = addresses (db s)
    /\ links_shrink s s'
    /\ (forall nic, In nic attached -> if_node_id nic <> node_id node ->
                    linked (db s') (if_id nic) a = false).
Proof.
  induction attached as [|nic r IH]; intros s.
  - exists s. simpl. rewrite ret_run. repeat split; auto.
    + apply links_shrink_refl.
    + intros nic [].
  - cbn [for_each]. rewrite bind_run.
    assert (Hstep : exists s1,
               when (negb (if_node_id nic =? node_id node))
                    (ip_addresses_remove (if_id nic) a) s = (Ok tt, s1)
               /\ interfaces (db s1) = interfaces (db s)
               /\ addresses (db s1) = addresses (db s)
               /\ links_shrink s s1
               /\ (if_node_id nic <> node_id node -> linked (db s1) (if_id nic) a = false)).
    { destruct (if_node_id nic =? node_id node) eqn:He; cbn [negb when].
      - apply Nat.eqb_eq in He. exists s. rewrite ret_run. repeat split; auto.
        + apply links_shrink_refl.
        + intros Hne. contradiction.
      - destruct (ip_addresses_remove_run (if_id nic) a s) as (s1 & H1 & Hi & Ha & Hs & Hl).
        exists s1. repeat split; auto. }
    destruct Hstep as (s1 & -> & Hi1 & Ha1 & Hs1 & Hl1).
    destruct (IH s1) as (s' & Hrun & Hi & Ha & Hs & Hl).
    exists s'. split; [exact Hrun|]. repeat split.
    + congruence.
    + congruence.
    + apply links_shrink_trans with s1; assumption.
    + intros x [<-|Hx] Hne.
      * destruct (linked (db s') (if_id nic) a) eqn:H; [|reflexivity].
        apply Hs in H. rewrite (Hl1 Hne) in H. discriminate.
      * apply Hl; assumption.
Qed.

Lemma StaticIPAddress_save_run (a : StaticIPAddress) (s : State) :
  exists ws, StaticIPAddress_save a s
             = (Ok tt, mkState (set_addresses (upsert sip_id a (addresses (db s))) (db s))
                               ws (maaslog s)).
Proof.
  unfold StaticIPAddress_save. rewrite bind_run, query_run, bind_run. eexists. reflexivity.
Qed.

Lemma ip_addresses_add_run (i a : nat) (s : State) :
  exists s', ip_addresses_add i a s = (Ok tt, s')
             /\ interfaces (db s') = interfaces (db s)
             /\ addresses (db s') = addresses (db s)
             /\ (forall j k, linked (db s') j k = true <->
                             linked (db s) j k = true \/ (j = i /\ k = a)).
Proof.
  unfold ip_addresses_add. rewrite bind_run, query_run.
  destruct (linked (db s) i a) eqn:Hl; cbn [negb when].
  - exists s. rewrite ret_run. repeat split; auto.
    intros [H|[-> ->]]; assumption.
  - eexists. split; [reflexivity|]. simpl. repeat split.
    + intros H. apply linked_iff in H. simpl in H. apply in_app_iff in H.
      destruct H as [H|[H|[]]]; [left; apply linked_iff; assumption|].
      inversion H; subst. right. auto.
    + intros H. apply linked_iff. simpl. apply in_app_iff.
      destruct H as [H|[-> ->]]; [left; apply linked_iff; assumption | right; left; reflexivity].
Qed.

Lemma IPAddress_eqb_refl (ip : IPAddress) : IPAddress_eqb ip ip = true.
Proof. unfold IPAddress_eqb. rewrite !Z.eqb_refl. reflexivity. Qed.

Lemma StaticIPAddress_get_or_create_ip (ip : IPAddress) (t : IPADDRESS_TYPE.t) (subnet : nat)
    (s s1 : State) (a : StaticIPAddress) (created : bool) :
  StaticIPAddress_get_or_create ip t subnet s = (Ok (a, created), s1) ->
  sip_ip_is ip a = true.
Proof.
  unfold StaticIPAddress_get_or_create. rewrite bind_run, query_run.
  destruct (filter (sip_ip_is ip) (addresses (db s))) as [|x [|y r]] eqn:Hf.
  - intros H. apply bind_inv in H. destruct H as (a0 & s2 & Hc & H).
    rewrite ret_run in H. inversion H; subst.
    unfold StaticIPAddress_create in Hc.
    apply bind_inv in Hc. destruct Hc as (k & s3 & _ & Hc).
    apply bind_inv in Hc. destruct Hc as ([] & s4 & _ & Hc).
    rewrite ret_run in Hc. inversion Hc; subst.
    unfold sip_ip_is. simpl. apply IPAddress_eqb_refl.
  - rewrite ret_run. intros H. inversion H; subst.
    assert (Hin : In a (filter (sip_ip_is ip) (addresses (db s1))))
      by (rewrite Hf; left; reflexivity).
    apply filter_In in Hin. tauto.
  - discriminate.
Qed.

Lemma set_add_has_id (a : StaticIPAddress) (l : list StaticIPAddress) :
  has_id sip_id (sip_id a) (set_add a l) = true.
Proof.
  unfold set_add. destruct (has_id sip_id (sip_id a) l) eqn:H; [exact H|].
  unfold has_id. rewrite existsb_app. simpl. rewrite Nat.eqb_refl.
  rewrite orb_true_r. reflexivity.
Qed.

(** C5 (as amended). A static link that [update_links] processes (its
    subnet not being refused for its VLAN) leaves a STICKY address for the
    link's IP in the store, among the updated addresses and linked to the
    interface being reconciled; of the other interfaces it was linked to,
    those of other nodes have lost it, those of the same node keep it. *)
Theorem C5_static_address_detached_from_other_nodes
    (node : Node) (interface : Interface) (v : nat) (force_vlan : bool) (l : link)
    (ip_network : IPNetwork) (subnet : Subnet) (created : bool)
    (acc acc' : list StaticIPAddress * list StaticIPAddress) (s s1 s' : State) :
  link_mode l = "static"%string ->
  link_address l = Some ip_network ->
  Subnet_get_or_create (cidr ip_network) v s = (Ok (subnet, created), s1) ->
  force_vlan && vlan_mismatch subnet interface = false ->
  update_link node interface (Some v) force_vlan l acc s = (Ok acc', s') ->
  exists a,
    find_id sip_id (sip_id a) (addresses (db s')) = Some a
    /\ sip_alloc_type a = IPADDRESS_TYPE.STICKY
    /\ sip_ip_is (net_ip ip_network) a = true
    /\ has_id sip_id (sip_id a) (snd acc') = true
    /\ linked (db s') (if_id interface) (sip_id a) = true
    /\ (forall i, In i (interfaces (db s')) ->
                  linked (db s') (if_id i) (sip_id a) = true ->
                  if_id i = if_id interface \/ if_node_id i = node_id node).
Proof.
  intros Hmode Haddr Hsub Hskip Hrun.
  unfold update_link in Hrun. rewrite Hmode in Hrun. cbn [String.eqb Ascii.eqb Bool.eqb] in Hrun.
  unfold update_link_static in Hrun. destruct acc as [current updated].
  rewrite Haddr in Hrun.
  rewrite bind_run in Hrun. cbn [bound] in Hrun. rewrite ret_run in Hrun.
  rewrite bind_run, Hsub, Hskip in Hrun.
  (* the gateway *)
  apply bind_inv in Hrun. destruct Hrun as (subnet' & s2 & _ & Hrun).
  (* the address: among the current ones, or fetched, or created *)
  apply bind_inv in Hrun. destruct Hrun as ([a0 current'] & s3 & Hsel & Hrun).
  assert (Hip : sip_ip_is (net_ip ip_network) a0 = true).
  { destruct (get_ip_address_from_ip_addresses node (net_ip ip_network) current)
      as [a|] eqn:Hcur.
    - rewrite ret_run in Hsel. inversion Hsel; subst.
      apply find_some in Hcur. tauto.
    - apply bind_inv in Hsel. destruct Hsel as ([a c] & s4 & Hgc & Hsel).
      pose proof (StaticIPAddress_get_or_create_ip _ _ _ _ _ _ _ Hgc) as Ha.
      destruct c.
      + rewrite ret_run in Hsel. inversion Hsel; subst. exact Ha.
      + apply bind_inv in Hsel. destruct Hsel as ([] & s5 & _ & Hsel).
        rewrite ret_run in Hsel. inversion Hsel; subst. exact Ha. }
  (* the interfaces of other nodes lose it *)
  apply bind_inv in Hrun. destruct Hrun as (attached & s3' & Hq & Hrun).
  rewrite query_run in Hq. inversion Hq; subst attached s3'. clear Hq.
  apply bind_inv in Hrun. destruct Hrun as ([] & s4 & Hloop & Hrun).
  destruct (detach_from_other_nodes node (sip_id a0) (interface_set_all (sip_id a0) (db s3)) s3)
    as (s4' & Hloop' & Hi4 & Ha4 & Hs4 & Hl4).
  rewrite Hloop' in Hloop. inversion Hloop; subst s4'. clear Hloop.
  (* it is saved as STICKY and linked to the interface *)
  apply bind_inv in Hrun. destruct Hrun as ([] & s5 & Hsave & Hrun).
  destruct (StaticIPAddress_save_run (make_sticky subnet' a0) s4) as [ws Hsave'].
  rewrite Hsave' in Hsave. inversion Hsave; subst s5. clear Hsave Hsave'.
  apply bind_inv in Hrun. destruct Hrun as ([] & s6 & Hadd & Hrun).
  rewrite ret_run in Hrun. inversion Hrun; subst acc' s6. clear Hrun.
  destruct (ip_addresses_add_run (if_id interface) (sip_id a0)
              (mkState (set_addresses (upsert sip_id (make_sticky subnet' a0)
                                         (addresses (db s4))) (db s4)) ws (maaslog s4)))
    as (s6 & Hadd' & Hi6 & Ha6 & Hl6).
  rewrite Hadd' in Hadd. inversion Hadd; subst s6. clear Hadd Hadd'.
  exists (make_sticky subnet' a0). simpl in Hi6, Ha6. repeat split.
  - rewrite Ha6. apply (find_id_upsert_same _ sip_id (make_sticky subnet' a0)).
  - exact Hip.
  - apply set_add_has_id.
  - apply Hl6. right. auto.
  - intros i Hin Hlinked. apply Hl6 in Hlinked. cbn [make_sticky sip_id] in Hlinked.
    destruct Hlinked as [Hlinked|[Hi _]]; [|left; exact Hi].
    destruct (Nat.eq_dec (if_node_id i) (node_id node)) as [He|Hne]; [right; exact He|].
    exfalso.
    assert (Hlinked4 : linked (db s4) (if_id i) (sip_id a0) = true) by exact Hlinked.
    assert (Hatt : In i (interface_set_all (sip_id a0) (db s3))).
    { unfold interface_set_all. apply filter_In. split.
      - rewrite <- Hi4, <- Hi6. exact Hin.
      - apply Hs4. exact Hlinked4. }
    rewrite (Hl4 i Hatt Hne) in Hlinked4. discriminate.
Qed.

(** * Part XI: a MAC address that moves to another node *)

Lemma same_but_vlan_refl (i : Interface) : same_but_vlan i i.
Proof. reflexivity. Qed.

Lemma same_but_vlan_with_vlan (v : option nat) (i j : Interface) :
  same_but_vlan i j -> same_but_vlan (with_vlan v i) j.
Proof. unfold same_but_vlan. intros H. rewrite <- H. reflexivity. Qed.

Lemma same_but_vlan_fields (i j : Interface) :
  same_but_vlan i j ->
  if_id i = if_id j /\ if_node_id i = if_node_id j /\ if_name i = if_name j
  /\ if_enabled i = if_enabled j.
Proof.
  unfold same_but_vlan, with_vlan. intros H. inversion H. auto.
Qed.

Lemma add_field_In (f g : ifield) (fields : list ifield) :
  In f (add_field g fields) <-> f = g \/ In f fields.
Proof.
  unfold add_field.
  destruct (existsb _ fields) eqn:He.
  - split; [auto|]. intros [->|H]; [|exact H].
    apply existsb_exists in He. destruct He as [x [Hin Hx]].
    destruct g, x; try discriminate; exact Hin.
  - rewrite in_app_iff. simpl. split; [intros [H|[H|[]]]; auto | intros [H|H]; auto].
Qed.

(** The object [update_links] hands back is the one it was given, possibly
    with the VLAN of a fabric it created. *)
Lemma update_links_object (node : Node) (interface : Interface) (links : list link)
    (force_vlan use_interface_vlan : bool) (s s' : State)
    (i' : Interface) (updated : list StaticIPAddress) :
  update_links node interface links force_vlan use_interface_vlan s = (Ok (i', updated), s') ->
  same_but_vlan i' interface.
Proof.
  unfold update_links. intros H.
  apply bind_inv in H. destruct H as (discovered & s1 & _ & H).
  apply bind_inv in H. destruct H as ([] & s2 & _ & H).
  apply bind_inv in H. destruct H as (current & s3 & _ & H).
  apply bind_inv in H. destruct H as ([i1 vlan] & s4 & Hsel & H).
  apply bind_inv in H. destruct H as ([cur upd] & s5 & _ & H).
  apply bind_inv in H. destruct H as ([] & s6 & _ & H).
  rewrite ret_run in H. inversion H; subst. clear H.
  destruct (if use_interface_vlan then if_vlan_id interface else None) as [v|].
  - rewrite ret_run in Hsel. inversion Hsel. apply same_but_vlan_refl.
  - destruct links as [|l r].
    + rewrite ret_run in Hsel. inversion Hsel. apply same_but_vlan_refl.
    + apply bind_inv in Hsel. destruct Hsel as (fabric & s7 & _ & Hsel).
      apply bind_inv in Hsel. destruct Hsel as (vl & s8 & _ & Hsel).
      apply bind_inv in Hsel. destruct Hsel as ([] & s9 & _ & Hsel).
      rewrite ret_run in Hsel. inversion Hsel.
      apply same_but_vlan_with_vlan, same_but_vlan_refl.
Qed.

(** Without links, and with no address linked to the interface,
    [update_links] does nothing at all. *)
Lemma update_links_nothing_to_do (node : Node) (interface : Interface)
    (force_vlan use_interface_vlan : bool) (s : State) :
  ip_addresses_all (if_id interface) (db s) = [] ->
  update_links node interface [] force_vlan use_interface_vlan s = (Ok (interface, []), s).
Proof.
  intros Hnone. unfold update_links.
  rewrite bind_run, query_run, Hnone. cbn [filter].
  rewrite bind_run. unfold delete_all. cbn [for_each]. rewrite ret_run.
  rewrite bind_run, query_run, Hnone.
  rewrite bind_run.
  destruct (if use_interface_vlan then if_vlan_id interface else None) as [v|];
    rewrite ret_run; rewrite bind_run; cbn [for_each]; rewrite ret_run;
    rewrite bind_run; cbn [for_each]; rewrite !ret_run; reflexivity.
Qed.

Lemma addresses_shrink_refl (s : State) : addresses_shrink s s.
Proof. repeat split; auto. apply links_shrink_refl. Qed.

Lemma addresses_shrink_trans (s1 s2 s3 : State) :
  addresses_shrink s1 s2 -> addresses_shrink s2 s3 -> addresses_shrink s1 s3.
Proof.
  intros (Hi & Ha & Hl) (Hi' & Ha' & Hl'). repeat split.
  - congruence.
  - auto.
  - apply links_shrink_trans with s2; assumption.
Qed.

Lemma StaticIPAddress_delete_run (k : nat) (s : State) :
  exists s', StaticIPAddress_delete k s = (Ok tt, s')
             /\ addresses_shrink s s'
             /\ (forall a, In a (addresses (db s')) -> sip_id a <> k).
Proof.
  unfold StaticIPAddress_delete. rewrite bind_run, query_run.
  destruct (has_id sip_id k (addresses (db s))) eqn:Hp; cbn [when].
  - eexists. split; [reflexivity|]. simpl. split; [repeat split|].
    + intros a Ha. unfold remove_id in Ha. apply filter_In in Ha. tauto.
    + intros j x H. apply linked_iff in H. simpl in H. apply filter_In in H.
      apply linked_iff. tauto.
    + intros a Ha. unfold remove_id in Ha. apply filter_In in Ha. destruct Ha as [_ Ha].
      intros He. rewrite He, Nat.eqb_refl in Ha. discriminate.
  - exists s. rewrite ret_run. split; [reflexivity|]. split; [apply addresses_shrink_refl|].
    intros a Ha He. unfold has_id in Hp.
    assert (Ht : existsb (fun y => sip_id y =? k) (addresses (db s)) = true).
    { apply existsb_exists. exists a. split; [exact Ha|]. apply Nat.eqb_eq. exact He. }
    congruence.
Qed.

Lemma delete_addresses_run (rows : list StaticIPAddress) :
  forall s,
  exists s', delete_all sip_id StaticIPAddress_delete rows s = (Ok tt, s')
             /\ addresses_shrink s s'
             /\ (forall a r, In a (addresses (db s')) -> In r rows -> sip_id a <> sip_id r).
Proof.
  unfold delete_all. induction rows as [|r0 rows IH]; intros s.
  - exists s. simpl. rewrite ret_run. split; [reflexivity|].
    split; [apply addresses_shrink_refl|]. intros a r _ [].
  - cbn [for_each]. rewrite bind_run.
    destruct (StaticIPAddress_delete_run (sip_id r0) s) as (s1 & -> & Hsh1 & Hgone).
    destruct (IH s1) as (s' & Hrun & Hsh & Hall).
    exists s'. split; [exact Hrun|]. split.
    + apply addresses_shrink_trans with s1; assumption.
    + intros a r Ha [<-|Hr]; [|apply Hall; assumption].
      apply Hgone. destruct Hsh as (_ & Hsub & _). apply Hsub. exact Ha.
Qed.

(** After [interface.ip_addresses.all().delete()] the interface has no
    address. *)
Lemma delete_linked_addresses (i : nat) (s : State) :
  exists s', delete_all sip_id StaticIPAddress_delete (ip_addresses_all i (db s)) s = (Ok tt, s')
             /\ interfaces (db s') = interfaces (db s)
             /\ ip_addresses_all i (db s') = [].
Proof.
  destruct (delete_addresses_run (ip_addresses_all i (db s)) s) as (s' & Hrun & Hsh & Hall).
  exists s'. split; [exact Hrun|]. destruct Hsh as (Hi & Hsub & Hl). split; [exact Hi|].
  destruct (ip_addresses_all i (db s')) as [|a r] eqn:He; [reflexivity|]. exfalso.
  assert (Hin : In a (ip_addresses_all i (db s'))) by (rewrite He; left; reflexivity).
  unfold ip_addresses_all in Hin. apply filter_In in Hin. destruct Hin as [Ha Hlk].
  apply (Hall a a Ha); [|reflexivity].
  unfold ip_addresses_all. apply filter_In. split; [apply Hsub; exact Ha | apply Hl; exact Hlk].
Qed.

Lemma copy_fields_id (src row : Interface) (fields : list ifield) :
  if_id (fold_right (copy_field src) row fields) = if_id row.
Proof.
  induction fields as [|f r IH]; simpl; [reflexivity|]. destruct f; simpl; exact IH.
Qed.

Lemma copy_fields_node (src row : Interface) (fields : list ifield) :
  In f_node fields -> if_node_id (fold_right (copy_field src) row fields) = if_node_id src.
Proof.
  induction fields as [|f r IH]; simpl; [contradiction|].
  intros [->|H]; [reflexivity|]. destruct f; simpl; auto.
Qed.

Lemma copy_fields_name (src row : Interface) (fields : list ifield) :
  In f_name fields -> if_name (fold_right (copy_field src) row fields) = if_name src.
Proof.
  induction fields as [|f r IH]; simpl; [contradiction|].
  intros [->|H]; [reflexivity|]. destruct f; simpl; auto.
Qed.

Lemma has_id_find_id (A : Type) (id : A -> nat) (k : nat) (l : list A) :
  has_id id k l = true -> exists x, find_id id k l = Some x.
Proof.
  unfold has_id, find_id. induction l as [|y r IH]; simpl; [discriminate|].
  destruct (id y =? k); [eauto | exact IH].
Qed.

Lemma find_id_map (A : Type) (id : A -> nat) (g : A -> A) (k : nat) (l : list A) :
  (forall y, id (g y) = id y) ->
  find_id id k (map g l) = option_map g (find_id id k l).
Proof.
  intros Hg. unfold find_id. induction l as [|y r IH]; simpl; [reflexivity|].
  rewrite Hg. destruct (id y =? k); [reflexivity | exact IH].
Qed.

Lemma find_id_id (A : Type) (id : A -> nat) (k : nat) (l : list A) (x : A) :
  find_id id k l = Some x -> id x = k.
Proof.
  unfold find_id. intros H. apply find_some in H. destruct H as [_ H].
  apply Nat.eqb_eq. exact H.
Qed.

(** [save(update_fields=...)] that goes through has found the row, and
    leaves in it the named fields of the object. *)
Lemma Interface_save_fields_inv (i : Interface) (fields : list ifield) (s s' : State) :
  Interface_save_fields i fields s = (Ok tt, s') ->
  links (db s') = links (db s)
  /\ addresses (db s') = addresses (db s)
  /\ exists row,
       find_id if_id (if_id i) (interfaces (db s)) = Some row
       /\ find_id if_id (if_id i) (interfaces (db s'))
          = Some (fold_right (copy_field i) row fields).
Proof.
  unfold Interface_save_fields. rewrite bind_run, query_run.
  destruct (has_id if_id (if_id i) (interfaces (db s))) eqn:Hp; [|discriminate].
  rewrite bind_run. intros H. inversion H; subst. clear H. simpl.
  repeat split.
  destruct (has_id_find_id _ _ _ _ Hp) as [row Hrow]. exists row. split; [exact Hrow|].
  rewrite find_id_map.
  - rewrite Hrow. simpl. rewrite (find_id_id _ _ _ _ _ Hrow), Nat.eqb_refl. reflexivity.
  - intros y. destruct (if_id y =? if_id i); [apply copy_fields_id | reflexivity].
Qed.

Lemma ip_addresses_all_ext (i : nat) (d d' : Store) :
  links d' = links d -> addresses d' = addresses d ->
  ip_addresses_all i d' = ip_addresses_all i d.
Proof.
  intros Hl Ha. unfold ip_addresses_all, linked. rewrite Hl, Ha. reflexivity.
Qed.

(** ** Address rows that are gone stay gone *)

Lemma recedes_refl (s : State) : recedes s s.
Proof. split; auto. Qed.

Lemma recedes_trans (s1 s2 s3 : State) : recedes s1 s2 -> recedes s2 s3 -> recedes s1 s3.
Proof. intros [Ha Hk] [Ha' Hk']. split; [auto | lia]. Qed.

Lemma recedes_modify (g : Store -> Store) :
  (forall d, (forall a, In a (addresses (g d)) -> In a (addresses d))
             /\ next_id d <= next_id (g d)) ->
  preserves recedes (modify g).
Proof.
  intros Hg s r s' H. inversion H; subst. clear H. destruct (Hg (db s)) as [Ha Hk].
  split; simpl; assumption.
Qed.

Lemma recedes_emit (w : write) : preserves recedes (emit w).
Proof. intros s r s' H. inversion H; subst. split; simpl; auto. Qed.

Lemma recedes_maaslog_error (r : log_record) : preserves recedes (maaslog_error r).
Proof. intros s r0 s' H. inversion H; subst. split; simpl; auto. Qed.

Lemma recedes_fresh_id : preserves recedes fresh_id.
Proof. intros s r s' H. inversion H; subst. split; simpl; auto. Qed.

Ltac recedes_structure :=
  preserves_structure recedes_refl recedes_trans;
  try apply recedes_emit; try apply recedes_maaslog_error; try apply recedes_fresh_id;
  try (apply recedes_modify; intros ?d; simpl; split; [intros ?a ?Ha | lia]).

Lemma recedes_StaticIPAddress_delete (k : nat) : preserves recedes (StaticIPAddress_delete k).
Proof.
  unfold StaticIPAddress_delete. recedes_structure.
  unfold remove_id in Ha. apply filter_In in Ha. tauto.
Qed.

Lemma recedes_ip_addresses_add (i a : nat) : preserves recedes (ip_addresses_add i a).
Proof. unfold ip_addresses_add. recedes_structure. exact Ha. Qed.

Lemma recedes_ip_addresses_remove (i a : nat) : preserves recedes (ip_addresses_remove i a).
Proof. unfold ip_addresses_remove. recedes_structure. exact Ha. Qed.

Lemma recedes_Subnet_save (x : Subnet) : preserves recedes (Subnet_save x).
Proof. unfold Subnet_save. recedes_structure. exact Ha. Qed.

Lemma recedes_Subnet_get_or_create (c : IPNetwork) (v : nat) :
  preserves recedes (Subnet_get_or_create c v).
Proof.
  unfold Subnet_get_or_create. recedes_structure. apply recedes_Subnet_save.
Qed.

Lemma recedes_Interface_save (i : Interface) : preserves recedes (Interface_save i).
Proof. unfold Interface_save. recedes_structure. exact Ha. Qed.

Lemma recedes_Interface_save_fields (i : Interface) (fields : list ifield) :
  preserves recedes (Interface_save_fields i fields).
Proof. unfold Interface_save_fields. recedes_structure. exact Ha. Qed.

Lemma recedes_Fabric_create : preserves recedes Fabric_create.
Proof.
  unfold Fabric_create, Fabric_insert, VLAN_insert. recedes_structure; exact Ha.
Qed.

Lemma recedes_Fabric_get_default_vlan (k : nat) : preserves recedes (Fabric_get_default_vlan k).
Proof. unfold Fabric_get_default_vlan. recedes_structure. Qed.

Lemma recedes_delete_fabric_of_vlan (v : nat) : preserves recedes (delete_fabric_of_vlan v).
Proof. unfold delete_fabric_of_vlan, Fabric_delete. recedes_structure. exact Ha. Qed.

Lemma recedes_guess_vlan_for_interface (node : Node) (cfg : config) :
  preserves recedes (guess_vlan_for_interface node cfg).
Proof.
  unfold guess_vlan_for_interface, VLAN_get_default_vlan, Fabric_insert, VLAN_insert.
  recedes_structure;
    try apply recedes_Fabric_create; try apply recedes_Fabric_get_default_vlan;
    try exact Ha.
Qed.

Lemma recedes_without_keys (ks : list nat) (s s' : State) :
  recedes s s' -> without_keys ks s -> without_keys ks s'.
Proof.
  intros [Ha Hk] [Hgone Hbelow]. split.
  - intros a Hin. apply Hgone, Ha, Hin.
  - intros k Hin. specialize (Hbelow k Hin). lia.
Qed.

Lemma upsert_has (A : Type) (id : A -> nat) (x : A) (l : list A) : In x (upsert id x l).
Proof.
  unfold upsert. destruct (has_id id (id x) l) eqn:Hp.
  - unfold has_id in Hp. apply existsb_exists in Hp. destruct Hp as (y & Hy & He).
    apply in_map_iff. exists y. rewrite He. auto.
  - apply in_app_iff. right. left. reflexivity.
Qed.

Lemma upsert_origin (A : Type) (id : A -> nat) (x y : A) (l : list A) :
  In y (upsert id x l) -> y = x \/ In y l.
Proof.
  unfold upsert. destruct (has_id id (id x) l).
  - intros H. apply in_map_iff in H. destruct H as (z & Hz & Hin).
    destruct (id z =? id x); [left; auto | right; subst; exact Hin].
  - intros H. apply in_app_iff in H. destruct H as [H|[H|[]]]; auto.
Qed.

(** Saving an address whose key is none of [ks] brings none of them back. *)
Lemma StaticIPAddress_save_without (ks : list nat) (a : StaticIPAddress) (s : State)
    (r : result unit) (s' : State) :
  ~ In (sip_id a) ks ->
  StaticIPAddress_save a s = (r, s') ->
  without_keys ks s -> without_keys ks s'.
Proof.
  intros Hk H [Hgone Hbelow]. unfold StaticIPAddress_save in H.
  rewrite bind_run, query_run in H. unfold modify, emit in H.
  rewrite !bind_run in H. inversion H; subst. clear H. split; simpl.
  - intros b Hb. apply upsert_origin in Hb. destruct Hb as [->|Hb]; [exact Hk | apply Hgone, Hb].
  - exact Hbelow.
Qed.

Lemma StaticIPAddress_create_without (ks : list nat) (t : IPADDRESS_TYPE.t)
    (ip : option IPAddress) (subnet : option nat) (s s' : State) (a : StaticIPAddress) :
  StaticIPAddress_create t ip subnet s = (Ok a, s') ->
  without_keys ks s -> without_keys ks s' /\ ~ In (sip_id a) ks.
Proof.
  unfold StaticIPAddress_create. intros H Hw.
  apply bind_inv in H. destruct H as (k & s1 & Hk & H).
  apply bind_inv in H. destruct H as ([] & s2 & Hsave & H).
  rewrite ret_run in H. inversion H; subst a s2. clear H.
  assert (Hfresh : ~ In k ks).
  { inversion Hk; subst. intros Hin. destruct Hw as [_ Hbelow].
    specialize (Hbelow _ Hin). lia. }
  split; [|exact Hfresh].
  apply (StaticIPAddress_save_without ks (mkStaticIPAddress k t ip subnet) _ _ _ Hfresh Hsave).
  apply (recedes_without_keys ks s); [apply (recedes_fresh_id _ _ _ Hk) | exact Hw].
Qed.

Lemma StaticIPAddress_get_or_create_without (ks : list nat) (ip : IPAddress)
    (t : IPADDRESS_TYPE.t) (subnet : nat) (s s' : State) (a : StaticIPAddress) (c : bool) :
  StaticIPAddress_get_or_create ip t subnet s = (Ok (a, c), s') ->
  without_keys ks s -> without_keys ks s' /\ ~ In (sip_id a) ks.
Proof.
  unfold StaticIPAddress_get_or_create. rewrite bind_run, query_run. intros H Hw.
  destruct (filter (sip_ip_is ip) (addresses (db s))) as [|x [|y r]] eqn:Hf; [| |discriminate].
  - apply bind_inv in H. destruct H as (b & s1 & Hc & H).
    rewrite ret_run in H. inversion H; subst. clear H.
    apply (StaticIPAddress_create_without ks _ _ _ _ _ _ Hc Hw).
  - rewrite ret_run in H. inversion H; subst. clear H. split; [exact Hw|].
    destruct Hw as [Hgone _]. apply Hgone.
    assert (Hin : In a (filter (sip_ip_is ip) (addresses (db s'))))
      by (rewrite Hf; left; reflexivity).
    apply filter_In in Hin. tauto.
Qed.

Lemma StaticIPAddress_update_or_create_without (ks : list nat) (ip : IPAddress)
    (t : IPADDRESS_TYPE.t) (subnet : nat) (s s' : State) (a : StaticIPAddress) (c : bool) :
  StaticIPAddress_update_or_create ip t subnet s = (Ok (a, c), s') ->
  without_keys ks s -> without_keys ks s' /\ ~ In (sip_id a) ks.
Proof.
  unfold StaticIPAddress_update_or_create. rewrite bind_run, query_run. intros H Hw.
  destruct (filter (sip_ip_is ip) (addresses (db s))) as [|x [|y r]] eqn:Hf; [| |discriminate].
  - apply bind_inv in H. destruct H as (b & s1 & Hc & H).
    rewrite ret_run in H. inversion H; subst. clear H.
    apply (StaticIPAddress_create_without ks _ _ _ _ _ _ Hc Hw).
  - apply bind_inv in H. destruct H as ([] & s1 & Hsave & H).
    rewrite ret_run in H. inversion H; subst a c s1. clear H.
    assert (Hx : ~ In (sip_id x) ks).
    { destruct Hw as [Hgone _]. apply Hgone.
      assert (Hin : In x (filter (sip_ip_is ip) (addresses (db s))))
        by (rewrite Hf; left; reflexivity).
      apply filter_In in Hin. tauto. }
    split; [|exact Hx].
    apply (StaticIPAddress_save_without ks
             (mkStaticIPAddress (sip_id x) t (sip_ip x) (Some subnet)) _ _ _ Hx Hsave Hw).
Qed.

Lemma remove_first_In (k : nat) (l : list StaticIPAddress) (a : StaticIPAddress) :
  In a (remove_first k l) -> In a l.
Proof.
  induction l as [|b r IH]; simpl; [auto|].
  destruct (sip_id b =? k); [auto|]. intros [H|H]; auto.
Qed.

Lemma update_link_dhcp_without (ks : list nat) (node : Node) (interface : Interface)
    (vlan : option nat) (force_vlan : bool) (l : link)
    (cur upd cur' upd' : list StaticIPAddress) (s s' : State) :
  update_link_dhcp node interface vlan force_vlan l (cur, upd) s = (Ok (cur', upd'), s') ->
  without_keys ks s -> (forall a, In a cur -> ~ In (sip_id a) ks) ->
  without_keys ks s' /\ (forall a, In a cur' -> ~ In (sip_id a) ks).
Proof.
  unfold update_link_dhcp. intros H Hw Hcur.
  apply bind_inv in H. destruct H as ([dhcp_address cur1] & s1 & Hsel & H).
  assert (H1 : without_keys ks s1 /\ (forall a, In a cur1 -> ~ In (sip_id a) ks)).
  { destruct (get_alloc_type_from_ip_addresses node IPADDRESS_TYPE.DHCP cur) as [a|].
    - rewrite ret_run in Hsel. inversion Hsel; subst. split; [exact Hw|].
      intros b Hb. apply Hcur. apply (remove_first_In _ _ _ Hb).
    - apply bind_inv in Hsel. destruct Hsel as (a & s2 & Hc & Hsel).
      destruct (StaticIPAddress_create_without ks _ _ _ _ _ _ Hc Hw) as [Hw2 Ha].
      apply bind_inv in Hsel. destruct Hsel as ([] & s3 & Hsave & Hsel).
      pose proof (StaticIPAddress_save_without ks a _ _ _ Ha Hsave Hw2) as Hw3.
      apply bind_inv in Hsel. destruct Hsel as ([] & s4 & Hadd & Hsel).
      rewrite ret_run in Hsel. inversion Hsel; subst. split; [|exact Hcur].
      apply (recedes_without_keys ks s3); [|exact Hw3].
      apply (recedes_ip_addresses_add _ _ _ _ _ Hadd). }
  destruct H1 as [Hw1 Hcur1].
  destruct (link_address l) as [ip_network|].
  - apply bind_inv in H. destruct H as (v & s2 & Hb & H).
    assert (s2 = s1) as -> by (destruct vlan; [inversion Hb; reflexivity | discriminate]).
    apply bind_inv in H. destruct H as ([subnet c] & s3 & Hsub & H).
    pose proof (recedes_without_keys ks _ _ (recedes_Subnet_get_or_create _ _ _ _ _ Hsub) Hw1)
      as Hw3.
    destruct (force_vlan && vlan_mismatch subnet interface).
    + apply bind_inv in H. destruct H as ([] & s4 & Hlog & H).
      rewrite ret_run in H. inversion H; subst. split; [|exact Hcur1].
      apply (recedes_without_keys ks s3); [|exact Hw3].
      apply (recedes_maaslog_error _ _ _ _ Hlog).
    + apply bind_inv in H. destruct H as ([a c'] & s4 & Hu & H).
      destruct (StaticIPAddress_update_or_create_without ks _ _ _ _ _ _ _ Hu Hw3) as [Hw4 _].
      apply bind_inv in H. destruct H as ([] & s5 & Hadd & H).
      rewrite ret_run in H. inversion H; subst. split; [|exact Hcur1].
      apply (recedes_without_keys ks s4); [|exact Hw4].
      apply (recedes_ip_addresses_add _ _ _ _ _ Hadd).
  - rewrite ret_run in H. inversion H; subst. auto.
Qed.

Lemma recedes_detach (node : Node) (a : nat) (attached : list Interface) :
  preserves recedes
    (for_each attached
       (fun attached_nic _ =>
          when (negb (if_node_id attached_nic =? node_id node))
               (ip_addresses_remove (if_id attached_nic) a)) tt).
Proof. recedes_structure. apply recedes_ip_addresses_remove. Qed.

Lemma update_link_static_without (ks : list nat) (node : Node) (interface : Interface)
    (vlan : option nat) (force_vlan : bool) (l : link)
    (cur upd cur' upd' : list StaticIPAddress) (s s' : State) :
  update_link_static node interface vlan force_vlan l (cur, upd) s = (Ok (cur', upd'), s') ->
  without_keys ks s -> (forall a, In a cur -> ~ In (sip_id a) ks) ->
  without_keys ks s' /\ (forall a, In a cur' -> ~ In (sip_id a) ks).
Proof.
  unfold update_link_static. intros H Hw Hcur.
  destruct (link_address l) as [ip_network|]; [|discriminate].
  apply bind_inv in H. destruct H as (v & s1 & Hb & H).
  assert (s1 = s) as -> by (destruct vlan; [inversion Hb; reflexivity | discriminate]).
  apply bind_inv in H. destruct H as ([subnet c] & s2 & Hsub & H).
  pose proof (recedes_without_keys ks _ _ (recedes_Subnet_get_or_create _ _ _ _ _ Hsub) Hw)
    as Hw2.
  destruct (force_vlan && vlan_mismatch subnet interface).
  - apply bind_inv in H. destruct H as ([] & s3 & Hlog & H).
    rewrite ret_run in H. inversion H; subst. split; [|exact Hcur].
    apply (recedes_without_keys ks s2); [|exact Hw2].
    apply (recedes_maaslog_error _ _ _ _ Hlog).
  - apply bind_inv in H. destruct H as (subnet' & s3 & Hgw & H).
    assert (Hw3 : without_keys ks s3).
    { apply (recedes_without_keys ks s2); [|exact Hw2].
      match type of Hgw with
      | ?m s2 = _ => assert (Hp : preserves recedes m)
      end.
      { recedes_structure; apply recedes_Subnet_save. }
      apply (Hp _ _ _ Hgw). }
    apply bind_inv in H. destruct H as ([a0 cur1] & s4 & Hsel & H).
    assert (H4 : without_keys ks s4 /\ ~ In (sip_id a0) ks
                 /\ (forall a, In a cur1 -> ~ In (sip_id a) ks)).
    { destruct (get_ip_address_from_ip_addresses node (net_ip ip_network) cur) as [a|] eqn:Hf.
      - rewrite ret_run in Hsel. inversion Hsel; subst. split; [exact Hw3|]. split.
        + apply Hcur. unfold get_ip_address_from_ip_addresses in Hf.
          apply find_some in Hf. tauto.
        + intros b Hin. apply Hcur. apply (remove_first_In _ _ _ Hin).
      - apply bind_inv in Hsel. destruct Hsel as ([a c0] & s5 & Hgc & Hsel).
        destruct (StaticIPAddress_get_or_create_without ks _ _ _ _ _ _ _ Hgc Hw3) as [Hw5 Ha].
        destruct c0.
        + rewrite ret_run in Hsel. inversion Hsel; subst. auto.
        + apply bind_inv in Hsel. destruct Hsel as ([] & s6 & Hsave & Hsel).
          rewrite ret_run in Hsel. inversion Hsel; subst. split; [|auto].
          apply (StaticIPAddress_save_without ks (make_sticky subnet' a) _ _ _ Ha Hsave Hw5). }
    destruct H4 as (Hw4 & Ha0 & Hcur1).
    apply bind_inv in H. destruct H as (attached & s5 & Hq & H).
    rewrite query_run in Hq. inversion Hq; subst attached s5. clear Hq.
    apply bind_inv in H. destruct H as ([] & s5 & Hloop & H).
    pose proof (recedes_without_keys ks _ _ (recedes_detach _ _ _ _ _ _ Hloop) Hw4) as Hw5.
    apply bind_inv in H. destruct H as ([] & s6 & Hsave & H).
    pose proof (StaticIPAddress_save_without ks (make_sticky subnet' a0) _ _ _ Ha0 Hsave Hw5)
      as Hw6.
    apply bind_inv in H. destruct H as ([] & s7 & Hadd & H).
    rewrite ret_run in H. inversion H; subst. split; [|exact Hcur1].
    apply (recedes_without_keys ks s6); [|exact Hw6].
    apply (recedes_ip_addresses_add _ _ _ _ _ Hadd).
Qed.

Lemma update_link_loop_without (ks : list nat) (node : Node) (interface : Interface)
    (vlan : option nat) (force_vlan : bool) (links : list link) :
  forall (cur upd cur' upd' : list StaticIPAddress) (s s' : State),
  for_each links (update_link node interface vlan force_vlan) (cur, upd) s
  = (Ok (cur', upd'), s') ->
  without_keys ks s -> (forall a, In a cur -> ~ In (sip_id a) ks) ->
  without_keys ks s'.
Proof.
  induction links as [|l rest IH]; intros cur upd cur' upd' s s' H Hw Hcur.
  - simpl in H. rewrite ret_run in H. inversion H; subst. exact Hw.
  - cbn [for_each] in H. apply bind_inv in H. destruct H as ([cur1 upd1] & s1 & Hl & H).
    assert (H1 : without_keys ks s1 /\ (forall a, In a cur1 -> ~ In (sip_id a) ks)).
    { unfold update_link in Hl. destruct (String.eqb (link_mode l) "dhcp").
      - apply (update_link_dhcp_without ks _ _ _ _ _ _ _ _ _ _ _ Hl Hw Hcur).
      - destruct (String.eqb (link_mode l) "static").
        + apply (update_link_static_without ks _ _ _ _ _ _ _ _ _ _ _ Hl Hw Hcur).
        + rewrite ret_run in Hl. inversion Hl; subst. auto. }
    destruct H1 as [Hw1 Hcur1]. apply (IH _ _ _ _ _ _ H Hw1 Hcur1).
Qed.

(** [update_links] brings back no address that is gone. *)
Lemma update_links_without (ks : list nat) (node : Node) (interface : Interface)
    (links : list link) (force_vlan use_interface_vlan : bool) (s s' : State)
    (r : Interface * list StaticIPAddress) :
  update_links node interface links force_vlan use_interface_vlan s = (Ok r, s') ->
  without_keys ks s -> without_keys ks s'.
Proof.
  unfold update_links. intros H Hw.
  apply bind_inv in H. destruct H as (discovered & s1 & Hq & H).
  rewrite query_run in Hq. inversion Hq; subst discovered s1. clear Hq.
  apply bind_inv in H. destruct H as ([] & s1 & Hdel & H).
  assert (Hw1 : without_keys ks s1).
  { apply (recedes_without_keys ks s); [|exact Hw].
    revert Hdel. apply preserves_delete_all;
      [apply recedes_refl | apply recedes_trans | apply recedes_StaticIPAddress_delete]. }
  apply bind_inv in H. destruct H as (current & s2 & Hq & H).
  rewrite query_run in Hq. inversion Hq; subst current s2. clear Hq.
  apply bind_inv in H. destruct H as ([i1 vlan] & s2 & Hsel & H).
  assert (Hw2 : without_keys ks s2).
  { apply (recedes_without_keys ks s1); [|exact Hw1].
    match type of Hsel with
    | ?m s1 = _ => assert (Hp : preserves recedes m)
    end.
    { recedes_structure;
        try apply recedes_Fabric_create; try apply recedes_Fabric_get_default_vlan;
        try apply recedes_Interface_save. }
    apply (Hp _ _ _ Hsel). }
  apply bind_inv in H. destruct H as ([cur upd] & s3 & Hloop & H).
  assert (Hw3 : without_keys ks s3).
  { apply (update_link_loop_without ks _ _ _ _ _ _ _ _ _ _ _ Hloop Hw2).
    intros a Ha. destruct Hw1 as [Hgone _]. apply Hgone.
    unfold ip_addresses_all in Ha. apply filter_In in Ha. tauto. }
  apply bind_inv in H. destruct H as ([] & s4 & Hun & H).
  rewrite ret_run in H. inversion H; subst. clear H.
  apply (recedes_without_keys ks s3); [|exact Hw3].
  revert Hun. apply preserves_for_each;
    [apply recedes_refl | apply recedes_trans |].
  intros x acc. unfold unlink_ip_address. apply recedes_ip_addresses_remove.
Qed.

Lemma update_physical_links_without (ks : list nat) (node : Node) (interface : Interface)
    (cfg : config) (new_vlan : option nat) (update_fields : list ifield) (s s' : State)
    (r : Interface * list ifield) :
  update_physical_links node interface cfg new_vlan update_fields s = (Ok r, s') ->
  without_keys ks s -> without_keys ks s'.
Proof.
  unfold update_physical_links. intros H Hw.
  apply bind_inv in H. destruct H as ([i1 upd] & s1 & Hul & H).
  pose proof (update_links_without ks _ _ _ _ _ _ _ _ Hul Hw) as Hw1.
  apply bind_inv in H. destruct H as (lv & s2 & Hq & H).
  rewrite query_result_run in Hq.
  assert (s2 = s1) as -> by (inversion Hq; reflexivity).
  apply (recedes_without_keys ks s1); [|exact Hw1].
  match type of H with
  | ?m s1 = _ => assert (Hp : preserves recedes m)
  end.
  { recedes_structure. apply recedes_delete_fabric_of_vlan. }
  apply (Hp _ _ _ H).
Qed.

(** ** The interface that is fetched keeps its links *)

Lemma Interface_delete_apart (k : nat) (s s' : State) (r : result unit) :
  Interface_delete k s = (r, s') ->
  addresses (db s') = addresses (db s) /\ next_id (db s') = next_id (db s)
  /\ (forall row', In row' (interfaces (db s')) ->
        if_id row' <> k
        /\ exists row, In row (interfaces (db s)) /\ if_id row = if_id row')
  /\ (forall j a, j <> k -> linked (db s') j a = linked (db s) j a).
Proof.
  unfold Interface_delete. rewrite bind_run, query_run.
  destruct (has_id if_id k (interfaces (db s))) eqn:Hp; cbn [when].
  - unfold modify, emit. rewrite bind_run. intros H. inversion H; subst. clear H. simpl.
    repeat split.
    + apply in_map_iff in H. destruct H as (row & <- & Hin). simpl.
      unfold remove_id in Hin. apply filter_In in Hin. destruct Hin as [_ Hk].
      apply negb_true_iff, Nat.eqb_neq in Hk. exact Hk.
    + apply in_map_iff in H. destruct H as (row & <- & Hin). simpl.
      unfold remove_id in Hin. apply filter_In in Hin. exists row. tauto.
    + intros j a Hj. unfold linked. simpl.
      induction (links (db s)) as [|[x y] ls IH]; [reflexivity|]. simpl.
      destruct (x =? k) eqn:Hx; simpl.
      * apply Nat.eqb_eq in Hx. subst x.
        rewrite IH. apply Nat.eqb_neq in Hj. rewrite Nat.eqb_sym, Hj. reflexivity.
      * rewrite IH. reflexivity.
  - rewrite ret_run. intros H. inversion H; subst. clear H. repeat split; auto.
    + intros He. unfold has_id in Hp.
      assert (Ht : existsb (fun y => if_id y =? k) (interfaces (db s')) = true).
      { apply existsb_exists. exists row'. split; [assumption | apply Nat.eqb_eq; exact He]. }
      congruence.
    + exists row'. auto.
Qed.

Lemma delete_interfaces_apart (rows : list Interface) :
  forall (s s' : State) (r : result unit),
  delete_all if_id Interface_delete rows s = (r, s') ->
  addresses (db s') = addresses (db s) /\ next_id (db s') = next_id (db s)
  /\ (forall row', In row' (interfaces (db s')) ->
        ~ In (if_id row') (map if_id rows)
        /\ exists row, In row (interfaces (db s)) /\ if_id row = if_id row')
  /\ (forall j a, ~ In j (map if_id rows) -> linked (db s') j a = linked (db s) j a).
Proof.
  unfold delete_all. induction rows as [|x rows IH]; intros s s' r H.
  - simpl in H. rewrite ret_run in H. inversion H; subst. repeat split; auto.
    exists row'. auto.
  - cbn [for_each] in H. rewrite bind_run in H.
    destruct (Interface_delete (if_id x) s) as [[[]|e] s1] eqn:Hd.
    + destruct (Interface_delete_apart _ _ _ _ Hd) as (Ha1 & Hk1 & Hr1 & Hl1).
      destruct (IH _ _ _ H) as (Ha & Hk & Hr & Hl).
      split; [congruence|]. split; [congruence|]. split.
      * intros row' Hin. destruct (Hr row' Hin) as (Hnot & row1 & Hin1 & He1).
        destruct (Hr1 row1 Hin1) as (Hne & row0 & Hin0 & He0). split.
        -- simpl. intros [He|Hin']; [|exact (Hnot Hin')]. congruence.
        -- exists row0. split; [exact Hin0 | congruence].
      * intros j a Hj. simpl in Hj. rewrite Hl, Hl1; auto.
    + exfalso. unfold Interface_delete in Hd. rewrite bind_run, query_run in Hd.
      destruct (has_id if_id (if_id x) (interfaces (db s))); discriminate.
Qed.

(** The interface that [find_physical_interface] fetches has, when it was
    there, the addresses it had. *)
Lemma find_physical_interface_addresses (node : Node) (name : string) (cfg : config)
    (s s1 : State) (interface : Interface) :
  find_physical_interface node name cfg s = (Ok (interface, false), s1) ->
  ip_addresses_all (if_id interface) (db s1) = ip_addresses_all (if_id interface) (db s)
  /\ next_id (db s1) = next_id (db s).
Proof.
  unfold find_physical_interface. intros H.
  apply bind_inv in H. destruct H as (stale & s0 & Hq & H).
  rewrite query_run in Hq. inversion Hq; subst stale s0. clear Hq.
  apply bind_inv in H. destruct H as ([] & s0 & Hdel & H).
  destruct (delete_interfaces_apart _ _ _ _ Hdel) as (Ha & Hk & Hr & Hl).
  unfold PhysicalInterface_get_or_create in H. rewrite bind_run, query_run in H.
  match type of H with
  | context [filter ?p (interfaces (db s0))] =>
      destruct (filter p (interfaces (db s0))) as [|x [|y r]] eqn:Hf
  end; try discriminate.
  rewrite ret_run in H. inversion H; subst x s0. clear H.
  assert (Hin : In interface (interfaces (db s1))).
  { match type of Hf with
    | filter ?p _ = _ =>
        assert (Hin : In interface (filter p (interfaces (db s1))))
          by (rewrite Hf; left; reflexivity)
    end.
    apply filter_In in Hin. tauto. }
  destruct (Hr _ Hin) as [Hnot _]. split; [|exact Hk].
  unfold ip_addresses_all. rewrite Ha. apply filter_ext. intros a. apply Hl. exact Hnot.
Qed.

(** C4 (as amended). When the physical interface with the desired MAC
    address is there under another node, [update_physical_interface] gives
    its row to the current node, under the desired name, and deletes every
    address it was linked to: none of these rows is there afterwards, so
    that no address the interface is linked to afterwards is one of them.
    When no links are reconciled for it ([create_fabrics] false, or none
    declared) it has no linked address at all. *)
Theorem C4_mac_moves_to_the_current_node
    (node : Node) (name : string) (cfg : config) (create_fabrics : bool)
    (hints : option (list hint)) (s s1 s' : State) (interface i' : Interface) :
  (forall a, In a (addresses (db s)) -> sip_id a < next_id (db s)) ->
  find_physical_interface node name cfg s = (Ok (interface, false), s1) ->
  if_node_id interface <> node_id node ->
  update_physical_interface node name cfg create_fabrics hints s = (Ok i', s') ->
  (exists row,
      find_id if_id (if_id interface) (interfaces (db s')) = Some row
      /\ if_node_id row = node_id node
      /\ if_name row = name)
  /\ (forall a, In a (ip_addresses_all (if_id interface) (db s)) ->
        has_id sip_id (sip_id a) (addresses (db s')) = false)
  /\ (forall a a', In a (ip_addresses_all (if_id interface) (db s)) ->
        In a' (ip_addresses_all (if_id interface) (db s')) -> sip_id a' <> sip_id a)
  /\ (create_fabrics = false \/ config_links cfg = [] ->
      ip_addresses_all (if_id interface) (db s') = []).
Proof.
  intros Hkeys Hfind Hother Hrun.
  destruct (find_physical_interface_addresses _ _ _ _ _ _ Hfind) as [Hall1 Hnext1].
  set (ks := map sip_id (ip_addresses_all (if_id interface) (db s))).
  assert (Hbelow : forall k, In k ks -> k < next_id (db s1)).
  { intros k Hk. apply in_map_iff in Hk. destruct Hk as (a & <- & Ha).
    rewrite Hnext1. apply Hkeys. unfold ip_addresses_all in Ha. apply filter_In in Ha. tauto. }
  unfold update_physical_interface in Hrun.
  rewrite (bind_ok _ _ _ _ _ _ _ Hfind) in Hrun. cbv beta iota in Hrun.
  (* the VLAN of the object *)
  apply bind_inv in Hrun. destruct Hrun as ([[i2 new_vlan] uf2] & s2 & Hvlan & Hrun).
  assert (Hi2 : same_but_vlan i2 interface
                /\ ip_addresses_all (if_id interface) (db s2)
                   = ip_addresses_all (if_id interface) (db s1)
                /\ next_id (db s1) <= next_id (db s2)).
  { assert (Hsame : forall t : State, recedes s1 t ->
                      addresses (db s1) = addresses (db t) -> links (db s1) = links (db t) ->
                      ip_addresses_all (if_id interface) (db t)
                      = ip_addresses_all (if_id interface) (db s1)
                      /\ next_id (db s1) <= next_id (db t)).
    { intros t [_ Hk] Ha Hl. split; [|exact Hk].
      apply ip_addresses_all_ext; congruence. }
    destruct (create_fabrics && is_none (if_vlan_id interface) && config_enabled cfg).
    - apply bind_inv in Hvlan. destruct Hvlan as (nv & s3 & Hh & Hvlan).
      assert (s3 = s1) as ->.
      { destruct hints; [rewrite query_run in Hh | rewrite ret_run in Hh];
          inversion Hh; reflexivity. }
      apply bind_inv in Hvlan. destruct Hvlan as (nv' & s4 & Hg & Hvlan).
      assert (Hs4 : ip_addresses_all (if_id interface) (db s4)
                    = ip_addresses_all (if_id interface) (db s1)
                    /\ next_id (db s1) <= next_id (db s4)).
      { destruct nv.
        - rewrite ret_run in Hg. inversion Hg; subst. split; [reflexivity | lia].
        - assert (Hka : preserves (keeps addresses) (guess_vlan_for_interface node cfg)).
          { unfold guess_vlan_for_interface. keeps_structure.
            - apply keeps_VLAN_get_default_vlan; intros y d; reflexivity.
            - apply keeps_Fabric_create; intros y d; reflexivity.
            - apply keeps_Fabric_get_default_vlan. }
          assert (Hkl : preserves (keeps links) (guess_vlan_for_interface node cfg)).
          { unfold guess_vlan_for_interface. keeps_structure.
            - apply keeps_VLAN_get_default_vlan; intros y d; reflexivity.
            - apply keeps_Fabric_create; intros y d; reflexivity.
            - apply keeps_Fabric_get_default_vlan. }
          apply Hsame.
          + apply (recedes_guess_vlan_for_interface _ _ _ _ _ Hg).
          + apply (Hka _ _ _ Hg).
          + apply (Hkl _ _ _ Hg). }
      destruct nv'; rewrite ret_run in Hvlan; inversion Hvlan; subst.
      + split; [apply same_but_vlan_with_vlan, same_but_vlan_refl | exact Hs4].
      + split; [apply same_but_vlan_refl | exact Hs4].
    - rewrite ret_run in Hvlan. inversion Hvlan; subst.
      split; [apply same_but_vlan_refl|]. split; [reflexivity | lia]. }
  destruct Hi2 as (Hi2 & Hall2 & Hnext2).
  destruct (same_but_vlan_fields _ _ Hi2) as (Hid2 & Hnode2 & _ & _).
  (* the move: the addresses go, the object gets the node and the name *)
  apply bind_inv in Hrun. destruct Hrun as ([i3 uf3] & s3 & Hmove & Hrun).
  apply bind_inv in Hmove. destruct Hmove as ([i3' uf3'] & s3' & Hmove & Hname).
  rewrite ret_run in Hname. inversion Hname; subst i3 uf3 s3'. clear Hname.
  assert (Hne : negb (if_node_id i2 =? node_id node) = true).
  { rewrite Hnode2. apply negb_true_iff, Nat.eqb_neq. exact Hother. }
  rewrite Hne in Hmove.
  apply bind_inv in Hmove. destruct Hmove as (stale & s4 & Hq & Hmove).
  rewrite query_run in Hq. inversion Hq; subst stale s4. clear Hq.
  apply bind_inv in Hmove. destruct Hmove as ([] & s4 & Hdel & Hmove).
  rewrite ret_run in Hmove. inversion Hmove; subst i3' uf3' s4. clear Hmove.
  assert (Hrec : recedes s2 s3).
  { revert Hdel. apply preserves_delete_all;
      [apply recedes_refl | apply recedes_trans | apply recedes_StaticIPAddress_delete]. }
  destruct (delete_linked_addresses (if_id i2) s2) as (s3' & Hdel' & _ & Hnone).
  rewrite Hdel' in Hdel. inversion Hdel; subst s3'. clear Hdel.
  destruct (delete_addresses_run (ip_addresses_all (if_id i2) (db s2)) s2)
    as (s3'' & Hdel'' & _ & Hgone).
  rewrite Hdel' in Hdel''. inversion Hdel''; subst s3''. clear Hdel'' Hdel'.
  assert (Hw3 : without_keys ks s3).
  { split.
    - intros a Ha Hk. apply in_map_iff in Hk. destruct Hk as (b & Hb & Hin).
      apply (Hgone a b Ha); [|symmetry; exact Hb].
      rewrite Hid2, Hall2, Hall1. exact Hin.
    - intros k Hk. specialize (Hbelow k Hk). destruct Hrec as [_ Hn]. lia. }
  (* enabled *)
  apply bind_inv in Hrun. destruct Hrun as ([i4 uf4] & s4 & Hen & Hrun).
  assert (Hi4 : if_id i4 = if_id interface /\ if_node_id i4 = node_id node
                /\ if_name i4 = name /\ In f_node uf4 /\ In f_name uf4 /\ s4 = s3).
  { destruct (negb (Bool.eqb (if_enabled (with_name name (with_node (node_id node) i2)))
                             (config_enabled cfg)));
      rewrite ret_run in Hen; inversion Hen; subst; simpl;
      repeat split; try exact Hid2; rewrite ?add_field_In; auto. }
  destruct Hi4 as (Hid4 & Hnode4 & Hname4 & Hfn4 & Hfm4 & ->).
  (* the links *)
  apply bind_inv in Hrun. destruct Hrun as ([i5 uf5] & s5 & Hlinks & Hrun).
  assert (Hi5 : if_id i5 = if_id interface /\ if_node_id i5 = node_id node
                /\ if_name i5 = name /\ In f_node uf5 /\ In f_name uf5
                /\ without_keys ks s5
                /\ (create_fabrics = false \/ config_links cfg = [] -> s5 = s3)).
  { destruct create_fabrics.
    - pose proof (update_physical_links_without ks _ _ _ _ _ _ _ _ Hlinks Hw3) as Hw5.
      unfold update_physical_links in Hlinks.
      apply bind_inv in Hlinks. destruct Hlinks as ([i6 upd] & s6 & Hul & Hlinks).
      pose proof (update_links_object _ _ _ _ _ _ _ _ _ Hul) as Hi6.
      destruct (same_but_vlan_fields _ _ Hi6) as (Hid6 & Hnode6 & Hname6 & _).
      assert (Hs6 : config_links cfg = [] -> s6 = s3 /\ upd = []).
      { intros Hl. rewrite Hl in Hul.
        rewrite update_links_nothing_to_do in Hul; [inversion Hul; auto|].
        rewrite Hid4, <- Hid2. exact Hnone. }
      apply bind_inv in Hlinks. destruct Hlinks as (lv & s7 & Hg & Hlinks).
      rewrite query_result_run in Hg.
      destruct lv as [lv|].
      + apply bind_inv in Hlinks. destruct Hlinks as ([] & s8 & _ & Hlinks).
        rewrite ret_run in Hlinks. inversion Hlinks; subst. simpl.
        split; [congruence|]. split; [congruence|]. split; [congruence|].
        split; [rewrite add_field_In; auto|]. split; [rewrite add_field_In; auto|].
        split; [exact Hw5|].
        intros [Hc|Hl]; [discriminate|].
        destruct (Hs6 Hl) as [-> ->]. simpl in Hg. discriminate.
      + rewrite ret_run in Hlinks. inversion Hlinks; subst s7 i5 uf5.
        inversion Hg; subst s6.
        split; [congruence|]. split; [congruence|]. split; [congruence|].
        split; [exact Hfn4|]. split; [exact Hfm4|]. split; [exact Hw5|].
        intros [Hc|Hl]; [discriminate|]. apply Hs6. exact Hl.
    - rewrite ret_run in Hlinks. inversion Hlinks; subst i5 uf5 s5.
      split; [exact Hid4|]. split; [exact Hnode4|]. split; [exact Hname4|].
      split; [exact Hfn4|]. split; [exact Hfm4|]. split; [exact Hw3 | reflexivity]. }
  destruct Hi5 as (Hid5 & Hnode5 & Hname5 & Hfn5 & Hfm5 & Hw5 & Hs5).
  (* the save *)
  apply bind_inv in Hrun. destruct Hrun as ([] & s6 & Hsave & Hrun).
  rewrite ret_run in Hrun. inversion Hrun; subst i' s6. clear Hrun.
  assert (Hlen : (0 <? length uf5) = true).
  { destruct uf5; [contradiction | reflexivity]. }
  rewrite Hlen in Hsave. cbn [when] in Hsave.
  destruct (Interface_save_fields_inv _ _ _ _ Hsave) as (Hl' & Ha' & row & Hrow & Hrow').
  assert (Hdeleted : forall a, In a (ip_addresses_all (if_id interface) (db s)) ->
                       has_id sip_id (sip_id a) (addresses (db s')) = false).
  { intros a Ha. unfold has_id. apply not_true_is_false. intros He.
    apply existsb_exists in He. destruct He as (b & Hb & He). apply Nat.eqb_eq in He.
    rewrite Ha' in Hb. destruct Hw5 as [Hgone5 _]. apply (Hgone5 b Hb).
    rewrite He. apply in_map. exact Ha. }
  split; [|split; [exact Hdeleted|split]].
  - exists (fold_right (copy_field i5) row uf5). rewrite <- Hid5. split; [exact Hrow'|].
    rewrite copy_fields_node, copy_fields_name; auto.
  - intros a a' Ha Hlinked He'. specialize (Hdeleted a Ha).
    unfold ip_addresses_all in Hlinked. apply filter_In in Hlinked.
    destruct Hlinked as [Hin' _].
    assert (Ht : has_id sip_id (sip_id a) (addresses (db s')) = true).
    { unfold has_id. apply existsb_exists. exists a'.
      split; [exact Hin' | apply Nat.eqb_eq; exact He']. }
    congruence.
  - intros Hcase. rewrite (ip_addresses_all_ext _ _ _ Hl' Ha').
    rewrite (Hs5 Hcase), <- Hid2. exact Hnone.
Qed.

(** * Part XII: a link on the wrong VLAN *)

(** A subnet that [get_or_create] had to create is on the VLAN it was given;
    one that was there is returned without a write. *)
Lemma Subnet_get_or_create_inv (c : IPNetwork) (v : nat) (s s1 : State)
    (subnet : Subnet) (created : bool) :
  Subnet_get_or_create c v s = (Ok (subnet, created), s1) ->
  (created = true /\ subnet_vlan_id subnet = v)
  \/ (created = false /\ s1 = s /\ In subnet (subnets (db s))).
Proof.
  unfold Subnet_get_or_create. rewrite bind_run, query_run.
  destruct (filter (fun x => IPNetwork_eqb (subnet_cidr x) c) (subnets (db s)))
    as [|x [|y r]] eqn:Hf.
  - intros H. apply bind_inv in H. destruct H as (k & s2 & _ & H).
    apply bind_inv in H. destruct H as ([] & s3 & _ & H).
    rewrite ret_run in H. inversion H; subst. left. auto.
  - rewrite ret_run. intros H. inversion H; subst. right. repeat split.
    assert (Hin : In subnet (filter (fun x => IPNetwork_eqb (subnet_cidr x) c) (subnets (db s1))))
      by (rewrite Hf; left; reflexivity).
    apply filter_In in Hin. tauto.
  - discriminate.
Qed.

Lemma option_nat_eqb_refl (a : option nat) : option_nat_eqb a a = true.
Proof. apply option_nat_eqb_eq. reflexivity. Qed.

(** A subnet that is on another VLAN than the interface was there before
    the link, and is found again as long as the subnets are the same. *)
Lemma mismatched_subnet_is_there (c : IPNetwork) (v : nat) (interface : Interface)
    (s s1 : State) (subnet : Subnet) (created : bool) :
  if_vlan_id interface = Some v ->
  Subnet_get_or_create c v s = (Ok (subnet, created), s1) ->
  vlan_mismatch subnet interface = true ->
  forall t, subnets (db t) = subnets (db s) ->
            Subnet_get_or_create c v t = (Ok (subnet, false), t).
Proof.
  intros Hvlan Hsub Hmis t Ht.
  destruct (Subnet_get_or_create_inv _ _ _ _ _ _ Hsub) as [[_ Hv]|[Hc [Hs _]]].
  - unfold vlan_mismatch in Hmis. rewrite Hv, Hvlan, option_nat_eqb_refl in Hmis.
    discriminate.
  - subst s1 created. unfold Subnet_get_or_create in *. rewrite bind_run, query_run in *.
    rewrite Ht.
    destruct (filter (fun x => IPNetwork_eqb (subnet_cidr x) c) (subnets (db s)))
      as [|x [|y r]].
    + apply bind_inv in Hsub. destruct Hsub as (k & s2 & _ & Hsub).
      apply bind_inv in Hsub. destruct Hsub as ([] & s3 & _ & Hsub).
      rewrite ret_run in Hsub. inversion Hsub.
    + rewrite ret_run in *. inversion Hsub; subst. reflexivity.
    + discriminate.
Qed.

Lemma for_each_app (A S : Type) (body : A -> S -> M S) (l1 l2 : list A) :
  forall (acc : S) (s : State),
  for_each (l1 ++ l2) body acc s
  = match for_each l1 body acc s with
    | (Ok acc', s') => for_each l2 body acc' s'
    | (Raise e, s') => (Raise e, s')
    end.
Proof.
  induction l1 as [|x l1 IH]; intros acc s; [reflexivity|].
  cbn [app for_each]. rewrite !bind_run.
  destruct (body x acc s) as [[acc1|e] s1]; [apply IH | reflexivity].
Qed.

Lemma ip_addresses_add_beside (i a : nat) (s s' : State) (r : result unit) :
  ip_addresses_add i a s = (r, s') ->
  subnets (db s') = subnets (db s) /\ maaslog s' = maaslog s.
Proof.
  unfold ip_addresses_add. rewrite bind_run, query_run.
  destruct (linked (db s) i a); cbn [negb when].
  - rewrite ret_run. intros H. inversion H; subst. auto.
  - unfold modify, emit. rewrite bind_run. intros H. inversion H; subst. auto.
Qed.

(** The DHCP address of a dhcp link, when the interface has none: it is
    created without IP and subnet, saved, and linked to the interface. *)
Lemma dhcp_address_made (interface : Interface) (cur : list StaticIPAddress) (s : State) :
  exists a s_d,
    (a <- StaticIPAddress_create IPADDRESS_TYPE.DHCP None None ;;
     StaticIPAddress_save a ;;
     ip_addresses_add (if_id interface) (sip_id a) ;;
     ret (a, cur)) s = (Ok (a, cur), s_d)
    /\ a = mkStaticIPAddress (next_id (db s)) IPADDRESS_TYPE.DHCP None None
    /\ In a (addresses (db s_d))
    /\ (forall b, In b (addresses (db s_d)) -> b = a \/ In b (addresses (db s)))
    /\ (forall j k, linked (db s_d) j k = true
                    <-> linked (db s) j k = true \/ (j = if_id interface /\ k = sip_id a))
    /\ subnets (db s_d) = subnets (db s)
    /\ interfaces (db s_d) = interfaces (db s)
    /\ maaslog s_d = maaslog s.
Proof.
  set (a := mkStaticIPAddress (next_id (db s)) IPADDRESS_TYPE.DHCP None None).
  set (s0 := mkState (set_next_id (S (next_id (db s))) (db s)) (writes s) (maaslog s)).
  destruct (StaticIPAddress_save_run a s0) as [w1 H1].
  set (s1 := mkState (set_addresses (upsert sip_id a (addresses (db s0))) (db s0))
                     w1 (maaslog s0)) in H1.
  destruct (StaticIPAddress_save_run a s1) as [w2 H2].
  set (s2 := mkState (set_addresses (upsert sip_id a (addresses (db s1))) (db s1))
                     w2 (maaslog s1)) in H2.
  destruct (ip_addresses_add_run (if_id interface) (sip_id a) s2)
    as (s_d & H3 & Hi & Ha & Hl).
  exists a, s_d. split.
  { unfold StaticIPAddress_create. rewrite bind_run. rewrite bind_run.
    unfold fresh_id at 1. cbv beta iota zeta. fold a. fold s0.
    rewrite bind_run, H1. rewrite ret_run. cbv beta iota.
    rewrite bind_run, H2. rewrite bind_run, H3. reflexivity. }
  split; [reflexivity|]. rewrite Ha, Hi. simpl.
  split; [apply upsert_has|]. split.
  - intros b Hb. apply upsert_origin in Hb. destruct Hb as [Hb|Hb]; [left; exact Hb|].
    apply upsert_origin in Hb. exact Hb.
  - destruct (ip_addresses_add_beside _ _ _ _ _ H3) as [Hsn Hlog].
    split; [|rewrite Hsn, Hlog; auto].
    intros j k. rewrite Hl. simpl. unfold linked. simpl. reflexivity.
Qed.

(** C6 (as amended). In [update_links] with [force_vlan], a static link,
    or a dhcp link that reports an address, whose subnet is on another VLAN
    than the interface is logged and skipped, and the loop goes on with the
    links that follow.  For a static link no row and no link is written,
    and the loop's current and updated addresses are as before.  For a dhcp
    link the DHCP address has by then been taken from the current
    addresses, or created and linked when there was none; the address the
    link reports is not recorded, and the updated addresses are as before.
    When the links before and after it go through, [update_vlan_interface]
    returns the interface and the pass goes on with the next interface. *)
Theorem C6_link_on_other_vlan_skipped
    (node : Node) (interface : Interface) (v : nat) (l : link) (ip_network : IPNetwork)
    (subnet : Subnet) (created : bool)
    (current_ip_addresses updated_ip_addresses : list StaticIPAddress)
    (rest : list link) (s s1 : State) :
  link_mode l = "static"%string \/ link_mode l = "dhcp"%string ->
  link_address l = Some ip_network ->
  if_vlan_id interface = Some v ->
  Subnet_get_or_create (cidr ip_network) v s = (Ok (subnet, created), s1) ->
  vlan_mismatch subnet interface = true ->
  exists current' s_d,
    let s' := mkState (db s_d) (writes s_d)
                (maaslog s_d ++ [SubnetNotOnVlan (net_ip ip_network) (if_name interface)
                                   (node_hostname node) (subnet_id subnet)]) in
    (link_mode l = "static"%string -> current' = current_ip_addresses /\ s_d = s)
    /\ (link_mode l = "dhcp"%string ->
        match get_alloc_type_from_ip_addresses node IPADDRESS_TYPE.DHCP
                current_ip_addresses with
        | Some a => current' = remove_first (sip_id a) current_ip_addresses /\ s_d = s
        | None =>
            current' = current_ip_addresses
            /\ maaslog s_d = maaslog s
            /\ subnets (db s_d) = subnets (db s)
            /\ interfaces (db s_d) = interfaces (db s)
            /\ exists a,
                 a = mkStaticIPAddress (next_id (db s)) IPADDRESS_TYPE.DHCP None None
                 /\ In a (addresses (db s_d))
                 /\ (forall b, In b (addresses (db s_d)) ->
                               b = a \/ In b (addresses (db s)))
                 /\ (forall j k, linked (db s_d) j k = true
                                 <-> linked (db s) j k = true
                                     \/ (j = if_id interface /\ k = sip_id a))
        end)
    /\ update_link node interface (Some v) true l
         (current_ip_addresses, updated_ip_addresses) s
       = (Ok (current', updated_ip_addresses), s')
    /\ for_each (l :: rest) (update_link node interface (Some v) true)
         (current_ip_addresses, updated_ip_addresses) s
       = for_each rest (update_link node interface (Some v) true)
           (current', updated_ip_addresses) s'
    /\ (forall name cfg s0 s_pre s_del before current2 updated2 s2,
          vlan_interface_for node name cfg s0 = (Ok interface, s_pre) ->
          config_links cfg = before ++ l :: rest ->
          delete_all sip_id StaticIPAddress_delete
            (filter (is_alloc_type IPADDRESS_TYPE.DISCOVERED)
                    (ip_addresses_all (if_id interface) (db s_pre))) s_pre = (Ok tt, s_del) ->
          for_each before (update_link node interface (Some v) true)
            (ip_addresses_all (if_id interface) (db s_del), []) s_del
          = (Ok (current_ip_addresses, updated_ip_addresses), s) ->
          for_each rest (update_link node interface (Some v) true)
            (current', updated_ip_addresses) s'
          = (Ok (current2, updated2), s2) ->
          exists s3,
            for_each current2 (fun a _ => unlink_ip_address interface a) tt s2 = (Ok tt, s3)
            /\ update_vlan_interface node name cfg s0 = (Ok interface, s3)
            /\ forall desired hints names current_interfaces,
                 lookup name desired = Some cfg ->
                 config_type cfg = "vlan"%string ->
                 for_each (name :: names) (process_interface node desired hints true)
                   current_interfaces s0
                 = for_each names (process_interface node desired hints true)
                     (filter (fun k => negb (k =? if_id interface)) current_interfaces) s3).
Proof.
  intros Hmode Haddr Hvlan Hsub Hmis.
  pose proof (mismatched_subnet_is_there _ _ _ _ _ _ _ Hvlan Hsub Hmis) as Hthere.
  (* the link itself *)
  assert (Hlink : exists current' s_d,
             (link_mode l = "static"%string -> current' = current_ip_addresses /\ s_d = s)
             /\ (link_mode l = "dhcp"%string ->
                 match get_alloc_type_from_ip_addresses node IPADDRESS_TYPE.DHCP
                         current_ip_addresses with
                 | Some a => current' = remove_first (sip_id a) current_ip_addresses /\ s_d = s
                 | None =>
                     current' = current_ip_addresses
                     /\ maaslog s_d = maaslog s
                     /\ subnets (db s_d) = subnets (db s)
                     /\ interfaces (db s_d) = interfaces (db s)
                     /\ exists a,
                          a = mkStaticIPAddress (next_id (db s)) IPADDRESS_TYPE.DHCP None None
                          /\ In a (addresses (db s_d))
                          /\ (forall b, In b (addresses (db s_d)) ->
                                        b = a \/ In b (addresses (db s)))
                          /\ (forall j k, linked (db s_d) j k = true
                                          <-> linked (db s) j k = true
                                              \/ (j = if_id interface /\ k = sip_id a))
                 end)
             /\ update_link node interface (Some v) true l
                  (current_ip_addresses, updated_ip_addresses) s
                = (Ok (current', updated_ip_addresses),
                   mkState (db s_d) (writes s_d)
                     (maaslog s_d ++ [SubnetNotOnVlan (net_ip ip_network) (if_name interface)
                                        (node_hostname node) (subnet_id subnet)]))).
  { destruct Hmode as [Hmode|Hmode].
    - exists current_ip_addresses, s. split; [auto|]. split.
      + intros Hd. rewrite Hmode in Hd. discriminate.
      + unfold update_link. rewrite Hmode. cbn [String.eqb Ascii.eqb Bool.eqb].
        unfold update_link_static. rewrite Haddr.
        rewrite bind_run. cbn [bound]. rewrite ret_run.
        rewrite bind_run, (Hthere s eq_refl). rewrite Hmis. cbn [andb].
        rewrite bind_run. reflexivity.
    - unfold update_link. rewrite Hmode. cbn [String.eqb Ascii.eqb Bool.eqb].
      unfold update_link_dhcp. rewrite Haddr.
      destruct (get_alloc_type_from_ip_addresses node IPADDRESS_TYPE.DHCP
                  current_ip_addresses) as [a|].
      + exists (remove_first (sip_id a) current_ip_addresses), s.
        split; [intros Hs; discriminate|]. split; [auto|].
        rewrite bind_run, ret_run. cbv beta iota.
        rewrite bind_run. cbn [bound]. rewrite ret_run.
        rewrite bind_run, (Hthere s eq_refl). rewrite Hmis. cbn [andb].
        rewrite bind_run. reflexivity.
      + destruct (dhcp_address_made interface current_ip_addresses s)
          as (a & s_d & Hrun & Ha & Hin & Hfrom & Hl & Hsn & Hi & Hlog).
        exists current_ip_addresses, s_d.
        split; [intros Hs; discriminate|]. split.
        * intros _. split; [reflexivity|]. split; [exact Hlog|]. split; [exact Hsn|].
          split; [exact Hi|]. exists a. auto.
        * rewrite bind_run, Hrun. cbv beta iota.
          rewrite bind_run. cbn [bound]. rewrite ret_run.
          rewrite bind_run, (Hthere s_d Hsn). rewrite Hmis. cbn [andb].
          rewrite bind_run. reflexivity. }
  destruct Hlink as (current' & s_d & Hstatic & Hdhcp & Hstep).
  exists current', s_d. cbv zeta.
  split; [exact Hstatic|]. split; [exact Hdhcp|]. split; [exact Hstep|].
  assert (Hloop : for_each (l :: rest) (update_link node interface (Some v) true)
                    (current_ip_addresses, updated_ip_addresses) s
                  = for_each rest (update_link node interface (Some v) true)
                      (current', updated_ip_addresses)
                      (mkState (db s_d) (writes s_d)
                         (maaslog s_d ++ [SubnetNotOnVlan (net_ip ip_network)
                                            (if_name interface) (node_hostname node)
                                            (subnet_id subnet)]))).
  { cbn [for_each]. rewrite bind_run, Hstep. reflexivity. }
  split; [exact Hloop|].
  (* the VLAN interface, and the pass *)
  intros name cfg s0 s_pre s_del before current2 updated2 s2 Hfor Hlinks Hdel Hbefore Hrest.
  destruct (unlink_all_run interface current2 s2) as (s3 & Hun & _).
  exists s3. split; [exact Hun|].
  assert (Hul : update_links node interface (config_links cfg) true true s_pre
                = (Ok (interface, updated2), s3)).
  { unfold update_links. rewrite bind_run, query_run.
    rewrite bind_run, Hdel. rewrite bind_run, query_run.
    rewrite bind_run. rewrite Hvlan. rewrite ret_run. cbv beta iota.
    rewrite bind_run. rewrite Hlinks, for_each_app, Hbefore, Hloop, Hrest.
    rewrite bind_run, Hun. rewrite ret_run. reflexivity. }
  assert (Hrun : update_vlan_interface node name cfg s0 = (Ok interface, s3)).
  { unfold update_vlan_interface. rewrite (bind_ok _ _ _ _ _ _ _ Hfor).
    rewrite (bind_ok _ _ _ _ _ _ _ Hul). reflexivity. }
  split; [exact Hrun|].
  intros desired hints names current_interfaces Hlook Htype.
  cbn [for_each]. rewrite bind_run. unfold process_interface at 1.
  rewrite Hlook. rewrite bind_run, ret_run. cbv beta iota.
  unfold update_interface. rewrite Htype. cbn [String.eqb Ascii.eqb Bool.eqb negb].
  rewrite bind_run. rewrite bind_run, Hrun. rewrite ret_run. reflexivity.
Qed.

(** * Part XIII: the scheduler and the hint engine *)

(** ** The tests of [TestBeaconingSocketProtocol], replayed *)

(** [test_multicasts_at_most_once_per_five_seconds]: a request at 6 is
    served at once; requests at 10 and 11, the second for a solicitation,
    are served together five seconds after the first of them. *)
Example test_multicasts_at_most_once_per_five_seconds :
  let p1 := fire (queueMulticastBeaconing 6 false idle_scheduler) in
  let p2 := queueMulticastBeaconing 11 true (queueMulticastBeaconing 10 false p1) in
  multicasts p1 = [(6, advertisement)]%Z
  /\ delayed_calls p2 = [15]%Z
  /\ multicasts (fire p2) = [(6, advertisement); (15, solicitation)]%Z.
Proof. repeat split. Qed.

(** [test_multiple_beacon_requests_coalesced]. *)
Example test_multiple_beacon_requests_coalesced :
  multicasts (fire (requests [(100, false); (100, false)]%Z idle_scheduler))
  = [(100, advertisement)]%Z.
Proof. reflexivity. Qed.

(** [test_solicitation_wins_when_multiple_requests_queued]. *)
Example test_solicitation_wins_when_multiple_requests_queued :
  multicasts (fire (requests [(100, false); (100, true)]%Z idle_scheduler))
  = [(100, solicitation)]%Z.
Proof. reflexivity. Qed.

(** [test_hints_for_own_beacon_received_on_another_interface]. *)
Example test_hints_for_own_beacon_received_on_another_interface :
  map th_hint
      (hints_of (beaconReceived (mkReceivedBeacon "eth1" None true fake_tx_beacon)
                                sent_transceiver) "uuid-1")
  = [rx_own_beacon_on_other_interface].
Proof. reflexivity. Qed.

(** [test_hints_for_own_beacon_received_on_same_interface]. *)
Example test_hints_for_own_beacon_received_on_same_interface :
  map th_hint
      (hints_of (beaconReceived (mkReceivedBeacon "eth0" None true fake_tx_beacon)
                                sent_transceiver) "uuid-1")
  = [rx_own_beacon_on_tx_interface].
Proof. reflexivity. Qed.

(** [test_hints_for_same_beacon_seen_on_multiple_interfaces]. *)
Example test_hints_for_same_beacon_seen_on_multiple_interfaces :
  hints_of (beaconReceived (mkReceivedBeacon "eth1" (Some 100) true fake_tx_beacon)
              (beaconReceived (mkReceivedBeacon "eth0" None true fake_tx_beacon)
                 fresh_transceiver)) "uuid-1"
  = [mkTopologyHint "eth0" None same_local_fabric_as "eth1" (Some 100) None;
     mkTopologyHint "eth1" (Some 100) same_local_fabric_as "eth0" None None].
Proof. reflexivity. Qed.

(** [test_hints_for_remote_unicast]. *)
Example test_hints_for_remote_unicast :
  hints_of (beaconReceived (mkReceivedBeacon "eth0" None false tagged_tx_beacon)
                           fresh_transceiver) "uuid-1"
  = [mkTopologyHint "eth0" None routable_to "eth1" (Some 100)
       (Some "01:02:03:04:05:06"%string)].
Proof. reflexivity. Qed.

(** [test_hints_for_remote_multicast]. *)
Example test_hints_for_remote_multicast :
  hints_of (beaconReceived (mkReceivedBeacon "eth0" (Some 200) true tagged_tx_beacon)
                           fresh_transceiver) "uuid-1"
  = [mkTopologyHint "eth0" (Some 200) on_remote_network "eth1" (Some 100)
       (Some "01:02:03:04:05:06"%string)].
Proof. reflexivity. Qed.

(** [test_getJSONTopologyHints_converts_hints_to_dictionary]: the hint of an
    untagged reception has no [vid]. *)
Example test_getJSONTopologyHints_converts_hints_to_dictionary :
  getJSONTopologyHints (beaconReceived (mkReceivedBeacon "eth0" None true tagged_tx_beacon)
                                       fresh_transceiver)
  = [mkHint (Some "eth0"%string) None (Some "on_remote_network"%string)
       (Some "eth1"%string) (Some 100) (Some "01:02:03:04:05:06"%string)].
Proof. reflexivity. Qed.

(** ** Coalescing *)

(** Once a multicast is requested, further requests schedule nothing and
    can only add the wish for a solicitation. *)
Lemma requests_when_requested (rs : list (Z * bool)) (p : scheduler) :
  mcast_requested p = true ->
  requests rs p
  = mkScheduler true (mcast_solicitation p || existsb snd rs) (last_solicited_mcast p)
      (delayed_calls p) (multicasts p).
Proof.
  revert p. induction rs as [|[now solicit] rs IH]; intros p Hreq.
  - simpl. rewrite orb_false_r. destruct p; simpl in *. subst. reflexivity.
  - unfold requests in *. cbn [fold_left fst snd existsb].
    rewrite IH.
    + unfold queueMulticastBeaconing. rewrite Hreq. simpl.
      destruct solicit, (mcast_solicitation p); reflexivity.
    + unfold queueMulticastBeaconing. rewrite Hreq. reflexivity.
Qed.

(** C8. Any number of requests, one at least, that come in while the
    scheduler is idle and before the call they schedule is made, schedule
    that one call and no other; it is due no sooner than five seconds after
    the last multicast on the monotonic clock; making it sends exactly one
    burst, a solicitation if any of the requests asked for one and an
    advertisement otherwise, and leaves the scheduler idle. *)
Theorem C8_requests_coalesce
    (p : scheduler) (first : Z * bool) (more : list (Z * bool)) :
  mcast_requested p = false ->
  mcast_solicitation p = false ->
  delayed_calls p = [] ->
  (last_solicited_mcast p <= fst first)%Z ->
  let kind := if existsb snd (first :: more) then solicitation else advertisement in
  let p' := requests (first :: more) p in
  exists due,
    delayed_calls p' = [due]
    /\ (last_solicited_mcast p + 5 <= due)%Z
    /\ multicasts p' = multicasts p
    /\ multicasts (fire p') = multicasts p ++ [(due, kind)]
    /\ mcast_requested (fire p') = false
    /\ mcast_solicitation (fire p') = false
    /\ delayed_calls (fire p') = [].
Proof.
  intros Hreq Hsol Hcalls Hmono kind p'.
  destruct first as [now solicit]. simpl in Hmono.
  set (delay := if (now <? last_solicited_mcast p + 5)%Z then 5%Z else 0%Z).
  assert (Hp' : p' = mkScheduler true (existsb snd ((now, solicit) :: more))
                       (last_solicited_mcast p) [(now + delay)%Z] (multicasts p)).
  { unfold p', requests. cbn [fold_left fst snd].
    fold (requests more (queueMulticastBeaconing now solicit p)).
    rewrite requests_when_requested.
    - unfold queueMulticastBeaconing. rewrite Hreq, Hsol, Hcalls. cbn [existsb snd].
      fold delay. destruct solicit; reflexivity.
    - unfold queueMulticastBeaconing. rewrite Hreq. reflexivity. }
  exists (now + delay)%Z. rewrite Hp'. unfold fire, dequeueMulticastBeaconing. simpl.
  repeat split.
  unfold delay. destruct (Z.ltb_spec now (last_solicited_mcast p + 5)); lia.
Qed.

(** ** Hints of an own beacon *)

(** C9. A beacon that is in the tx-table and comes back gives exactly one
    hint when it comes back on the interface it was sent from, of kind
    [rx_own_beacon_on_tx_interface]; and exactly one when it comes back on
    another interface with neither side tagged, of kind
    [rx_own_beacon_on_other_interface]; when the uuid had no hints yet, that
    hint is all that is recorded for it. *)
Theorem C9_own_beacon_hints
    (t : transceiver) (rx : ReceivedBeacon) (sent : BeaconPayload) :
  assoc (rx_uuid rx) (tx_queue t) = Some sent ->
  hints_of t (rx_uuid rx) = [] ->
  (rx_ifname rx = bp_name sent ->
   exists h, derive_hints t rx = [h]
             /\ th_hint h = rx_own_beacon_on_tx_interface
             /\ hints_of (beaconReceived rx t) (rx_uuid rx) = [h])
  /\ (rx_ifname rx <> bp_name sent -> rx_vid rx = None -> bp_vid sent = None ->
      exists h, derive_hints t rx = [h]
                /\ th_hint h = rx_own_beacon_on_other_interface
                /\ hints_of (beaconReceived rx t) (rx_uuid rx) = [h]).
Proof.
  intros Hsent Hnone.
  assert (Hrec : forall h, derive_hints t rx = [h] ->
                           hints_of (beaconReceived rx t) (rx_uuid rx) = [h]).
  { intros h Hd. unfold hints_of at 1, beaconReceived. cbn [topology_hints].
    rewrite Hd, Hnone. cbn [fold_left hint_add existsb app].
    generalize (topology_hints t). intros l.
    induction l as [|[k x] r IH]; cbn [assoc_set assoc].
    - rewrite String.eqb_refl. reflexivity.
    - destruct (String.eqb k (rx_uuid rx)) eqn:He; cbn [assoc].
      + rewrite String.eqb_refl. reflexivity.
      + rewrite He. exact IH. }
  unfold derive_hints in *. rewrite Hsent in *. unfold own_beacon_hints in *. split.
  - intros Hsame. apply String.eqb_eq in Hsame. rewrite Hsame in *.
    eexists. split; [reflexivity|]. split; [reflexivity|]. apply Hrec. reflexivity.
  - intros Hother Hrx Htx. apply String.eqb_neq in Hother. rewrite Hother, Hrx, Htx in *.
    eexists. split; [reflexivity|]. split; [reflexivity|]. apply Hrec. reflexivity.
Qed.

(** * Part XIV: the scenarios, run *)

Ltac nodup_concrete :=
  repeat (apply NoDup_cons; [simpl; intuition discriminate|]); apply NoDup_nil.

Ltac ranked_concrete :=
  let n := fresh "n" in let ps := fresh "ps" in let p := fresh "p" in
  let Hin := fresh "Hin" in let Hp := fresh "Hp" in
  intros n ps p Hin Hp; vm_compute in Hin;
  repeat (destruct Hin as [Hin|Hin]; [inversion Hin; subst; clear Hin; vm_compute in Hp|]);
  try contradiction;
  repeat (destruct Hp as [Hp|Hp]; [subst; vm_compute; lia|]); contradiction.

(** The orders for a bond over two NICs with a VLAN on it: the NICs by
    name, the bond, its VLAN; and, were all four to go, the reverse. *)
Lemma C3_dependency_orders_witness :
  (exists order levels,
      process_order bonded_interfaces = Ok order
      /\ (forall name cfg parent,
             In (name, cfg) bonded_interfaces -> In parent (config_parents cfg) ->
             before parent name order)
      /\ (forall name, In name (map fst bonded_interfaces) -> In name order)
      /\ NoDup order
      /\ sorttop String.eqb (parents_graph bonded_interfaces) = Ok levels
      /\ order = concat (map (sorted String.leb) levels)
      /\ Forall (Sorted (fun a b => String.leb a b = true)) (map (sorted String.leb) levels))
  /\ (exists order,
         deletion_order bonded_store [10; 11; 12; 13] = Ok order
         /\ (forall child parent,
                In child [10; 11; 12; 13] -> In parent [10; 11; 12; 13] ->
                In parent (map if_id (parents_all child bonded_store)) ->
                before child parent order)
         /\ NoDup order).
Proof.
  apply (C3_dependency_orders bonded_interfaces bonded_store [10; 11; 12; 13]).
  - nodup_concrete.
  - apply ranked_acyclic with (rank := bonded_rank). ranked_concrete.
  - nodup_concrete.
  - apply ranked_acyclic with (rank := bonded_id_rank). ranked_concrete.
Defined.

Example process_order_bonded :
  process_order bonded_interfaces = Ok ["eth0"; "eth1"; "bond0"; "bond0.10"]%string
  /\ deletion_order bonded_store [10; 11; 12; 13] = Ok [13; 12; 11; 10].
Proof. split; vm_compute; reflexivity. Qed.

Lemma C2_unknown_type_aborts_witness :
  (exists e s',
      update_node_interfaces node_a wireless_interfaces None true (state_of empty_store)
      = (Raise e, s')
      /\ db s' = db (state_of empty_store) /\ writes s' = writes (state_of empty_store))
  /\ update_interface node_a "wlan0" wlan0 false None (state_of empty_store)
     = (Ok None, state_of empty_store).
Proof.
  apply (C2_unknown_type_aborts node_a wireless_interfaces None "wlan0" wlan0
           (state_of empty_store)); vm_compute; reflexivity.
Defined.

(** With [create_fabrics] false the pass over a desired state with an
    interface of unknown type returns, having created the physical one. *)
Lemma C2_unknown_type_passes_unnoticed :
  lookup "wlan0" wireless_interfaces = Some wlan0
  /\ known_type (config_type wlan0) = false
  /\ fst (update_node_interfaces node_a wireless_interfaces None false (state_of empty_store))
     = Ok tt
  /\ writes (snd (update_node_interfaces node_a wireless_interfaces None false
                    (state_of empty_store)))
     = [Insert TInterface 100].
Proof. repeat split; vm_compute; reflexivity. Qed.

(** The mac move scenario with a static link declared: node B declares
    the MAC address that node A has; the two addresses the interface had
    are deleted. *)
Lemma C4_mac_moves_to_the_current_node_witness :
  let run := update_physical_interface node_b "eth0" moved_nic_with_link true None
               (state_of mac_move_store) in
  (exists row,
      find_id if_id 10 (interfaces (db (snd run))) = Some row
      /\ if_node_id row = node_id node_b
      /\ if_name row = "eth0"%string)
  /\ (forall a, In a (ip_addresses_all 10 (db (state_of mac_move_store))) ->
        has_id sip_id (sip_id a) (addresses (db (snd run))) = false)
  /\ (forall a a', In a (ip_addresses_all 10 (db (state_of mac_move_store))) ->
        In a' (ip_addresses_all 10 (db (snd run))) -> sip_id a' <> sip_id a)
  /\ (true = false \/ config_links moved_nic_with_link = [] ->
      ip_addresses_all 10 (db (snd run)) = []).
Proof.
  intros run.
  apply (C4_mac_moves_to_the_current_node node_b "eth0" moved_nic_with_link true None
           (state_of mac_move_store)
           (snd (find_physical_interface node_b "eth0" moved_nic_with_link
                   (state_of mac_move_store)))
           (snd run)
           (mkInterface 10 INTERFACE_TYPE.PHYSICAL "eth0" "52:54:00:00:00:01" 1 (Some 40)
              true true [])
           (mkInterface 10 INTERFACE_TYPE.PHYSICAL "eth0" "52:54:00:00:00:01" 2 (Some 40)
              true true [])).
  - intros a Hin. vm_compute in Hin. destruct Hin as [<-|[<-|[]]]; simpl; lia.
  - vm_compute. reflexivity.
  - simpl. lia.
  - vm_compute. reflexivity.
Defined.

(** Without links declared, as in the scenario of the specification: the
    interface belongs to node B, its two addresses are deleted, and it has
    none. *)
Example mac_move_without_links :
  let run := update_physical_interface node_b "eth0" moved_nic true None
               (state_of mac_move_store) in
  map if_node_id (interfaces (db (snd run))) = [2]
  /\ addresses (db (snd run)) = []
  /\ ip_addresses_all 10 (db (snd run)) = []
  /\ writes (snd run)
     = [Delete TStaticIPAddress 20; Delete TStaticIPAddress 21; Update TInterface 10].
Proof. repeat split; vm_compute; reflexivity. Qed.

(** The whole pass with the static link declared: the interface belongs to
    node B afterwards, its two addresses are gone, and it has the declared
    one, so that it does not end with zero linked addresses. *)
Lemma C4_declared_link_is_attached :
  fst (update_node_interfaces node_b [("eth0"%string, moved_nic_with_link)] None true
         (state_of mac_move_store)) = Ok tt
  /\ map if_node_id
       (interfaces (db (snd (update_node_interfaces node_b
                               [("eth0"%string, moved_nic_with_link)] None true
                               (state_of mac_move_store))))) = [2]
  /\ map sip_ip
       (ip_addresses_all 10
          (db (snd (update_node_interfaces node_b [("eth0"%string, moved_nic_with_link)]
                      None true (state_of mac_move_store)))))
     = [Some (ip4 10 0 5 9)].
Proof. repeat split; vm_compute; reflexivity. Qed.

(** An address that is linked to [eth1] of the node and to an interface of
    node B: reconciling [eth0] with it takes it from node B's interface. *)
Lemma C5_static_address_detached_from_other_nodes_witness :
  let run := update_link node_a eth0_of_a (Some 40) false static_10_0_5_7 ([], [])
               (state_of shared_address_store) in
  exists a,
    find_id sip_id (sip_id a) (addresses (db (snd run))) = Some a
    /\ sip_alloc_type a = IPADDRESS_TYPE.STICKY
    /\ sip_ip_is (ip4 10 0 5 7) a = true
    /\ has_id sip_id (sip_id a)
         [mkStaticIPAddress 20 IPADDRESS_TYPE.STICKY (Some (ip4 10 0 5 7)) (Some 30)] = true
    /\ linked (db (snd run)) (if_id eth0_of_a) (sip_id a) = true
    /\ (forall i,
           In i (interfaces (db (snd run))) ->
           linked (db (snd run)) (if_id i) (sip_id a) = true ->
           if_id i = if_id eth0_of_a \/ if_node_id i = node_id node_a).
Proof.
  intros run.
  apply (C5_static_address_detached_from_other_nodes node_a eth0_of_a 40 false static_10_0_5_7
           (net4 10 0 5 7 24)
           (mkSubnet 30 (net4 10 0 5 0 24) (net4 10 0 5 0 24) 40 None) false
           ([], [])
           ([], [mkStaticIPAddress 20 IPADDRESS_TYPE.STICKY (Some (ip4 10 0 5 7)) (Some 30)])
           (state_of shared_address_store) (state_of shared_address_store) (snd run));
    vm_compute; reflexivity.
Defined.

(** It stays linked to [eth1], which is of the same node: after
    [update_links] for [eth0] the address is on two interfaces. *)
Lemma C5_address_stays_on_same_node_interface :
  fst (update_links node_a eth0_of_a [static_10_0_5_7] false true
         (state_of shared_address_store))
  = Ok (eth0_of_a, [mkStaticIPAddress 20 IPADDRESS_TYPE.STICKY (Some (ip4 10 0 5 7)) (Some 30)])
  /\ map if_id
       (interface_set_all 20
          (db (snd (update_links node_a eth0_of_a [static_10_0_5_7] false true
                      (state_of shared_address_store))))) = [10; 11].
Proof. split; vm_compute; reflexivity. Qed.

(** [eth0.100] with an address on the subnet of VLAN 41 and one on the
    subnet of VLAN 40: the links put the interface on VLAN 40, the first
    link is logged and skipped, [update_vlan_interface] returns the
    interface, and the pass goes on with [eth0.200]. *)
Lemma C6_link_on_other_vlan_skipped_witness :
  let s0 := state_of two_subnet_store in
  let run := update_vlan_interface node_a "eth0.100" eth0_100_two_links s0 in
  fst run = Ok eth0_100_on_40
  /\ for_each ["eth0.100"; "eth0.200"]%string
       (process_interface node_a two_vlan_interfaces None true) [10; 13] s0
     = for_each ["eth0.200"%string]
         (process_interface node_a two_vlan_interfaces None true) [10] (snd run).
Proof.
  intros s0 run.
  set (s_pre := snd (vlan_interface_for node_a "eth0.100" eth0_100_two_links s0)).
  set (s_del := snd (delete_all sip_id StaticIPAddress_delete
                       (filter (is_alloc_type IPADDRESS_TYPE.DISCOVERED)
                               (ip_addresses_all 13 (db s_pre))) s_pre)).
  destruct (C6_link_on_other_vlan_skipped node_a eth0_100_on_40 40 static_10_0_8_5
              (net4 10 0 8 5 24)
              (mkSubnet 32 (net4 10 0 8 0 24) (net4 10 0 8 0 24) 41 None) false
              [] [] [static_10_0_7_5] s_del s_del)
    as (current' & s_d & Hstatic & _ & _ & _ & Hnode).
  - left. reflexivity.
  - reflexivity.
  - reflexivity.
  - vm_compute. reflexivity.
  - reflexivity.
  - destruct (Hstatic eq_refl) as [-> ->].
    destruct (Hnode "eth0.100"%string eth0_100_two_links s0 s_pre s_del [] []
                [mkStaticIPAddress 100 IPADDRESS_TYPE.STICKY (Some (ip4 10 0 7 5)) (Some 31)]
                (snd (for_each [static_10_0_7_5] (update_link node_a eth0_100_on_40 (Some 40) true)
                        ([], [])
                        (mkState (db s_del) (writes s_del)
                           (maaslog s_del
                            ++ [SubnetNotOnVlan (ip4 10 0 8 5) "eth0.100" "node-a" 32])))))
      as (s3 & _ & Hrun & Hpass).
    + vm_compute. reflexivity.
    + reflexivity.
    + vm_compute. reflexivity.
    + vm_compute. reflexivity.
    + vm_compute. reflexivity.
    + unfold run. rewrite Hrun. split; [reflexivity|].
      apply (Hpass two_vlan_interfaces None ["eth0.200"%string] [10; 13]); reflexivity.
Defined.

(** The whole pass over that desired state: it returns; the log has the
    tag that does not agree with the links and the link that was skipped;
    [eth0.100] has the address of the second link only; and [eth0.200],
    which comes after it, was created. *)
Example pass_with_a_skipped_link :
  let run := update_node_interfaces node_a two_vlan_interfaces None true
               (state_of two_subnet_store) in
  fst run = Ok tt
  /\ maaslog (snd run)
     = [VlanReportMismatch "eth0.100" 100 0;
        SubnetNotOnVlan (ip4 10 0 8 5) "eth0.100" "node-a" 32]
  /\ map sip_ip (ip_addresses_all 13 (db (snd run))) = [Some (ip4 10 0 7 5)]
  /\ map if_name (interfaces (db (snd run))) = ["eth0"; "eth0.100"; "eth0.200"]%string.
Proof. repeat split; vm_compute; reflexivity. Qed.

(** A static link for a subnet on VLAN 40, on a VLAN interface on VLAN 41,
    at the level of the loop. *)
Example static_link_on_other_vlan :
  update_link node_a eth0_100 (Some 41) true static_10_0_7_5 ([], []) (state_of tagged_store)
  = (Ok ([], []),
     mkState tagged_store []
       [SubnetNotOnVlan (ip4 10 0 7 5) "eth0.100" "node-a" 31]).
Proof. vm_compute. reflexivity. Qed.

(** The same for a dhcp link that reports the address: the link is logged
    and skipped, but its DHCP address has been created and linked by
    then. *)
Lemma C6_dhcp_link_partly_applied :
  fst (update_links node_a eth0_100 [dhcp_10_0_7_5] true true (state_of tagged_store))
  = Ok (eth0_100, [])
  /\ maaslog (snd (update_links node_a eth0_100 [dhcp_10_0_7_5] true true
                     (state_of tagged_store)))
     = [SubnetNotOnVlan (ip4 10 0 7 5) "eth0.100" "node-a" 31]
  /\ writes (snd (update_links node_a eth0_100 [dhcp_10_0_7_5] true true
                    (state_of tagged_store)))
     = [Insert TStaticIPAddress 100; Update TStaticIPAddress 100; Link 13 100]
  /\ links (db (snd (update_links node_a eth0_100 [dhcp_10_0_7_5] true true
                       (state_of tagged_store))))
     = [(13, 100)].
Proof. repeat split; vm_compute; reflexivity. Qed.

(** The VLAN propagation scenario: [br0] has a STICKY address on the subnet
    of VLAN 45; [br0], [eth0], which had no VLAN, and [eth1], which was on
    VLAN 40, end on VLAN 45. *)
Lemma C7_parent_vlans_witness :
  guess_best_vlan_from_ip_addresses bridge_store node_a br0_addresses = Ok (Some 45)
  /\ exists s',
       update_parent_vlans node_a br0 br0_parents br0_addresses (state_of bridge_store)
       = (Ok (with_vlan (Some 45) br0), s')
       /\ row_vlan (db s') (if_id br0) = Some (Some 45)
       /\ (forall p, In p br0_parents -> row_vlan (db s') (if_id p) = Some (Some 45)).
Proof.
  apply (C7_parent_vlans node_a br0 br0_parents br0_addresses (state_of bridge_store)).
  - intros a Hin Hne. vm_compute in Hin.
    destruct Hin as [<-|[<-|[]]]; [exfalso; apply Hne; reflexivity|].
    exists 45. vm_compute. reflexivity.
  - intros p Hin. vm_compute in Hin. destruct Hin as [<-|[<-|[]]]; vm_compute; reflexivity.
Defined.



(** Without a VLAN of its own, [eth0] takes that of the interface
    [find_related_interface] finds for the hint: the first physical
    interface of the node. *)
Example hint_gives_the_vlan :
  guess_vlan_from_hints hinted_store node_a "eth0" [eth0_hears_eth1] = Some 40
  /\ fst (update_physical_interface node_a "eth0" moved_nic true (Some [eth0_hears_eth1])
            (state_of hinted_store))
     = Ok (mkInterface 11 INTERFACE_TYPE.PHYSICAL "eth0" "52:54:00:00:00:01" 1 (Some 40)
             true true []).
Proof. split; vm_compute; reflexivity. Qed.

(** Three requests in one window, the second for a solicitation. *)
Lemma C8_requests_coalesce_witness :
  exists due,
    delayed_calls (requests [(100, false); (101, true); (102, false)]%Z idle_scheduler) = [due]
    /\ (last_solicited_mcast idle_scheduler + 5 <= due)%Z
    /\ multicasts (requests [(100, false); (101, true); (102, false)]%Z idle_scheduler)
       = multicasts idle_scheduler
    /\ multicasts (fire (requests [(100, false); (101, true); (102, false)]%Z idle_scheduler))
       = multicasts idle_scheduler ++ [(due, solicitation)]
    /\ mcast_requested
         (fire (requests [(100, false); (101, true); (102, false)]%Z idle_scheduler)) = false
    /\ mcast_solicitation
         (fire (requests [(100, false); (101, true); (102, false)]%Z idle_scheduler)) = false
    /\ delayed_calls
         (fire (requests [(100, false); (101, true); (102, false)]%Z idle_scheduler)) = [].
Proof.
  apply (C8_requests_coalesce idle_scheduler (100, false)%Z [(101, true); (102, false)]%Z);
    try reflexivity.
  simpl. lia.
Defined.

(** The beacon sent from [eth0], back on [eth1]. *)
Lemma C9_own_beacon_hints_witness :
  (rx_ifname (mkReceivedBeacon "eth1" None true fake_tx_beacon) = bp_name fake_tx_beacon ->
   exists h,
     derive_hints sent_transceiver (mkReceivedBeacon "eth1" None true fake_tx_beacon) = [h]
     /\ th_hint h = rx_own_beacon_on_tx_interface
     /\ hints_of (beaconReceived (mkReceivedBeacon "eth1" None true fake_tx_beacon)
                    sent_transceiver)
          (rx_uuid (mkReceivedBeacon "eth1" None true fake_tx_beacon)) = [h])
  /\ (rx_ifname (mkReceivedBeacon "eth1" None true fake_tx_beacon) <> bp_name fake_tx_beacon ->
      rx_vid (mkReceivedBeacon "eth1" None true fake_tx_beacon) = None ->
      bp_vid fake_tx_beacon = None ->
      exists h,
        derive_hints sent_transceiver (mkReceivedBeacon "eth1" None true fake_tx_beacon) = [h]
        /\ th_hint h = rx_own_beacon_on_other_interface
        /\ hints_of (beaconReceived (mkReceivedBeacon "eth1" None true fake_tx_beacon)
                       sent_transceiver)
             (rx_uuid (mkReceivedBeacon "eth1" None true fake_tx_beacon)) = [h]).
Proof.
  apply (C9_own_beacon_hints sent_transceiver (mkReceivedBeacon "eth1" None true fake_tx_beacon)
           fake_tx_beacon); reflexivity.
Defined.


(** * Part XV: physical interfaces without links, reconciled and reconciled again *)

Lemma filter_none (A : Type) (p : A -> bool) (l : list A) :
  (forall x, In x l -> p x = false) -> filter p l = [].
Proof.
  induction l as [|x r IH]; simpl; intros H; [reflexivity|].
  rewrite (H x (or_introl eq_refl)). apply IH. intros y Hy. apply H. right. exact Hy.
Qed.

Lemma filter_all (A : Type) (p : A -> bool) (l : list A) :
  (forall x, In x l -> p x = true) -> filter p l = l.
Proof.
  induction l as [|x r IH]; simpl; intros H; [reflexivity|].
  rewrite (H x (or_introl eq_refl)). f_equal. apply IH. intros y Hy. apply H. right. exact Hy.
Qed.

Lemma map_same (A : Type) (g : A -> A) (l : list A) :
  (forall x, In x l -> g x = x) -> map g l = l.
Proof.
  induction l as [|x r IH]; simpl; intros H; [reflexivity|].
  rewrite (H x (or_introl eq_refl)). f_equal. apply IH. intros y Hy. apply H. right. exact Hy.
Qed.

(** Rows of a table with one key each are told apart by their key. *)
Lemma same_id_same_row (A : Type) (id : A -> nat) (l : list A) (x y : A) :
  NoDup (map id l) -> In x l -> In y l -> id x = id y -> x = y.
Proof.
  induction l as [|z r IH]; simpl; intros Hnd Hx Hy He; [contradiction|].
  inversion Hnd as [|? ? Hnin Hnd']; subst.
  destruct Hx as [->|Hx], Hy as [->|Hy].
  - reflexivity.
  - exfalso. apply Hnin. rewrite He. apply in_map. exact Hy.
  - exfalso. apply Hnin. rewrite <- He. apply in_map. exact Hx.
  - apply IH; assumption.
Qed.

Lemma filter_unique (A : Type) (id : A -> nat) (p : A -> bool) (l : list A) (x : A) :
  NoDup (map id l) -> In x l -> p x = true ->
  (forall y, In y l -> p y = true -> id y = id x) ->
  filter p l = [x].
Proof.
  induction l as [|z r IH]; simpl; intros Hnd Hx Hp Hall; [contradiction|].
  inversion Hnd as [|? ? Hnin Hnd']; subst.
  destruct Hx as [->|Hx].
  - rewrite Hp. f_equal. apply filter_none. intros y Hy.
    destruct (p y) eqn:Hpy; [|reflexivity]. exfalso. apply Hnin.
    rewrite <- (Hall y (or_intror Hy) Hpy). apply in_map. exact Hy.
  - destruct (p z) eqn:Hpz.
    + exfalso. apply Hnin. rewrite (Hall z (or_introl eq_refl) Hpz). apply in_map. exact Hx.
    + apply IH; auto.
Qed.

Lemma has_id_In (A : Type) (id : A -> nat) (l : list A) (x : A) :
  In x l -> has_id id (id x) l = true.
Proof.
  intros H. unfold has_id. apply existsb_exists. exists x. split; [exact H|]. apply Nat.eqb_refl.
Qed.

Lemma set_interfaces_same (d : Store) : set_interfaces (interfaces d) d = d.
Proof. destruct d. reflexivity. Qed.

Lemma set_nodes_same (d : Store) : set_nodes (nodes d) d = d.
Proof. destruct d. reflexivity. Qed.

Lemma with_name_same (i : Interface) : with_name (if_name i) i = i.
Proof. destruct i. reflexivity. Qed.

Lemma copy_name_same (i : Interface) : copy_field i f_name i = i.
Proof. destruct i. reflexivity. Qed.

(** ** A settled interface is left as it is *)

Lemma update_physical_interface_settled (node : Node) (name : string) (cfg : config)
    (hints : option (list hint)) (s : State) (i : Interface) :
  well_keyed (db s) -> config_links cfg = [] ->
  settled (db s) node name cfg i ->
  exists s', update_physical_interface node name cfg true hints s = (Ok i, s')
             /\ db s' = db s
             /\ writes s' = writes s ++ [Update TInterface (if_id i)].
Proof.
  intros [Hnd Hlt] Hlinks (Hin & Hmac & Hone & Hstale & Hnode & Hname & Hen & Hvlan & Hnone).
  unfold update_physical_interface, find_physical_interface.
  rewrite !bind_run, query_run.
  change (filter _ (interfaces (db s)))
    with (filter (stale_for node name (config_mac_address cfg)) (interfaces (db s))).
  rewrite (filter_none _ _ _ Hstale).
  rewrite bind_run. unfold delete_all. cbn [for_each]. rewrite ret_run.
  unfold PhysicalInterface_get_or_create. rewrite bind_run, query_run.
  change (filter _ (interfaces (db s)))
    with (filter (physical_with_mac (config_mac_address cfg)) (interfaces (db s))).
  rewrite (filter_unique _ if_id _ _ i Hnd Hin Hmac Hone). rewrite ret_run.
  assert (Hguard : true && is_none (if_vlan_id i) && config_enabled cfg = false).
  { destruct Hvlan as [Hv|He]; [|rewrite He; apply andb_false_r].
    destruct (if_vlan_id i); [reflexivity | congruence]. }
  rewrite bind_run, Hguard, ret_run. cbv beta iota.
  rewrite bind_run, bind_run.
  rewrite Hnode, Nat.eqb_refl. cbn [negb]. rewrite ret_run. cbv beta iota. rewrite ret_run.
  cbv beta iota.
  replace (with_name name i) with i by (rewrite <- Hname; symmetry; apply with_name_same).
  rewrite bind_run, Hen, Bool.eqb_reflx. cbn [negb]. rewrite ret_run. cbv beta iota.
  unfold update_physical_links. rewrite Hlinks, !bind_run.
  rewrite (update_links_nothing_to_do node i false true s Hnone). cbv beta iota.
  rewrite bind_run, query_result_run.
  cbn [guess_best_vlan_from_ip_addresses guess_best_vlan_loop].
  rewrite ret_run. cbn [add_field existsb app length Nat.ltb Nat.leb when].
  unfold Interface_save_fields. rewrite !bind_run, query_run.
  rewrite (has_id_In _ if_id _ _ Hin).
  eexists. split; [reflexivity|]. split; [|reflexivity]. simpl.
  rewrite map_same; [apply set_interfaces_same|].
  intros row Hrow. destruct (if_id row =? if_id i) eqn:He; [|reflexivity].
  apply Nat.eqb_eq in He.
  rewrite (same_id_same_row _ if_id _ _ _ Hnd Hrow Hin He). apply copy_name_same.
Qed.

(** ** What the steps between the fetch and the save leave alone *)

Lemma aside_refl (s : State) : aside s s.
Proof. split; [apply addresses_shrink_refl | split; [reflexivity | apply Nat.le_refl]]. Qed.

Lemma aside_trans (s1 s2 s3 : State) : aside s1 s2 -> aside s2 s3 -> aside s1 s3.
Proof.
  intros (Ha & Hn & Hk) (Ha' & Hn' & Hk'). split; [|split].
  - apply addresses_shrink_trans with s2; assumption.
  - congruence.
  - apply Nat.le_trans with (next_id (db s2)); assumption.
Qed.

Lemma aside_modify (g : Store -> Store) :
  (forall d, interfaces (g d) = interfaces d /\ nodes (g d) = nodes d
             /\ (forall a, In a (addresses (g d)) -> In a (addresses d))
             /\ (forall l, In l (links (g d)) -> In l (links d))
             /\ next_id d <= next_id (g d)) ->
  preserves aside (modify g).
Proof.
  intros Hg s r s' H. inversion H; subst. clear H.
  destruct (Hg (db s)) as (Hi & Hn & Ha & Hl & Hk).
  split; [split; [|split]|split]; simpl; auto.
  intros j k H. apply linked_iff in H. apply linked_iff. simpl in H. auto.
Qed.

Lemma aside_same_db (s s' : State) : db s' = db s -> aside s s'.
Proof.
  intros H. unfold aside, addresses_shrink, links_shrink. rewrite H.
  repeat split; auto.
Qed.

Lemma aside_emit (w : write) : preserves aside (emit w).
Proof. intros s r s' H. inversion H; subst. apply aside_same_db. reflexivity. Qed.

Lemma aside_fresh_id : preserves aside fresh_id.
Proof.
  intros s r s' H. inversion H; subst. clear H.
  split; [split; [|split]|split]; simpl; auto.
  intros j k H. exact H.
Qed.

Ltac aside_structure :=
  repeat match goal with
    | |- preserves _ (ret _) => apply preserves_ret; apply aside_refl
    | |- preserves _ (raise _) => apply preserves_raise; apply aside_refl
    | |- preserves _ (lift _) => apply preserves_lift; apply aside_refl
    | |- preserves _ (query _) => apply preserves_query; apply aside_refl
    | |- preserves _ (query_result _) => apply preserves_query_result; apply aside_refl
    | |- preserves _ (emit _) => apply aside_emit
    | |- preserves _ fresh_id => apply aside_fresh_id
    | |- preserves _ (bind _ _) => apply preserves_bind; [apply aside_trans | | intros]
    | |- preserves _ (when _ _) => apply preserves_when; [apply aside_refl | ]
    | |- preserves _ (for_each _ _ _) =>
        apply preserves_for_each; [apply aside_refl | apply aside_trans | intros]
    | |- preserves _ (delete_all _ _ _) =>
        apply preserves_delete_all; [apply aside_refl | apply aside_trans | intros]
    | |- preserves _ (match ?x with _ => _ end) => destruct x
    end.

Lemma aside_VLAN_insert (v : VLAN) : preserves aside (VLAN_insert v).
Proof.
  unfold VLAN_insert. aside_structure.
  apply aside_modify. intros d. simpl. auto.
Qed.

Lemma aside_Fabric_insert (k : nat) : preserves aside (Fabric_insert k).
Proof.
  unfold Fabric_insert. aside_structure.
  - apply aside_modify. intros d. simpl. auto.
  - apply aside_VLAN_insert.
Qed.

Lemma aside_StaticIPAddress_delete (k : nat) : preserves aside (StaticIPAddress_delete k).
Proof.
  unfold StaticIPAddress_delete. aside_structure.
  apply aside_modify. intros d. simpl. repeat split; auto.
  - intros x Hx. unfold remove_id in Hx. apply filter_In in Hx. tauto.
  - intros l Hl. apply filter_In in Hl. tauto.
Qed.

Lemma aside_ip_addresses_remove (i a : nat) : preserves aside (ip_addresses_remove i a).
Proof.
  unfold ip_addresses_remove. aside_structure.
  apply aside_modify. intros d. simpl. repeat split; auto.
  intros l Hl. apply filter_In in Hl. tauto.
Qed.

Lemma aside_guess_vlan_for_interface (node : Node) (cfg : config) :
  preserves aside (guess_vlan_for_interface node cfg).
Proof.
  unfold guess_vlan_for_interface, VLAN_get_default_vlan, Fabric_create,
    Fabric_get_default_vlan.
  aside_structure; try apply aside_Fabric_insert.
Qed.

Lemma aside_update_links_nil (node : Node) (interface : Interface)
    (force_vlan use_interface_vlan : bool) :
  preserves aside (update_links node interface [] force_vlan use_interface_vlan).
Proof.
  unfold update_links, unlink_ip_address. cbn [for_each].
  aside_structure;
    try apply aside_StaticIPAddress_delete; try apply aside_ip_addresses_remove.
Qed.

(** ** Deleting interfaces *)

Lemma filter_map_comm (A B : Type) (g : A -> B) (p : B -> bool) (l : list A) :
  filter p (map g l) = map g (filter (fun x => p (g x)) l).
Proof.
  induction l as [|x r IH]; simpl; [reflexivity|].
  destruct (p (g x)); simpl; rewrite IH; reflexivity.
Qed.

Lemma filter_twice (A : Type) (p q : A -> bool) (l : list A) :
  filter q (filter p l) = filter (fun x => p x && q x) l.
Proof.
  induction l as [|x r IH]; simpl; [reflexivity|].
  destruct (p x); simpl; [destruct (q x)|]; rewrite IH; reflexivity.
Qed.

Lemma without_parents_id (i : Interface) : if_id (without_parents i) = if_id i.
Proof. reflexivity. Qed.

Lemma In_without_parents (l : list Interface) (x : Interface) :
  In x (map without_parents l) ->
  exists row, In row l /\ without_parents row = x.
Proof.
  intros H. apply in_map_iff in H. destruct H as [row [He Hin]]. exists row. auto.
Qed.

Lemma ids_without_parents (l : list Interface) :
  map if_id (map without_parents l) = map if_id l.
Proof. rewrite map_map. reflexivity. Qed.

Lemma drops_nil (s : State) : drops [] s s.
Proof.
  unfold drops. simpl. repeat split; auto.
  - symmetry. apply filter_all. reflexivity.
  - apply links_shrink_refl.
Qed.

Lemma drops_cons (k : nat) (ks : list nat) (s1 s2 s3 : State) :
  drops [k] s1 s2 -> drops ks s2 s3 -> drops (k :: ks) s1 s3.
Proof.
  intros (Hc & Ha & Hl & Hn & Hk) (Hc' & Ha' & Hl' & Hn' & Hk').
  unfold drops. split; [|split; [|split; [|split]]].
  - rewrite Hc', Hc, filter_twice. apply filter_ext. intros r. simpl.
    rewrite orb_false_r, negb_orb. reflexivity.
  - congruence.
  - apply links_shrink_trans with s2; assumption.
  - congruence.
  - congruence.
Qed.

Lemma Interface_delete_run (k : nat) (s : State) :
  exists s', Interface_delete k s = (Ok tt, s') /\ drops [k] s s'.
Proof.
  unfold Interface_delete. rewrite bind_run, query_run.
  destruct (has_id if_id k (interfaces (db s))) eqn:Hp; cbn [when].
  - eexists. split; [reflexivity|]. unfold drops. simpl. repeat split.
    + unfold remove_id. rewrite map_map. simpl.
      rewrite filter_map_comm. simpl.
      change (fun x : Interface => with_mac_parents (if_mac_address x) [] x)
        with without_parents.
      f_equal. apply filter_ext. intros r. rewrite orb_false_r. reflexivity.
    + intros j x H. apply linked_iff in H. simpl in H. apply filter_In in H.
      apply linked_iff. tauto.
  - exists s. rewrite ret_run. split; [reflexivity|]. unfold drops. repeat split.
    + symmetry. apply filter_all. intros r Hr. simpl. rewrite orb_false_r.
      apply In_without_parents in Hr. destruct Hr as (row & Hrow & <-).
      rewrite without_parents_id.
      destruct (if_id row =? k) eqn:He; [|reflexivity].
      exfalso. apply Nat.eqb_eq in He. rewrite <- He, (has_id_In _ if_id _ _ Hrow) in Hp.
      discriminate.
    + apply links_shrink_refl.
Qed.

Lemma delete_interfaces_run (rows : list Interface) :
  forall s,
  exists s', delete_all if_id Interface_delete rows s = (Ok tt, s')
             /\ drops (map if_id rows) s s'.
Proof.
  unfold delete_all. induction rows as [|r0 rows IH]; intros s.
  - exists s. simpl. rewrite ret_run. split; [reflexivity | apply drops_nil].
  - cbn [for_each map]. rewrite bind_run.
    destruct (Interface_delete_run (if_id r0) s) as (s1 & -> & H1).
    destruct (IH s1) as (s' & Hrun & H').
    exists s'. split; [exact Hrun|]. apply drops_cons with s1; assumption.
Qed.

Lemma delete_interface_loop (ks : list nat) :
  forall node s,
  exists node' s', for_each ks delete_interface node s = (Ok node', s') /\ drops ks s s'
                   /\ node_id node' = node_id node
                   /\ node_hostname node' = node_hostname node
                   /\ node_boot_interface_id node'
                      = if existsb (fun k => option_nat_eqb (node_boot_interface_id node)
                                                            (Some k)) ks
                        then None else node_boot_interface_id node.
Proof.
  induction ks as [|k ks IH]; intros node s.
  - exists node, s. simpl. rewrite ret_run. split; [reflexivity|]. split; [apply drops_nil|].
    auto.
  - cbn [for_each]. rewrite bind_run. unfold delete_interface at 1. rewrite bind_run.
    destruct (Interface_delete_run k s) as (s1 & -> & H1). rewrite ret_run.
    destruct (IH (if option_nat_eqb (node_boot_interface_id node) (Some k)
                  then clear_boot_interface node else node) s1)
      as (node' & s' & Hrun & H' & Hid & Hhn & Hboot).
    exists node', s'. split; [exact Hrun|]. split; [apply drops_cons with s1; assumption|].
    rewrite Hid, Hhn, Hboot. cbn [existsb].
    destruct (option_nat_eqb (node_boot_interface_id node) (Some k)); simpl.
    + repeat split. destruct (existsb _ ks); reflexivity.
    + auto.
Qed.

(** What is left after a deletion. *)
Lemma drops_origin (ks : list nat) (s s' : State) (row' : Interface) :
  drops ks s s' -> In row' (interfaces (db s')) ->
  exists row, In row (interfaces (db s)) /\ without_parents row' = without_parents row
              /\ ~ In (if_id row) ks.
Proof.
  intros (Hc & _) Hin.
  apply (in_map without_parents) in Hin. rewrite Hc in Hin.
  apply filter_In in Hin. destruct Hin as [Hin Hk].
  apply In_without_parents in Hin. destruct Hin as (row & Hrow & He).
  exists row. split; [exact Hrow|]. split; [symmetry; exact He|].
  intros Hks. rewrite without_parents_id in Hk.
  assert (Ht : existsb (Nat.eqb (if_id row')) ks = true).
  { apply existsb_exists. exists (if_id row).
    split; [exact Hks|]. apply Nat.eqb_eq.
    rewrite <- (without_parents_id row'), <- He. reflexivity. }
  rewrite Ht in Hk. discriminate.
Qed.

Lemma drops_survive (ks : list nat) (s s' : State) (row : Interface) :
  drops ks s s' -> In row (interfaces (db s)) -> ~ In (if_id row) ks ->
  exists row', In row' (interfaces (db s')) /\ without_parents row' = without_parents row.
Proof.
  intros (Hc & _) Hin Hks.
  assert (H : In (without_parents row) (map without_parents (interfaces (db s')))).
  { rewrite Hc. apply filter_In. split; [apply in_map; exact Hin|].
    rewrite without_parents_id.
    destruct (existsb (Nat.eqb (if_id row)) ks) eqn:He; [|reflexivity].
    exfalso. apply Hks. apply existsb_exists in He. destruct He as [k [Hk He]].
    apply Nat.eqb_eq in He. rewrite He. exact Hk. }
  apply In_without_parents in H. destruct H as (row' & Hrow' & He). exists row'. auto.
Qed.

Lemma drops_well_keyed (ks : list nat) (s s' : State) :
  drops ks s s' -> well_keyed (db s) -> well_keyed (db s').
Proof.
  intros Hd [Hnd Hlt]. split.
  - rewrite <- ids_without_parents. destruct Hd as (Hc & _). rewrite Hc.
    apply NoDup_map_filter. rewrite ids_without_parents. exact Hnd.
  - intros row' Hin. destruct (drops_origin _ _ _ _ Hd Hin) as (row & Hrow & He & _).
    destruct Hd as (_ & _ & _ & _ & Hk). rewrite Hk.
    rewrite <- (without_parents_id row'), He, without_parents_id. apply Hlt. exact Hrow.
Qed.

(** ** The object and its row *)

Lemma copy_fields_spec (src row : Interface) (fields : list ifield) :
  fold_right (copy_field src) row fields
  = mkInterface (if_id row) (if_type row)
      (if has_field f_name fields then if_name src else if_name row)
      (if_mac_address row)
      (if has_field f_node fields then if_node_id src else if_node_id row)
      (if has_field f_vlan fields then if_vlan_id src else if_vlan_id row)
      (if has_field f_enabled fields then if_enabled src else if_enabled row)
      (if_acquired row) (if_parents row).
Proof.
  induction fields as [|f r IH].
  - destruct row. reflexivity.
  - cbn [fold_right]. rewrite IH. destruct f; reflexivity.
Qed.

Lemma has_field_add (f g : ifield) (fields : list ifield) :
  has_field f (add_field g fields)
  = (match f, g with
     | f_vlan, f_vlan | f_node, f_node | f_name, f_name | f_enabled, f_enabled => true
     | _, _ => false
     end || has_field f fields).
Proof.
  unfold add_field. fold (has_field g fields).
  destruct (has_field g fields) eqn:Hg.
  - destruct f, g; try reflexivity; rewrite Hg; reflexivity.
  - unfold has_field. rewrite existsb_app. simpl. rewrite orb_false_r. apply orb_comm.
Qed.

Lemma changed_in_refl (i : Interface) : changed_in [] i i.
Proof. reflexivity. Qed.

Lemma changed_in_fixed (fields : list ifield) (row i : Interface) :
  changed_in fields row i ->
  if_id i = if_id row /\ if_type i = if_type row /\ if_mac_address i = if_mac_address row.
Proof.
  unfold changed_in. rewrite copy_fields_spec. intros H. rewrite <- H. simpl. auto.
Qed.

Lemma changed_in_nothing (row i : Interface) : changed_in [] row i -> i = row.
Proof. unfold changed_in. simpl. auto. Qed.

Lemma changed_in_vlan (v : option nat) (fields : list ifield) (row i : Interface) :
  changed_in fields row i -> changed_in (add_field f_vlan fields) row (with_vlan v i).
Proof.
  unfold changed_in. rewrite !copy_fields_spec, !has_field_add. simpl.
  intros H. destruct i as [k0 t0 n0 m0 nd0 vl0 en0 ac0 ps0]. simpl in *. injection H. intros.
  unfold with_vlan, with_node, with_name, with_enabled. simpl. f_equal; assumption.
Qed.

Lemma changed_in_node (n : nat) (fields : list ifield) (row i : Interface) :
  changed_in fields row i -> changed_in (add_field f_node fields) row (with_node n i).
Proof.
  unfold changed_in. rewrite !copy_fields_spec, !has_field_add. simpl.
  intros H. destruct i as [k0 t0 n0 m0 nd0 vl0 en0 ac0 ps0]. simpl in *. injection H. intros.
  unfold with_vlan, with_node, with_name, with_enabled. simpl. f_equal; assumption.
Qed.

Lemma changed_in_name (n : string) (fields : list ifield) (row i : Interface) :
  changed_in fields row i -> changed_in (add_field f_name fields) row (with_name n i).
Proof.
  unfold changed_in. rewrite !copy_fields_spec, !has_field_add. simpl.
  intros H. destruct i as [k0 t0 n0 m0 nd0 vl0 en0 ac0 ps0]. simpl in *. injection H. intros.
  unfold with_vlan, with_node, with_name, with_enabled. simpl. f_equal; assumption.
Qed.

Lemma changed_in_enabled (e : bool) (fields : list ifield) (row i : Interface) :
  changed_in fields row i -> changed_in (add_field f_enabled fields) row (with_enabled e i).
Proof.
  unfold changed_in. rewrite !copy_fields_spec, !has_field_add. simpl.
  intros H. destruct i as [k0 t0 n0 m0 nd0 vl0 en0 ac0 ps0]. simpl in *. injection H. intros.
  unfold with_vlan, with_node, with_name, with_enabled. simpl. f_equal; assumption.
Qed.

(** ** Fetching the physical interface *)

Lemma same_core_fields (a b : Interface) :
  without_parents a = without_parents b ->
  if_id a = if_id b /\ if_type a = if_type b /\ if_name a = if_name b
  /\ if_mac_address a = if_mac_address b /\ if_node_id a = if_node_id b
  /\ if_vlan_id a = if_vlan_id b /\ if_enabled a = if_enabled b.
Proof.
  unfold without_parents, with_mac_parents. intros H. injection H. intros.
  repeat split; assumption.
Qed.

Lemma stale_for_core (node : Node) (name mac : string) (a b : Interface) :
  without_parents a = without_parents b ->
  stale_for node name mac a = stale_for node name mac b.
Proof.
  intros H. destruct (same_core_fields _ _ H) as (_ & Ht & Hn & Hm & Hnd & _).
  unfold stale_for, is_type. rewrite Ht, Hn, Hm, Hnd. reflexivity.
Qed.

Lemma physical_with_mac_core (mac : string) (a b : Interface) :
  without_parents a = without_parents b ->
  physical_with_mac mac a = physical_with_mac mac b.
Proof.
  intros H. destruct (same_core_fields _ _ H) as (_ & Ht & _ & Hm & _).
  unfold physical_with_mac, is_type. rewrite Ht, Hm. reflexivity.
Qed.

Lemma physical_not_stale (node : Node) (name mac : string) (i : Interface) :
  physical_with_mac mac i = true -> stale_for node name mac i = false.
Proof.
  unfold physical_with_mac, stale_for. intros H. apply andb_true_iff in H.
  destruct H as [_ H]. rewrite H. apply andb_false_r.
Qed.

Lemma filter_singleton (A : Type) (p : A -> bool) (l : list A) (x : A) :
  filter p l = [x] ->
  In x l /\ p x = true /\ forall y, In y l -> p y = true -> y = x.
Proof.
  intros H.
  assert (Hx : In x (filter p l)) by (rewrite H; left; reflexivity).
  apply filter_In in Hx. destruct Hx as [Hx Hp]. repeat split; auto.
  intros y Hy Hpy.
  assert (Hin : In y (filter p l)) by (apply filter_In; auto).
  rewrite H in Hin. destruct Hin as [Hin|[]]. auto.
Qed.

Lemma filter_empty (A : Type) (p : A -> bool) (l : list A) :
  filter p l = [] -> forall y, In y l -> p y = false.
Proof.
  intros H y Hy. destruct (p y) eqn:Hp; [|reflexivity].
  assert (Hin : In y (filter p l)) by (apply filter_In; auto).
  rewrite H in Hin. contradiction.
Qed.

Lemma has_id_fresh (d : Store) :
  well_keyed d -> has_id if_id (next_id d) (interfaces d) = false.
Proof.
  intros [_ Hlt]. unfold has_id. apply not_true_is_false. intros H.
  apply existsb_exists in H. destruct H as [row [Hin He]]. apply Nat.eqb_eq in He.
  specialize (Hlt row Hin). lia.
Qed.

Lemma PhysicalInterface_get_or_create_inv (mac : string) (node : Node) (name : string)
    (enabled : bool) (s s' : State) (i : Interface) (created : bool) :
  well_keyed (db s) ->
  PhysicalInterface_get_or_create mac node name enabled s = (Ok (i, created), s') ->
  well_keyed (db s')
  /\ In i (interfaces (db s'))
  /\ physical_with_mac mac i = true
  /\ (forall row, In row (interfaces (db s')) -> physical_with_mac mac row = true -> row = i)
  /\ (forall row, In row (interfaces (db s')) -> row = i \/ In row (interfaces (db s)))
  /\ (forall row, In row (interfaces (db s)) -> In row (interfaces (db s')))
  /\ (created = true ->
      if_node_id i = node_id node /\ if_name i = name /\ if_enabled i = enabled
      /\ if_vlan_id i = None)
  /\ addresses (db s') = addresses (db s)
  /\ links (db s') = links (db s)
  /\ nodes (db s') = nodes (db s)
  /\ next_id (db s) <= next_id (db s').
Proof.
  intros Hwk H. unfold PhysicalInterface_get_or_create in H.
  rewrite bind_run, query_run in H.
  change (filter _ (interfaces (db s)))
    with (filter (physical_with_mac mac) (interfaces (db s))) in H.
  destruct (filter (physical_with_mac mac) (interfaces (db s))) as [|x [|y r]] eqn:Hf;
    [| |discriminate].
  - (* created *)
    pose proof (filter_empty _ _ _ Hf) as Hnone.
    unfold fresh_id, Interface_save in H. rewrite !bind_run, query_run in H.
    cbn [db interfaces set_next_id if_id] in H.
    rewrite (has_id_fresh _ Hwk) in H.
    rewrite !bind_run in H. unfold modify, emit in H. rewrite ret_run in H.
    inversion H; subst i created s'. clear H. cbn [db].
    unfold upsert. cbn [interfaces set_next_id set_interfaces if_id].
    rewrite (has_id_fresh _ Hwk).
    cbn [interfaces addresses links nodes next_id set_interfaces set_next_id].
    destruct Hwk as [Hnd Hlt].
    split; [|split; [|split; [|split; [|split; [|split; [|split]]]]]].
    + split; simpl.
      * rewrite map_app. simpl. apply NoDup_app.
        -- exact Hnd.
        -- constructor; [intros [] | constructor].
        -- intros k Hk [<-|[]]. apply in_map_iff in Hk. destruct Hk as [row [He Hin]].
           specialize (Hlt row Hin). lia.
      * intros row Hrow. apply in_app_iff in Hrow.
        destruct Hrow as [Hrow|[<-|[]]]; [specialize (Hlt row Hrow); lia | simpl; lia].
    + apply in_app_iff. right. left. reflexivity.
    + unfold physical_with_mac, is_type. simpl. apply String.eqb_refl.
    + intros row Hrow Hp. apply in_app_iff in Hrow. destruct Hrow as [Hrow|[<-|[]]]; auto.
      rewrite (Hnone row Hrow) in Hp. discriminate.
    + intros row Hrow. apply in_app_iff in Hrow. destruct Hrow as [Hrow|[<-|[]]]; auto.
    + intros row Hrow. apply in_app_iff. left. exact Hrow.
    + intros _. simpl. auto.
    + repeat split. lia.
  - (* found *)
    rewrite ret_run in H. inversion H; subst x created s'. clear H.
    destruct (filter_singleton _ _ _ _ Hf) as (Hin & Hp & Hone).
    repeat split; auto; try apply Hwk; discriminate.
Qed.

Lemma find_physical_interface_inv (node : Node) (name : string) (cfg : config)
    (s s' : State) (i : Interface) (created : bool) :
  well_keyed (db s) ->
  find_physical_interface node name cfg s = (Ok (i, created), s') ->
  well_keyed (db s')
  /\ In i (interfaces (db s'))
  /\ physical_with_mac (config_mac_address cfg) i = true
  /\ (forall row, In row (interfaces (db s')) ->
        physical_with_mac (config_mac_address cfg) row = true -> row = i)
  /\ (forall row, In row (interfaces (db s')) ->
        stale_for node name (config_mac_address cfg) row = false)
  /\ (forall row', In row' (interfaces (db s')) ->
        row' = i \/ exists row, In row (interfaces (db s))
                                /\ without_parents row' = without_parents row)
  /\ (forall row, In row (interfaces (db s)) ->
        stale_for node name (config_mac_address cfg) row = false ->
        exists row', In row' (interfaces (db s'))
                     /\ without_parents row' = without_parents row)
  /\ (created = true ->
      if_node_id i = node_id node /\ if_name i = name
      /\ if_enabled i = config_enabled cfg /\ if_vlan_id i = None)
  /\ addresses (db s') = addresses (db s)
  /\ links_shrink s s'
  /\ nodes (db s') = nodes (db s)
  /\ next_id (db s) <= next_id (db s').
Proof.
  intros Hwk H. unfold find_physical_interface in H.
  rewrite bind_run, query_run in H.
  change (filter _ (interfaces (db s)))
    with (filter (stale_for node name (config_mac_address cfg)) (interfaces (db s))) in H.
  set (stale := filter (stale_for node name (config_mac_address cfg)) (interfaces (db s))) in H.
  rewrite bind_run in H.
  destruct (delete_interfaces_run stale s) as (s1 & Hdel & Hdrops). rewrite Hdel in H.
  pose proof (drops_well_keyed _ _ _ Hdrops Hwk) as Hwk1.
  destruct (PhysicalInterface_get_or_create_inv _ _ _ _ _ _ _ _ Hwk1 H)
    as (Hwk' & Hin & Hp & Hone & Hfrom & Hto & Hnew & Ha & Hl & Hn & Hk).
  destruct Hdrops as (Hc1 & Ha1 & Hl1 & Hn1 & Hk1).
  assert (Hdrops : drops (map if_id stale) s s1) by (repeat split; assumption).
  split; [exact Hwk'|]. split; [exact Hin|]. split; [exact Hp|]. split; [exact Hone|].
  split; [|split; [|split; [|split; [|split; [|split; [|split]]]]]].
  - intros row Hrow. destruct (Hfrom row Hrow) as [->|Hrow1].
    + apply physical_not_stale. exact Hp.
    + destruct (drops_origin _ _ _ _ Hdrops Hrow1) as (row0 & Hrow0 & He & Hk0).
      rewrite (stale_for_core _ _ _ _ _ He).
      destruct (stale_for node name (config_mac_address cfg) row0) eqn:Hs; [|reflexivity].
      exfalso. apply Hk0. apply in_map. apply filter_In. auto.
  - intros row Hrow. destruct (Hfrom row Hrow) as [->|Hrow1]; [left; reflexivity|].
    right. destruct (drops_origin _ _ _ _ Hdrops Hrow1) as (row0 & Hrow0 & He & _).
    exists row0. auto.
  - intros row Hrow Hs.
    destruct (drops_survive _ _ _ row Hdrops Hrow) as (row1 & Hrow1 & He).
    + intros Hk0. apply in_map_iff in Hk0. destruct Hk0 as (x & Hx & Hxin).
      apply filter_In in Hxin. destruct Hxin as [Hxin Hxs].
      destruct Hwk as [Hnd _].
      rewrite (same_id_same_row _ if_id _ _ _ Hnd Hxin Hrow Hx) in Hxs. congruence.
    + exists row1. auto.
  - exact Hnew.
  - congruence.
  - intros j k Hjk. apply Hl1. apply linked_iff. rewrite <- Hl. apply linked_iff. exact Hjk.
  - congruence.
  - rewrite <- Hk1. exact Hk.
Qed.

(** ** An interface without links *)

Lemma StaticIPAddress_delete_keeps (k : nat) (s s' : State) (a : StaticIPAddress) :
  StaticIPAddress_delete k s = (Ok tt, s') ->
  In a (addresses (db s)) -> sip_id a <> k -> In a (addresses (db s')).
Proof.
  unfold StaticIPAddress_delete. rewrite bind_run, query_run.
  destruct (has_id sip_id k (addresses (db s))); cbn [when].
  - rewrite bind_run. intros H. inversion H; subst. clear H. simpl. intros Ha Hk.
    unfold remove_id. apply filter_In. split; [exact Ha|].
    apply negb_true_iff, Nat.eqb_neq. exact Hk.
  - rewrite ret_run. intros H. inversion H; subst. auto.
Qed.

Lemma delete_addresses_keeps (rows : list StaticIPAddress) (a : StaticIPAddress) :
  forall s s',
  delete_all sip_id StaticIPAddress_delete rows s = (Ok tt, s') ->
  In a (addresses (db s)) -> (forall r, In r rows -> sip_id a <> sip_id r) ->
  In a (addresses (db s')).
Proof.
  unfold delete_all. induction rows as [|r0 rows IH]; intros s s' H Ha Hk.
  - simpl in H. rewrite ret_run in H. inversion H; subst. exact Ha.
  - cbn [for_each] in H. apply bind_inv in H. destruct H as ([] & s1 & H1 & H).
    apply (IH s1 s' H).
    + apply (StaticIPAddress_delete_keeps _ _ _ _ H1 Ha). apply Hk. left. reflexivity.
    + intros r Hr. apply Hk. right. exact Hr.
Qed.

(** Without links, [update_links] deletes the DISCOVERED addresses of the
    interface and unlinks the others. *)
Lemma update_links_clears (node : Node) (interface : Interface)
    (force_vlan use_interface_vlan : bool) (s : State) :
  exists s',
    update_links node interface [] force_vlan use_interface_vlan s = (Ok (interface, []), s')
    /\ ip_addresses_all (if_id interface) (db s') = []
    /\ interfaces (db s') = interfaces (db s)
    /\ (forall a, In a (addresses (db s')) ->
          In a (addresses (db s))
          /\ forall r, In r (ip_addresses_all (if_id interface) (db s)) ->
                       is_alloc_type IPADDRESS_TYPE.DISCOVERED r = true ->
                       sip_id a <> sip_id r)
    /\ (forall a, In a (addresses (db s)) ->
          (forall r, In r (ip_addresses_all (if_id interface) (db s)) ->
                     is_alloc_type IPADDRESS_TYPE.DISCOVERED r = true ->
                     sip_id a <> sip_id r) ->
          In a (addresses (db s'))).
Proof.
  unfold update_links. rewrite bind_run, query_run.
  set (discovered := filter (is_alloc_type IPADDRESS_TYPE.DISCOVERED)
                            (ip_addresses_all (if_id interface) (db s))).
  rewrite bind_run.
  destruct (delete_addresses_run discovered s) as (s1 & Hdel & (Hi1 & Ha1 & Hl1) & Hgone).
  rewrite Hdel. rewrite bind_run, query_run, bind_run.
  assert (Hsel : exists v,
             match (if use_interface_vlan then if_vlan_id interface else None),
                   ([] : list link) with
             | Some v, _ => ret (interface, Some v)
             | None, _ :: _ =>
                 fabric <- Fabric_create ;;
                 vlan <- Fabric_get_default_vlan (fabric_id fabric) ;;
                 Interface_save (with_vlan (Some (vlan_id vlan)) interface) ;;
                 ret (with_vlan (Some (vlan_id vlan)) interface, Some (vlan_id vlan))
             | None, [] => ret (interface, None)
             end s1 = (Ok (interface, v), s1)).
  { destruct (if use_interface_vlan then if_vlan_id interface else None) as [v|];
      eexists; apply ret_run. }
  destruct Hsel as [v ->]. cbv beta iota.
  rewrite bind_run. cbn [for_each]. rewrite ret_run. cbv beta iota.
  rewrite bind_run.
  destruct (unlink_all_run interface (ip_addresses_all (if_id interface) (db s1)) s1)
    as (s' & -> & Hi & Ha & Hl & Hun).
  rewrite ret_run. exists s'. split; [reflexivity|].
  split; [|split; [congruence|split]].
  - apply filter_none. intros a Hin.
    destruct (linked (db s') (if_id interface) (sip_id a)) eqn:Hlk; [|reflexivity].
    rewrite <- Hlk. apply Hun.
    unfold ip_addresses_all. apply filter_In. rewrite <- Ha. split; [exact Hin|].
    apply Hl. exact Hlk.
  - intros a Hin. rewrite Ha in Hin. split; [apply Ha1; exact Hin|].
    intros r Hr Hd. apply (Hgone a r Hin). apply filter_In. auto.
  - intros a Hin Hk. rewrite Ha.
    apply (delete_addresses_keeps _ _ _ _ Hdel Hin).
    intros r Hr. apply filter_In in Hr. destruct Hr as [Hr Hd]. apply Hk; assumption.
Qed.

Lemma guess_vlan_for_interface_some (node : Node) (cfg : config) (s s' : State)
    (v : option nat) :
  guess_vlan_for_interface node cfg s = (Ok v, s') -> v <> None.
Proof.
  unfold guess_vlan_for_interface. intros H.
  apply bind_inv in H. destruct H as (nv & s1 & _ & H).
  destruct nv as [x|].
  - rewrite ret_run in H. inversion H. discriminate.
  - apply bind_inv in H. destruct H as (dv & s2 & _ & H).
    apply bind_inv in H. destruct H as (n & s3 & _ & H).
    destruct (n =? 0).
    + rewrite ret_run in H. inversion H. discriminate.
    + apply bind_inv in H. destruct H as (nf & s4 & _ & H).
      apply bind_inv in H. destruct H as (x & s5 & _ & H).
      rewrite ret_run in H. inversion H. discriminate.
Qed.

Lemma Interface_save_fields_run (i : Interface) (fields : list ifield) (s s' : State) :
  Interface_save_fields i fields s = (Ok tt, s') ->
  db s' = set_interfaces
            (map (fun row => if if_id row =? if_id i
                             then fold_right (copy_field i) row fields
                             else row) (interfaces (db s))) (db s).
Proof.
  unfold Interface_save_fields. rewrite bind_run, query_run.
  destruct (has_id if_id (if_id i) (interfaces (db s))); [|discriminate].
  rewrite bind_run. intros H. inversion H; subst. reflexivity.
Qed.

(** ** Reconciling a physical interface without links *)

Lemma aside_delete_addresses (rows : list StaticIPAddress) :
  preserves aside (delete_all sip_id StaticIPAddress_delete rows).
Proof. aside_structure. apply aside_StaticIPAddress_delete. Qed.

Lemma map_ids_replace (i1 i : Interface) (l : list Interface) :
  if_id i = if_id i1 ->
  map if_id (map (fun row => if if_id row =? if_id i1 then i else row) l) = map if_id l.
Proof.
  intros He. rewrite map_map. apply map_ext_in. intros row _.
  destruct (if_id row =? if_id i1) eqn:Hk; [|reflexivity].
  apply Nat.eqb_eq in Hk. congruence.
Qed.

Lemma update_physical_interface_run (node : Node) (name : string) (cfg : config)
    (hints : option (list hint)) (s s' : State) (i : Interface) :
  well_keyed (db s) -> config_links cfg = [] ->
  update_physical_interface node name cfg true hints s = (Ok i, s') ->
  well_keyed (db s')
  /\ settled (db s') node name cfg i
  /\ beside node name (config_mac_address cfg) i s s'
  /\ next_id (db s) <= next_id (db s').
Proof.
  intros Hwk Hlinks Hrun.
  unfold update_physical_interface in Hrun.
  apply bind_inv in Hrun. destruct Hrun as ([i1 created] & s1 & Hfind & Hrun).
  destruct (find_physical_interface_inv _ _ _ _ _ _ _ Hwk Hfind)
    as (Hwk1 & Hin1 & Hp1 & Hone1 & Hstale1 & Hfrom1 & Hto1 & Hnew1 & Ha1 & Hl1 & Hn1 & Hk1).
  cbv beta iota in Hrun.
  (* the VLAN *)
  apply bind_inv in Hrun. destruct Hrun as ([[i2 new_vlan] uf2] & s2 & Hvlan & Hrun).
  assert (H2 : aside s1 s2 /\ changed_in uf2 i1 i2 /\ same_but_vlan i2 i1
               /\ (if_vlan_id i2 <> None \/ config_enabled cfg = false)).
  { destruct (true && is_none (if_vlan_id i1) && config_enabled cfg) eqn:Hg.
    - apply bind_inv in Hvlan. destruct Hvlan as (nv & s3 & Hh & Hvlan).
      assert (Hs3 : s3 = s1).
      { destruct hints; [rewrite query_run in Hh | rewrite ret_run in Hh];
          inversion Hh; reflexivity. }
      subst s3.
      apply bind_inv in Hvlan. destruct Hvlan as (nv' & s4 & Hguess & Hvlan).
      assert (Hg4 : aside s1 s4 /\ nv' <> None).
      { destruct nv as [v|].
        - rewrite ret_run in Hguess. inversion Hguess; subst.
          split; [apply aside_refl | discriminate].
        - split; [apply (aside_guess_vlan_for_interface _ _ _ _ _ Hguess)
                 | apply (guess_vlan_for_interface_some _ _ _ _ _ Hguess)]. }
      destruct Hg4 as [Has4 Hnv'].
      destruct nv' as [v|]; [|contradiction].
      rewrite ret_run in Hvlan. inversion Hvlan; subst. clear Hvlan.
      split; [exact Has4|]. split; [|split].
      + apply (changed_in_vlan (Some v) [] i1 i1). apply changed_in_refl.
      + apply same_but_vlan_with_vlan, same_but_vlan_refl.
      + left. simpl. discriminate.
    - rewrite ret_run in Hvlan. inversion Hvlan; subst. clear Hvlan.
      split; [apply aside_refl|]. split; [apply changed_in_refl|].
      split; [apply same_but_vlan_refl|].
      simpl in Hg. destruct (if_vlan_id i2); [left; discriminate|].
      right. simpl in Hg. exact Hg. }
  destruct H2 as (Has2 & Hch2 & Hsame2 & Hvlan2).
  destruct (same_but_vlan_fields _ _ Hsame2) as (Hid2 & Hnode2 & Hname2 & Hen2).
  (* the node and the name *)
  apply bind_inv in Hrun. destruct Hrun as ([i3 uf3] & s3 & Hmove & Hrun).
  assert (H3 : aside s2 s3 /\ changed_in uf3 i1 i3 /\ if_vlan_id i3 = if_vlan_id i2
               /\ if_node_id i3 = node_id node /\ if_name i3 = name
               /\ if_enabled i3 = if_enabled i1).
  { destruct created.
    - rewrite ret_run in Hmove. inversion Hmove; subst. clear Hmove.
      destruct (Hnew1 eq_refl) as (Hnd & Hnm & _).
      split; [apply aside_refl|]. repeat split; try congruence; exact Hch2.
    - apply bind_inv in Hmove. destruct Hmove as ([i3' uf3'] & s3' & Hmove & Hname).
      rewrite ret_run in Hname. inversion Hname; subst i3 uf3 s3'. clear Hname.
      destruct (negb (if_node_id i2 =? node_id node)) eqn:Hne.
      + apply bind_inv in Hmove. destruct Hmove as (stale & s4 & Hq & Hmove).
        rewrite query_run in Hq. inversion Hq; subst stale s4. clear Hq.
        apply bind_inv in Hmove. destruct Hmove as ([] & s4 & Hdel & Hmove).
        rewrite ret_run in Hmove. inversion Hmove; subst i3' uf3' s4. clear Hmove.
        split; [apply (aside_delete_addresses _ _ _ _ Hdel)|].
        split; [apply changed_in_name, changed_in_node; exact Hch2|].
        simpl. repeat split; congruence.
      + rewrite ret_run in Hmove. inversion Hmove; subst i3' uf3' s3. clear Hmove.
        split; [apply aside_refl|].
        split; [apply changed_in_name; exact Hch2|].
        apply negb_false_iff, Nat.eqb_eq in Hne.
        simpl. repeat split; congruence. }
  destruct H3 as (Has3 & Hch3 & Hvlan3 & Hnode3 & Hname3 & Hen3).
  (* enabled *)
  apply bind_inv in Hrun. destruct Hrun as ([i4 uf4] & s4 & Hen & Hrun).
  assert (H4 : s4 = s3 /\ changed_in uf4 i1 i4 /\ if_vlan_id i4 = if_vlan_id i2
               /\ if_node_id i4 = node_id node /\ if_name i4 = name
               /\ if_enabled i4 = config_enabled cfg).
  { destruct (negb (Bool.eqb (if_enabled i3) (config_enabled cfg))) eqn:Hd;
      rewrite ret_run in Hen; inversion Hen; subst; clear Hen.
    - split; [reflexivity|]. split; [apply changed_in_enabled; exact Hch3|].
      simpl. repeat split; congruence.
    - split; [reflexivity|]. split; [exact Hch3|].
      apply negb_false_iff, Bool.eqb_prop in Hd. repeat split; congruence. }
  destruct H4 as (-> & Hch4 & Hvlan4 & Hnode4 & Hname4 & Hen4).
  (* the links *)
  apply bind_inv in Hrun. destruct Hrun as ([i5 uf5] & s5 & Hlk & Hrun).
  assert (H5 : i5 = i4 /\ uf5 = uf4 /\ aside s3 s5
               /\ ip_addresses_all (if_id i4) (db s5) = []).
  { unfold update_physical_links in Hlk. rewrite Hlinks in Hlk.
    apply bind_inv in Hlk. destruct Hlk as ([i6 upd] & s6 & Hul & Hlk).
    pose proof (aside_update_links_nil _ _ _ _ _ _ _ Hul) as Has6.
    destruct (update_links_clears node i4 false true s3) as (s6' & Hul' & Hnone & _).
    rewrite Hul' in Hul. inversion Hul; subst i6 upd s6'. clear Hul Hul'.
    rewrite bind_run, query_result_run in Hlk.
    cbn [guess_best_vlan_from_ip_addresses guess_best_vlan_loop] in Hlk.
    rewrite ret_run in Hlk. inversion Hlk; subst. auto. }
  destruct H5 as (-> & -> & Has5 & Hnone5).
  (* the save *)
  apply bind_inv in Hrun. destruct Hrun as ([] & s6 & Hsave & Hrun).
  rewrite ret_run in Hrun. inversion Hrun; subst i s6. clear Hrun.
  destruct (changed_in_fixed _ _ _ Hch4) as (Hid4 & Hty4 & Hmac4).
  assert (Has15 : aside s1 s5).
  { apply aside_trans with s2; [exact Has2|]. apply aside_trans with s3; assumption. }
  destruct Has15 as ((Hi15 & Ha15 & Hl15) & Hn15 & Hk15).
  assert (Hnd1 : NoDup (map if_id (interfaces (db s1)))) by apply Hwk1.
  assert (Hsaved : interfaces (db s')
                   = map (fun row => if if_id row =? if_id i1 then i4 else row)
                         (interfaces (db s1))
                   /\ addresses (db s') = addresses (db s5)
                   /\ links (db s') = links (db s5)
                   /\ nodes (db s') = nodes (db s5)
                   /\ next_id (db s') = next_id (db s5)).
  { destruct (0 <? length uf4) eqn:Hlen; cbn [when] in Hsave.
    - rewrite (Interface_save_fields_run _ _ _ _ Hsave). simpl.
      split; [|repeat split]. rewrite Hi15. apply map_ext_in. intros row Hrow.
      rewrite Hid4. destruct (if_id row =? if_id i1) eqn:He; [|reflexivity].
      apply Nat.eqb_eq in He.
      rewrite (same_id_same_row _ if_id _ _ _ Hnd1 Hrow Hin1 He). exact Hch4.
    - rewrite ret_run in Hsave. inversion Hsave; subst s5. clear Hsave.
      split; [|repeat split]. rewrite Hi15.
      destruct uf4; [|discriminate]. apply changed_in_nothing in Hch4. subst i4.
      symmetry. apply map_same. intros row Hrow.
      destruct (if_id row =? if_id i1) eqn:He; [|reflexivity].
      apply Nat.eqb_eq in He.
      symmetry. apply (same_id_same_row _ if_id _ _ _ Hnd1 Hrow Hin1 He). }
  destruct Hsaved as (Hi' & Ha' & Hl' & Hn' & Hk').
  assert (Hp4 : physical_with_mac (config_mac_address cfg) i4 = true).
  { unfold physical_with_mac, is_type in *. rewrite Hty4, Hmac4. exact Hp1. }
  assert (Hin' : In i4 (interfaces (db s'))).
  { rewrite Hi'. apply in_map_iff. exists i1. rewrite Nat.eqb_refl. auto. }
  assert (Hrows : forall row', In row' (interfaces (db s')) ->
                    row' = i4 \/ (In row' (interfaces (db s1)) /\ if_id row' <> if_id i1)).
  { intros row' Hrow'. rewrite Hi' in Hrow'. apply in_map_iff in Hrow'.
    destruct Hrow' as (row & He & Hrow).
    destruct (if_id row =? if_id i1) eqn:Hk; [left; auto|].
    right. subst row'. split; [exact Hrow|]. apply Nat.eqb_neq. exact Hk. }
  assert (Hwk' : well_keyed (db s')).
  { destruct Hwk1 as [_ Hlt1]. split.
    - rewrite Hi', map_ids_replace; assumption.
    - intros row' Hrow'. rewrite Hk'.
      destruct (Hrows row' Hrow') as [->|[Hrow1 _]].
      + rewrite Hid4. specialize (Hlt1 i1 Hin1). lia.
      + specialize (Hlt1 row' Hrow1). lia. }
  split; [exact Hwk'|]. split; [|split].
  - (* settled *)
    unfold settled. split; [exact Hin'|]. split; [exact Hp4|].
    split; [|split; [|split; [|split; [|split; [|split]]]]].
    + intros row' Hrow' Hp'. destruct (Hrows row' Hrow') as [->|[Hrow1 Hne]]; [reflexivity|].
      rewrite (Hone1 row' Hrow1 Hp') in Hne. contradiction.
    + intros row' Hrow'. destruct (Hrows row' Hrow') as [->|[Hrow1 _]].
      * apply physical_not_stale. exact Hp4.
      * apply Hstale1. exact Hrow1.
    + exact Hnode4.
    + exact Hname4.
    + exact Hen4.
    + rewrite Hvlan4. exact Hvlan2.
    + rewrite <- Hnone5. unfold ip_addresses_all, linked. rewrite Ha', Hl'. reflexivity.
  - (* beside *)
    unfold beside. split; [|split; [|split; [|split]]].
    + intros row' Hrow'. destruct (Hrows row' Hrow') as [->|[Hrow1 Hne]]; [left; reflexivity|].
      destruct (Hfrom1 row' Hrow1) as [->|Hex]; [contradiction | right; exact Hex].
    + intros row Hrow Hs Hp.
      destruct (Hto1 row Hrow Hs) as (row1 & Hrow1 & He).
      exists row1. split; [|exact He].
      rewrite Hi'. apply in_map_iff. exists row1. split; [|exact Hrow1].
      destruct (if_id row1 =? if_id i1) eqn:Hk; [|reflexivity].
      exfalso. apply Nat.eqb_eq in Hk.
      rewrite (same_id_same_row _ if_id _ _ _ Hnd1 Hrow1 Hin1 Hk) in He.
      rewrite (physical_with_mac_core _ _ _ He) in Hp1. congruence.
    + intros a Hin. rewrite Ha' in Hin. rewrite <- Ha1. apply Ha15. exact Hin.
    + intros j k Hjk. apply Hl1. apply Hl15. unfold linked in *. rewrite <- Hl'. exact Hjk.
    + congruence.
  - lia.
Qed.

(** * Part XVI: the passes of [update_node_interfaces] over physical interfaces *)

(** ** The settled interfaces of a node *)

Lemma same_key_same_row (A K : Type) (key : A -> K) (l : list A) (x y : A) :
  NoDup (map key l) -> In x l -> In y l -> key x = key y -> x = y.
Proof.
  induction l as [|z r IH]; simpl; intros Hnd Hx Hy He; [contradiction|].
  inversion Hnd as [|? ? Hnin Hnd']; subst.
  destruct Hx as [->|Hx], Hy as [->|Hy].
  - reflexivity.
  - exfalso. apply Hnin. rewrite He. apply in_map. exact Hy.
  - exfalso. apply Hnin. rewrite <- He. apply in_map. exact Hx.
  - apply IH; assumption.
Qed.

Lemma lookup_entry (name : string) (desired : list (string * config)) (cfg : config) :
  lookup name desired = Some cfg -> In (name, cfg) desired.
Proof.
  induction desired as [|[n c] r IH]; simpl; [discriminate|].
  destruct (String.eqb_spec n name) as [->|Hne]; intros H.
  - inversion H. left. reflexivity.
  - right. apply IH. exact H.
Qed.

Lemma entry_lookup (name : string) (desired : list (string * config)) (cfg : config) :
  NoDup (map fst desired) -> In (name, cfg) desired -> lookup name desired = Some cfg.
Proof.
  induction desired as [|[n c] r IH]; simpl; intros Hnd Hin; [contradiction|].
  inversion Hnd as [|? ? Hnin Hnd']; subst.
  destruct Hin as [Hin|Hin].
  - inversion Hin; subst. rewrite String.eqb_refl. reflexivity.
  - destruct (String.eqb_spec n name) as [->|Hne]; [|apply IH; assumption].
    exfalso. apply Hnin. apply in_map_iff. exists (name, cfg). auto.
Qed.

Lemma settled_node (d : Store) (node node' : Node) (name : string) (cfg : config)
    (i : Interface) :
  node_id node' = node_id node ->
  settled d node name cfg i -> settled d node' name cfg i.
Proof.
  unfold settled, stale_for. intros ->. auto.
Qed.

(** A settled interface stays settled while its row stays, no row like it
    comes, and no address or link comes. *)
Lemma settled_carried (node : Node) (name : string) (cfg : config) (j : Interface)
    (s s' : State) :
  (forall row', In row' (interfaces (db s')) ->
     (physical_with_mac (config_mac_address cfg) row' = false
      /\ stale_for node name (config_mac_address cfg) row' = false)
     \/ exists row, In row (interfaces (db s))
                    /\ without_parents row' = without_parents row) ->
  (exists j', In j' (interfaces (db s')) /\ without_parents j' = without_parents j) ->
  (forall a, In a (addresses (db s')) -> In a (addresses (db s))) ->
  links_shrink s s' ->
  settled (db s) node name cfg j ->
  exists j', settled (db s') node name cfg j' /\ if_id j' = if_id j.
Proof.
  intros Hfrom (j' & Hj' & He) Ha Hl
    (Hin & Hmac & Hone & Hstale & Hnode & Hname & Hen & Hvlan & Hnone).
  destruct (same_core_fields _ _ He) as (Hid & _ & Hnm & _ & Hnd & Hvl & Hena).
  exists j'. split; [|exact Hid].
  unfold settled. split; [exact Hj'|].
  split; [rewrite (physical_with_mac_core _ _ _ He); exact Hmac|].
  split; [|split; [|split; [|split; [|split; [|split]]]]].
  - intros row' Hrow' Hp. destruct (Hfrom row' Hrow') as [[Hp' _]|(row & Hrow & Her)].
    + congruence.
    + rewrite (physical_with_mac_core _ _ _ Her) in Hp.
      destruct (same_core_fields _ _ Her) as (Hidr & _).
      rewrite Hidr, Hid. apply Hone; assumption.
  - intros row' Hrow'. destruct (Hfrom row' Hrow') as [[_ Hs]|(row & Hrow & Her)].
    + exact Hs.
    + rewrite (stale_for_core _ _ _ _ _ Her). apply Hstale. exact Hrow.
  - congruence.
  - congruence.
  - congruence.
  - rewrite Hvl. exact Hvlan.
  - apply filter_none. intros a Hin'.
    destruct (linked (db s') (if_id j') (sip_id a)) eqn:Hlk; [|reflexivity].
    exfalso. apply Hl in Hlk. rewrite Hid in Hlk.
    assert (Hx : In a (ip_addresses_all (if_id j) (db s))).
    { unfold ip_addresses_all. apply filter_In. split; [apply Ha; exact Hin' | exact Hlk]. }
    rewrite Hnone in Hx. contradiction.
Qed.

Lemma physical_with_mac_eq (mac : string) (i : Interface) :
  physical_with_mac mac i = true -> if_mac_address i = mac.
Proof.
  unfold physical_with_mac. intros H. apply andb_true_iff in H. destruct H as [_ H].
  apply String.eqb_eq. exact H.
Qed.

Lemma physical_other_mac (mac mac' : string) (i : Interface) :
  physical_with_mac mac i = true -> mac' <> mac -> physical_with_mac mac' i = false.
Proof.
  intros H Hne. apply physical_with_mac_eq in H.
  unfold physical_with_mac. rewrite H.
  destruct (String.eqb_spec mac mac') as [->|_]; [contradiction | apply andb_false_r].
Qed.

Lemma stale_other_name (node : Node) (name name' mac : string) (i : Interface) :
  if_name i = name -> name' <> name -> stale_for node name' mac i = false.
Proof.
  intros H Hne. unfold stale_for. rewrite H.
  destruct (String.eqb_spec name name') as [->|_]; [contradiction|].
  rewrite andb_false_r. reflexivity.
Qed.

Lemma settled_beside (node : Node) (name : string) (cfg : config) (i : Interface)
    (name' : string) (cfg' : config) (j : Interface) (s s' : State) :
  beside node name (config_mac_address cfg) i s s' ->
  settled (db s') node name cfg i ->
  name' <> name -> config_mac_address cfg' <> config_mac_address cfg ->
  settled (db s) node name' cfg' j ->
  exists j', settled (db s') node name' cfg' j' /\ if_id j' = if_id j.
Proof.
  intros (Hfrom & Hto & Ha & Hl & _) (_ & Hmac & _ & _ & _ & Hname & _) Hn Hm Hj.
  apply settled_carried with (s := s) (j := j); auto.
  - intros row' Hrow'. destruct (Hfrom row' Hrow') as [->|Hex]; [left | right; exact Hex].
    split; [apply (physical_other_mac _ _ _ Hmac Hm) | apply (stale_other_name _ _ _ _ _ Hname Hn)].
  - destruct Hj as (Hin & Hmacj & _ & _ & _ & Hnamej & _).
    apply Hto; [exact Hin | |].
    + apply (stale_other_name _ _ _ _ _ Hnamej). congruence.
    + apply (physical_other_mac _ _ _ Hmacj). congruence.
Qed.

Lemma settled_drops (ks : list nat) (node : Node) (name : string) (cfg : config)
    (j : Interface) (s s' : State) :
  drops ks s s' -> ~ In (if_id j) ks ->
  settled (db s) node name cfg j ->
  exists j', settled (db s') node name cfg j' /\ if_id j' = if_id j.
Proof.
  intros Hd Hk Hj.
  apply settled_carried with (s := s) (j := j); auto.
  - intros row' Hrow'. right.
    destruct (drops_origin _ _ _ _ Hd Hrow') as (row & Hrow & He & _). exists row. auto.
  - apply (drops_survive _ _ _ _ Hd); [apply Hj | exact Hk].
  - destruct Hd as (_ & Ha & _). rewrite Ha. auto.
  - apply Hd.
Qed.

(** ** The first pass *)

Lemma distinct_macs (desired : list (string * config)) (name name' : string)
    (cfg cfg' : config) :
  plain_physical desired ->
  In (name, cfg) desired -> In (name', cfg') desired -> name' <> name ->
  config_mac_address cfg' <> config_mac_address cfg.
Proof.
  intros (_ & Hmacs & _) Hin Hin' Hne He. apply Hne.
  assert (H : (name', cfg') = (name, cfg)).
  { apply (same_key_same_row _ _ (fun e => config_mac_address (snd e)) desired);
      assumption. }
  inversion H. reflexivity.
Qed.

(** One turn of the first loop on a physical interface without links. *)
Lemma process_interface_run (node : Node) (desired : list (string * config))
    (hints : option (list hint)) (name : string) (cur cur' : list nat) (s s' : State) :
  plain_physical desired -> well_keyed (db s) ->
  process_interface node desired hints true name cur s = (Ok cur', s') ->
  exists cfg i,
    In (name, cfg) desired
    /\ cur' = filter (fun k => negb (k =? if_id i)) cur
    /\ well_keyed (db s')
    /\ settled (db s') node name cfg i
    /\ beside node name (config_mac_address cfg) i s s'.
Proof.
  intros Hplain Hwk H. unfold process_interface in H.
  destruct (lookup name desired) as [cfg|] eqn:Hl.
  - rewrite bind_run, ret_run in H.
    pose proof (lookup_entry _ _ _ Hl) as Hin.
    destruct Hplain as (_ & _ & Hall). destruct (Hall _ _ Hin) as [Hty Hlinks].
    unfold update_interface in H. rewrite Hty in H. cbn [String.eqb Ascii.eqb Bool.eqb] in H.
    apply bind_inv in H. destruct H as (oi & s1 & Hup & H).
    apply bind_inv in Hup. destruct Hup as (i & s2 & Hup & Hret).
    rewrite ret_run in Hret. inversion Hret; subst oi s2. clear Hret.
    rewrite ret_run in H. inversion H; subst cur' s1. clear H.
    destruct (update_physical_interface_run _ _ _ _ _ _ _ Hwk Hlinks Hup)
      as (Hwk' & Hset & Hbes & _).
    exists cfg, i. auto.
  - rewrite bind_run in H. discriminate.
Qed.

(** What holds between the turns: the interfaces done are settled and no
    longer among the current ones, and every interface of the node is a
    current one or one that is done. *)
Lemma first_loop (node : Node) (desired : list (string * config))
    (hints : option (list hint)) (names : list string) :
  plain_physical desired ->
  forall (done : list string) (cur cur' : list nat) (s s' : State),
  NoDup names -> (forall n, In n names -> ~ In n done) ->
  well_keyed (db s) ->
  (forall n, In n done ->
     exists cfg j, In (n, cfg) desired /\ settled (db s) node n cfg j /\ ~ In (if_id j) cur) ->
  (forall row, In row (interfaces (db s)) -> if_node_id row = node_id node ->
     In (if_id row) cur
     \/ exists n cfg, In n done /\ In (n, cfg) desired
                      /\ physical_with_mac (config_mac_address cfg) row = true) ->
  for_each names (process_interface node desired hints true) cur s = (Ok cur', s') ->
  well_keyed (db s')
  /\ nodes (db s') = nodes (db s)
  /\ (forall n, In n (done ++ names) ->
        exists cfg j, In (n, cfg) desired /\ settled (db s') node n cfg j
                      /\ ~ In (if_id j) cur')
  /\ (forall row, In row (interfaces (db s')) -> if_node_id row = node_id node ->
        In (if_id row) cur'
        \/ exists n cfg, In n (done ++ names) /\ In (n, cfg) desired
                         /\ physical_with_mac (config_mac_address cfg) row = true).
Proof.
  intros Hplain. induction names as [|name names IH];
    intros done cur cur' s s' Hnd Hnew Hwk Hdone Hcov Hrun.
  - simpl in Hrun. rewrite ret_run in Hrun. inversion Hrun; subst. clear Hrun.
    rewrite app_nil_r. auto.
  - cbn [for_each] in Hrun. apply bind_inv in Hrun. destruct Hrun as (cur1 & s1 & Hstep & Hrun).
    destruct (process_interface_run _ _ _ _ _ _ _ _ Hplain Hwk Hstep)
      as (cfg & i & Hin & -> & Hwk1 & Hset & Hbes).
    inversion Hnd as [|? ? Hnin Hnd']; subst.
    assert (Hn1 : nodes (db s1) = nodes (db s)) by apply Hbes.
    assert (Hnew1 : forall n, In n names -> ~ In n (done ++ [name])).
    { intros n Hn Hd. apply in_app_iff in Hd. destruct Hd as [Hd|[<-|[]]].
      - apply (Hnew n); [right; exact Hn | exact Hd].
      - contradiction. }
    assert (Hdone1 : forall n, In n (done ++ [name]) ->
              exists cfg j, In (n, cfg) desired /\ settled (db s1) node n cfg j
                            /\ ~ In (if_id j) (filter (fun k => negb (k =? if_id i)) cur)).
    { intros n Hn. apply in_app_iff in Hn. destruct Hn as [Hn|[<-|[]]].
      - destruct (Hdone n Hn) as (cfg' & j & Hin' & Hj & Hk).
        assert (Hne : n <> name).
        { intros ->. apply (Hnew name); [left; reflexivity | exact Hn]. }
        destruct (settled_beside _ _ _ _ _ _ _ _ _ Hbes Hset Hne
                    (distinct_macs _ _ _ _ _ Hplain Hin Hin' Hne) Hj) as (j' & Hj' & Hid).
        exists cfg', j'. split; [exact Hin'|]. split; [exact Hj'|].
        rewrite Hid. intros Hf. apply filter_In in Hf. tauto.
      - exists cfg, i. split; [exact Hin|]. split; [exact Hset|].
        intros Hf. apply filter_In in Hf. destruct Hf as [_ Hf].
        rewrite Nat.eqb_refl in Hf. discriminate. }
    assert (Hcov1 : forall row, In row (interfaces (db s1)) -> if_node_id row = node_id node ->
              In (if_id row) (filter (fun k => negb (k =? if_id i)) cur)
              \/ exists n cfg, In n (done ++ [name]) /\ In (n, cfg) desired
                               /\ physical_with_mac (config_mac_address cfg) row = true).
    { intros row' Hrow' Hnode.
      destruct (Nat.eq_dec (if_id row') (if_id i)) as [He|Hne].
      - right. exists name, cfg. split; [apply in_app_iff; right; left; reflexivity|].
        split; [exact Hin|].
        destruct Hwk1 as [Hnd1 _].
        rewrite (same_id_same_row _ if_id _ _ _ Hnd1 Hrow' (proj1 Hset) He). apply Hset.
      - destruct Hbes as (Hfrom & _).
        destruct (Hfrom row' Hrow') as [->|(row & Hrow & Her)]; [contradiction|].
        destruct (same_core_fields _ _ Her) as (Hid & _ & _ & _ & Hnd0 & _).
        destruct (Hcov row Hrow) as [Hc|(n & cfg' & Hn & Hin' & Hp)].
        + congruence.
        + left. apply filter_In. split; [rewrite Hid; exact Hc|].
          apply negb_true_iff, Nat.eqb_neq. exact Hne.
        + right. exists n, cfg'. split; [apply in_app_iff; left; exact Hn|].
          split; [exact Hin'|]. rewrite (physical_with_mac_core _ _ _ Her). exact Hp. }
    destruct (IH _ _ _ _ _ Hnd' Hnew1 Hwk1 Hdone1 Hcov1 Hrun) as (Hwk' & Hn' & Hdone' & Hcov').
    split; [exact Hwk'|]. split; [congruence|].
    rewrite <- app_assoc in Hdone', Hcov'. simpl in Hdone', Hcov'. auto.
Qed.

Lemma deletion_order_In (d : Store) (cur order : list nat) :
  deletion_order d cur = Ok order -> forall k, In k order <-> In k cur.
Proof.
  unfold deletion_order.
  destruct (sorted_order Nat.eqb Nat.leb (deletion_graph d cur)) as [l|e] eqn:Hs;
    [|discriminate].
  intros H k. inversion H; subst. clear H.
  rewrite <- in_rev.
  rewrite (sorted_order_In _ Nat.eqb Nat.eqb_spec Nat.leb _ _ Hs).
  rewrite prepare_keys, in_app_iff, deletion_graph_keys. split; [|auto].
  intros [H|H]; [exact H|]. exfalso.
  apply (ghosts_In _ Nat.eqb Nat.eqb_spec Nat.leb) in H. destruct H as [Hk (n & ps & Hin & Hp)].
  rewrite discard_self_keys, deletion_graph_keys in Hk. apply Hk.
  apply (discard_self_In _ Nat.eqb) in Hin. destruct Hin as (ps0 & Hin & ->).
  apply filter_In in Hp. destruct Hp as [Hp _].
  unfold deletion_graph in Hin. apply in_map_iff in Hin.
  destruct Hin as (x & He & _). inversion He; subst. clear He.
  apply in_map_iff in Hp. destruct Hp as (p & <- & Hp).
  apply filter_In in Hp. destruct Hp as [_ Hp].
  apply existsb_exists in Hp. destruct Hp as (y & Hy & He).
  apply Nat.eqb_eq in He. rewrite He. exact Hy.
Qed.

Lemma node_interface_ids_In (node : Node) (d : Store) (k : nat) :
  In k (node_interface_ids node d)
  <-> exists row, In row (interfaces d) /\ if_node_id row = node_id node /\ if_id row = k.
Proof.
  unfold node_interface_ids. rewrite (sorted_In _ Nat.leb). rewrite in_map_iff. split.
  - intros (row & He & Hin). apply filter_In in Hin. destruct Hin as [Hin Hn].
    apply Nat.eqb_eq in Hn. exists row. auto.
  - intros (row & Hin & Hn & He). exists row. split; [exact He|].
    apply filter_In. split; [exact Hin|]. apply Nat.eqb_eq. exact Hn.
Qed.

Lemma Node_save_run (n : Node) (s : State) :
  exists s', Node_save n s = (Ok tt, s')
             /\ interfaces (db s') = interfaces (db s)
             /\ addresses (db s') = addresses (db s)
             /\ links (db s') = links (db s)
             /\ next_id (db s') = next_id (db s)
             /\ nodes (db s') = upsert node_id n (nodes (db s)).
Proof.
  unfold Node_save. rewrite bind_run, query_run, bind_run.
  eexists. split; [reflexivity|]. simpl. auto.
Qed.

Lemma upsert_In (A : Type) (id : A -> nat) (x : A) (l : list A) :
  In x (upsert id x l)
  /\ forall y, In y (upsert id x l) -> id y = id x -> y = x.
Proof.
  unfold upsert. destruct (has_id id (id x) l) eqn:Hp.
  - split.
    + unfold has_id in Hp. apply existsb_exists in Hp. destruct Hp as (y & Hy & He).
      apply in_map_iff. exists y. rewrite He. auto.
    + intros y Hy He. apply in_map_iff in Hy. destruct Hy as (z & Hz & _).
      destruct (id z =? id x) eqn:Hk; [congruence|].
      subst y. apply Nat.eqb_neq in Hk. contradiction.
  - split.
    + apply in_app_iff. right. left. reflexivity.
    + intros y Hy He. apply in_app_iff in Hy. destruct Hy as [Hy|[<-|[]]]; [|reflexivity].
      exfalso. rewrite <- He, (has_id_In _ id _ _ Hy) in Hp. discriminate.
Qed.

(** After a pass over physical interfaces without links, each is settled,
    the node has no other interface, and the node has its one row. *)
Lemma first_pass_settles (node : Node) (desired : list (string * config))
    (hints : option (list hint)) (s s' : State) :
  well_keyed (db s) -> plain_physical desired ->
  update_node_interfaces node desired hints true s = (Ok tt, s') ->
  well_keyed (db s')
  /\ (forall name cfg, In (name, cfg) desired -> exists i, settled (db s') node name cfg i)
  /\ (forall row, In row (interfaces (db s')) -> if_node_id row = node_id node ->
        exists name cfg, In (name, cfg) desired
                         /\ physical_with_mac (config_mac_address cfg) row = true)
  /\ (exists node', node_id node' = node_id node /\ In node' (nodes (db s'))
                    /\ forall r, In r (nodes (db s')) -> node_id r = node_id node -> r = node')
  /\ exists order, process_order desired = Ok order
                   /\ forall n, In n order -> In n (map fst desired).
Proof.
  intros Hwk Hplain Hrun.
  unfold update_node_interfaces, transactional in Hrun.
  destruct (update_node_interfaces_body node desired hints true s) as [[[]|e] s0] eqn:Hbody;
    [|discriminate].
  inversion Hrun; subst s0. clear Hrun.
  unfold update_node_interfaces_body in Hbody.
  rewrite bind_run, query_run in Hbody.
  apply bind_inv in Hbody. destruct Hbody as (order & s1 & Ho & Hbody).
  unfold lift in Ho. inversion Ho as [[Horder Hs1]]. subst s1. clear Ho.
  apply bind_inv in Hbody. destruct Hbody as (cur1 & s1 & Hloop & Hbody).
  cbn [negb] in Hbody.
  assert (Hnd : NoDup order).
  { apply (sorted_order_NoDup _ String.eqb String.eqb_spec String.leb _ _) with (2 := Horder).
    rewrite parents_graph_keys. apply Hplain. }
  assert (Hloop' : well_keyed (db s1)
            /\ nodes (db s1) = nodes (db s)
            /\ (forall n, In n order ->
                  exists cfg j, In (n, cfg) desired /\ settled (db s1) node n cfg j
                                /\ ~ In (if_id j) cur1)
            /\ (forall row, In row (interfaces (db s1)) -> if_node_id row = node_id node ->
                  In (if_id row) cur1
                  \/ exists n cfg, In n order /\ In (n, cfg) desired
                       /\ physical_with_mac (config_mac_address cfg) row = true)).
  { apply (first_loop node desired hints order Hplain []
             (node_interface_ids node (db s)) cur1 s s1 Hnd); auto.
    - intros n [].
    - intros row Hrow Hnode. left. apply node_interface_ids_In. exists row. auto. }
  destruct Hloop' as (Hwk1 & Hn1 & Hdone1 & Hcov1).
  - apply bind_inv in Hbody. destruct Hbody as (dels & s2 & Hdo & Hbody).
    rewrite query_result_run in Hdo. inversion Hdo as [[Hdels Hs2]]. subst s2. clear Hdo.
    apply bind_inv in Hbody. destruct Hbody as (node' & s2 & Hdel & Hsave).
    destruct (delete_interface_loop dels node s1) as (node2 & s2' & Hdel' & Hdrops & Hid2 & _).
    rewrite Hdel' in Hdel. inversion Hdel; subst node2 s2'. clear Hdel Hdel'.
    destruct (Node_save_run node' s2) as (s3 & Hsave' & Hi3 & Ha3 & Hl3 & Hk3 & Hnodes3).
    rewrite Hsave' in Hsave. inversion Hsave; subst s3. clear Hsave Hsave'.
    pose proof (drops_well_keyed _ _ _ Hdrops Hwk1) as Hwk2.
    assert (Hwk' : well_keyed (db s')).
    { unfold well_keyed. rewrite Hi3, Hk3. exact Hwk2. }
    assert (Hsettled : forall n, In n order ->
              exists cfg j, In (n, cfg) desired /\ settled (db s') node n cfg j).
    { intros n Hn. destruct (Hdone1 n Hn) as (cfg & j & Hin & Hj & Hk).
      assert (Hk' : ~ In (if_id j) dels).
      { intros Hd. apply Hk. apply (deletion_order_In _ _ _ Hdels). exact Hd. }
      destruct (settled_drops dels node n cfg j s1 s2 Hdrops Hk' Hj) as (j' & Hj' & _).
      exists cfg. 
      destruct (settled_carried node n cfg j' s2 s') as (j3 & Hj3 & _).
      - intros row' Hrow'. right. exists row'. rewrite <- Hi3. auto.
      - exists j'. rewrite Hi3. split; [apply Hj' | reflexivity].
      - rewrite Ha3. auto.
      - intros x y Hxy. unfold linked in *. rewrite <- Hl3. exact Hxy.
      - exact Hj'.
      - exists j3. auto. }
    split; [exact Hwk'|]. split; [|split; [|split]].
    + intros name cfg Hin.
      destruct (Hsettled name) as (cfg' & j & Hin' & Hj).
      * apply (sorted_order_keys _ String.eqb String.eqb_spec String.leb _ _ Horder).
        rewrite parents_graph_keys. apply in_map_iff. exists (name, cfg). auto.
      * assert (He : (name, cfg') = (name, cfg)).
        { apply (same_key_same_row _ _ fst desired); [apply Hplain | | | reflexivity];
            assumption. }
        inversion He; subst. exists j. exact Hj.
    + intros row' Hrow' Hnode. rewrite Hi3 in Hrow'.
      destruct (drops_origin _ _ _ _ Hdrops Hrow') as (row & Hrow & He & Hk).
      destruct (same_core_fields _ _ He) as (Hid & _ & _ & _ & Hnd0 & _).
      destruct (Hcov1 row Hrow) as [Hc|(n & cfg & Hn & Hin & Hp)].
      * congruence.
      * exfalso. apply Hk. apply (deletion_order_In _ _ _ Hdels). exact Hc.
      * exists n, cfg. split; [exact Hin|].
        rewrite (physical_with_mac_core _ _ _ He). exact Hp.
    + exists node'. split; [exact Hid2|]. rewrite Hnodes3.
      destruct (upsert_In _ node_id node' (nodes (db s2))) as [Hin Huniq].
      split; [exact Hin|]. intros r Hr He. apply Huniq; congruence.
    + exists order. split; [exact Horder|]. intros n Hn.
      destruct (Hdone1 n Hn) as (cfg & j & Hin & _).
      apply in_map_iff. exists (n, cfg). auto.
Qed.

(** ** The second pass *)

Lemma settled_same_id (d : Store) (node : Node) (name : string) (cfg : config)
    (i j : Interface) :
  settled d node name cfg i -> settled d node name cfg j -> if_id i = if_id j.
Proof.
  intros (Hin & Hmac & _) (_ & _ & Hone & _). apply Hone; assumption.
Qed.

Lemma settled_same_db (s s' : State) (node : Node) (name : string) (cfg : config)
    (i : Interface) :
  db s' = db s -> settled (db s) node name cfg i -> settled (db s') node name cfg i.
Proof. intros ->. auto. Qed.

Lemma second_loop (node : Node) (desired : list (string * config))
    (hints : option (list hint)) (names : list string) :
  plain_physical desired ->
  forall (cur : list nat) (s : State),
  well_keyed (db s) ->
  (forall n, In n names ->
     exists cfg i, lookup n desired = Some cfg /\ settled (db s) node n cfg i) ->
  exists cur' s' ws,
    for_each names (process_interface node desired hints true) cur s = (Ok cur', s')
    /\ db s' = db s
    /\ writes s' = writes s ++ ws
    /\ forallb is_update ws = true
    /\ (forall k, In k cur' ->
          In k cur
          /\ forall n cfg i, In n names -> lookup n desired = Some cfg ->
                             settled (db s) node n cfg i -> k <> if_id i)
    /\ exists ids,
         ws = map (Update TInterface) ids
         /\ length ids = length names
         /\ forall k, In k ids ->
              exists row, In row (interfaces (db s)) /\ if_id row = k
                          /\ if_node_id row = node_id node.
Proof.
  intros Hplain. induction names as [|name names IH]; intros cur s Hwk Hall.
  - exists cur, s, []. simpl. rewrite ret_run, app_nil_r.
    split; [reflexivity|]. split; [reflexivity|]. split; [reflexivity|].
    split; [reflexivity|]. split; [intros k Hk; split; [exact Hk | intros n cfg i []]|].
    exists []. split; [reflexivity|]. split; [reflexivity|]. intros k [].
  - destruct (Hall name (or_introl eq_refl)) as (cfg & i & Hl & Hi).
    pose proof (lookup_entry _ _ _ Hl) as Hin.
    destruct Hplain as (Hk & Hm & Hpl). destruct (Hpl _ _ Hin) as [Hty Hlinks].
    destruct (update_physical_interface_settled node name cfg hints s i Hwk Hlinks Hi)
      as (s1 & Hrun & Hdb1 & Hw1).
    assert (Hwk1 : well_keyed (db s1)) by (rewrite Hdb1; exact Hwk).
    destruct (IH (filter (fun k => negb (k =? if_id i)) cur) s1 Hwk1)
      as (cur' & s' & ws & Hloop & Hdb & Hw & Hup & Hcur & ids & Hids & Hlen & Hrows).
    { intros n Hn. destruct (Hall n (or_intror Hn)) as (cfg' & j & Hl' & Hj).
      exists cfg', j. split; [exact Hl'|]. rewrite Hdb1. exact Hj. }
    exists cur', s', (Update TInterface (if_id i) :: ws).
    split; [|split; [congruence|split; [|split; [|split]]]].
    + cbn [for_each]. rewrite bind_run. unfold process_interface at 1.
      rewrite Hl, bind_run, ret_run. unfold update_interface. rewrite Hty.
      cbn [String.eqb Ascii.eqb Bool.eqb]. rewrite !bind_run, Hrun, !ret_run. exact Hloop.
    + rewrite Hw, Hw1, <- app_assoc. reflexivity.
    + simpl. exact Hup.
    + intros k Hk'. destruct (Hcur k Hk') as [Hf Hrest].
      apply filter_In in Hf. destruct Hf as [Hkc Hne].
      split; [exact Hkc|]. intros n cfg' j [<-|Hn] Hl' Hj.
      * rewrite Hl in Hl'. inversion Hl'; subst cfg'.
        rewrite (settled_same_id _ _ _ _ _ _ Hj Hi).
        apply Nat.eqb_neq. apply negb_true_iff. exact Hne.
      * apply (Hrest n cfg' j Hn Hl'). rewrite Hdb1. exact Hj.
    + exists (if_id i :: ids). split; [simpl; rewrite Hids; reflexivity|].
      split; [simpl; rewrite Hlen; reflexivity|].
      intros k [<-|Hk'].
      * exists i. destruct Hi as (Hin' & _ & _ & _ & Hnd & _). auto.
      * rewrite <- Hdb1. apply Hrows. exact Hk'.
Qed.

Lemma upsert_same (A : Type) (id : A -> nat) (x : A) (l : list A) :
  In x l -> (forall y, In y l -> id y = id x -> y = x) -> upsert id x l = l.
Proof.
  intros Hin Hone. unfold upsert. rewrite (has_id_In _ id _ _ Hin).
  apply map_same. intros y Hy. destruct (id y =? id x) eqn:He; [|reflexivity].
  apply Nat.eqb_eq in He. symmetry. apply Hone; assumption.
Qed.

Lemma second_pass_rewrites (node : Node) (desired : list (string * config))
    (hints : option (list hint)) (s : State) (order : list string) :
  well_keyed (db s) -> plain_physical desired ->
  process_order desired = Ok order ->
  (forall n, In n order -> In n (map fst desired)) ->
  (forall name cfg, In (name, cfg) desired -> exists i, settled (db s) node name cfg i) ->
  (forall row, In row (interfaces (db s)) -> if_node_id row = node_id node ->
     exists name cfg, In (name, cfg) desired
                      /\ physical_with_mac (config_mac_address cfg) row = true) ->
  In node (nodes (db s)) ->
  (forall r, In r (nodes (db s)) -> node_id r = node_id node -> r = node) ->
  exists s' ws,
    update_node_interfaces node desired hints true s = (Ok tt, s')
    /\ db s' = db s
    /\ writes s' = writes s ++ ws
    /\ forallb is_update ws = true
    /\ exists ids,
         ws = map (Update TInterface) ids ++ [Update TNode (node_id node)]
         /\ length ids = length order
         /\ forall k, In k ids ->
              exists row, In row (interfaces (db s)) /\ if_id row = k
                          /\ if_node_id row = node_id node.
Proof.
  intros Hwk Hplain Horder Hkeys Hall Hcov Hnode Hone.
  assert (Hnames : forall n, In n order ->
            exists cfg i, lookup n desired = Some cfg /\ settled (db s) node n cfg i).
  { intros n Hn. specialize (Hkeys n Hn). apply in_map_iff in Hkeys.
    destruct Hkeys as ([n' cfg] & He & Hin). simpl in He. subst n'.
    destruct (Hall n cfg Hin) as (i & Hi). exists cfg, i. split; [|exact Hi].
    apply entry_lookup; [apply Hplain | exact Hin]. }
  destruct (second_loop node desired hints order Hplain (node_interface_ids node (db s)) s
              Hwk Hnames)
    as (cur' & s1 & ws & Hloop & Hdb & Hw & Hup & Hcur & ids & Hids & Hlen & Hrows).
  assert (Hnil : cur' = []).
  { destruct cur' as [|k r]; [reflexivity|]. exfalso.
    destruct (Hcur k (or_introl eq_refl)) as [Hk Hne].
    apply node_interface_ids_In in Hk. destruct Hk as (row & Hrow & Hn & Hid).
    destruct (Hcov row Hrow Hn) as (name & cfg & Hin & Hp).
    destruct (Hall name cfg Hin) as (i & Hi).
    apply (Hne name cfg i).
    - apply (sorted_order_keys _ String.eqb String.eqb_spec String.leb _ _ Horder).
      rewrite parents_graph_keys. apply in_map_iff. exists (name, cfg). auto.
    - apply entry_lookup; [apply Hplain | exact Hin].
    - exact Hi.
    - rewrite <- Hid. destruct Hi as (_ & _ & Huniq & _). apply Huniq; assumption. }
  subst cur'.
  exists (mkState (db s1) (writes s1 ++ [Update TNode (node_id node)]) (maaslog s1)),
         (ws ++ [Update TNode (node_id node)]).
  split; [|split; [exact Hdb|split; [|split]]].
  - unfold update_node_interfaces, transactional, update_node_interfaces_body.
    rewrite bind_run, query_run, bind_run. unfold lift. rewrite Horder.
    rewrite bind_run, Hloop. cbn [negb].
    rewrite bind_run, query_result_run.
    change (deletion_order (db s1) []) with (@Ok (list nat) []).
    cbv beta iota. rewrite bind_run. cbn [for_each]. rewrite ret_run.
    unfold Node_save. rewrite bind_run, query_run, bind_run.
    rewrite Hdb, (has_id_In _ node_id _ _ Hnode).
    unfold modify, emit. cbn [db writes maaslog].
    rewrite Hdb, (upsert_same _ node_id _ _ Hnode), set_nodes_same.
    + rewrite <- Hdb. reflexivity.
    + intros y Hy He. apply Hone; assumption.
  - simpl. rewrite Hw, <- app_assoc. reflexivity.
  - rewrite forallb_app, Hup. reflexivity.
  - exists ids. rewrite Hids. auto.
Qed.

Lemma find_id_unique (A : Type) (id : A -> nat) (k : nat) (l : list A) (x : A) :
  In x l -> id x = k -> (forall y, In y l -> id y = k -> y = x) ->
  find_id id k l = Some x.
Proof.
  intros Hin Hk Hone. unfold find_id.
  destruct (find (fun y => id y =? k) l) as [y|] eqn:Hf.
  - apply find_some in Hf. destruct Hf as [Hy He]. apply Nat.eqb_eq in He.
    rewrite (Hone y Hy He). reflexivity.
  - exfalso. apply (find_none _ _ Hf) in Hin. rewrite Hk, Nat.eqb_refl in Hin. discriminate.
Qed.

(** X1. The first two statements of [update_physical_interface], on a
    store whose interface rows have one key each: when they go through, the
    interface handed back is the one physical interface with the desired MAC
    address, no physical interface of the node has the desired name with
    another MAC address, every interface that was not such a stale one is
    still there (parent references apart), and an interface that was created
    is on the node, under the name, enabled as desired and without a VLAN. *)
Theorem X1_physical_interface_fetched
    (node : Node) (name : string) (cfg : config) (s s' : State)
    (i : Interface) (created : bool) :
  well_keyed (db s) ->
  find_physical_interface node name cfg s = (Ok (i, created), s') ->
  well_keyed (db s')
  /\ filter (physical_with_mac (config_mac_address cfg)) (interfaces (db s')) = [i]
  /\ filter (stale_for node name (config_mac_address cfg)) (interfaces (db s')) = []
  /\ (forall row, In row (interfaces (db s)) ->
        stale_for node name (config_mac_address cfg) row = false ->
        exists row', In row' (interfaces (db s'))
                     /\ without_parents row' = without_parents row)
  /\ (created = true ->
      if_node_id i = node_id node /\ if_name i = name
      /\ if_enabled i = config_enabled cfg /\ if_vlan_id i = None).
Proof.
  intros Hwk H.
  destruct (find_physical_interface_inv _ _ _ _ _ _ _ Hwk H)
    as (Hwk' & Hin & Hp & Hone & Hstale & _ & Hto & Hnew & _).
  split; [exact Hwk'|]. split; [|split; [|split; [exact Hto | exact Hnew]]].
  - apply (filter_unique _ if_id); [apply Hwk' | exact Hin | exact Hp |].
    intros y Hy Hpy. rewrite (Hone y Hy Hpy). reflexivity.
  - apply filter_none. exact Hstale.
Qed.

(** X2. [update_links] with no links: it returns no address, the
    interface has no address afterwards, the DISCOVERED addresses that were
    linked to it are deleted, every other address row stays, and the
    interface rows are as they were. *)
Theorem X2_no_links_no_addresses
    (node : Node) (interface : Interface) (force_vlan use_interface_vlan : bool) (s : State) :
  exists s',
    update_links node interface [] force_vlan use_interface_vlan s = (Ok (interface, []), s')
    /\ ip_addresses_all (if_id interface) (db s') = []
    /\ interfaces (db s') = interfaces (db s)
    /\ (forall a, In a (addresses (db s')) ->
          In a (addresses (db s))
          /\ forall r, In r (ip_addresses_all (if_id interface) (db s)) ->
                       is_alloc_type IPADDRESS_TYPE.DISCOVERED r = true ->
                       sip_id a <> sip_id r)
    /\ (forall a, In a (addresses (db s)) ->
          (forall r, In r (ip_addresses_all (if_id interface) (db s)) ->
                     is_alloc_type IPADDRESS_TYPE.DISCOVERED r = true ->
                     sip_id a <> sip_id r) ->
          In a (addresses (db s'))).
Proof. apply update_links_clears. Qed.

(** X3. [update_physical_interface] with [create_fabrics] on an interface
    without links, on a store whose interface rows have one key each: when
    it goes through, the interface is settled (the one physical interface
    with the MAC address, on the node, under the name, enabled as desired,
    on a VLAN if enabled, without addresses, and no other physical interface
    of the node has the name); the interface of another name and MAC
    address that was settled still is; and the node rows are as they
    were. *)
Theorem X3_physical_interface_settles
    (node : Node) (name : string) (cfg : config) (hints : option (list hint))
    (s s' : State) (i : Interface) :
  well_keyed (db s) -> config_links cfg = [] ->
  update_physical_interface node name cfg true hints s = (Ok i, s') ->
  well_keyed (db s')
  /\ settled (db s') node name cfg i
  /\ (forall name' cfg' j,
        name' <> name -> config_mac_address cfg' <> config_mac_address cfg ->
        settled (db s) node name' cfg' j ->
        exists j', settled (db s') node name' cfg' j' /\ if_id j' = if_id j)
  /\ nodes (db s') = nodes (db s).
Proof.
  intros Hwk Hlinks H.
  destruct (update_physical_interface_run _ _ _ _ _ _ _ Hwk Hlinks H)
    as (Hwk' & Hset & Hbes & _).
  split; [exact Hwk'|]. split; [exact Hset|]. split; [|apply Hbes].
  intros name' cfg' j Hn Hm Hj. apply (settled_beside _ _ _ _ _ _ _ _ _ Hbes Hset Hn Hm Hj).
Qed.

(** X4. [update_physical_interface] on an interface that is settled
    already: it hands the row back, leaves every table as it is, and its one
    write is the UPDATE of the row (the name is saved whenever the interface
    was not created). *)
Theorem X4_settled_interface_rewritten
    (node : Node) (name : string) (cfg : config) (hints : option (list hint))
    (s : State) (i : Interface) :
  well_keyed (db s) -> config_links cfg = [] ->
  settled (db s) node name cfg i ->
  exists s', update_physical_interface node name cfg true hints s = (Ok i, s')
             /\ db s' = db s
             /\ writes s' = writes s ++ [Update TInterface (if_id i)].
Proof. apply update_physical_interface_settled. Qed.

(** X5. [update_node_interfaces] with [create_fabrics] over a desired
    state of physical interfaces without links, one per MAC address: when
    the pass goes through, every desired interface is settled, every
    interface row of the node is the settled row of a desired interface (the
    others were deleted), and the interface rows still have one key each. *)
Theorem X5_pass_settles_the_node
    (node : Node) (desired : list (string * config)) (hints : option (list hint))
    (s s' : State) :
  well_keyed (db s) -> plain_physical desired ->
  update_node_interfaces node desired hints true s = (Ok tt, s') ->
  well_keyed (db s')
  /\ (forall name cfg, In (name, cfg) desired -> exists i, settled (db s') node name cfg i)
  /\ (forall row, In row (interfaces (db s')) -> if_node_id row = node_id node ->
        exists name cfg, In (name, cfg) desired /\ settled (db s') node name cfg row).
Proof.
  intros Hwk Hplain H.
  destruct (first_pass_settles _ _ _ _ _ Hwk Hplain H) as (Hwk' & Hall & Hcov & _).
  split; [exact Hwk'|]. split; [exact Hall|].
  intros row Hrow Hnode. destruct (Hcov row Hrow Hnode) as (name & cfg & Hin & Hp).
  exists name, cfg. split; [exact Hin|].
  destruct (Hall name cfg Hin) as (i & Hi).
  assert (He : row = i).
  { destruct Hwk' as [Hnd _].
    apply (same_id_same_row _ if_id _ _ _ Hnd Hrow); [apply Hi|].
    destruct Hi as (_ & _ & Hone & _). apply Hone; assumption. }
  rewrite He. exact Hi.
Qed.

(** X6. Reconciling the same desired state again: after a pass of
    [update_node_interfaces] with [create_fabrics] over physical interfaces
    without links, one per MAC address, a second pass for the node as it was
    saved, whatever the hints, goes through, leaves every table as it is,
    and writes nothing but UPDATEs. *)
Theorem X6_second_pass_changes_nothing
    (node : Node) (desired : list (string * config)) (hints hints' : option (list hint))
    (s s1 : State) :
  well_keyed (db s) -> plain_physical desired ->
  update_node_interfaces node desired hints true s = (Ok tt, s1) ->
  exists node1 s2 ws,
    find_id node_id (node_id node) (nodes (db s1)) = Some node1
    /\ update_node_interfaces node1 desired hints' true s1 = (Ok tt, s2)
    /\ db s2 = db s1
    /\ writes s2 = writes s1 ++ ws
    /\ forallb is_update ws = true.
Proof.
  intros Hwk Hplain H.
  destruct (first_pass_settles _ _ _ _ _ Hwk Hplain H)
    as (Hwk1 & Hall & Hcov & (node1 & Hid & Hin & Hone) & (order & Horder & Hkeys)).
  destruct (second_pass_rewrites node1 desired hints' s1 order Hwk1 Hplain Horder Hkeys)
    as (s2 & ws & Hrun & Hdb & Hw & Hup & _).
  - intros name cfg Hi. destruct (Hall name cfg Hi) as (i & Hset).
    exists i. apply (settled_node _ node); assumption.
  - intros row Hrow Hnode. apply Hcov; congruence.
  - exact Hin.
  - intros r Hr He. apply Hone; congruence.
  - exists node1, s2, ws. split; [|auto].
    apply find_id_unique; [exact Hin | exact Hid | exact Hone].
Qed.

(** * Part XVI-b: what a second pass writes *)




(** * Part XVII: a pass that creates no fabrics *)

Lemma sparing_refl (s : State) : sparing s s.
Proof. unfold sparing. repeat split; auto. apply links_shrink_refl. Qed.

Lemma sparing_trans (s1 s2 s3 : State) : sparing s1 s2 -> sparing s2 s3 -> sparing s1 s3.
Proof.
  intros (Hf & Hv & Hs & Hn & Ha & Hl) (Hf' & Hv' & Hs' & Hn' & Ha' & Hl').
  unfold sparing. repeat split; try congruence; auto.
  apply links_shrink_trans with s2; assumption.
Qed.

Lemma sparing_same_db (s s' : State) : db s' = db s -> sparing s s'.
Proof.
  intros H. unfold sparing, links_shrink. rewrite H. repeat split; auto.
Qed.

Lemma sparing_modify (g : Store -> Store) :
  (forall d, fabrics (g d) = fabrics d /\ vlans (g d) = vlans d
             /\ subnets (g d) = subnets d /\ nodes (g d) = nodes d
             /\ (forall a, In a (addresses (g d)) -> In a (addresses d))
             /\ (forall l, In l (links (g d)) -> In l (links d))) ->
  preserves sparing (modify g).
Proof.
  intros Hg s r s' H. inversion H; subst. clear H.
  destruct (Hg (db s)) as (Hf & Hv & Hs & Hn & Ha & Hl).
  unfold sparing. simpl. repeat split; auto.
  intros j k H. apply linked_iff in H. apply linked_iff. simpl in H. auto.
Qed.

Lemma sparing_emit (w : write) : preserves sparing (emit w).
Proof. intros s r s' H. inversion H; subst. apply sparing_same_db. reflexivity. Qed.

Lemma sparing_fresh_id : preserves sparing fresh_id.
Proof.
  intros s r s' H. inversion H; subst. clear H.
  unfold sparing, links_shrink. simpl. repeat split; auto.
Qed.

Ltac sparing_structure :=
  preserves_structure sparing_refl sparing_trans;
  try apply sparing_emit; try apply sparing_fresh_id.

Lemma sparing_Interface_delete (k : nat) : preserves sparing (Interface_delete k).
Proof.
  unfold Interface_delete. sparing_structure.
  apply sparing_modify. intros d. simpl. repeat split; auto.
  intros l Hl. apply filter_In in Hl. tauto.
Qed.

Lemma sparing_Interface_save (i : Interface) : preserves sparing (Interface_save i).
Proof.
  unfold Interface_save. sparing_structure.
  apply sparing_modify. intros d. simpl. repeat split; auto.
Qed.

Lemma sparing_Interface_save_fields (i : Interface) (fields : list ifield) :
  preserves sparing (Interface_save_fields i fields).
Proof.
  unfold Interface_save_fields. sparing_structure.
  apply sparing_modify. intros d. simpl. repeat split; auto.
Qed.

Lemma sparing_StaticIPAddress_delete (k : nat) : preserves sparing (StaticIPAddress_delete k).
Proof.
  unfold StaticIPAddress_delete. sparing_structure.
  apply sparing_modify. intros d. simpl. repeat split; auto.
  - intros x Hx. unfold remove_id in Hx. apply filter_In in Hx. tauto.
  - intros l Hl. apply filter_In in Hl. tauto.
Qed.

Lemma sparing_update_physical_interface (node : Node) (name : string) (cfg : config)
    (hints : option (list hint)) :
  preserves sparing (update_physical_interface node name cfg false hints).
Proof.
  unfold update_physical_interface, find_physical_interface, PhysicalInterface_get_or_create.
  cbn [andb].
  sparing_structure;
    try apply sparing_Interface_delete; try apply sparing_Interface_save;
    try apply sparing_Interface_save_fields; try apply sparing_StaticIPAddress_delete.
Qed.

Lemma sparing_update_interface (node : Node) (name : string) (cfg : config)
    (hints : option (list hint)) :
  preserves sparing (update_interface node name cfg false hints).
Proof.
  unfold update_interface. cbn [negb].
  sparing_structure. apply sparing_update_physical_interface.
Qed.

Lemma preserves_transactional (A : Type) (P : State -> State -> Prop) (m : M A) :
  (forall s s', db s' = db s -> P s s') ->
  preserves P m -> preserves P (transactional m).
Proof.
  intros Hdb Hm s r s' H. unfold transactional in H.
  destruct (m s) as [[a|e] s1] eqn:Hms; inversion H; subst; clear H.
  - apply (Hm _ _ _ Hms).
  - apply Hdb. reflexivity.
Qed.

(** X7. A pass of [update_node_interfaces] that does not create fabrics,
    however it ends, leaves the fabrics, the VLANs, the subnets and the
    nodes as they are (the node is not saved), creates no address and adds
    no link. *)
Theorem X7_without_fabrics_nothing_is_created
    (node : Node) (desired : list (string * config)) (hints : option (list hint))
    (s s' : State) (r : result unit) :
  update_node_interfaces node desired hints false s = (r, s') ->
  fabrics (db s') = fabrics (db s)
  /\ vlans (db s') = vlans (db s)
  /\ subnets (db s') = subnets (db s)
  /\ nodes (db s') = nodes (db s)
  /\ (forall a, In a (addresses (db s')) -> In a (addresses (db s)))
  /\ (forall j k, linked (db s') j k = true -> linked (db s) j k = true).
Proof.
  intros H.
  assert (Hp : preserves sparing (update_node_interfaces node desired hints false)).
  { unfold update_node_interfaces. apply preserves_transactional; [apply sparing_same_db|].
    unfold update_node_interfaces_body, process_interface. cbn [negb].
    sparing_structure. apply sparing_update_interface. }
  apply (Hp _ _ _ H).
Qed.

Lemma process_interface_deferred (node : Node) (desired : list (string * config))
    (hints : option (list hint)) (name : string) (cur : list nat) :
  (forall n cfg, In (n, cfg) desired -> config_type cfg <> "physical"%string) ->
  preserves eq (process_interface node desired hints false name cur).
Proof.
  intros Hall. unfold process_interface.
  destruct (lookup name desired) as [cfg|] eqn:Hl.
  - apply lookup_entry in Hl. apply Hall in Hl. apply String.eqb_neq in Hl.
    intros s r s' H. rewrite bind_run, ret_run in H. cbv beta iota in H.
    unfold update_interface in H. rewrite Hl in H. cbn [negb] in H.
    rewrite bind_run, ret_run in H. cbv beta iota in H. rewrite ret_run in H.
    inversion H. reflexivity.
  - intros s r s' H. rewrite bind_run in H. unfold raise in H. inversion H. reflexivity.
Qed.

(** X8. A pass that does not create fabrics defers every interface that
    is not physical: over a desired state without physical interfaces it
    leaves the tables as they are and writes and logs nothing, however it
    ends. *)
Theorem X8_without_fabrics_children_are_deferred
    (node : Node) (desired : list (string * config)) (hints : option (list hint))
    (s s' : State) (r : result unit) :
  (forall n cfg, In (n, cfg) desired -> config_type cfg <> "physical"%string) ->
  update_node_interfaces node desired hints false s = (r, s') ->
  s' = s.
Proof.
  intros Hall H.
  assert (Hp : preserves eq (update_node_interfaces_body node desired hints false)).
  { unfold update_node_interfaces_body. cbn [negb].
    preserves_structure (@eq_refl State) (@eq_trans State).
    apply process_interface_deferred. exact Hall. }
  unfold update_node_interfaces, transactional in H.
  destruct (update_node_interfaces_body node desired hints false s) as [[a|e] s1] eqn:Hb;
    apply Hp in Hb; subst s1; inversion H; subst; [reflexivity|].
  destruct s. reflexivity.
Qed.

(** X9. The loop that deletes the interfaces that are no longer there
    always goes through; it leaves no row with a key it was given, and the
    node it hands on to [node.save()] has lost its boot interface exactly
    when that was one of the interfaces deleted. *)
Theorem X9_deleted_boot_interface_is_cleared (ks : list nat) (node : Node) (s : State) :
  exists node' s',
    for_each ks delete_interface node s = (Ok node', s')
    /\ node_id node' = node_id node
    /\ node_hostname node' = node_hostname node
    /\ node_boot_interface_id node'
       = (if existsb (fun k => option_nat_eqb (node_boot_interface_id node) (Some k)) ks
          then None else node_boot_interface_id node)
    /\ (forall k, In k ks -> has_id if_id k (interfaces (db s')) = false).
Proof.
  destruct (delete_interface_loop ks node s) as (node' & s' & Hrun & Hdrops & Hid & Hhn & Hboot).
  exists node', s'. repeat split; try assumption.
  intros k Hk. unfold has_id. apply not_true_is_false. intros H.
  apply existsb_exists in H. destruct H as (row' & Hrow' & He). apply Nat.eqb_eq in He.
  destruct (drops_origin _ _ _ _ Hdrops Hrow') as (row & _ & Hc & Hnk).
  destruct (same_core_fields _ _ Hc) as (Hidr & _).
  apply Hnk. rewrite <- Hidr, He. exact Hk.
Qed.

(** * Part XVIII: the lookups of the reconciler *)

(** X10. [find_related_interface]: an interface it finds is a row of the
    store, has the related MAC address when one is given, is of the node
    when only own interfaces are wanted, and is a physical interface or a
    bridge with the related name; without a MAC address it is a physical
    interface, and the related name plays no part. *)
Theorem X10_related_interface
    (d : Store) (node : Node) (own_interface : bool)
    (related_ifname related_mac : option string) (i : Interface) :
  find_related_interface d node own_interface related_ifname related_mac = Some i ->
  In i (interfaces d)
  /\ (forall mac, related_mac = Some mac -> if_mac_address i = mac)
  /\ (own_interface = true -> if_node_id i = node_id node)
  /\ (is_type INTERFACE_TYPE.PHYSICAL i = true
      \/ (is_type INTERFACE_TYPE.BRIDGE i = true
          /\ option_string_is related_ifname (if_name i) = true))
  /\ (related_mac = None ->
      is_type INTERFACE_TYPE.PHYSICAL i = true
      /\ forall other_ifname,
           find_related_interface d node own_interface other_ifname None = Some i).
Proof.
  unfold find_related_interface. cbv zeta. intros H.
  destruct related_mac as [mac|].
  - match type of H with
    | match ?x with _ => _ end = _ => destruct x as [p|] eqn:Hp
    end.
    + rewrite H in Hp. clear H.
      apply first_by_some in Hp. destruct Hp as [Hin _].
      apply filter_In in Hin. destruct Hin as [Hin Hf].
      apply andb_true_iff in Hf. destruct Hf as [Hty Hf].
      apply andb_true_iff in Hf. destruct Hf as [Hm Hn].
      split; [exact Hin|]. split; [|split; [|split; [left; exact Hty | discriminate]]].
      * intros m Hm'. inversion Hm'; subst. apply String.eqb_eq. exact Hm.
      * intros ->. apply Nat.eqb_eq. exact Hn.
    + apply first_by_some in H. destruct H as [Hin _].
      apply filter_In in Hin. destruct Hin as [Hin Hf].
      apply andb_true_iff in Hf. destruct Hf as [Hf Hnm].
      apply andb_true_iff in Hf. destruct Hf as [Hty Hf].
      apply andb_true_iff in Hf. destruct Hf as [Hm Hn].
      split; [exact Hin|]. split; [|split; [|split; [right; auto | discriminate]]].
      * intros m Hm'. inversion Hm'; subst. apply String.eqb_eq. exact Hm.
      * intros ->. apply Nat.eqb_eq. exact Hn.
  - assert (Hf : first_by if_id
                   (filter (fun i => is_type INTERFACE_TYPE.PHYSICAL i
                                     && (true && (if own_interface
                                                  then if_node_id i =? node_id node
                                                  else true)))
                           (interfaces d)) = Some i).
    { revert H.
      destruct (first_by if_id
                  (filter (fun i => is_type INTERFACE_TYPE.PHYSICAL i
                                    && (true && (if own_interface
                                                 then if_node_id i =? node_id node
                                                 else true)))
                          (interfaces d))); auto. }
    pose proof Hf as Hp.
    apply first_by_some in Hp. destruct Hp as [Hin _].
    apply filter_In in Hin. destruct Hin as [Hin Hc].
    apply andb_true_iff in Hc. destruct Hc as [Hty Hc]. simpl in Hc.
    split; [exact Hin|]. split; [discriminate|]. split; [|split; [left; exact Hty|]].
    + intros ->. apply Nat.eqb_eq. exact Hc.
    + intros _. split; [exact Hty|]. intros other. rewrite Hf. reflexivity.
Qed.

Lemma link_cidrs_In (links : list link) (c : IPNetwork) :
  In c (link_cidrs links)
  <-> exists l n, In l links /\ link_has_cidr l = true /\ link_address l = Some n
                  /\ c = cidr n.
Proof.
  unfold link_cidrs. rewrite in_flat_map. split.
  - intros (l & Hl & Hc). destruct (link_has_cidr l) eqn:Hh; [|contradiction].
    destruct (link_address l) as [n|] eqn:Ha; [|contradiction].
    destruct Hc as [<-|[]]. exists l, n. auto.
  - intros (l & n & Hl & Hh & Ha & ->). exists l. split; [exact Hl|].
    rewrite Hh, Ha. left. reflexivity.
Qed.

Lemma IPNetwork_eqb_eq (a b : IPNetwork) : IPNetwork_eqb a b = true <-> a = b.
Proof.
  unfold IPNetwork_eqb, IPAddress_eqb. rewrite !andb_true_iff, !Z.eqb_eq.
  destruct a as [[av ai] ap], b as [[bv bi] bp]. simpl. split.
  - intros [[-> ->] ->]. reflexivity.
  - intros H. inversion H. auto.
Qed.

Lemma get_interface_vlan_from_links_none (d : Store) (node : Node) (links : list link) :
  (forall l, In l links -> link_has_cidr l = false) ->
  get_interface_vlan_from_links d node links = None.
Proof.
  intros Hnone. unfold get_interface_vlan_from_links.
  assert (Hc : link_cidrs links = []).
  { destruct (link_cidrs links) as [|c r] eqn:He; [reflexivity|]. exfalso.
    assert (Hin : In c (link_cidrs links)) by (rewrite He; left; reflexivity).
    apply link_cidrs_In in Hin. destruct Hin as (l & n & Hl & Hh & _).
    rewrite (Hnone l Hl) in Hh. discriminate. }
  rewrite Hc. rewrite filter_none; [reflexivity|].
  intros v _. apply not_true_is_false. intros H. apply existsb_exists in H.
  destruct H as (x & _ & H). apply andb_true_iff in H. destruct H as [_ H]. discriminate.
Qed.

(** X11. [get_interface_vlan_from_links]: it finds no VLAN when no link is
    static or dhcp with an address; a VLAN it finds is a row of the store
    with a subnet on it whose CIDR is that of such a link, and has the
    least key of these. *)
Theorem X11_vlan_from_links (d : Store) (node : Node) (links : list link) :
  ((forall l, In l links -> link_has_cidr l = false) ->
   get_interface_vlan_from_links d node links = None)
  /\ (forall v, get_interface_vlan_from_links d node links = Some v ->
        In v (vlans d)
        /\ (exists subnet l n,
               In subnet (subnets d) /\ subnet_vlan_id subnet = vlan_id v
               /\ In l links /\ link_has_cidr l = true /\ link_address l = Some n
               /\ subnet_cidr subnet = cidr n)
        /\ (forall v' subnet l n,
               In v' (vlans d) -> In subnet (subnets d) ->
               subnet_vlan_id subnet = vlan_id v' ->
               In l links -> link_has_cidr l = true -> link_address l = Some n ->
               subnet_cidr subnet = cidr n ->
               vlan_id v <= vlan_id v')).
Proof.
  split; [apply get_interface_vlan_from_links_none|].
  unfold get_interface_vlan_from_links.
  - intros v H. apply first_by_some in H. destruct H as [Hin Hmin].
    apply filter_In in Hin. destruct Hin as [Hin Hs]. split; [exact Hin|]. split.
    + apply existsb_exists in Hs. destruct Hs as (subnet & Hsub & Hs).
      apply andb_true_iff in Hs. destruct Hs as [Hv Hc]. apply Nat.eqb_eq in Hv.
      apply existsb_exists in Hc. destruct Hc as (c & Hc & He).
      apply IPNetwork_eqb_eq in He. apply link_cidrs_In in Hc.
      destruct Hc as (l & n & Hl & Hh & Ha & ->).
      exists subnet, l, n. auto 10.
    + intros v' subnet l n Hv' Hsub Hsv Hl Hh Ha Hc. apply Hmin.
      apply filter_In. split; [exact Hv'|].
      apply existsb_exists. exists subnet. split; [exact Hsub|].
      apply andb_true_iff. split; [apply Nat.eqb_eq; exact Hsv|].
      apply existsb_exists. exists (cidr n). split.
      * apply link_cidrs_In. exists l, n. auto.
      * apply IPNetwork_eqb_eq. exact Hc.
Qed.

(** * Part XIX: VLAN interfaces, bonds and bridges *)

Lemma vlan_of_inv (attribute : string) (i : Interface) (s s' : State) (pv : VLAN) :
  vlan_of attribute i s = (Ok pv, s') ->
  s' = s /\ if_vlan_id i = Some (vlan_id pv) /\ In pv (vlans (db s)).
Proof.
  unfold vlan_of, vlan_row. destruct (if_vlan_id i) as [k|]; [|discriminate].
  rewrite bind_run, query_run.
  destruct (find_id vlan_id k (vlans (db s))) as [v|] eqn:Hf; [|discriminate].
  rewrite ret_run. intros H. inversion H; subst. clear H.
  pose proof (find_id_id _ _ _ _ _ Hf) as Hk.
  unfold find_id in Hf. apply find_some in Hf. destruct Hf as [Hin _].
  rewrite Hk. auto.
Qed.

Lemma VLAN_get_or_create_inv (fabric vid : nat) (s s' : State) (v : VLAN) (created : bool) :
  VLAN_get_or_create fabric vid s = (Ok (v, created), s') ->
  vlan_fabric_id v = fabric /\ vlan_vid v = vid /\ In v (vlans (db s'))
  /\ interfaces (db s') = interfaces (db s).
Proof.
  unfold VLAN_get_or_create. rewrite bind_run, query_run.
  destruct (filter (fun v => (vlan_fabric_id v =? fabric) && (vlan_vid v =? vid))
                   (vlans (db s))) as [|x [|y r]] eqn:Hf; [| |discriminate].
  - unfold fresh_id, VLAN_insert, modify, emit. rewrite !bind_run, ret_run.
    intros H. inversion H; subst. clear H. simpl. repeat split.
    apply in_app_iff. right. left. reflexivity.
  - rewrite ret_run. intros H. inversion H; subst. clear H.
    destruct (filter_singleton _ _ _ _ Hf) as (Hin & Hp & _).
    apply andb_true_iff in Hp. destruct Hp as [Hfa Hvi].
    apply Nat.eqb_eq in Hfa, Hvi. auto.
Qed.

Lemma existsb_eqb_In (k : nat) (l : list nat) :
  existsb (Nat.eqb k) l = true <-> In k l.
Proof.
  rewrite existsb_exists. split.
  - intros (x & Hx & He). apply Nat.eqb_eq in He. subst. exact Hx.
  - intros H. exists k. split; [exact H | apply Nat.eqb_refl].
Qed.

Lemma Interface_save_inv (i : Interface) (s s' : State) :
  Interface_save i s = (Ok tt, s') ->
  In i (interfaces (db s')) /\ vlans (db s') = vlans (db s).
Proof.
  destruct (Interface_save_run i s) as [ws Hrun]. rewrite Hrun.
  intros H. inversion H; subst. clear H. simpl. split; [|reflexivity].
  apply (upsert_In _ if_id).
Qed.

Lemma VLANInterface_get_or_create_inv (node : Node) (name : string) (parent_nic : Interface)
    (vlan : VLAN) (s s' : State) (i : Interface) (created : bool) :
  VLANInterface_get_or_create node name parent_nic vlan s = (Ok (i, created), s') ->
  In i (interfaces (db s'))
  /\ is_type INTERFACE_TYPE.VLAN i = true
  /\ if_node_id i = node_id node
  /\ if_name i = name
  /\ In (if_id parent_nic) (if_parents i)
  /\ if_vlan_id i = Some (vlan_id vlan)
  /\ vlans (db s') = vlans (db s).
Proof.
  unfold VLANInterface_get_or_create. rewrite bind_run, query_run.
  match goal with
  | |- context [filter ?p (interfaces (db s))] =>
      destruct (filter p (interfaces (db s))) as [|x [|y r]] eqn:Hf
  end; [| |discriminate].
  - unfold fresh_id. rewrite !bind_run.
    match goal with
    | |- context [Interface_save ?j ?t] =>
        destruct (Interface_save j t) as [[[]|e] s1] eqn:Hsave; [|discriminate]
    end.
    rewrite ret_run. intros H. inversion H; subst. clear H.
    destruct (Interface_save_inv _ _ _ Hsave) as [Hin Hv].
    split; [exact Hin|]. simpl. simpl in Hv. repeat split; auto.
  - rewrite ret_run. intros H. inversion H; subst. clear H.
    destruct (filter_singleton _ _ _ _ Hf) as (Hin & Hp & _).
    apply andb_true_iff in Hp. destruct Hp as [Hp Hvl].
    apply andb_true_iff in Hp. destruct Hp as [Hp Hpar].
    apply andb_true_iff in Hp. destruct Hp as [Hp Hnm].
    apply andb_true_iff in Hp. destruct Hp as [Hty Hnd].
    split; [exact Hin|]. split; [exact Hty|]. split; [apply Nat.eqb_eq; exact Hnd|].
    split; [apply String.eqb_eq; exact Hnm|]. split; [apply existsb_eqb_In; exact Hpar|].
    split; [apply option_nat_eqb_eq; exact Hvl | reflexivity].
Qed.

Lemma keeps_vlans_update_links_nil (node : Node) (interface : Interface)
    (force_vlan use_interface_vlan : bool) :
  preserves (keeps vlans) (update_links node interface [] force_vlan use_interface_vlan).
Proof.
  unfold update_links, unlink_ip_address. cbn [for_each].
  keeps_structure;
    try (apply keeps_StaticIPAddress_delete; intros y d; reflexivity);
    try (apply keeps_ip_addresses_remove; intros y d; reflexivity).
Qed.

(** X12. [update_vlan_interface] needs the parent interface, with its
    VLAN: when the node has no interface with the parent's name it raises
    [DoesNotExist], and when the parent has no VLAN it raises
    [AttributeError], each time before anything is written.  The attribute
    the error names is [fabric_id] when the links give a VLAN, which is
    then compared with the parent's, and [fabric] when they give none and
    the VLAN is looked for on the parent's fabric. *)
Theorem X12_vlan_interface_needs_its_parent
    (node : Node) (name : string) (cfg : config) (vid : nat) (p : string) (rest : list string)
    (s : State) :
  config_vid cfg = Some vid ->
  config_parents cfg = p :: rest ->
  (filter (fun i => (if_node_id i =? node_id node) && String.eqb (if_name i) p)
          (interfaces (db s)) = [] ->
   update_vlan_interface node name cfg s = (Raise (DoesNotExist "Interface"), s))
  /\ (forall parent,
        filter (fun i => (if_node_id i =? node_id node) && String.eqb (if_name i) p)
               (interfaces (db s)) = [parent] ->
        if_vlan_id parent = None ->
        update_vlan_interface node name cfg s
        = (Raise (AttributeError
                    match get_interface_vlan_from_links (db s) node (config_links cfg) with
                    | Some _ => "'NoneType' object has no attribute 'fabric_id'"
                    | None => "'NoneType' object has no attribute 'fabric'"
                    end), s)).
Proof.
  intros Hvid Hpar. unfold update_vlan_interface, vlan_interface_for. rewrite Hvid, Hpar.
  rewrite bind_run. rewrite bind_run, ret_run. cbv beta iota.
  rewrite bind_run, ret_run. cbv beta iota.
  rewrite bind_run, query_result_run. split.
  - intros ->. reflexivity.
  - intros parent -> Hnone. cbn [exactly_one].
    rewrite bind_run, query_run.
    destruct (get_interface_vlan_from_links (db s) node (config_links cfg));
      rewrite !bind_run; unfold vlan_of; rewrite Hnone; reflexivity.
Qed.

(** X13. [update_vlan_interface] for a VLAN interface without links: when
    it goes through, the node has the parent interface, on a VLAN, and the
    interface handed back is a row of the store, a VLAN interface of the
    node with the name, over the parent, on a VLAN that has the desired tag
    and is on the parent's fabric. *)
Theorem X13_vlan_interface_on_the_parent_fabric
    (node : Node) (name : string) (cfg : config) (s s' : State) (i : Interface) :
  config_links cfg = [] ->
  update_vlan_interface node name cfg s = (Ok i, s') ->
  exists vid p rest parent pv v,
    config_vid cfg = Some vid /\ config_parents cfg = p :: rest
    /\ In parent (interfaces (db s)) /\ if_node_id parent = node_id node /\ if_name parent = p
    /\ In pv (vlans (db s)) /\ if_vlan_id parent = Some (vlan_id pv)
    /\ In v (vlans (db s')) /\ vlan_vid v = vid /\ vlan_fabric_id v = vlan_fabric_id pv
    /\ In i (interfaces (db s')) /\ if_vlan_id i = Some (vlan_id v)
    /\ is_type INTERFACE_TYPE.VLAN i = true /\ if_node_id i = node_id node
    /\ if_name i = name /\ In (if_id parent) (if_parents i).
Proof.
  intros Hlinks Hrun. unfold update_vlan_interface in Hrun. rewrite Hlinks in Hrun.
  apply bind_inv in Hrun. destruct Hrun as (found & sf & H & Hrun).
  unfold vlan_interface_for in H. rewrite Hlinks in H.
  destruct (config_vid cfg) as [vid|] eqn:Hvid; [|rewrite bind_run in H; discriminate].
  rewrite bind_run, ret_run in H. cbv beta iota in H.
  destruct (config_parents cfg) as [|p rest] eqn:Hpar; [rewrite bind_run in H; discriminate|].
  rewrite bind_run, ret_run in H. cbv beta iota in H.
  apply bind_inv in H. destruct H as (parent & s0 & Hparent & H).
  rewrite query_result_run in Hparent.
  match type of Hparent with
  | (exactly_one _ (filter ?q _), _) = _ =>
      destruct (filter q (interfaces (db s))) as [|x [|y r]] eqn:Hf
  end; try discriminate.
  cbn [exactly_one] in Hparent. inversion Hparent; subst x s0. clear Hparent.
  destruct (filter_singleton _ _ _ _ Hf) as (Hpin & Hpp & _).
  apply andb_true_iff in Hpp. destruct Hpp as [Hpnode Hpname].
  apply Nat.eqb_eq in Hpnode. apply String.eqb_eq in Hpname.
  rewrite bind_run, query_run in H.
  rewrite get_interface_vlan_from_links_none in H by (intros l []).
  apply bind_inv in H. destruct H as (v & s1 & Hvlan & H).
  apply bind_inv in Hvlan. destruct Hvlan as (pv & s0 & Hpv & Hvlan).
  destruct (vlan_of_inv _ _ _ _ _ Hpv) as (-> & Hpvlan & Hpvin).
  apply bind_inv in Hvlan. destruct Hvlan as ([v0 c] & s2 & Hgc & Hvlan).
  rewrite ret_run in Hvlan. inversion Hvlan; subst v0 s2. clear Hvlan.
  destruct (VLAN_get_or_create_inv _ _ _ _ _ _ Hgc) as (Hvf & Hvv & Hvin & Hi1).
  apply bind_inv in H. destruct H as (existing & sx & Hex & H).
  rewrite query_run in Hex. inversion Hex as [[Hexisting Hsx]]. subst sx. clear Hex.
  rename H into Hi, found into i1, sf into s2.
  assert (Hi1' : In i1 (interfaces (db s2))
                 /\ is_type INTERFACE_TYPE.VLAN i1 = true
                 /\ if_node_id i1 = node_id node /\ if_name i1 = name
                 /\ In (if_id parent) (if_parents i1)
                 /\ if_vlan_id i1 = Some (vlan_id v)
                 /\ vlans (db s2) = vlans (db s1)).
  { destruct existing as [e|].
    - apply first_by_some in Hexisting. destruct Hexisting as [Hein _].
      apply filter_In in Hein. destruct Hein as [Hein Hp].
      apply andb_true_iff in Hp. destruct Hp as [Hp _].
      apply andb_true_iff in Hp. destruct Hp as [Hp Hepar].
      apply andb_true_iff in Hp. destruct Hp as [Hp Henm].
      apply andb_true_iff in Hp. destruct Hp as [Hety Hend].
      apply Nat.eqb_eq in Hend. apply String.eqb_eq in Henm. apply existsb_eqb_In in Hepar.
      destruct (negb (option_nat_eqb (if_vlan_id e) (Some (vlan_id v)))) eqn:Hd.
      + apply bind_inv in Hi. destruct Hi as ([] & s3 & Hsave & Hi).
        rewrite ret_run in Hi. inversion Hi; subst i1 s3. clear Hi.
        destruct (Interface_save_inv _ _ _ Hsave) as [Hin Hv]. auto 10.
      + rewrite ret_run in Hi. inversion Hi; subst i1 s2. clear Hi.
        apply negb_false_iff, option_nat_eqb_eq in Hd. auto 10.
    - apply bind_inv in Hi. destruct Hi as ([i0 c0] & s3 & Hgi & Hi).
      rewrite ret_run in Hi. inversion Hi; subst i0 s3. clear Hi.
      apply (VLANInterface_get_or_create_inv _ _ _ _ _ _ _ _ Hgi). }
  destruct Hi1' as (Hin1 & Hty1 & Hnd1 & Hnm1 & Hpar1 & Hvl1 & Hvs2).
  apply bind_inv in Hrun. destruct Hrun as ([i2 upd] & s3 & Hul & H).
  rewrite ret_run in H. inversion H; subst i2 s3. clear H.
  pose proof (keeps_vlans_update_links_nil _ _ _ _ _ _ _ Hul) as Hkv. unfold keeps in Hkv.
  destruct (update_links_clears node i1 true true s2) as (s3 & Hul' & _ & Hi3 & _).
  rewrite Hul' in Hul. inversion Hul; subst i upd s3. clear Hul Hul'.
  exists vid, p, rest, parent, pv, v.
  repeat split; auto; congruence.
Qed.

Lemma INTERFACE_TYPE_eqb_refl (t : INTERFACE_TYPE.t) : INTERFACE_TYPE.eqb t t = true.
Proof. destruct t; reflexivity. Qed.

Lemma Interface_save_keeps (i : Interface) (s s' : State) :
  Interface_save i s = (Ok tt, s') ->
  In i (interfaces (db s')) /\ fabrics (db s') = fabrics (db s) /\ vlans (db s') = vlans (db s).
Proof.
  destruct (Interface_save_run i s) as [ws Hrun]. rewrite Hrun.
  intros H. inversion H; subst. clear H. simpl. split; [|auto].
  apply (upsert_In _ if_id).
Qed.

Lemma get_or_create_on_node_inv (child_type : INTERFACE_TYPE.t) (node : Node) (name : string)
    (mac_address : string) (parent_nics : list Interface) (s s' : State) (j : Interface) :
  get_or_create_on_node child_type node name mac_address parent_nics s = (Ok j, s') ->
  In j (interfaces (db s'))
  /\ is_type child_type j = true
  /\ if_node_id j = node_id node
  /\ if_name j = name
  /\ if_mac_address j = mac_address
  /\ if_parents j = map if_id parent_nics
  /\ fabrics (db s') = fabrics (db s)
  /\ vlans (db s') = vlans (db s).
Proof.
  unfold get_or_create_on_node. rewrite bind_run, query_run.
  match goal with
  | |- context [first_by if_id ?l] => destruct (first_by if_id l) as [i0|] eqn:Hf
  end.
  - rewrite bind_run.
    match goal with
    | |- context [Interface_save ?x ?t] =>
        destruct (Interface_save x t) as [[[]|e] s1] eqn:Hsave; [|discriminate]
    end.
    rewrite ret_run. intros H. inversion H; subst. clear H.
    destruct (Interface_save_keeps _ _ _ Hsave) as (Hin & Hfa & Hvl).
    apply first_by_some in Hf. destruct Hf as [Hi0 _].
    apply filter_In in Hi0. destruct Hi0 as [_ Hp].
    apply andb_true_iff in Hp. destruct Hp as [Hp Hnm].
    apply andb_true_iff in Hp. destruct Hp as [Hty Hnd].
    apply Nat.eqb_eq in Hnd. apply String.eqb_eq in Hnm.
    split; [exact Hin|]. simpl. auto 10.
  - unfold fresh_id. rewrite !bind_run.
    match goal with
    | |- context [Interface_save ?x ?t] =>
        destruct (Interface_save x t) as [[[]|e] s1] eqn:Hsave; [|discriminate]
    end.
    rewrite ret_run. intros H. inversion H; subst. clear H.
    destruct (Interface_save_keeps _ _ _ Hsave) as (Hin & Hfa & Hvl).
    split; [exact Hin|]. unfold is_type. simpl. simpl in Hfa, Hvl.
    rewrite INTERFACE_TYPE_eqb_refl. auto 10.
Qed.

Lemma get_or_create_on_node_total (child_type : INTERFACE_TYPE.t) (node : Node)
    (name : string) (mac_address : string) (parent_nics : list Interface) (s : State) :
  exists j s', get_or_create_on_node child_type node name mac_address parent_nics s = (Ok j, s').
Proof.
  unfold get_or_create_on_node. rewrite bind_run, query_run.
  match goal with
  | |- context [first_by if_id ?l] => destruct (first_by if_id l)
  end; unfold fresh_id, Interface_save, bind, query, modify, emit, ret; simpl; eauto.
Qed.

Lemma keeps_fabrics_update_links_nil (node : Node) (interface : Interface)
    (force_vlan use_interface_vlan : bool) :
  preserves (keeps (fun d => (fabrics d, vlans d)))
            (update_links node interface [] force_vlan use_interface_vlan).
Proof.
  unfold update_links, unlink_ip_address. cbn [for_each].
  keeps_structure;
    try (apply keeps_StaticIPAddress_delete; intros y d; reflexivity);
    try (apply keeps_ip_addresses_remove; intros y d; reflexivity).
Qed.

(** X14. A bond whose parents are not interfaces of the node is not
    modelled: [update_bond_interface] hands back [None] and writes nothing.
    A bridge is the exception: without parents, and without links,
    [update_bridge_interface] still hands back an interface, a row of the
    store that is a bridge of the node under the name, with the MAC address
    and no parents; it creates no fabric and no VLAN for it. *)
Theorem X14_bond_without_parents_is_skipped
    (node : Node) (name : string) (cfg : config) (s : State) :
  get_interfaces_on_node_by_name (db s) node (config_parents cfg) = [] ->
  update_bond_interface node name cfg s = (Ok None, s)
  /\ (config_links cfg = [] ->
      forall r s', update_bridge_interface node name cfg s = (r, s') ->
      exists i,
        r = Ok (Some i)
        /\ In i (interfaces (db s'))
        /\ is_type INTERFACE_TYPE.BRIDGE i = true
        /\ if_node_id i = node_id node /\ if_name i = name
        /\ if_mac_address i = config_mac_address cfg /\ if_parents i = []
        /\ fabrics (db s') = fabrics (db s) /\ vlans (db s') = vlans (db s)).
Proof.
  intros Hnone. split.
  - unfold update_bond_interface, update_child_interface.
    rewrite bind_run, query_run, Hnone. reflexivity.
  - intros Hlinks r s' H.
    unfold update_bridge_interface, update_child_interface in H.
    rewrite bind_run, query_run, Hnone, Hlinks in H. cbn [length Nat.eqb andb negb] in H.
    cbn [INTERFACE_TYPE.eqb negb andb] in H.
    rewrite bind_run in H.
    destruct (get_or_create_on_node INTERFACE_TYPE.BRIDGE node name (config_mac_address cfg)
                [] s) as [[j|e] s1] eqn:Hj.
    + destruct (get_or_create_on_node_inv _ _ _ _ _ _ _ _ Hj)
        as (Hin & Hty & Hnd & Hnm & Hmac & Hpar & Hfa & Hvl).
      unfold configure_vlan_from_links in H.
      rewrite bind_run, bind_run, query_run in H.
      rewrite get_interface_vlan_from_links_none in H by (intros l []).
      rewrite ret_run in H. cbv beta iota in H.
      rewrite bind_run in H.
      pose proof (keeps_fabrics_update_links_nil node j false false) as Hk.
      destruct (update_links_clears node j false false s1) as (s2 & Hul & _ & Hi2 & _).
      specialize (Hk _ _ _ Hul). unfold keeps in Hk. inversion Hk as [[Hf2 Hv2]].
      rewrite Hul in H. cbv beta iota in H.
      unfold update_parent_vlans in H. rewrite bind_run, bind_run, query_result_run in H.
      cbn [guess_best_vlan_from_ip_addresses guess_best_vlan_loop] in H.
      rewrite ret_run in H. cbv beta iota in H. rewrite ret_run in H.
      inversion H; subst. clear H.
      exists j. rewrite Hi2. simpl in Hpar. repeat split; auto; congruence.
    + exfalso.
      destruct (get_or_create_on_node_total INTERFACE_TYPE.BRIDGE node name
                  (config_mac_address cfg) [] s) as (j & s2 & Hok).
      rewrite Hok in Hj. discriminate.
Qed.

(** X15. A bond or bridge without links takes the VLAN of its first
    parent: when [update_child_interface] goes through with parents found
    on the node, the interface handed back is a row of the store of the
    child's type, on the node, under the name, over all the parents found,
    and on the VLAN of the first of them. *)
Theorem X15_child_takes_the_vlan_of_its_first_parent
    (node : Node) (name : string) (cfg : config) (child_type : INTERFACE_TYPE.t)
    (parent : Interface) (others : list Interface) (s s' : State) (r : option Interface) :
  config_links cfg = [] ->
  get_interfaces_on_node_by_name (db s) node (config_parents cfg) = parent :: others ->
  update_child_interface node name cfg child_type s = (Ok r, s') ->
  exists i,
    r = Some i
    /\ In i (interfaces (db s'))
    /\ is_type child_type i = true
    /\ if_node_id i = node_id node /\ if_name i = name
    /\ if_parents i = map if_id (parent :: others)
    /\ if_vlan_id i = if_vlan_id parent.
Proof.
  intros Hlinks Hparents H. unfold update_child_interface in H.
  rewrite bind_run, query_run, Hparents, Hlinks in H. cbn [length Nat.eqb andb] in H.
  apply bind_inv in H. destruct H as (j & s1 & Hj & H).
  destruct (get_or_create_on_node_inv _ _ _ _ _ _ _ _ Hj)
    as (Hin & Hty & Hnd & Hnm & Hmac & Hpar & _).
  apply bind_inv in H. destruct H as ([j1 found] & s2 & Hconf & H).
  unfold configure_vlan_from_links in Hconf. rewrite bind_run, query_run in Hconf.
  rewrite get_interface_vlan_from_links_none in Hconf by (intros l []).
  apply bind_inv in Hconf. destruct Hconf as ([] & s3 & Hsave & Hconf).
  rewrite ret_run in Hconf. inversion Hconf; subst j1 found s3. clear Hconf.
  destruct (Interface_save_keeps _ _ _ Hsave) as (Hin2 & _).
  apply bind_inv in H. destruct H as ([j2 upd] & s3 & Hul & H).
  destruct (update_links_clears node (with_vlan (if_vlan_id parent) j) false true s2)
    as (s3' & Hul' & _ & Hi3 & _).
  rewrite Hul' in Hul. inversion Hul; subst j2 upd s3'. clear Hul Hul'.
  unfold update_parent_vlans in H. rewrite bind_run, bind_run, query_result_run in H.
  cbn [guess_best_vlan_from_ip_addresses guess_best_vlan_loop] in H.
  rewrite ret_run in H. cbv beta iota in H. rewrite ret_run in H.
  inversion H; subst. clear H.
  exists (with_vlan (if_vlan_id parent) j). rewrite Hi3. repeat split; auto.
Qed.

(** * Part XX: the VLAN of a new interface, and DHCP links *)

(** X16. [guess_vlan_for_interface]: when the links name a subnet of the
    store, it hands back that subnet's VLAN and writes nothing; and however
    it finds a VLAN, when it goes through it has found one, and it has left
    the interfaces, the nodes and the links as they are and created no
    address. *)
Theorem X16_a_vlan_is_always_guessed
    (node : Node) (cfg : config) (s s' : State) (r : option nat) :
  guess_vlan_for_interface node cfg s = (Ok r, s') ->
  r <> None
  /\ interfaces (db s') = interfaces (db s)
  /\ nodes (db s') = nodes (db s)
  /\ links (db s') = links (db s)
  /\ addresses (db s') = addresses (db s)
  /\ (forall v, get_interface_vlan_from_links (db s) node (config_links cfg) = Some v ->
        r = Some (vlan_id v) /\ s' = s).
Proof.
  intros H. split; [apply (guess_vlan_for_interface_some _ _ _ _ _ H)|].
  assert (Hk : preserves (keeps (fun d => (interfaces d, nodes d, links d, addresses d)))
                         (guess_vlan_for_interface node cfg)).
  { unfold guess_vlan_for_interface. keeps_structure.
    - apply keeps_VLAN_get_default_vlan; intros y d; reflexivity.
    - apply keeps_Fabric_create; intros y d; reflexivity.
    - apply keeps_Fabric_get_default_vlan. }
  specialize (Hk _ _ _ H). unfold keeps in Hk. inversion Hk as [[Hi Hn Hl Ha]].
  repeat split; auto.
  - unfold guess_vlan_for_interface in H. rewrite bind_run, query_run, H0 in H.
    rewrite ret_run in H. inversion H. reflexivity.
  - unfold guess_vlan_for_interface in H. rewrite bind_run, query_run, H0 in H.
    rewrite ret_run in H. inversion H. reflexivity.
Qed.

Lemma ip_addresses_add_linked (i a : nat) (s : State) :
  linked (db s) i a = true -> ip_addresses_add i a s = (Ok tt, s).
Proof.
  intros H. unfold ip_addresses_add. rewrite bind_run, query_run, H. reflexivity.
Qed.

(** X17. A dhcp link without an address, on an interface that has a
    VLAN: when the interface's only address is a DHCP one, [update_links]
    hands it back as the updated address and changes and writes nothing;
    when the interface has no address, [update_links] creates one DHCP
    address without IP and without subnet, saves it once more, and links it
    to the interface. *)
Theorem X17_dhcp_link_without_address
    (node : Node) (interface : Interface) (v : nat) (force_vlan : bool) (l : link) (s : State) :
  if_vlan_id interface = Some v ->
  link_mode l = "dhcp"%string ->
  link_address l = None ->
  (forall a,
      ip_addresses_all (if_id interface) (db s) = [a] ->
      sip_alloc_type a = IPADDRESS_TYPE.DHCP ->
      update_links node interface [l] force_vlan true s = (Ok (interface, [a]), s))
  /\ (ip_addresses_all (if_id interface) (db s) = [] ->
      has_id sip_id (next_id (db s)) (addresses (db s)) = false ->
      linked (db s) (if_id interface) (next_id (db s)) = false ->
      let a := mkStaticIPAddress (next_id (db s)) IPADDRESS_TYPE.DHCP None None in
      exists s',
        update_links node interface [l] force_vlan true s = (Ok (interface, [a]), s')
        /\ addresses (db s') = addresses (db s) ++ [a]
        /\ links (db s') = links (db s) ++ [(if_id interface, sip_id a)]
        /\ interfaces (db s') = interfaces (db s)
        /\ writes s' = writes s ++ [Insert TStaticIPAddress (sip_id a);
                                    Update TStaticIPAddress (sip_id a);
                                    Link (if_id interface) (sip_id a)]).
Proof.
  intros Hvlan Hmode Haddr. split.
  - intros a Hcur Hty.
    unfold update_links. rewrite bind_run, query_run, Hcur.
    assert (Hd : filter (is_alloc_type IPADDRESS_TYPE.DISCOVERED) [a] = []).
    { simpl. unfold is_alloc_type. rewrite Hty. reflexivity. }
    rewrite Hd. unfold delete_all. cbn [for_each]. rewrite bind_run, ret_run.
    rewrite bind_run, query_run, Hcur. rewrite Hvlan. rewrite bind_run, ret_run.
    cbv beta iota. rewrite bind_run. cbn [for_each]. rewrite bind_run.
    unfold update_link. rewrite Hmode. cbn [String.eqb Ascii.eqb Bool.eqb].
    unfold update_link_dhcp, get_alloc_type_from_ip_addresses. cbn [find].
    unfold is_alloc_type at 1. rewrite Hty. cbn [IPADDRESS_TYPE.eqb].
    rewrite bind_run, ret_run. cbv beta iota. rewrite Haddr, ret_run.
    cbn [remove_first]. rewrite Nat.eqb_refl. rewrite ret_run. cbv beta iota.
    rewrite bind_run. cbn [for_each]. rewrite !ret_run. reflexivity.
  - intros Hcur Hfresh Hunlinked a.
    unfold update_links. rewrite bind_run, query_run, Hcur.
    cbn [filter]. unfold delete_all. cbn [for_each]. rewrite bind_run, ret_run.
    rewrite bind_run, query_run, Hcur. rewrite Hvlan. rewrite bind_run, ret_run.
    cbv beta iota. rewrite bind_run. cbn [for_each]. rewrite bind_run.
    unfold update_link. rewrite Hmode. cbn [String.eqb Ascii.eqb Bool.eqb].
    unfold update_link_dhcp, get_alloc_type_from_ip_addresses. cbn [find].
    rewrite Haddr.
    unfold StaticIPAddress_create, StaticIPAddress_save, ip_addresses_add, fresh_id.
    unfold bind, query, modify, emit, ret, when. simpl.
    rewrite Hfresh. simpl. fold a.
    match goal with
    | |- context [linked ?d (if_id interface) (next_id (db s))] =>
        change (linked d (if_id interface) (next_id (db s)))
          with (linked (db s) (if_id interface) (next_id (db s)))
    end.
    rewrite Hunlinked. cbn [negb].
    assert (Hup1 : upsert sip_id a (addresses (db s)) = addresses (db s) ++ [a]).
    { unfold upsert. simpl sip_id. rewrite Hfresh. reflexivity. }
    rewrite Hup1.
    assert (Hh : has_id sip_id (next_id (db s)) (addresses (db s) ++ [a]) = true).
    { unfold has_id. rewrite existsb_app. simpl. rewrite Nat.eqb_refl. apply orb_true_r. }
    rewrite Hh.
    assert (Hup2 : upsert sip_id a (addresses (db s) ++ [a]) = addresses (db s) ++ [a]).
    { apply upsert_same.
      - apply in_app_iff. right. left. reflexivity.
      - intros y Hy He. apply in_app_iff in Hy. destruct Hy as [Hy|[<-|[]]]; [|reflexivity].
        exfalso. simpl in He. rewrite <- He, (has_id_In _ sip_id _ _ Hy) in Hfresh.
        discriminate. }
    rewrite Hup2. simpl. eexists. split; [reflexivity|]. simpl.
    repeat split. rewrite <- !app_assoc. reflexivity.
Qed.

(** * Part XX-b: the MAC addresses [mac_re] matches *)

Lemma octet_colon_here (b : bool) (s : string) (p : bool * string) :
  match_here octet_colon (b, s) = Some p
  <-> exists x y rest, s = String x (String y (String ":" rest))
                       /\ is_hex x = true /\ is_hex y = true /\ p = (false, rest).
Proof.
  unfold octet_colon, hex_digit. cbn [match_here iterate]. split.
  - destruct s as [|x s]; [discriminate|]. fold (is_hex x).
    destruct (is_hex x) eqn:Hx; [|discriminate].
    destruct s as [|y s]; [discriminate|]. fold (is_hex y).
    destruct (is_hex y) eqn:Hy; [|discriminate].
    destruct s as [|c s]; [discriminate|].
    destruct (Ascii.eqb_spec c ":"%char) as [->|]; [|discriminate].
    intros H. inversion H. exists x, y, s. auto.
  - intros (x & y & rest & -> & Hx & Hy & ->).
    fold (is_hex x). rewrite Hx. fold (is_hex y). rewrite Hy. reflexivity.
Qed.

Lemma octets_here (n : nat) :
  forall (b : bool) (s : string) (p : bool * string),
  iterate n (match_here octet_colon) (b, s) = Some p
  <-> exists octets rest,
        length octets = n /\ Forall hex_octet octets
        /\ s = (octet_prefix octets ++ rest)%string
        /\ p = (match n with O => b | S _ => false end, rest).
Proof.
  induction n as [|n IH]; intros b s p; cbn [iterate].
  - split.
    + intros H. inversion H. exists [], s. auto.
    + intros (octets & rest & Hlen & _ & -> & ->).
      destruct octets; [reflexivity | discriminate].
  - split.
    + destruct (match_here octet_colon (b, s)) as [q|] eqn:Hq; [|discriminate].
      apply octet_colon_here in Hq. destruct Hq as (x & y & rest & -> & Hx & Hy & ->).
      intros H. apply IH in H. destruct H as (octets & rest' & Hlen & Hall & -> & ->).
      exists ((x, y) :: octets), rest'. simpl. rewrite Hlen.
      repeat split; auto.
      * constructor; [split; assumption | exact Hall].
      * destruct n; reflexivity.
    + intros (octets & rest & Hlen & Hall & -> & ->).
      destruct octets as [|[x y] octets]; [discriminate|].
      inversion Hall as [|? ? [Hx Hy] Hall']; subst. simpl in Hx, Hy.
      cbn [octet_prefix append].
      rewrite (proj2 (octet_colon_here b _ (false, (octet_prefix octets ++ rest)%string))).
      * apply IH. exists octets, rest. simpl in Hlen. inversion Hlen.
        repeat split; auto. destruct (length octets); reflexivity.
      * exists x, y, (octet_prefix octets ++ rest)%string. auto.
Qed.

Lemma colon_joined_last (octets : list (ascii * ascii)) (x y : ascii) :
  colon_joined (octets ++ [(x, y)])
  = (octet_prefix octets ++ String x (String y EmptyString))%string.
Proof.
  induction octets as [|[a b] octets IH]; [reflexivity|].
  cbn [app octet_prefix append]. rewrite <- IH.
  destruct (octets ++ [(x, y)]) as [|o r] eqn:He; [|reflexivity].
  destruct octets; discriminate.
Qed.

Lemma append_assoc (a b c : string) : ((a ++ b) ++ c = a ++ (b ++ c))%string.
Proof. induction a as [|x a IH]; simpl; [reflexivity | rewrite IH; reflexivity]. Qed.

Lemma two_hex_here (b : bool) (s : string) (p : bool * string) :
  iterate 2 (match_here hex_digit) (b, s) = Some p
  <-> exists x y rest, s = String x (String y rest)
                       /\ is_hex x = true /\ is_hex y = true /\ p = (false, rest).
Proof.
  unfold hex_digit. cbn [match_here iterate]. split.
  - destruct s as [|x s]; [discriminate|]. fold (is_hex x).
    destruct (is_hex x) eqn:Hx; [|discriminate].
    destruct s as [|y s]; [discriminate|]. fold (is_hex y).
    destruct (is_hex y) eqn:Hy; [|discriminate].
    intros H. inversion H. exists x, y, s. auto.
  - intros (x & y & rest & -> & Hx & Hy & ->).
    fold (is_hex x). rewrite Hx. fold (is_hex y). rewrite Hy. reflexivity.
Qed.

Lemma mac_re_here (s : string) :
  match_here mac_re (true, s)
  = match iterate 5 (match_here octet_colon) (true, s) with
    | Some q => match iterate 2 (match_here hex_digit) q with
                | Some r => match_here Eol r
                | None => None
                end
    | None => None
    end.
Proof.
  change (match_here mac_re (true, s))
    with (match iterate 5 (match_here octet_colon) (true, s) with
          | Some q => match_here (Seq (Times 2 hex_digit) Eol) q
          | None => None
          end).
  destruct (iterate 5 (match_here octet_colon) (true, s)) as [[b r]|]; reflexivity.
Qed.

(** X18. [mac_re] matches exactly the strings of six octets of two
    hexadecimal digits each, of either case, with colons between them, and
    these strings with one newline after them: [$] also matches before a
    newline that ends the string. *)
Theorem X18_mac_re_matches_six_octets (s : string) :
  re_match mac_re s = true
  <-> exists octets,
        length octets = 6 /\ Forall hex_octet octets
        /\ (s = colon_joined octets
            \/ s = (colon_joined octets ++ String newline EmptyString)%string).
Proof.
  unfold re_match. rewrite mac_re_here. split.
  - destruct (iterate 5 (match_here octet_colon) (true, s)) as [q|] eqn:Hq; [|discriminate].
    apply octets_here in Hq. destruct Hq as (octets & rest & Hlen & Hall & -> & ->).
    destruct (iterate 2 (match_here hex_digit) (false, rest)) as [r|] eqn:Hr; [|discriminate].
    apply two_hex_here in Hr. destruct Hr as (x & y & rest' & -> & Hx & Hy & ->).
    cbn [match_here]. intros H. exists (octets ++ [(x, y)]).
    split; [rewrite length_app, Hlen; reflexivity|].
    split; [apply Forall_app; split; [exact Hall | constructor; [split; assumption|constructor]]|].
    rewrite colon_joined_last.
    destruct rest' as [|c rest']; [left; reflexivity|].
    destruct rest' as [|c' rest']; [|discriminate].
    destruct (Ascii.eqb_spec c newline) as [->|]; [|discriminate].
    right. rewrite append_assoc. reflexivity.
  - intros (octets & Hlen & Hall & Hs).
    destruct (exists_last (l := octets)) as (init & [x y] & ->);
      [intros ->; discriminate|].
    rewrite colon_joined_last in Hs. apply Forall_app in Hall. destruct Hall as [Hinit Hlast].
    inversion Hlast as [|? ? [Hx Hy] _]; subst. simpl in Hx, Hy.
    rewrite length_app in Hlen. simpl in Hlen.
    assert (Hi : length init = 5) by lia.
    assert (Hrun : forall rest,
               iterate 5 (match_here octet_colon)
                       (true, (octet_prefix init ++ rest)%string) = Some (false, rest)).
    { intros rest. apply octets_here. exists init, rest. auto. }
    assert (Hhex : forall rest,
               iterate 2 (match_here hex_digit) (false, String x (String y rest))
               = Some (false, rest)).
    { intros rest. apply two_hex_here. exists x, y, rest. auto. }
    destruct Hs as [Hs|Hs]; rewrite Hs; clear Hs.
    + rewrite Hrun, Hhex. reflexivity.
    + rewrite append_assoc, Hrun. cbn [append]. rewrite Hhex. cbn [match_here].
      rewrite Ascii.eqb_refl. reflexivity.
Qed.

(** * Part XXI: more scenarios, run *)

Ltac well_keyed_concrete :=
  split;
  [ simpl; nodup_concrete
  | let row := fresh "row" in
    let H := fresh "H" in
    intros row H; simpl in H;
    repeat (destruct H as [H|H]; [subst row; simpl; lia|]); contradiction ].

Ltac rows_concrete :=
  let row := fresh "row" in
  let H := fresh "H" in
  intros row H; simpl in H;
  repeat (destruct H as [H|H];
          [subst row; vm_compute; try reflexivity; intros; try reflexivity; discriminate|]);
  contradiction.

Ltac settled_concrete :=
  unfold settled;
  split; [simpl; auto 10|]; split; [reflexivity|];
  split; [rows_concrete|]; split; [rows_concrete|];
  repeat split; try reflexivity; left; discriminate.

Ltac plain_physical_concrete :=
  split; [simpl; nodup_concrete|]; split; [simpl; nodup_concrete|];
  let name := fresh "name" in
  let cfg := fresh "cfg" in
  let H := fresh "H" in
  intros name cfg H; simpl in H;
  repeat (destruct H as [H|H]; [inversion H; subst; split; reflexivity|]); contradiction.

(** The machine now calls [eth1] the NIC that the region has as [eth0]:
    the region's [eth1], with another MAC address, goes, and the NIC is
    fetched. *)
Lemma X1_physical_interface_fetched_witness :
  let run := find_physical_interface node_a "eth1" moved_nic (state_of hinted_store) in
  well_keyed (db (snd run))
  /\ filter (physical_with_mac (config_mac_address moved_nic)) (interfaces (db (snd run)))
     = [nic_without_vlan]
  /\ filter (stale_for node_a "eth1" (config_mac_address moved_nic))
            (interfaces (db (snd run))) = []
  /\ (forall row, In row (interfaces (db (state_of hinted_store))) ->
        stale_for node_a "eth1" (config_mac_address moved_nic) row = false ->
        exists row', In row' (interfaces (db (snd run)))
                     /\ without_parents row' = without_parents row)
  /\ (false = true ->
      if_node_id nic_without_vlan = node_id node_a /\ if_name nic_without_vlan = "eth1"%string
      /\ if_enabled nic_without_vlan = config_enabled moved_nic
      /\ if_vlan_id nic_without_vlan = None).
Proof.
  intros run.
  apply (X1_physical_interface_fetched node_a "eth1" moved_nic (state_of hinted_store)
           (snd run) nic_without_vlan false).
  - well_keyed_concrete.
  - vm_compute. reflexivity.
Defined.

Lemma X3_physical_interface_settles_witness :
  let run := update_physical_interface node_a "eth1" moved_nic true None
               (state_of hinted_store) in
  let i := mkInterface 11 INTERFACE_TYPE.PHYSICAL "eth1" "52:54:00:00:00:01" 1 (Some 40)
             true true [] in
  well_keyed (db (snd run))
  /\ settled (db (snd run)) node_a "eth1" moved_nic i
  /\ (forall name' cfg' j,
        name' <> "eth1"%string ->
        config_mac_address cfg' <> config_mac_address moved_nic ->
        settled (db (state_of hinted_store)) node_a name' cfg' j ->
        exists j', settled (db (snd run)) node_a name' cfg' j' /\ if_id j' = if_id j)
  /\ nodes (db (snd run)) = nodes (db (state_of hinted_store)).
Proof.
  intros run i.
  apply (X3_physical_interface_settles node_a "eth1" moved_nic None (state_of hinted_store)
           (snd run) i).
  - well_keyed_concrete.
  - reflexivity.
  - vm_compute. reflexivity.
Defined.

Lemma X4_settled_interface_rewritten_witness :
  exists s',
    update_physical_interface node_a "eth0" moved_nic true None (state_of settled_store)
    = (Ok eth0_on_41, s')
    /\ db s' = db (state_of settled_store)
    /\ writes s' = writes (state_of settled_store) ++ [Update TInterface (if_id eth0_on_41)].
Proof.
  apply (X4_settled_interface_rewritten node_a "eth0" moved_nic None (state_of settled_store)
           eth0_on_41).
  - well_keyed_concrete.
  - reflexivity.
  - settled_concrete.
Defined.

(** The node that had a bond over its two NICs, and a VLAN on the bond,
    now reports the two NICs alone. *)
Lemma X5_pass_settles_the_node_witness :
  let run := update_node_interfaces node_a two_nics None true (state_of bonded_store) in
  well_keyed (db (snd run))
  /\ (forall name cfg, In (name, cfg) two_nics ->
        exists i, settled (db (snd run)) node_a name cfg i)
  /\ (forall row, In row (interfaces (db (snd run))) -> if_node_id row = node_id node_a ->
        exists name cfg, In (name, cfg) two_nics /\ settled (db (snd run)) node_a name cfg row).
Proof.
  intros run.
  apply (X5_pass_settles_the_node node_a two_nics None (state_of bonded_store) (snd run)).
  - well_keyed_concrete.
  - plain_physical_concrete.
  - vm_compute. reflexivity.
Defined.

Lemma X6_second_pass_changes_nothing_witness :
  let run := update_node_interfaces node_a two_nics None true (state_of bonded_store) in
  exists node1 s2 ws,
    find_id node_id (node_id node_a) (nodes (db (snd run))) = Some node1
    /\ update_node_interfaces node1 two_nics (Some []) true (snd run) = (Ok tt, s2)
    /\ db s2 = db (snd run)
    /\ writes s2 = writes (snd run) ++ ws
    /\ forallb is_update ws = true.
Proof.
  intros run.
  apply (X6_second_pass_changes_nothing node_a two_nics None (Some [])
           (state_of bonded_store) (snd run)).
  - well_keyed_concrete.
  - plain_physical_concrete.
  - vm_compute. reflexivity.
Defined.


(** The passes of the witness: the first deletes the VLAN interface and
    the bond, the second saves the two NICs and the node again. *)
Example two_nics_twice :
  let first := update_node_interfaces node_a two_nics None true (state_of bonded_store) in
  let second := update_node_interfaces node_a two_nics None true (state_of (db (snd first))) in
  fst first = Ok tt
  /\ writes (snd first)
     = [Update TInterface 10; Update TInterface 11;
        Delete TInterface 13; Delete TInterface 12; Update TNode 1]
  /\ fst second = Ok tt
  /\ db (snd second) = db (snd first)
  /\ writes (snd second) = [Update TInterface 10; Update TInterface 11; Update TNode 1].
Proof. repeat split; vm_compute; reflexivity. Qed.

(** Node B registers, without fabrics yet, the NIC that node A had: the
    NIC moves and its addresses go; no fabric, VLAN, subnet or node row is
    written. *)
Lemma X7_without_fabrics_nothing_is_created_witness :
  let run := update_node_interfaces node_b plain_interfaces None false
               (state_of mac_move_store) in
  fabrics (db (snd run)) = fabrics (db (state_of mac_move_store))
  /\ vlans (db (snd run)) = vlans (db (state_of mac_move_store))
  /\ subnets (db (snd run)) = subnets (db (state_of mac_move_store))
  /\ nodes (db (snd run)) = nodes (db (state_of mac_move_store))
  /\ (forall a, In a (addresses (db (snd run))) ->
        In a (addresses (db (state_of mac_move_store))))
  /\ (forall j k, linked (db (snd run)) j k = true ->
        linked (db (state_of mac_move_store)) j k = true).
Proof.
  intros run.
  apply (X7_without_fabrics_nothing_is_created node_b plain_interfaces None
           (state_of mac_move_store) (snd run) (fst run)).
  vm_compute. reflexivity.
Defined.

Lemma X8_without_fabrics_children_are_deferred_witness :
  snd (update_node_interfaces node_a lone_bridge None false (state_of empty_store))
  = state_of empty_store.
Proof.
  apply (X8_without_fabrics_children_are_deferred node_a lone_bridge None
           (state_of empty_store)
           (snd (update_node_interfaces node_a lone_bridge None false (state_of empty_store)))
           (fst (update_node_interfaces node_a lone_bridge None false (state_of empty_store)))).
  - intros n cfg H. simpl in H. destruct H as [H|[]]. inversion H. discriminate.
  - vm_compute. reflexivity.
Defined.

(** The hint of [eth0] names [eth1] as the related interface, without a
    MAC address; the node's first physical interface is found, whatever the
    name. *)
Lemma X10_related_interface_witness :
  let i := mkInterface 10 INTERFACE_TYPE.PHYSICAL "eth1" "52:54:00:00:00:02" 1 (Some 40)
             true true [] in
  In i (interfaces hinted_store)
  /\ (forall mac, @None string = Some mac -> if_mac_address i = mac)
  /\ (true = true -> if_node_id i = node_id node_a)
  /\ (is_type INTERFACE_TYPE.PHYSICAL i = true
      \/ (is_type INTERFACE_TYPE.BRIDGE i = true
          /\ option_string_is (Some "eth1"%string) (if_name i) = true))
  /\ (@None string = None ->
      is_type INTERFACE_TYPE.PHYSICAL i = true
      /\ forall other_ifname,
           find_related_interface hinted_store node_a true other_ifname None = Some i).
Proof.
  intros i.
  apply (X10_related_interface hinted_store node_a true (Some "eth1"%string) None i).
  vm_compute. reflexivity.
Defined.

(** A VLAN interface over the [eth0] that has no VLAN yet, with a link on
    a subnet that is on VLAN 45: the VLAN of the links is compared with the
    parent's, which is not there. *)
Lemma X12_vlan_interface_needs_its_parent_witness :
  (filter (fun i => (if_node_id i =? node_id node_a) && String.eqb (if_name i) "eth0")
          (interfaces (db (state_of bridge_store))) = [] ->
   update_vlan_interface node_a "eth0.5" vlan_on_eth0_with_link (state_of bridge_store)
   = (Raise (DoesNotExist "Interface"), state_of bridge_store))
  /\ (forall parent,
        filter (fun i => (if_node_id i =? node_id node_a) && String.eqb (if_name i) "eth0")
               (interfaces (db (state_of bridge_store))) = [parent] ->
        if_vlan_id parent = None ->
        update_vlan_interface node_a "eth0.5" vlan_on_eth0_with_link (state_of bridge_store)
        = (Raise (AttributeError "'NoneType' object has no attribute 'fabric_id'"),
           state_of bridge_store)).
Proof.
  apply (X12_vlan_interface_needs_its_parent node_a "eth0.5" vlan_on_eth0_with_link 5 "eth0" []
           (state_of bridge_store)); reflexivity.
Defined.

(** Without links the VLAN is looked for on the parent's fabric. *)
Example vlan_over_parent_without_vlan :
  update_vlan_interface node_a "eth0.5" vlan_on_eth0 (state_of hinted_store)
  = (Raise (AttributeError "'NoneType' object has no attribute 'fabric'"),
     state_of hinted_store)
  /\ update_vlan_interface node_a "eth0.5" vlan_on_eth0_with_link (state_of bridge_store)
     = (Raise (AttributeError "'NoneType' object has no attribute 'fabric_id'"),
        state_of bridge_store).
Proof. split; vm_compute; reflexivity. Qed.

Lemma X13_vlan_interface_on_the_parent_fabric_witness :
  let run := update_vlan_interface node_a "eth0.5" vlan_on_eth0 (state_of settled_store) in
  let i := mkInterface 101 INTERFACE_TYPE.VLAN "eth0.5" "52:54:00:00:00:01" 1 (Some 100)
             true true [10] in
  exists vid p rest parent pv v,
    config_vid vlan_on_eth0 = Some vid /\ config_parents vlan_on_eth0 = p :: rest
    /\ In parent (interfaces (db (state_of settled_store)))
    /\ if_node_id parent = node_id node_a /\ if_name parent = p
    /\ In pv (vlans (db (state_of settled_store))) /\ if_vlan_id parent = Some (vlan_id pv)
    /\ In v (vlans (db (snd run))) /\ vlan_vid v = vid
    /\ vlan_fabric_id v = vlan_fabric_id pv
    /\ In i (interfaces (db (snd run))) /\ if_vlan_id i = Some (vlan_id v)
    /\ is_type INTERFACE_TYPE.VLAN i = true /\ if_node_id i = node_id node_a
    /\ if_name i = "eth0.5"%string /\ In (if_id parent) (if_parents i).
Proof.
  intros run i.
  apply (X13_vlan_interface_on_the_parent_fabric node_a "eth0.5" vlan_on_eth0
           (state_of settled_store) (snd run) i).
  - reflexivity.
  - vm_compute. reflexivity.
Defined.

Lemma X14_bond_without_parents_is_skipped_witness :
  update_bond_interface node_a "bond0" bond0_config (state_of empty_store)
  = (Ok None, state_of empty_store)
  /\ (config_links bond0_config = [] ->
      forall r s',
      update_bridge_interface node_a "bond0" bond0_config (state_of empty_store) = (r, s') ->
      exists i,
        r = Ok (Some i)
        /\ In i (interfaces (db s'))
        /\ is_type INTERFACE_TYPE.BRIDGE i = true
        /\ if_node_id i = node_id node_a /\ if_name i = "bond0"%string
        /\ if_mac_address i = config_mac_address bond0_config /\ if_parents i = []
        /\ fabrics (db s') = fabrics (db (state_of empty_store))
        /\ vlans (db s') = vlans (db (state_of empty_store))).
Proof.
  apply (X14_bond_without_parents_is_skipped node_a "bond0" bond0_config
           (state_of empty_store)).
  reflexivity.
Defined.

(** The bond over [eth1] and [eth0] takes the VLAN of [eth0], the first of
    the two among the node's interfaces. *)
Lemma X15_child_takes_the_vlan_of_its_first_parent_witness :
  let run := update_child_interface node_a "bond0" bond0_config INTERFACE_TYPE.BOND
               (state_of settled_store) in
  exists i,
    Some (mkInterface 100 INTERFACE_TYPE.BOND "bond0" "52:54:00:00:00:01" 1 (Some 41)
            true true [10; 11]) = Some i
    /\ In i (interfaces (db (snd run)))
    /\ is_type INTERFACE_TYPE.BOND i = true
    /\ if_node_id i = node_id node_a /\ if_name i = "bond0"%string
    /\ if_parents i = map if_id [eth0_on_41; eth1_on_40]
    /\ if_vlan_id i = if_vlan_id eth0_on_41.
Proof.
  intros run.
  apply (X15_child_takes_the_vlan_of_its_first_parent node_a "bond0" bond0_config
           INTERFACE_TYPE.BOND eth0_on_41 [eth1_on_40] (state_of settled_store) (snd run)).
  - reflexivity.
  - reflexivity.
  - vm_compute. reflexivity.
Defined.

Lemma X16_a_vlan_is_always_guessed_witness :
  let run := guess_vlan_for_interface node_a moved_nic (state_of empty_store) in
  Some 100 <> None
  /\ interfaces (db (snd run)) = interfaces (db (state_of empty_store))
  /\ nodes (db (snd run)) = nodes (db (state_of empty_store))
  /\ links (db (snd run)) = links (db (state_of empty_store))
  /\ addresses (db (snd run)) = addresses (db (state_of empty_store))
  /\ (forall v,
        get_interface_vlan_from_links (db (state_of empty_store)) node_a
          (config_links moved_nic) = Some v ->
        Some 100 = Some (vlan_id v) /\ snd run = state_of empty_store).
Proof.
  intros run.
  apply (X16_a_vlan_is_always_guessed node_a moved_nic (state_of empty_store) (snd run)
           (Some 100)).
  vm_compute. reflexivity.
Defined.

Lemma X17_dhcp_link_without_address_witness :
  (forall a,
      ip_addresses_all (if_id eth0_on_40) (db (state_of dhcp_store)) = [a] ->
      sip_alloc_type a = IPADDRESS_TYPE.DHCP ->
      update_links node_a eth0_on_40 [dhcp_without_address] false true (state_of dhcp_store)
      = (Ok (eth0_on_40, [a]), state_of dhcp_store))
  /\ (ip_addresses_all (if_id eth0_on_40) (db (state_of dhcp_store)) = [] ->
      has_id sip_id (next_id (db (state_of dhcp_store)))
             (addresses (db (state_of dhcp_store))) = false ->
      linked (db (state_of dhcp_store)) (if_id eth0_on_40)
             (next_id (db (state_of dhcp_store))) = false ->
      let a := mkStaticIPAddress (next_id (db (state_of dhcp_store))) IPADDRESS_TYPE.DHCP
                 None None in
      exists s',
        update_links node_a eth0_on_40 [dhcp_without_address] false true (state_of dhcp_store)
        = (Ok (eth0_on_40, [a]), s')
        /\ addresses (db s') = addresses (db (state_of dhcp_store)) ++ [a]
        /\ links (db s') = links (db (state_of dhcp_store)) ++ [(if_id eth0_on_40, sip_id a)]
        /\ interfaces (db s') = interfaces (db (state_of dhcp_store))
        /\ writes s' = writes (state_of dhcp_store)
                       ++ [Insert TStaticIPAddress (sip_id a);
                           Update TStaticIPAddress (sip_id a);
                           Link (if_id eth0_on_40) (sip_id a)]).
Proof.
  apply (X17_dhcp_link_without_address node_a eth0_on_40 40 false dhcp_without_address
           (state_of dhcp_store)); reflexivity.
Defined.

Example dhcp_placeholder_kept :
  update_links node_a eth0_on_40 [dhcp_without_address] false true (state_of dhcp_store)
  = (Ok (eth0_on_40, [mkStaticIPAddress 20 IPADDRESS_TYPE.DHCP None None]),
     state_of dhcp_store).
Proof. vm_compute. reflexivity. Qed.

(** [mac_re] on a MAC address, on one with a newline after it, on one with
    two, and on one with dashes. *)
Example mac_re_examples :
  re_match mac_re "00:1a:2B:3c:4D:5e" = true
  /\ re_match mac_re ("00:1a:2B:3c:4D:5e" ++ String newline EmptyString) = true
  /\ re_match mac_re ("00:1a:2B:3c:4D:5e" ++ String newline (String newline EmptyString)) = false
  /\ re_match mac_re "00-1a-2B-3c-4D-5e" = false
  /\ re_match mac_re "00:1a:2B:3c:4D:5g" = false.
Proof. vm_compute. repeat split. Qed.
